(** * silly-side-quests: the persistence pattern of the journaling tools

    A shallow embedding of the Python sources
    [commit_your_day.py], [pebbles.py], [capsule.py], [memory_jar.py] and
    [buddy.py]: the atomic JSON writer, backup rotation, the loader with
    fallback, the record model, the aggregation helpers and the weighted
    action choice.

    Python [str] and [bytes] are both Rocq [string]s (a text is held as its
    UTF-8 bytes); Python [int] is [Z]; a float is a [spec_float] at
    binary64.  The interpreter's effects are explicit: a computation is a
    function of the [World] (files, the failures the run will meet, the
    clock) and ends normally, by a raised exception, or killed.

    Three things of the interpreter stay outside the definitions and are
    named as hypotheses where a theorem depends on them: whitespace and
    letter case beyond ASCII ([Strings.is_ascii], [Strings.ascii_ends]),
    the recursion and digit limits of the JSON reader
    ([Py.json_within_limits]), and text that cannot be encoded as UTF-8,
    whose write raises [UnicodeEncodeError] ([Py.utf8_valid]). *)

From Stdlib Require Import ZArith List String Ascii Bool Lia.
From Stdlib Require Import Floats.SpecFloat.
From stdpp Require Import gmap strings pretty.
Import ListNotations.
Open Scope Z_scope.
Set Warnings "-register-all".
Arguments String.append !s1 s2 : simpl nomatch.

(** ** Calendar dates ([datetime.date]) *)

Module Calendar.

Record date := { year : Z; month : Z; day : Z }.

#[global] Instance date_eq_dec : EqDecision date.
Proof. solve_decision. Defined.

Definition is_leap (y : Z) : bool :=
  ((y mod 4 =? 0) && (negb (y mod 100 =? 0) || (y mod 400 =? 0)))%bool.

Definition days_in_month (y m : Z) : Z :=
  match m with
  | 2 => if is_leap y then 29 else 28
  | 4 | 6 | 9 | 11 => 30
  | _ => 31
  end.

(** [MINYEAR <= year <= MAXYEAR], a month of the year, a day of the month. *)
Definition valid_date (d : date) : bool :=
  ((1 <=? year d) && (year d <=? 9999) && (1 <=? month d) && (month d <=? 12)
   && (1 <=? day d) && (day d <=? days_in_month (year d) (month d)))%bool.

Definition days_before_year (y : Z) : Z :=
  let y' := y - 1 in y' * 365 + y' / 4 - y' / 100 + y' / 400.

Definition days_before_month (y m : Z) : Z :=
  match m with
  | 1 => 0 | 2 => 31 | 3 => 59 | 4 => 90 | 5 => 120 | 6 => 151 | 7 => 181
  | 8 => 212 | 9 => 243 | 10 => 273 | 11 => 304 | _ => 334
  end + (if (2 <? m) && is_leap y then 1 else 0)%bool.

(** [d.toordinal()]: the day number, 1 for 0001-01-01. *)
Definition toordinal (d : date) : Z :=
  days_before_year (year d) + days_before_month (year d) (month d) + day d.

(** [(a - b).days] *)
Definition days_between (a b : date) : Z := toordinal a - toordinal b.

(** [d - timedelta(days=1)]: the day before, [None] (an [OverflowError])
    before [date.min]. *)
Definition day_before (d : date) : option date :=
  if 1 <? day d then Some {| year := year d; month := month d; day := day d - 1 |}
  else if 1 <? month d then
    Some {| year := year d; month := month d - 1;
            day := days_in_month (year d) (month d - 1) |}
  else if 1 <? year d then Some {| year := year d - 1; month := 12; day := 31 |}
  else None.

Definition digit (n : Z) : ascii := ascii_of_N (Z.to_N (48 + n)).

Definition pad2 (n : Z) : string :=
  String (digit (n / 10)) (String (digit (n mod 10)) EmptyString).

(** [d.isoformat()]: ["%04d-%02d-%02d"] *)
Definition isoformat (d : date) : string :=
  pad2 (year d / 100) +:+ pad2 (year d mod 100) +:+ "-" +:+ pad2 (month d)
  +:+ "-" +:+ pad2 (day d).

Definition digit_val (c : ascii) : option Z :=
  let n := Z.of_N (N_of_ascii c) in
  if (48 <=? n) && (n <=? 57) then Some (n - 48) else None.

(** The directives of [datetime.strptime] as its regular expressions read
    them on ASCII text.  [%Y]: four digits. *)
Definition parse_Y (s : string) : option (Z * string) :=
  match s with
  | String a (String b (String c (String d rest))) =>
      match digit_val a, digit_val b, digit_val c, digit_val d with
      | Some a, Some b, Some c, Some d =>
          Some (1000 * a + 100 * b + 10 * c + d, rest)
      | _, _, _, _ => None
      end
  | _ => None
  end.

(** [%m]: [1[0-2]|0[1-9]|[1-9]] *)
Definition parse_m (s : string) : option (Z * string) :=
  match s with
  | String a rest =>
      match digit_val a with
      | None => None
      | Some x =>
          let one := if 1 <=? x then Some (x, rest) else None in
          match rest with
          | String b rest' =>
              match digit_val b with
              | Some y =>
                  if (x =? 1) && (y <=? 2) then Some (10 + y, rest')
                  else if (x =? 0) && (1 <=? y) then Some (y, rest')
                  else one
              | None => one
              end
          | EmptyString => one
          end
      end
  | EmptyString => None
  end.

(** [%d]: [3[0-1]|[1-2]\d|0[1-9]|[1-9]| [1-9]] *)
Definition parse_d (s : string) : option (Z * string) :=
  match s with
  | String a rest =>
      match digit_val a with
      | Some x =>
          let one := if 1 <=? x then Some (x, rest) else None in
          match rest with
          | String b rest' =>
              match digit_val b with
              | Some y =>
                  if (x =? 3) && (y <=? 1) then Some (30 + y, rest')
                  else if (1 <=? x) && (x <=? 2) then Some (10 * x + y, rest')
                  else if (x =? 0) && (1 <=? y) then Some (y, rest')
                  else one
              | None => one
              end
          | EmptyString => one
          end
      | None =>
          match rest with
          | String b rest' =>
              match digit_val b with
              | Some y =>
                  if (N_of_ascii a =? 32)%N && (1 <=? y) then Some (y, rest') else None
              | None => None
              end
          | EmptyString => None
          end
      end
  | EmptyString => None
  end.

Definition expect_dash (s : string) : option string :=
  match s with
  | String c rest => if (N_of_ascii c =? 45)%N then Some rest else None
  | EmptyString => None
  end.

(** [datetime.strptime(s, "%Y-%m-%d").date()]; [None] is its [ValueError]
    (no match, unconverted data, or a day that is not in the calendar). *)
Definition strptime (s : string) : option date :=
  match parse_Y s with
  | None => None
  | Some (y, s1) =>
  match expect_dash s1 with
  | None => None
  | Some s2 =>
  match parse_m s2 with
  | None => None
  | Some (m, s3) =>
  match expect_dash s3 with
  | None => None
  | Some s4 =>
  match parse_d s4 with
  | Some (d, EmptyString) =>
      let r := {| year := y; month := m; day := d |} in
      if valid_date r then Some r else None
  | _ => None
  end end end end end.

End Calendar.

(** ** The Python runtime *)

Module Py.

(** The exception classes the sources raise or catch, with their place in
    Python's hierarchy. *)
Inductive exc_class :=
| BaseException | Exception
| OSError | FileExistsError | FileNotFoundError
| ValueError | JSONDecodeError | UnicodeDecodeError
| OverflowError | ZeroDivisionError
| KeyError | IndexError | TypeError | AttributeError | EOFError
| KeyboardInterrupt | SystemExitClass.

#[global] Instance exc_class_eq_dec : EqDecision exc_class.
Proof. solve_decision. Defined.

Definition base_class (c : exc_class) : option exc_class :=
  match c with
  | BaseException => None
  | Exception | KeyboardInterrupt | SystemExitClass => Some BaseException
  | FileExistsError | FileNotFoundError => Some OSError
  | JSONDecodeError | UnicodeDecodeError => Some ValueError
  | OSError | ValueError | OverflowError | ZeroDivisionError
  | KeyError | IndexError | TypeError | AttributeError | EOFError => Some Exception
  end.

(** [issubclass c d], by climbing the (depth three) hierarchy. *)
Fixpoint issubclass_fuel (fuel : nat) (c d : exc_class) : bool :=
  if bool_decide (c = d) then true
  else match fuel, base_class c with
       | S k, Some b => issubclass_fuel k b d
       | _, _ => false
       end.

Definition issubclass : exc_class -> exc_class -> bool := issubclass_fuel 4.

(** A raised exception: an instance of a class, or [SystemExit(code)]. *)
Inductive exn :=
| Error (c : exc_class)
| SystemExit (code : Z).

#[global] Instance exn_eq_dec : EqDecision exn.
Proof. solve_decision. Defined.

Definition class_of (e : exn) : exc_class :=
  match e with Error c => c | SystemExit _ => SystemExitClass end.

(** [except (c1, c2, ...)]: does the clause catch [e]? *)
Definition catches (clause : list exc_class) (e : exn) : bool :=
  existsb (issubclass (class_of e)) clause.

(** How a computation ends.  [Killed]: the process was killed (SIGKILL, power
    loss); no handler and no [finally] block runs after that. *)
Inductive Outcome (A : Type) :=
| Ok (a : A)
| Raise (e : exn)
| Killed.
Arguments Ok {A} a.
Arguments Raise {A} e.
Arguments Killed {A}.

(** ** Paths and the file system *)

(** A [pathlib.Path], as its directory and final component. *)
Record Path := { parent : string; name : string }.

#[global] Instance Path_eq_dec : EqDecision Path.
Proof. solve_decision. Defined.

#[global] Instance Path_countable : Countable Path.
Proof.
  refine (inj_countable' (fun p => (parent p, name p))
            (fun q => {| parent := q.1; name := q.2 |}) _).
  intros []; reflexivity.
Defined.

(** What goes wrong in a run: an exception raised by an I/O step (an
    [OSError] for a full disk, a [KeyboardInterrupt]), or the process
    killed there.  [FaultRaiseThen e n next]: the exception [e], and a
    further failure [next] at the [n]-th I/O step after it, which the
    handlers of the run meet. *)
Inductive Fault :=
| FaultRaise (e : exn)
| FaultKill
| FaultRaiseThen (e : exn) (n : nat) (next : Fault).

(** What the process reads off its host: the UTC time as
    [datetime.now(tz=timezone.utc).isoformat()] gives it, the local date
    [date.today()], and the identifier [uuid.uuid4()] hands out. *)
Record Env := {
  now_utc : string;
  today : Calendar.date;
  uuid4 : string;
}.

(** The world outside the interpreter.  [fault = Some (n, f)]: the run meets
    the failure [f] at its [n]-th I/O step from now, and after it the
    failures [f] goes on with; [None]: no (further) failure.  [tmp_names]
    are the names [tempfile] will draw, [stdin] the lines left on standard
    input. *)
Record World := {
  files : gmap Path string;
  fault : option (nat * Fault);
  tmp_names : list string;
  stdin : list string;
  env : Env;
}.

Definition set_files (f : gmap Path string -> gmap Path string) (w : World) : World :=
  {| files := f (files w); fault := fault w;
     tmp_names := tmp_names w; stdin := stdin w; env := env w |}.

Definition set_fault (o : option (nat * Fault)) (w : World) : World :=
  {| files := files w; fault := o;
     tmp_names := tmp_names w; stdin := stdin w; env := env w |}.

Definition set_tmp_names (l : list string) (w : World) : World :=
  {| files := files w; fault := fault w;
     tmp_names := l; stdin := stdin w; env := env w |}.

(** A world in which nothing fails. *)
Definition calm (fs : gmap Path string) (names : list string) (e : Env) : World :=
  {| files := fs; fault := None; tmp_names := names; stdin := []; env := e |}.

(** ** Computations *)

Definition M (A : Type) : Type := World -> Outcome A * World.

Definition ret {A} (a : A) : M A := fun w => (Ok a, w).

Definition raise {A} (e : exn) : M A := fun w => (Raise e, w).

Definition bind {A B} (m : M A) (k : A -> M B) : M B :=
  fun w =>
    match m w with
    | (Ok a, w') => k a w'
    | (Raise e, w') => (Raise e, w')
    | (Killed, w') => (Killed, w')
    end.

Declare Scope py_scope.
Delimit Scope py_scope with py.
Notation "x <- m ;; k" := (bind m (fun x => k))
  (at level 100, m at next level, right associativity) : py_scope.
Notation "m ;; k" := (bind m (fun _ => k))
  (at level 100, right associativity) : py_scope.
Open Scope py_scope.

(** [try: body except clause: handler].  A kill is not an exception. *)
Definition try_except {A} (body : M A) (clause : list exc_class)
    (handler : exn -> M A) : M A :=
  fun w =>
    match body w with
    | (Raise e, w') => if catches clause e then handler e w' else (Raise e, w')
    | r => r
    end.

(** [try: body finally: cleanup], where [cleanup] is given whether the body
    ran to its end (the [succeeded] flag of the sources). *)
Definition try_finally {A} (body : M A) (cleanup : bool -> M unit) : M A :=
  fun w =>
    match body w with
    | (Ok a, w') => (a' <- cleanup true ;; ret a) w'
    | (Raise e, w') => (cleanup false ;; raise e) w'
    | (Killed, w') => (Killed, w')
    end.

(** [with contextlib.suppress(c): body]. *)
Definition suppress (c : exc_class) (body : M unit) : M unit :=
  try_except body [c] (fun _ => ret tt).

(** One I/O step: where the failure that is due, if there is one,
    strikes. *)
Definition tick : M unit :=
  fun w =>
    match fault w with
    | None => (Ok tt, w)
    | Some (O, FaultRaise e) => (Raise e, set_fault None w)
    | Some (O, FaultKill) => (Killed, set_fault None w)
    | Some (O, FaultRaiseThen e n next) => (Raise e, set_fault (Some (n, next)) w)
    | Some (S n, f) => (Ok tt, set_fault (Some (n, f)) w)
    end.

Definition get_files : M (gmap Path string) := fun w => (Ok (files w), w).

Definition modify_files (f : gmap Path string -> gmap Path string) : M unit :=
  fun w => (Ok tt, set_files f w).

Definition lift {A} (r : exn + A) : M A :=
  match r with inl e => raise e | inr a => ret a end.

(** *** File operations *)

(** [Path.exists()] / [os.path.exists]. *)
Definition exists_ (p : Path) : M bool :=
  fs <- get_files ;; ret (bool_decide (is_Some (fs !! p))).

(** Appending [data] to an open file reaches the disk byte by byte: a
    failure part-way leaves a prefix.  [data] is text that can be encoded
    as UTF-8 ([utf8_valid]); the [UnicodeEncodeError] of a text with a lone
    surrogate is not modelled. *)
Fixpoint write_bytes (p : Path) (data : string) : M unit :=
  match data with
  | EmptyString => ret tt
  | String c rest =>
      tick ;;
      modify_files (fun fs => <[p := default EmptyString (fs !! p) +:+ String c EmptyString]> fs) ;;
      write_bytes p rest
  end.

(** [open(p, "w")]: creates or truncates. *)
Definition open_truncate (p : Path) : M unit :=
  tick ;; modify_files (fun fs => <[p := EmptyString]> fs).

(** [os.replace(src, dst)] / [Path.replace] / [os.rename]: atomic. *)
Definition replace (src dst : Path) : M unit :=
  tick ;;
  fs <- get_files ;;
  match fs !! src with
  | None => raise (Error FileNotFoundError)
  | Some c => modify_files (fun fs => <[dst := c]> (delete src fs))
  end.

(** [os.unlink(p)]; with [missing_ok] a missing file is no error. *)
Definition unlink (missing_ok : bool) (p : Path) : M unit :=
  tick ;;
  fs <- get_files ;;
  match fs !! p with
  | None => if missing_ok then ret tt else raise (Error FileNotFoundError)
  | Some _ => modify_files (delete p)
  end.

(** [tempfile.mkstemp(dir=dir, suffix=suffix)]: the first drawn name that
    does not exist yet is created, empty ([O_CREAT | O_EXCL]); when the
    draws run out, [FileExistsError]. *)
Fixpoint first_free (fs : gmap Path string) (dir suffix : string)
    (names : list string) : option (Path * list string) :=
  match names with
  | [] => None
  | n :: rest =>
      let p := {| parent := dir; name := "tmp" +:+ n +:+ suffix |} in
      match fs !! p with
      | None => Some (p, rest)
      | Some _ => first_free fs dir suffix rest
      end
  end.

Definition mkstemp (dir suffix : string) : M Path :=
  tick ;;
  fun w =>
    match first_free (files w) dir suffix (tmp_names w) with
    | None => (Raise (Error FileExistsError), set_tmp_names [] w)
    | Some (p, rest) =>
        (Ok p, set_tmp_names rest (set_files (fun fs => <[p := EmptyString]> fs) w))
    end.

(** [with os.fdopen(fd, "w", encoding="utf-8") as f: f.write(data);
    f.flush(); os.fsync(f.fileno())], then the file is closed. *)
Definition write_flush_fsync (p : Path) (data : string) : M unit :=
  tick ;;               (* os.fdopen *)
  write_bytes p data ;; (* f.write, f.flush *)
  tick ;;               (* os.fsync *)
  tick.                 (* close *)

(** [Path.read_text(encoding="utf-8")]: a missing file is an [OSError], bytes
    that are not UTF-8 a [UnicodeDecodeError] (a [ValueError]). *)
Fixpoint utf8_scan (pending : nat) (lo hi : N) (s : string) : bool :=
  match s with
  | EmptyString => bool_decide (pending = O)
  | String c rest =>
      let b := N_of_ascii c in
      let within (l h : N) := (N.leb l b && N.leb b h)%bool in
      match pending with
      | S k => if within lo hi then utf8_scan k 128 191 rest else false
      | O =>
          if N.ltb b 128 then utf8_scan 0 128 191 rest
          else if within 194 223 then utf8_scan 1 128 191 rest
          else if within 224 224 then utf8_scan 2 160 191 rest
          else if within 237 237 then utf8_scan 2 128 159 rest
          else if within 225 239 then utf8_scan 2 128 191 rest
          else if within 240 240 then utf8_scan 3 144 191 rest
          else if within 241 243 then utf8_scan 3 128 191 rest
          else if within 244 244 then utf8_scan 3 128 143 rest
          else false
      end%N
  end.

Definition utf8_valid (bytes : string) : bool := utf8_scan 0 128 191 bytes.

Definition read_text (p : Path) : M string :=
  tick ;;
  fs <- get_files ;;
  match fs !! p with
  | None => raise (Error FileNotFoundError)
  | Some bytes =>
      if utf8_valid bytes then ret bytes else raise (Error UnicodeDecodeError)
  end.

(** [shutil.copy2(src, dst)]: reads [src], then creates or truncates [dst]
    and fills it; not atomic. *)
Definition copy2 (src dst : Path) : M unit :=
  tick ;;
  fs <- get_files ;;
  match fs !! src with
  | None => raise (Error FileNotFoundError)
  | Some bytes => open_truncate dst ;; write_bytes dst bytes ;; tick
  end.

(** [shutil.move(src, dst)] within one directory: a rename. *)
Definition move (src dst : Path) : M unit := replace src dst.

(** [Path.mkdir(parents=True, exist_ok=True)]: directories are not part of
    [files]; the step can still fail. *)
Definition mkdir_p (dir : string) : M unit := tick.

(** ** JSON values and the builtins applied to them *)

(** What [json.loads] returns: [None], [bool], [int], [float], [str],
    [list], and [dict] with its keys in insertion order. *)
Inductive json :=
| JNull
| JBool (b : bool)
| JInt (z : Z)
| JFloat (f : spec_float)
| JStr (s : string)
| JList (l : list json)
| JDict (d : list (string * json)).

Fixpoint dict_lookup (k : string) (d : list (string * json)) : option json :=
  match d with
  | [] => None
  | (k', v) :: rest => if String.eqb k k' then Some v else dict_lookup k rest
  end.

(** [d.get(k, dflt)] *)
Definition dict_get (d : list (string * json)) (k : string) (dflt : json) : json :=
  default dflt (dict_lookup k d).

(** The library functions the sources call and this development leaves
    open: the [json] codec with the options every call site passes
    ([indent=2, ensure_ascii=False]), and [str()] of a value that is not a
    string (Python's [repr] of numbers and containers).  [json_loads]
    answers [None] where [json.loads] raises [JSONDecodeError]. *)
Class PyLib := {
  json_loads : string -> option json;
  json_dumps : json -> string;
  repr : json -> string;
}.

(** The interpreter's limits that [json.loads] can run into: arrays and
    objects nested deeper than the recursion limit leaves room for end in
    [RecursionError], an integer of more than 4300 digits in [ValueError].
    [json_loads] stands for [json.loads] on the texts within them, and
    [json_within_limits] is a test that suffices: outside its strings the
    text never has more than [JSON_DEPTH] brackets open, and no run of
    more than 4300 digits. *)
Definition JSON_DEPTH : nat := 100.
Definition JSON_DIGITS : nat := 4300.

Fixpoint json_scan (in_string escaped : bool) (depth run : nat) (s : string) : bool :=
  match s with
  | EmptyString => true
  | String c rest =>
      let n := N_of_ascii c in
      if in_string then
        if escaped then json_scan true false depth O rest
        else if (n =? 92)%N then json_scan true true depth O rest
        else if (n =? 34)%N then json_scan false false depth O rest
        else json_scan true false depth O rest
      else if (n =? 34)%N then json_scan true false depth O rest
      else if ((n =? 91) || (n =? 123))%N then
        (S depth <=? JSON_DEPTH)%nat && json_scan false false (S depth) O rest
      else if ((n =? 93) || (n =? 125))%N then json_scan false false (pred depth) O rest
      else if ((48 <=? n) && (n <=? 57))%N then
        (S run <=? JSON_DIGITS)%nat && json_scan false false depth (S run) rest
      else json_scan false false depth O rest
  end.

Definition json_within_limits (text : string) : bool := json_scan false false O O text.

(** [str(v)] *)
Definition str `{PyLib} (v : json) : string :=
  match v with JStr s => s | _ => repr v end.

(** [int(x)] for a float: truncation toward zero; [ValueError] for NaN,
    [OverflowError] for an infinity. *)
Definition int_of_float (f : spec_float) : exn + Z :=
  match f with
  | S754_nan => inl (Error ValueError)
  | S754_infinity _ => inl (Error OverflowError)
  | S754_zero _ => inr 0
  | S754_finite s m e =>
      let a := Z.shiftl (Z.pos m) e in inr (if s then - a else a)
  end.

(** [int(v) if isinstance(v, (int, float)) else dflt]; [bool] is a subclass
    of [int]. *)
Definition int_or_default (v : json) (dflt : Z) : exn + Z :=
  match v with
  | JInt z => inr z
  | JBool b => inr (if b then 1 else 0)
  | JFloat f => int_of_float f
  | _ => inr dflt
  end.

(** [max(lo, min(hi, x))] *)
Definition clamp (lo hi x : Z) : Z := Z.max lo (Z.min hi x).

(** [str.strip()]: whitespace is taken to be ASCII's (tab to carriage
    return, the separators 28 to 31, the space). *)
Definition isspace (c : ascii) : bool :=
  let n := N_of_ascii c in
  ((N.leb 9 n && N.leb n 13) || (N.leb 28 n && N.leb n 32))%bool.

Fixpoint lstrip (s : string) : string :=
  match s with
  | String c rest => if isspace c then lstrip rest else s
  | EmptyString => EmptyString
  end.

Fixpoint rstrip (s : string) : string :=
  match s with
  | EmptyString => EmptyString
  | String c rest =>
      match rstrip rest with
      | EmptyString => if isspace c then EmptyString else String c EmptyString
      | r => String c r
      end
  end.

Definition strip (s : string) : string := rstrip (lstrip s).

(** [s.strip(chars)] *)
Definition in_chars (chars : string) (c : ascii) : bool :=
  existsb (Ascii.eqb c) (list_ascii_of_string chars).

Fixpoint lstrip_chars (chars s : string) : string :=
  match s with
  | String c rest => if in_chars chars c then lstrip_chars chars rest else s
  | EmptyString => EmptyString
  end.

Fixpoint rstrip_chars (chars s : string) : string :=
  match s with
  | EmptyString => EmptyString
  | String c rest =>
      match rstrip_chars chars rest with
      | EmptyString => if in_chars chars c then EmptyString else String c EmptyString
      | r => String c r
      end
  end.

Definition strip_chars (chars s : string) : string :=
  rstrip_chars chars (lstrip_chars chars s).

(** [s.lower()], on ASCII letters. *)
Definition lower_ascii (c : ascii) : ascii :=
  let n := N_of_ascii c in
  if (N.leb 65 n && N.leb n 90)%bool then ascii_of_N (n + 32) else c.

Fixpoint lower (s : string) : string :=
  match s with
  | EmptyString => EmptyString
  | String c rest => String (lower_ascii c) (lower rest)
  end.

(** [s.split()]: the maximal runs without whitespace.  [word] is the run
    being read, reversed. *)
Fixpoint split_ws (word : list ascii) (s : string) : list string :=
  let flush (k : list string) :=
    match word with [] => k | _ => string_of_list_ascii (rev word) :: k end in
  match s with
  | EmptyString => flush []
  | String c rest =>
      if isspace c then flush (split_ws [] rest) else split_ws (c :: word) rest
  end.

Definition split (s : string) : list string := split_ws [] s.

(** [s.split(sep)] for a one-character separator: empty fields are kept. *)
Fixpoint split_on_go (sep : ascii) (field : list ascii) (s : string) : list string :=
  match s with
  | EmptyString => [string_of_list_ascii (rev field)]
  | String c rest =>
      if Ascii.eqb c sep then string_of_list_ascii (rev field) :: split_on_go sep [] rest
      else split_on_go sep (c :: field) rest
  end.

Definition split_on (sep : ascii) (s : string) : list string := split_on_go sep [] s.

(** [int(s)] for a string of ASCII characters: optional whitespace (C's:
    tab to carriage return, and the space) around an optional sign and
    decimal digits, single underscores allowed between digits; [None] is
    its [ValueError], which a text of more than 4300 digits raises too. *)
Fixpoint digits_value (acc : Z) (after_digit : bool) (s : string) : option Z :=
  match s with
  | EmptyString => if after_digit then Some acc else None
  | String c rest =>
      match Calendar.digit_val c with
      | Some d => digits_value (10 * acc + d) true rest
      | None =>
          if (Ascii.eqb c "_" && after_digit)%bool then
            match rest with
            | EmptyString => None
            | _ => digits_value acc false rest
            end
          else None
      end
  end.

Definition C_WHITESPACE : string :=
  string_of_list_ascii (map ascii_of_nat [9; 10; 11; 12; 13; 32]%nat).

Definition MAX_STR_DIGITS : nat := 4300.

Fixpoint digit_count (s : string) : nat :=
  match s with
  | EmptyString => O
  | String c rest =>
      (match Calendar.digit_val c with Some _ => 1 | None => 0 end + digit_count rest)%nat
  end.

Definition int_of_str (s : string) : option Z :=
  let body := strip_chars C_WHITESPACE s in
  if (MAX_STR_DIGITS <? digit_count body)%nat then None
  else
    match body with
    | String "-" rest => option_map Z.opp (digits_value 0 false rest)
    | String "+" rest => digits_value 0 false rest
    | _ => digits_value 0 false body
    end.

(** [input(prompt)]: the next line of standard input, [EOFError] at its end
    (the prompt goes to the terminal and is not kept). *)
Definition input : M string :=
  fun w =>
    match stdin w with
    | [] => (Raise (Error EOFError), w)
    | line :: rest =>
        (Ok line, {| files := files w; fault := fault w; tmp_names := tmp_names w;
                     stdin := rest; env := env w |})
    end.

(** [Path.write_text(data)] / [with open(p, "w") as f: f.write(data)]: the
    file is truncated in place and then filled. *)
Definition write_text (p : Path) (data : string) : M unit :=
  open_truncate p ;; write_bytes p data ;; tick.

(** [for x in l: body(x)] *)
Fixpoint for_each {A} (l : list A) (body : A -> M unit) : M unit :=
  match l with
  | [] => ret tt
  | x :: rest => body x ;; for_each rest body
  end.

(** [datetime.now(tz=timezone.utc).isoformat()] *)
Definition now_utc_isoformat : M string := fun w => (Ok (now_utc (env w)), w).

(** [date.today()] *)
Definition date_today : M Calendar.date := fun w => (Ok (today (env w)), w).

(** [str(uuid.uuid4())] *)
Definition new_uuid : M string := fun w => (Ok (uuid4 (env w)), w).

End Py.

(** ** commit_your_day.py *)

Module CommitYourDay.
Import Py.

Definition STORAGE_DIR : string := "~/.commit_your_day".
Definition STORAGE_FILE : Path :=
  {| parent := STORAGE_DIR; name := "life_commits.json" |}.
Definition SCHEMA_VERSION : string := "1.0".
Definition BACKUP_SUFFIX : string := ".bak".
Definition MAX_BACKUPS : nat := 3.

Definition MOOD_MIN : Z := -2.
Definition MOOD_MAX : Z := 2.
Definition MOOD_DEFAULT : Z := 0.
Definition ENERGY_MIN : Z := 1.
Definition ENERGY_MAX : Z := 5.
Definition ENERGY_DEFAULT : Z := 3.

(** *** Domain models *)

Record LifeCommit := {
  commit_id : string;
  timestamp : string;
  commit_date : string;
  commit_type : string;
  message : string;
  scope : string;
  details : string;
  tags : list string;
  mood_score : Z;
  energy_score : Z;
}.

Record CommitStore := {
  version : string;
  created_at : string;
  commits : list LifeCommit;
}.

Section WithLib.
Context `{PyLib}.

Definition LifeCommit_to_dict (c : LifeCommit) : json :=
  JDict [ ("id", JStr (commit_id c));
          ("timestamp", JStr (timestamp c));
          ("date", JStr (commit_date c));
          ("type", JStr (commit_type c));
          ("scope", JStr (scope c));
          ("message", JStr (message c));
          ("details", JStr (details c));
          ("tags", JList (map JStr (tags c)));
          ("mood_score", JInt (mood_score c));
          ("energy_score", JInt (energy_score c)) ].

Definition LifeCommit_from_dict (data : list (string * json)) : exn + LifeCommit :=
  let tags_raw := dict_get data "tags" (JList []) in
  let tags := match tags_raw with JList l => map str l | _ => [] end in
  match int_or_default (dict_get data "mood_score" (JInt MOOD_DEFAULT)) MOOD_DEFAULT with
  | inl e => inl e
  | inr mood =>
      match int_or_default (dict_get data "energy_score" (JInt ENERGY_DEFAULT)) ENERGY_DEFAULT with
      | inl e => inl e
      | inr energy =>
          inr {| commit_id := str (dict_get data "id" (JStr ""));
                 timestamp := str (dict_get data "timestamp" (JStr ""));
                 commit_date := str (dict_get data "date" (JStr ""));
                 commit_type := str (dict_get data "type" (JStr "feat"));
                 scope := str (dict_get data "scope" (JStr "life"));
                 message := str (dict_get data "message" (JStr ""));
                 details := str (dict_get data "details" (JStr ""));
                 tags := tags;
                 mood_score := mood;
                 energy_score := energy |}
      end
  end.

Definition CommitStore_to_dict (s : CommitStore) : json :=
  JDict [ ("version", JStr (version s));
          ("created_at", JStr (created_at s));
          ("commits", JList (map LifeCommit_to_dict (commits s))) ].

(** [[LifeCommit.from_dict(entry) for entry in commits_raw
      if isinstance(entry, dict)]] *)
Fixpoint commits_from_list (commits_raw : list json) : exn + list LifeCommit :=
  match commits_raw with
  | [] => inr []
  | JDict entry :: rest =>
      match LifeCommit_from_dict entry with
      | inl e => inl e
      | inr c =>
          match commits_from_list rest with
          | inl e => inl e
          | inr cs => inr (c :: cs)
          end
      end
  | _ :: rest => commits_from_list rest
  end.

Definition CommitStore_from_dict (data : list (string * json)) : exn + CommitStore :=
  let commits_raw := dict_get data "commits" (JList []) in
  match (match commits_raw with JList l => commits_from_list l | _ => inr [] end) with
  | inl e => inl e
  | inr commits =>
      inr {| version := str (dict_get data "version" (JStr SCHEMA_VERSION));
             created_at := str (dict_get data "created_at" (JStr ""));
             commits := commits |}
  end.

Definition _new_store : M CommitStore :=
  now <- now_utc_isoformat ;;
  ret {| version := SCHEMA_VERSION; created_at := now; commits := [] |}.

(** *** Persistence layer *)

Definition _backup_path (path : Path) (generation : nat) : Path :=
  {| parent := parent path;
     name := name path +:+ BACKUP_SUFFIX +:+ pretty generation |}.

Definition _ensure_storage_dir : M unit := mkdir_p STORAGE_DIR.

(** Write JSON data atomically using tempfile + fsync + replace. *)
Definition _write_atomic_json (path : Path) (data : json) : M unit :=
  let serialized := json_dumps data in
  tmp_path <- mkstemp (parent path) ".tmp" ;;
  try_except
    (write_flush_fsync tmp_path serialized ;;
     replace tmp_path path)
    [BaseException]
    (fun e => suppress OSError (unlink true tmp_path) ;; raise e).

Definition _rotate_backups (path : Path) : M unit :=
  for_each (rev (seq 1 (MAX_BACKUPS - 1)))
    (fun gen =>
       let src := _backup_path path gen in
       let dst := _backup_path path (gen + 1) in
       present <- exists_ src ;;
       if present then move src dst else ret tt) ;;
  present <- exists_ path ;;
  if present then copy2 path (_backup_path path 1) else ret tt.

(** Persist the commit store with backup rotation and atomic write. *)
Definition _save_store (path : Path) (store : CommitStore) : M unit :=
  _ensure_storage_dir ;;
  _rotate_backups path ;;
  _write_atomic_json path (CommitStore_to_dict store).

(** How one turn of the loader's [for] loop ends. *)
Inductive Turn :=
| Continue
| Return (store : CommitStore).

Definition corrupted_path (path : Path) : Path :=
  {| parent := parent path; name := name path +:+ ".corrupted" |}.

(** The body of the loop over [candidates] (the [logger.warning] calls,
    which touch neither the files nor the control flow, are left out). *)
Definition try_candidate (path candidate : Path) : M Turn :=
  present <- exists_ candidate ;;
  if negb present then ret Continue
  else
    try_except
      (raw <- read_text candidate ;;
       match json_loads raw with
       | None => raise (Error JSONDecodeError)
       | Some (JDict data) =>
           store <- lift (CommitStore_from_dict data) ;;
           (if bool_decide (candidate <> path)
            then _write_atomic_json path (CommitStore_to_dict store)
            else ret tt) ;;
           ret (Return store)
       | Some _ => ret Continue
       end)
      [JSONDecodeError; OSError; KeyError; TypeError]
      (fun _ =>
         (if bool_decide (candidate = path)
          then suppress OSError (copy2 candidate (corrupted_path path))
          else ret tt) ;;
         ret Continue).

Fixpoint load_from (path : Path) (candidates : list Path) : M CommitStore :=
  match candidates with
  | [] => _new_store
  | candidate :: rest =>
      turn <- try_candidate path candidate ;;
      match turn with
      | Return store => ret store
      | Continue => load_from path rest
      end
  end.

(** Load the commit store, falling back through backups on corruption. *)
Definition _load_store (path : Path) : M CommitStore :=
  let candidates := path :: map (_backup_path path) (seq 1 MAX_BACKUPS) in
  load_from path candidates.

(** *** Commit type detection *)

Definition TYPE_KEYWORDS : list (string * string) :=
  [ ("fixed", "fix"); ("repaired", "fix"); ("resolved", "fix");
    ("debugged", "fix"); ("patched", "fix");
    ("learned", "docs"); ("studied", "docs"); ("researched", "docs");
    ("documented", "docs"); ("noted", "docs");
    ("tried", "feat"); ("built", "feat"); ("created", "feat");
    ("shipped", "feat"); ("launched", "feat"); ("finished", "feat");
    ("completed", "feat"); ("started", "feat"); ("made", "feat");
    ("added", "feat");
    ("improved", "refactor"); ("optimized", "refactor");
    ("refactored", "refactor"); ("restructured", "refactor");
    ("simplified", "refactor");
    ("cleaned", "chore"); ("organized", "chore"); ("maintained", "chore");
    ("updated", "chore");
    ("styled", "style"); ("designed", "style"); ("formatted", "style");
    ("tested", "test"); ("verified", "test"); ("validated", "test") ].

Fixpoint keyword_type (table : list (string * string)) (word : string) : option string :=
  match table with
  | [] => None
  | (k, v) :: rest => if String.eqb word k then Some v else keyword_type rest word
  end.

Fixpoint first_keyword (words : list string) : string :=
  match words with
  | [] => "feat"
  | word :: rest =>
      match keyword_type TYPE_KEYWORDS (strip_chars ".,!?;:" word) with
      | Some t => t
      | None => first_keyword rest
      end
  end.

(** Infer commit type from keywords in the message. *)
Definition _detect_commit_type (message : string) : string :=
  first_keyword (split (lower message)).

(** *** Date and time helpers *)

Definition _today : M string :=
  d <- date_today ;; ret (Calendar.isoformat d).

Definition _now_utc_iso : M string := now_utc_isoformat.

(** *** Streak computation *)

(** [sorted(xs, reverse=True)] on strings (compared by code point, which on
    UTF-8 text is the order of the bytes), as an insertion sort. *)
Fixpoint insert_desc (x : string) (l : list string) : list string :=
  match l with
  | [] => [x]
  | y :: rest => if String.leb y x then x :: l else y :: insert_desc x rest
  end.

Definition sorted_desc (l : list string) : list string := foldr insert_desc [] l.

(** The [for] loop of [_compute_streak], from [unique_dates[i - 1] = prev]. *)
Fixpoint streak_loop (prev : string) (rest : list string) (streak : Z) : Z :=
  match rest with
  | [] => streak
  | curr :: rest' =>
      match Calendar.strptime prev, Calendar.strptime curr with
      | Some p, Some c =>
          if Calendar.days_between p c =? 1 then streak_loop curr rest' (streak + 1)
          else streak
      | _, _ => streak
      end
  end.

(** Compute the current consecutive-day commit streak. *)
Definition _compute_streak (commits : list LifeCommit) : M Z :=
  match commits with
  | [] => ret 0
  | _ =>
      let unique_dates := sorted_desc (remove_dups (map commit_date commits)) in
      today_str <- _today ;;
      d <- date_today ;;
      yesterday <- match Calendar.day_before d with
                   | Some y => ret y
                   | None => raise (Error OverflowError)
                   end ;;
      let yesterday_str := Calendar.isoformat yesterday in
      match unique_dates with
      | [] => raise (Error IndexError)
      | first :: rest =>
          if negb (String.eqb first today_str || String.eqb first yesterday_str)
          then ret 0
          else ret (streak_loop first rest 1)
      end
  end.

(** *** Stats computation *)

(** [a / b] on integers: the quotient of the two integers rounded once to
    binary64 (to nearest, ties to even); [ZeroDivisionError] for [b = 0],
    [OverflowError] when the rounded quotient is beyond the floats.  The
    operands enter the division as they are, with all their bits. *)
Definition int_operand (z : Z) : spec_float :=
  match z with
  | Z0 => S754_zero false
  | Zpos m => S754_finite false m 0
  | Zneg m => S754_finite true m 0
  end.

Definition truediv (a b : Z) : exn + spec_float :=
  if b =? 0 then inl (Error ZeroDivisionError)
  else
    match SFdiv 53 1024 (int_operand a) (int_operand b) with
    | S754_infinity _ => inl (Error OverflowError)
    | q => inr q
    end.

Record _WeekStats := {
  count : Z;
  mood_avg : spec_float;
  energy_avg : spec_float;
}.

(** [sum(f(c) for c in commits)] *)
Definition sum_of (f : LifeCommit -> Z) (commits : list LifeCommit) : Z :=
  foldl (fun acc c => acc + f c) 0 commits.

(** A [Counter] / [dict] with string keys, in insertion order. *)
Fixpoint counter_add (k : string) (c : list (string * Z)) : list (string * Z) :=
  match c with
  | [] => [(k, 1)]
  | (k', n) :: rest =>
      if String.eqb k k' then (k', n + 1) :: rest else (k', n) :: counter_add k rest
  end.

(** [Counter(xs)] *)
Definition Counter (xs : list string) : list (string * Z) :=
  foldl (fun c k => counter_add k c) [] xs.

(** [c.most_common()]: by count, largest first; equal counts keep their
    insertion order. *)
Fixpoint insert_by_count (e : string * Z) (l : list (string * Z)) : list (string * Z) :=
  match l with
  | [] => [e]
  | e' :: rest => if e'.2 <? e.2 then e :: l else e' :: insert_by_count e rest
  end.

Definition most_common (c : list (string * Z)) : list (string * Z) :=
  foldl (fun acc e => insert_by_count e acc) [] c.

(** Group commits by their ISO date string. *)
Fixpoint group_add (c : LifeCommit) (g : list (string * list LifeCommit))
    : list (string * list LifeCommit) :=
  match g with
  | [] => [(commit_date c, [c])]
  | (k, cs) :: rest =>
      if String.eqb (commit_date c) k then (k, cs ++ [c]) :: rest
      else (k, cs) :: group_add c rest
  end.

Definition _commits_by_date (commits : list LifeCommit) : list (string * list LifeCommit) :=
  foldl (fun g c => group_add c g) [] commits.

(** Aggregate tag usage counts across all commits. *)
Definition _compute_tag_counts (commits : list LifeCommit) : list (string * Z) :=
  Counter (concat (map tags commits)).

(** Return commit types sorted by frequency descending. *)
Definition _compute_type_distribution (commits : list LifeCommit) : list (string * Z) :=
  most_common (Counter (map commit_type commits)).

(** Compute aggregate stats for a list of commits. *)
Definition _week_stats (commits : list LifeCommit) : exn + _WeekStats :=
  match commits with
  | [] => inr {| count := 0; mood_avg := S754_zero false; energy_avg := S754_zero false |}
  | _ =>
      let count := Z.of_nat (length commits) in
      match truediv (sum_of mood_score commits) count with
      | inl e => inl e
      | inr mood_avg =>
          match truediv (sum_of energy_score commits) count with
          | inl e => inl e
          | inr energy_avg =>
              inr {| count := count; mood_avg := mood_avg; energy_avg := energy_avg |}
          end
      end
  end.

Definition TOP_THEMES_COUNT : nat := 5.
Definition TAG_MOOD_MIN_OCCURRENCES : Z := 2.

(** For top tags, compute average mood when that tag is present. *)
Fixpoint tag_mood_loop (commits : list LifeCommit) (top_tags : list string)
    : exn + list (string * spec_float * Z) :=
  match top_tags with
  | [] => inr []
  | tag :: rest =>
      let tagged := filter (fun c => bool_decide (tag ∈ tags c)) commits in
      let count := Z.of_nat (length tagged) in
      if count <? TAG_MOOD_MIN_OCCURRENCES then tag_mood_loop commits rest
      else
        match truediv (sum_of mood_score tagged) count with
        | inl e => inl e
        | inr avg_mood =>
            match tag_mood_loop commits rest with
            | inl e => inl e
            | inr results => inr ((tag, avg_mood, count) :: results)
            end
        end
  end.

Definition _compute_tag_mood_correlation (commits : list LifeCommit)
    : exn + list (string * spec_float * Z) :=
  let tag_counts := _compute_tag_counts commits in
  let top_tags := map fst (take TOP_THEMES_COUNT (most_common tag_counts)) in
  tag_mood_loop commits top_tags.

(** *** Input helpers *)

(** Prompt for user input with optional default value. *)
Definition _prompt_input (dflt : string) : M string :=
  response <- try_except input [EOFError; KeyboardInterrupt]
                (fun _ => raise (SystemExit 0)) ;;
  let stripped := strip response in
  if (bool_decide (stripped = EmptyString) && negb (bool_decide (dflt = EmptyString)))%bool
  then ret dflt else ret stripped.

(** Prompt for an integer within bounds.  [str(default)] is passed in as
    [default_str]. *)
Definition _prompt_int (default_str : string) (dflt min_val max_val : Z) : M Z :=
  raw <- _prompt_input default_str ;;
  match int_of_str raw with
  | None => ret dflt
  | Some value => ret (clamp min_val max_val value)
  end.

(** *** Commit creation *)

(** Build a new LifeCommit with generated ID and timestamps. *)
Definition _create_commit (message : string) (commit_type : option string)
    (scope details : string) (tags : list string) (mood energy : Z) : M LifeCommit :=
  let resolved_type :=
    match commit_type with
    | Some t => if bool_decide (t = EmptyString) then _detect_commit_type message else t
    | None => _detect_commit_type message
    end in
  id <- new_uuid ;;
  ts <- _now_utc_iso ;;
  date <- _today ;;
  ret {| commit_id := id;
         timestamp := ts;
         commit_date := date;
         commit_type := resolved_type;
         scope := scope;
         message := message;
         details := details;
         tags := tags;
         mood_score := clamp MOOD_MIN MOOD_MAX mood;
         energy_score := clamp ENERGY_MIN ENERGY_MAX energy |}.

(** *** Command handlers *)

(** The [argparse.Namespace] fields [_cmd_quick_commit] reads. *)
Record Args := {
  arg_message : option string;
  arg_commit_type : option string;
  arg_scope : option string;
  arg_details : option string;
  arg_tags : option string;
  arg_mood : option Z;
  arg_energy : option Z;
}.

(** [x or dflt] for an optional string: [None] and the empty string are
    both falsy. *)
Definition or_default (x : option string) (dflt : string) : string :=
  match x with
  | Some s => if bool_decide (s = EmptyString) then dflt else s
  | None => dflt
  end.

(** [tuple(t.strip() for t in tags_raw.split(",") if t.strip())] *)
Definition parse_tags (tags_raw : string) : list string :=
  filter (fun t => negb (bool_decide (t = EmptyString)))
    (map strip (split_on "," tags_raw)).

(** The quick commit ([-m]); the lines it prints are left out. *)
Definition _cmd_quick_commit (args : Args) : M unit :=
  let message_raw := or_default (arg_message args) "" in
  if bool_decide (strip message_raw = EmptyString) then raise (SystemExit 1)
  else
    let commit_type := arg_commit_type args in
    let scope := or_default (arg_scope args) "life" in
    let details := or_default (arg_details args) "" in
    let tags := match arg_tags args with
                | Some tags_raw =>
                    if bool_decide (tags_raw = EmptyString) then [] else parse_tags tags_raw
                | None => []
                end in
    let mood := default MOOD_DEFAULT (arg_mood args) in
    let energy := default ENERGY_DEFAULT (arg_energy args) in
    if (mood <? MOOD_MIN) || (MOOD_MAX <? mood) then raise (SystemExit 1)
    else if (energy <? ENERGY_MIN) || (ENERGY_MAX <? energy) then raise (SystemExit 1)
    else
      commit <- _create_commit (strip message_raw) commit_type scope details tags
                  mood energy ;;
      store <- _load_store STORAGE_FILE ;;
      let store := {| version := version store; created_at := created_at store;
                      commits := commits store ++ [commit] |} in
      _save_store STORAGE_FILE store ;;
      streak <- _compute_streak (commits store) ;;
      ret tt.

End WithLib.
End CommitYourDay.

(** ** pebbles.py *)

Module Pebbles.
Import Py.

(** A single moment of gratitude. *)
Record _Pebble := { text : string; timestamp : string }.

Section WithLib.
Context `{PyLib}.

(** Prints a gentle error message to stderr and exits. *)
Definition _die {A} (message : string) : M A := raise (SystemExit 1).

(** [asdict(p)] *)
Definition asdict (p : _Pebble) : json :=
  JDict [("text", JStr (text p)); ("timestamp", JStr (timestamp p))].

(** The entries of the list comprehension in [_load] that pass its test. *)
Definition pebble_of_entry (entry : json) : option _Pebble :=
  match entry with
  | JDict d =>
      match dict_lookup "text" d, dict_lookup "timestamp" d with
      | Some (JStr t), Some (JStr ts) => Some {| text := t; timestamp := ts |}
      | _, _ => None
      end
  | _ => None
  end.

(** Reads pebbles from the data file. *)
Definition _load (path : Path) : M (list _Pebble) :=
  present <- exists_ path ;;
  if negb present then ret []
  else
    raw <- try_except (text <- read_text path ;; ret (strip text)) [OSError]
             (fun _ => _die "could not read") ;;
    if bool_decide (raw = EmptyString) then ret []
    else
      match json_loads raw with
      | None => _die "data file is corrupt"
      | Some (JList data) => ret (omap pebble_of_entry data)
      | Some _ => _die "unexpected format"
      end.

(** Atomically writes pebbles to the data file. *)
Definition _save (path : Path) (pebbles : list _Pebble) : M unit :=
  mkdir_p (parent path) ;;
  let payload := json_dumps (JList (map asdict pebbles)) in
  tmp_path <- mkstemp (parent path) ".tmp" ;;
  try_finally
    (write_flush_fsync tmp_path (payload +:+ String (ascii_of_nat 10) EmptyString) ;;
     replace tmp_path path)
    (fun succeeded =>
       if succeeded then ret tt
       else try_except (unlink false tmp_path) [OSError] (fun _ => ret tt)).

End WithLib.
End Pebbles.

(** ** capsule.py *)

Module Capsule.
Import Py.

Definition DATA_FILE : Path := {| parent := "."; name := "capsule_data.json" |}.

Section WithLib.
Context `{PyLib}.

(** Read capsule messages from disk, returning an empty list on any failure. *)
Definition load_data : M (list json) :=
  present <- exists_ DATA_FILE ;;
  if negb present then ret []
  else
    try_except
      (text <- read_text DATA_FILE ;;
       match json_loads text with
       | None => raise (Error JSONDecodeError)
       | Some (JList data) => ret data
       | Some _ => ret []
       end)
      [JSONDecodeError; OSError]
      (fun _ => ret []).

(** Write capsule messages to disk as pretty-printed JSON. *)
Definition save_data (capsules : list json) : M unit :=
  write_text DATA_FILE
    (json_dumps (JList capsules) +:+ String (ascii_of_nat 10) EmptyString).

End WithLib.
End Capsule.

(** ** memory_jar.py *)

Module MemoryJar.
Import Py.

(** [memories.json] beside the script. *)
Definition JAR_FILE : Path := {| parent := "memory_jar"; name := "memories.json" |}.

Section WithLib.
Context `{PyLib}.

(** Open the jar. Gently.  Whatever [json.load] parsed is returned as it
    is: nothing checks that it is a list. *)
Definition load_jar : M json :=
  present <- exists_ JAR_FILE ;;
  if negb present then ret (JList [])
  else
    try_except
      (text <- read_text JAR_FILE ;;
       match json_loads text with
       | None => raise (Error JSONDecodeError)
       | Some v => ret v
       end)
      [JSONDecodeError; OSError]
      (fun _ => ret (JList [])).

(** Close the jar. Carefully. *)
Definition save_jar (memories : json) : M unit :=
  write_text JAR_FILE (json_dumps memories).

End WithLib.
End MemoryJar.

(** ** The [random] module *)

Module Random.
Import Py.

(** The generator behind [random.Random]: its state, seeding from an
    integer, the 32-bit draw of the Mersenne Twister, and [_randbelow(n)]
    (a rejection loop over [getrandbits] in the library).  They are left
    open; the functions below are the library's code over them. *)
Class Generator := {
  rng_state : Type;
  seed_state : Z -> rng_state;
  genrand_uint32 : rng_state -> Z * rng_state;
  randbelow : rng_state -> nat -> nat * rng_state;
}.

Section WithGenerator.
Context `{Generator}.

(** [random.Random(seed)]: seeded from [seed], or from the operating
    system's entropy (the state [entropy]) when [seed] is [None]. *)
Definition Random (seed : option Z) (entropy : rng_state) : rng_state :=
  match seed with
  | Some s => seed_state s
  | None => entropy
  end.

(** [random.seed(s)] on a generator in any state. *)
Definition seed (s : Z) (st : rng_state) : rng_state := seed_state s.

(** [random()]: [(a * 67108864 + b) / 9007199254740992] with [a] the top
    27 bits of one draw and [b] the top 26 of the next.  The result is the
    numerator: a float [k / 2^53] with [0 <= k < 2^53]. *)
Definition random (st : rng_state) : Z * rng_state :=
  let (w1, st1) := genrand_uint32 st in
  let (w2, st2) := genrand_uint32 st1 in
  (((w1 mod 2 ^ 32) / 32) * 67108864 + (w2 mod 2 ^ 32) / 64, st2).

(** [itertools.accumulate(weights)] *)
Fixpoint accumulate_from (acc : Z) (weights : list Z) : list Z :=
  match weights with
  | [] => []
  | w :: rest => (acc + w) :: accumulate_from (acc + w) rest
  end.

Definition accumulate (weights : list Z) : list Z := accumulate_from 0 weights.

(** [bisect.bisect_right(a, x, lo, hi)] for [x = num / den]; [fuel] bounds
    the halvings of the [while lo < hi] loop. *)
Fixpoint bisect_loop (fuel : nat) (a : list Z) (num den : Z) (lo hi : nat) : nat :=
  match fuel with
  | O => lo
  | S fuel' =>
      if (lo <? hi)%nat then
        let mid := ((lo + hi) / 2)%nat in
        if num <? nth mid a 0 * den then bisect_loop fuel' a num den lo mid
        else bisect_loop fuel' a num den (mid + 1)%nat hi
      else lo
  end.

Definition bisect (a : list Z) (num den : Z) (lo hi : nat) : nat :=
  bisect_loop (S hi) a num den lo hi.

(** [random.choices(population, weights=weights, k=1)[0]].  The product
    [random() * total] is taken exactly, as the rational
    [k * total / 2^53]: its rounding to binary64 is not modelled. *)
Definition choices1 {A} (population : list A) (weights : list Z) (st : rng_state)
    : exn + (A * rng_state) :=
  let n := length population in
  let cum_weights := accumulate weights in
  if negb (length cum_weights =? n)%nat then inl (Error ValueError)
  else
    match last cum_weights with
    | None => inl (Error IndexError)
    | Some total =>
        if total <=? 0 then inl (Error ValueError)
        else
          let hi := (n - 1)%nat in
          let (k, st') := random st in
          match population !! bisect cum_weights (k * total) (2 ^ 53) 0 hi with
          | Some x => inr (x, st')
          | None => inl (Error IndexError)
          end
    end.

(** [rng.choice(seq)] *)
Definition choice {A} (seq : list A) (st : rng_state) : exn + (A * rng_state) :=
  match seq with
  | [] => inl (Error IndexError)
  | _ =>
      let (j, st') := randbelow st (length seq) in
      match seq !! j with
      | Some x => inr (x, st')
      | None => inl (Error IndexError)
      end
  end.

(** [rng.sample(population, k)] for a population of at most 21 elements:
    the library's pool selection. *)
Fixpoint sample_loop {A} (pool : list A) (n k : nat) (st : rng_state)
    : exn + (list A * rng_state) :=
  match k with
  | O => inr ([], st)
  | S k' =>
      let (j, st1) := randbelow st n in
      match pool !! j, pool !! (n - 1)%nat with
      | Some x, Some moved =>
          match sample_loop (<[j := moved]> pool) (n - 1) k' st1 with
          | inl e => inl e
          | inr (xs, st2) => inr (x :: xs, st2)
          end
      | _, _ => inl (Error IndexError)
      end
  end.

Definition sample {A} (population : list A) (k : nat) (st : rng_state)
    : exn + (list A * rng_state) :=
  if (length population <? k)%nat then inl (Error ValueError)
  else sample_loop population (length population) k st.

End WithGenerator.
End Random.

(** ** buddy.py *)

Module Buddy.
Import Py Random.

(** Behavioral mood that governs which animations the pet performs. *)
Inductive Mood := HAPPY | CHILL | SLEEPY.

(** Discrete animation the pet can perform between idle frames. *)
Inductive Action := IDLE | BLINK | WIGGLE | BOUNCE | DOZE.

#[global] Instance Action_eq_dec : EqDecision Action.
Proof. solve_decision. Defined.

(** Mapping from mood to (action, relative_weight) pairs. *)
Definition _MOOD_WEIGHTS (mood : Mood) : list (Action * Z) :=
  match mood with
  | HAPPY => [(IDLE, 3); (BLINK, 3); (WIGGLE, 3); (BOUNCE, 2)]
  | CHILL => [(IDLE, 5); (BLINK, 3); (WIGGLE, 1)]
  | SLEEPY => [(IDLE, 3); (BLINK, 2); (DOZE, 4)]
  end.

Section WithGenerator.
Context `{Generator}.

(** Select a random action weighted by the pet's current mood; [st] is the
    state of the module-level generator. *)
Definition choose_action (mood : Mood) (st : rng_state) : exn + (Action * rng_state) :=
  let entries := _MOOD_WEIGHTS mood in
  let actions := map fst entries in
  let weights := map snd entries in
  choices1 actions weights st.

(** The actions of [n] successive calls, as [run_animation] makes them. *)
Fixpoint choose_actions (n : nat) (mood : Mood) (st : rng_state) : exn + list Action :=
  match n with
  | O => inr []
  | S n' =>
      match choose_action mood st with
      | inl e => inl e
      | inr (a, st') =>
          match choose_actions n' mood st' with
          | inl e => inl e
          | inr rest => inr (a :: rest)
          end
      end
  end.

End WithGenerator.
End Buddy.

(** ** pocket_poet.py *)

Module PocketPoet.
Import Py Random.

Definition _MIN_LINES : Z := 5.
Definition _MAX_LINES : Z := 6.

Definition _NOUNS : list string :=
  [ "light"; "morning"; "rain"; "river"; "stone"; "leaf"; "sky"; "field";
    "garden"; "window"; "door"; "path"; "bread"; "breath"; "stillness";
    "silence"; "tea"; "sparrow"; "cloud"; "shore"; "blanket"; "creek";
    "porch"; "candle"; "hearth"; "wool"; "hill" ].

Definition _ADJECTIVES : list string :=
  [ "quiet"; "soft"; "small"; "warm"; "gentle"; "still"; "calm"; "slow";
    "kind"; "simple"; "tender"; "pale"; "faint"; "cool"; "low"; "thin";
    "deep"; "steady"; "hushed" ].

Definition _VERBS : list string :=
  [ "rests"; "waits"; "holds"; "opens"; "settles"; "arrives"; "stays";
    "lingers"; "gathers"; "drifts"; "lands"; "turns"; "folds"; "hums";
    "glows"; "breathes"; "listens" ].

Definition _INFINITIVES : list string :=
  [ "rest"; "wait"; "hold"; "open"; "settle"; "arrive"; "stay"; "linger";
    "gather"; "drift"; "land"; "turn"; "fold"; "hum"; "glow"; "breathe";
    "listen" ].

Definition _PLACES : list string :=
  [ "the window"; "the door"; "the garden"; "the table"; "the path";
    "the hill"; "the shore"; "the porch"; "the field"; "the hearth" ].

Definition _LINE_TEMPLATES : list string :=
  [ "the {adj} {noun} {verb}";
    "a {adj} {noun} {verb} near {place}";
    "{noun} {verb} on the {noun2}";
    "you breathe and the {noun} {verb}";
    "there is {noun} in the {adj} {noun2}";
    "let the {noun} {inf}";
    "the {noun} knows how to {inf}";
    "something {adj} {verb} here";
    "a little {noun} near {place}";
    "the {adj} air {verb}";
    "nothing to do but {inf}";
    "the {noun} is enough";
    "all the {adj} things {inf}";
    "you are {adj} like the {noun}";
    "even the {noun} {verb}";
    "here is a {adj} place to {inf}";
    "{adj} {noun} and {adj2} {noun2}";
    "the world {verb} around you";
    "somewhere a {noun} {verb}";
    "be {adj} with the {noun}" ].

Definition _BANK_MAP : list (string * list string) :=
  [ ("adj", _ADJECTIVES); ("adj2", _ADJECTIVES); ("noun", _NOUNS);
    ("noun2", _NOUNS); ("verb", _VERBS); ("inf", _INFINITIVES);
    ("place", _PLACES) ].

Fixpoint bank_of (table : list (string * list string)) (key : string)
    : option (list string) :=
  match table with
  | [] => None
  | (k, bank) :: rest => if String.eqb key k then Some bank else bank_of rest key
  end.

(** [\w] on ASCII text *)
Definition is_word_char (c : ascii) : bool :=
  let n := N_of_ascii c in
  ((N.leb 48 n && N.leb n 57) || (N.leb 65 n && N.leb n 90)
   || (N.leb 97 n && N.leb n 122) || N.eqb n 95)%bool.

Section WithGenerator.
Context `{Generator}.

(** Selects a single entry from a word bank. *)
Definition _pick (bank : list string) (st : rng_state) : exn + (string * rng_state) :=
  choice bank st.

(** [_PLACEHOLDER_RE.sub(_substitute, template)]: one pass over the
    template.  [token = Some cs]: an opening brace and the word characters
    [cs] (reversed) have been read and the placeholder is still open. *)
Fixpoint substitute (token : option (list ascii)) (s : string) (st : rng_state)
    : exn + (string * rng_state) :=
  let literal :=
    match token with
    | Some cs => String "{" (string_of_list_ascii (rev cs))
    | None => EmptyString
    end in
  match s with
  | EmptyString => inr (literal, st)
  | String c rest =>
      match token with
      | Some (c0 :: cs) =>
          if Ascii.eqb c "}" then
            match bank_of _BANK_MAP (string_of_list_ascii (rev (c0 :: cs))) with
            | None => inl (Error KeyError)
            | Some bank =>
                match _pick bank st with
                | inl e => inl e
                | inr (word, st1) =>
                    match substitute None rest st1 with
                    | inl e => inl e
                    | inr (out, st2) => inr (word +:+ out, st2)
                    end
                end
            end
          else if is_word_char c then substitute (Some (c :: c0 :: cs)) rest st
          else
            match substitute (if Ascii.eqb c "{" then Some [] else None) rest st with
            | inl e => inl e
            | inr (out, st') =>
                inr (literal +:+ (if Ascii.eqb c "{" then out else String c out), st')
            end
      | Some [] =>
          if is_word_char c then substitute (Some [c]) rest st
          else
            match substitute (if Ascii.eqb c "{" then Some [] else None) rest st with
            | inl e => inl e
            | inr (out, st') =>
                inr (literal +:+ (if Ascii.eqb c "{" then out else String c out), st')
            end
      | None =>
          match substitute (if Ascii.eqb c "{" then Some [] else None) rest st with
          | inl e => inl e
          | inr (out, st') => inr ((if Ascii.eqb c "{" then out else String c out), st')
          end
      end
  end.

(** Fills a line template with words drawn from curated banks. *)
Definition _render_line (template : string) (st : rng_state) : exn + (string * rng_state) :=
  substitute None template st.

Fixpoint render_lines (templates : list string) (st : rng_state)
    : exn + (list string * rng_state) :=
  match templates with
  | [] => inr ([], st)
  | t :: rest =>
      match _render_line t st with
      | inl e => inl e
      | inr (line, st1) =>
          match render_lines rest st1 with
          | inl e => inl e
          | inr (lines, st2) => inr (line :: lines, st2)
          end
      end
  end.

(** Generates a poem by selecting and rendering line templates. *)
Definition _generate_poem (line_count : nat) (st : rng_state)
    : exn + (list string * rng_state) :=
  match sample _LINE_TEMPLATES line_count st with
  | inl e => inl e
  | inr (templates, st1) => render_lines templates st1
  end.

(** Entry point: the lines [main] prints for [--seed seed --lines lines];
    [argparse] exits with status 2 on a line count outside 5..6. *)
Definition main (seed : option Z) (lines : Z) (entropy : rng_state) : exn + list string :=
  if (lines <? _MIN_LINES) || (_MAX_LINES <? lines) then inl (SystemExit 2)
  else
    let rng := Random seed entropy in
    match _generate_poem (Z.to_nat lines) rng with
    | inl e => inl e
    | inr (poem, _) => inr poem
    end.

End WithGenerator.
End PocketPoet.
(** ** A JSON text codec *)

Module JsonText.
Import Py.

Definition chr (n : N) : string := String (ascii_of_N n) EmptyString.
Definition quote : string := chr 34.
Definition newline : string := chr 10.

Fixpoint spaces (n : nat) : string :=
  match n with O => EmptyString | S k => String " " (spaces k) end.

Definition hex_digit (n : N) : ascii :=
  ascii_of_N (if (n <? 10)%N then 48 + n else 87 + n).

(** [json.encoder.py_encode_basestring]: the escapes of [ensure_ascii=False]. *)
Fixpoint escape (s : string) : string :=
  match s with
  | EmptyString => EmptyString
  | String c rest =>
      let n := N_of_ascii c in
      (match n with
       | 34 => chr 92 +:+ chr 34
       | 92 => chr 92 +:+ chr 92
       | 10 => chr 92 +:+ "n"
       | 13 => chr 92 +:+ "r"
       | 9 => chr 92 +:+ "t"
       | 8 => chr 92 +:+ "b"
       | 12 => chr 92 +:+ "f"
       | _ =>
           if (n <? 32)%N
           then chr 92 +:+ "u00" +:+ String (hex_digit (n / 16)) (String (hex_digit (n mod 16)) EmptyString)
           else String c EmptyString
       end)%N +:+ escape rest
  end.

Definition encode_str (s : string) : string := quote +:+ escape s +:+ quote.

(** A finite float [m * 2^e] written out in full as a decimal (Python
    writes the shortest decimal that reads back as the same float). *)
Definition decimal_of_finite (m : positive) (e : Z) : string :=
  if 0 <=? e then pretty (Z.pos m * 2 ^ e) +:+ ".0"
  else
    let k := Z.to_nat (- e) in
    let digits := pretty (Z.pos m * 5 ^ (- e)) in
    let len := String.length digits in
    if (k <? len)%nat
    then substring 0 (len - k) digits +:+ "." +:+ substring (len - k) k digits
    else "0." +:+ string_of_list_ascii (repeat "0"%char (k - len)) +:+ digits.

Definition encode_float (f : spec_float) : string :=
  match f with
  | S754_nan => "NaN"
  | S754_infinity false => "Infinity"
  | S754_infinity true => "-Infinity"
  | S754_zero false => "0.0"
  | S754_zero true => "-0.0"
  | S754_finite s m e => (if s then "-" else "") +:+ decimal_of_finite m e
  end.

(** [json.dumps(v, indent=2, ensure_ascii=False)] at nesting depth [level]. *)
Fixpoint dumps_at (level : nat) (v : json) : string :=
  let sep := "," +:+ newline +:+ spaces (2 * S level) in
  match v with
  | JNull => "null"
  | JBool true => "true"
  | JBool false => "false"
  | JInt z => pretty z
  | JFloat f => encode_float f
  | JStr s => encode_str s
  | JList [] => "[]"
  | JList (x :: xs) =>
      "[" +:+ newline +:+ spaces (2 * S level) +:+ dumps_at (S level) x
      +:+ (fix items (l : list json) : string :=
             match l with
             | [] => EmptyString
             | y :: rest => sep +:+ dumps_at (S level) y +:+ items rest
             end) xs
      +:+ newline +:+ spaces (2 * level) +:+ "]"
  | JDict [] => "{}"
  | JDict ((k, x) :: xs) =>
      "{" +:+ newline +:+ spaces (2 * S level) +:+ encode_str k +:+ ": " +:+ dumps_at (S level) x
      +:+ (fix members (l : list (string * json)) : string :=
             match l with
             | [] => EmptyString
             | (k', y) :: rest =>
                 sep +:+ encode_str k' +:+ ": " +:+ dumps_at (S level) y +:+ members rest
             end) xs
      +:+ newline +:+ spaces (2 * level) +:+ "}"
  end.

Definition dumps (v : json) : string := dumps_at 0 v.

(** *** The decoder *)

Definition is_ws (c : ascii) : bool :=
  let n := N_of_ascii c in
  (N.eqb n 32 || N.eqb n 9 || N.eqb n 10 || N.eqb n 13)%bool.

Fixpoint skip_ws (s : string) : string :=
  match s with
  | String c rest => if is_ws c then skip_ws rest else s
  | EmptyString => EmptyString
  end.

Definition hex_val (c : ascii) : option N :=
  let n := N_of_ascii c in
  if (N.leb 48 n && N.leb n 57)%bool then Some (n - 48)%N
  else if (N.leb 97 n && N.leb n 102)%bool then Some (n - 87)%N
  else if (N.leb 65 n && N.leb n 70)%bool then Some (n - 55)%N
  else None.

Definition hex4 (s : string) : option (N * string) :=
  match s with
  | String a (String b (String c (String d rest))) =>
      match hex_val a, hex_val b, hex_val c, hex_val d with
      | Some a, Some b, Some c, Some d => Some (4096 * a + 256 * b + 16 * c + d, rest)%N
      | _, _, _, _ => None
      end
  | _ => None
  end.

(** The UTF-8 bytes of a code point. *)
Definition utf8_encode (cp : N) : string :=
  (if cp <? 128 then chr cp
   else if cp <? 2048 then chr (192 + cp / 64) +:+ chr (128 + cp mod 64)
   else if cp <? 65536 then
     chr (224 + cp / 4096) +:+ chr (128 + (cp / 64) mod 64) +:+ chr (128 + cp mod 64)
   else
     chr (240 + cp / 262144) +:+ chr (128 + (cp / 4096) mod 64)
     +:+ chr (128 + (cp / 64) mod 64) +:+ chr (128 + cp mod 64))%N.

(** The body of a string literal, after its opening quote: the text and
    what follows the closing quote.  Raw control characters are refused
    ([strict=True]). *)
Fixpoint scan_string (fuel : nat) (s : string) : option (string * string) :=
  match fuel with
  | O => None
  | S fuel' =>
      match s with
      | EmptyString => None
      | String c rest =>
          let n := N_of_ascii c in
          if N.eqb n 34 then Some (EmptyString, rest)
          else if N.eqb n 92 then
            match rest with
            | EmptyString => None
            | String e rest' =>
                let simple (ch : N) :=
                  match scan_string fuel' rest' with
                  | Some (text, after) => Some (chr ch +:+ text, after)
                  | None => None
                  end in
                match N_of_ascii e with
                | 34 => simple 34 | 92 => simple 92 | 47 => simple 47
                | 98 => simple 8 | 102 => simple 12 | 110 => simple 10
                | 114 => simple 13 | 116 => simple 9
                | 117 =>
                    match hex4 rest' with
                    | None => None
                    | Some (hi, after_hi) =>
                        let single :=
                          match scan_string fuel' after_hi with
                          | Some (text, after) => Some (utf8_encode hi +:+ text, after)
                          | None => None
                          end in
                        if (N.leb 55296 hi && N.leb hi 56319)%bool then
                          match after_hi with
                          | String b1 (String b2 after_u) =>
                              if (N.eqb (N_of_ascii b1) 92 && N.eqb (N_of_ascii b2) 117)%bool then
                                match hex4 after_u with
                                | Some (lo, after_lo) =>
                                    if (N.leb 56320 lo && N.leb lo 57343)%bool then
                                      match scan_string fuel' after_lo with
                                      | Some (text, after) =>
                                          Some (utf8_encode (65536 + (hi - 55296) * 1024 + (lo - 56320)) +:+ text, after)
                                      | None => None
                                      end
                                    else single
                                | None => single
                                end
                              else single
                          | _ => single
                          end
                        else single
                    end
                | _ => None
                end%N
            end
          else if (n <? 32)%N then None
          else
            match scan_string fuel' rest with
            | Some (text, after) => Some (String c text, after)
            | None => None
            end
      end
  end.

(** Decimal digits at the head of [s]: their value, their number, the rest. *)
Fixpoint scan_digits (s : string) (acc : Z) (count : nat) : Z * nat * string :=
  match s with
  | String c rest =>
      match Calendar.digit_val c with
      | Some d => scan_digits rest (10 * acc + d) (S count)
      | None => (acc, count, s)
      end
  | EmptyString => (acc, count, s)
  end.

(** [float(text)] for the decimal [digits * 10^exp10], correctly rounded to
    binary64. *)
Definition float_of_decimal (negative : bool) (digits exp10 : Z) : spec_float :=
  if digits =? 0 then S754_zero negative
  else if 0 <=? exp10 then
    binary_normalize 53 1024 (if negative then - (digits * 10 ^ exp10) else digits * 10 ^ exp10) 0 false
  else
    let den := 10 ^ (- exp10) in
    let k := Z.max 0 (64 + Z.log2 den - Z.log2 digits) in
    let num := digits * 2 ^ k in
    let q := num / den in
    let sticky := if num mod den =? 0 then 0 else 1 in
    let m := 2 * q + sticky in
    binary_normalize 53 1024 (if negative then - m else m) (- k - 1) false.

(** A number: an optional minus, an integer part without a leading zero
    (or a lone zero), an optional fraction, an optional exponent.  It is an
    [int] when it has neither fraction nor exponent, else a [float]. *)
Definition scan_number (s : string) : option (json * string) :=
  let (negative, s1) :=
    match s with
    | String c rest => if N.eqb (N_of_ascii c) 45 then (true, rest) else (false, s)
    | EmptyString => (false, s)
    end in
  match scan_digits s1 0 0 with
  | (_, O, _) => None
  | (int_part, int_len, s2) =>
      let leading_zero :=
        match s1 with
        | String c _ => (N.eqb (N_of_ascii c) 48 && negb (int_len =? 1)%nat)%bool
        | EmptyString => false
        end in
      (* a leading zero ends the integer: the rest is "extra data" *)
      let '(int_part, s2) :=
        if leading_zero
        then (0, match s1 with String _ r => r | EmptyString => s1 end)
        else (int_part, s2) in
      let '(frac, frac_len, s3, has_frac) :=
        match s2 with
        | String c rest =>
            if N.eqb (N_of_ascii c) 46 then
              match scan_digits rest 0 0 with
              | (_, O, _) => (0, O, s2, false)
              | (f, n, r) => (f, n, r, true)
              end
            else (0, O, s2, false)
        | EmptyString => (0, O, s2, false)
        end in
      let '(exp, s4, has_exp) :=
        match s3 with
        | String c rest =>
            if (N.eqb (N_of_ascii c) 101 || N.eqb (N_of_ascii c) 69)%bool then
              let '(eneg, r1) :=
                match rest with
                | String sg r =>
                    if N.eqb (N_of_ascii sg) 45 then (true, r)
                    else if N.eqb (N_of_ascii sg) 43 then (false, r)
                    else (false, rest)
                | EmptyString => (false, rest)
                end in
              match scan_digits r1 0 0 with
              | (_, O, _) => (0, s3, false)
              | (e, _, r2) => ((if eneg then - e else e), r2, true)
              end
            else (0, s3, false)
        | EmptyString => (0, s3, false)
        end in
      if (has_frac || has_exp)%bool then
        Some (JFloat (float_of_decimal negative
                        (int_part * 10 ^ Z.of_nat frac_len + frac)
                        (exp - Z.of_nat frac_len)), s4)
      else Some (JInt (if negative then - int_part else int_part), s4)
  end.

(** A [dict] assignment [d[k] = v]: a key already present keeps its place. *)
Fixpoint dict_set (k : string) (v : json) (d : list (string * json)) : list (string * json) :=
  match d with
  | [] => [(k, v)]
  | (k', v') :: rest =>
      if String.eqb k k' then (k', v) :: rest else (k', v') :: dict_set k v rest
  end.

Definition starts_with (p s : string) : option string :=
  if String.prefix p s then Some (substring (String.length p) (String.length s - String.length p) s)
  else None.

(** A value at the head of [s] (no leading whitespace), and what follows. *)
Fixpoint scan_value (fuel : nat) (s : string) : option (json * string) :=
  match fuel with
  | O => None
  | S fuel' =>
      match s with
      | EmptyString => None
      | String c rest =>
          match N_of_ascii c with
          | 34%N =>
              match scan_string (S (String.length rest)) rest with
              | Some (text, after) => Some (JStr text, after)
              | None => None
              end
          | 91%N =>
              match skip_ws rest with
              | String c' after =>
                  if N.eqb (N_of_ascii c') 93 then Some (JList [], after)
                  else scan_elements fuel' (skip_ws rest) []
              | EmptyString => None
              end
          | 123%N =>
              match skip_ws rest with
              | String c' after =>
                  if N.eqb (N_of_ascii c') 125 then Some (JDict [], after)
                  else scan_members fuel' (skip_ws rest) []
              | EmptyString => None
              end
          | _ =>
              match starts_with "null" s, starts_with "true" s, starts_with "false" s with
              | Some after, _, _ => Some (JNull, after)
              | _, Some after, _ => Some (JBool true, after)
              | _, _, Some after => Some (JBool false, after)
              | _, _, _ =>
                  match starts_with "NaN" s, starts_with "Infinity" s, starts_with "-Infinity" s with
                  | Some after, _, _ => Some (JFloat S754_nan, after)
                  | _, Some after, _ => Some (JFloat (S754_infinity false), after)
                  | _, _, Some after => Some (JFloat (S754_infinity true), after)
                  | _, _, _ => scan_number s
                  end
              end
          end
      end
  end
with scan_elements (fuel : nat) (s : string) (acc : list json) : option (json * string) :=
  match fuel with
  | O => None
  | S fuel' =>
      match scan_value fuel' s with
      | None => None
      | Some (v, after) =>
          match skip_ws after with
          | String c rest =>
              if N.eqb (N_of_ascii c) 44 then scan_elements fuel' (skip_ws rest) (v :: acc)
              else if N.eqb (N_of_ascii c) 93 then Some (JList (rev (v :: acc)), rest)
              else None
          | EmptyString => None
          end
      end
  end
with scan_members (fuel : nat) (s : string) (acc : list (string * json)) : option (json * string) :=
  match fuel with
  | O => None
  | S fuel' =>
      match s with
      | String q rest =>
          if N.eqb (N_of_ascii q) 34 then
            match scan_string (S (String.length rest)) rest with
            | None => None
            | Some (key, after_key) =>
                match skip_ws after_key with
                | String colon after_colon =>
                    if N.eqb (N_of_ascii colon) 58 then
                      match scan_value fuel' (skip_ws after_colon) with
                      | None => None
                      | Some (v, after) =>
                          match skip_ws after with
                          | String c rest' =>
                              if N.eqb (N_of_ascii c) 44
                              then scan_members fuel' (skip_ws rest') (dict_set key v acc)
                              else if N.eqb (N_of_ascii c) 125
                              then Some (JDict (dict_set key v acc), rest')
                              else None
                          | EmptyString => None
                          end
                      end
                    else None
                | EmptyString => None
                end
            end
          else None
      | EmptyString => None
      end
  end.

(** [json.loads(text)]: one value, whitespace around it, nothing else. *)
Definition loads (text : string) : option json :=
  match scan_value (S (2 * String.length text)) (skip_ws text) with
  | Some (v, after) =>
      match skip_ws after with
      | EmptyString => Some v
      | _ => None
      end
  | None => None
  end.

(** [repr(v)] for the values [json.loads] produces (strings in single
    quotes; finite floats in full). *)
Fixpoint repr_str_body (s : string) : string :=
  match s with
  | EmptyString => EmptyString
  | String c rest =>
      let n := N_of_ascii c in
      (match n with
       | 39 => chr 92 +:+ chr 39
       | 92 => chr 92 +:+ chr 92
       | 10 => chr 92 +:+ "n"
       | 13 => chr 92 +:+ "r"
       | 9 => chr 92 +:+ "t"
       | _ =>
           if ((n <? 32) || (n =? 127))%N
           then chr 92 +:+ "x" +:+ String (hex_digit (n / 16)) (String (hex_digit (n mod 16)) EmptyString)
           else String c EmptyString
       end)%N +:+ repr_str_body rest
  end.

Fixpoint repr_json (v : json) : string :=
  match v with
  | JNull => "None"
  | JBool true => "True"
  | JBool false => "False"
  | JInt z => pretty z
  | JFloat S754_nan => "nan"
  | JFloat (S754_infinity false) => "inf"
  | JFloat (S754_infinity true) => "-inf"
  | JFloat f => encode_float f
  | JStr s => chr 39 +:+ repr_str_body s +:+ chr 39
  | JList [] => "[]"
  | JList (x :: xs) =>
      "[" +:+ repr_json x
      +:+ (fix items (l : list json) : string :=
             match l with
             | [] => EmptyString
             | y :: rest => ", " +:+ repr_json y +:+ items rest
             end) xs
      +:+ "]"
  | JDict [] => "{}"
  | JDict ((k, x) :: xs) =>
      "{" +:+ chr 39 +:+ repr_str_body k +:+ chr 39 +:+ ": " +:+ repr_json x
      +:+ (fix members (l : list (string * json)) : string :=
             match l with
             | [] => EmptyString
             | (k', y) :: rest =>
                 ", " +:+ chr 39 +:+ repr_str_body k' +:+ chr 39 +:+ ": " +:+ repr_json y
                 +:+ members rest
             end) xs
      +:+ "}"
  end.

#[global] Instance text_lib : PyLib :=
  {| json_loads := loads; json_dumps := dumps; repr := repr_json |}.

End JsonText.

Open Scope py_scope.
(** * Reasoning about runs *)

Module Runs.
Import Py.

(** Faults along a run: after a step that ended normally the failure that
    is due is still to come; an exception or a kill is the failure that
    was due, and leaves what that failure goes on with. *)
Definition still_pending (ft ft' : option (nat * Fault)) : Prop :=
  match ft, ft' with
  | None, None => True
  | Some (_, f), Some (_, f') => f = f'
  | _, _ => False
  end.

Definition struck_raise (e : exn) (ft ft' : option (nat * Fault)) : Prop :=
  exists n,
    (ft = Some (n, FaultRaise e) /\ ft' = None)
    \/ (exists m next, ft = Some (n, FaultRaiseThen e m next) /\ ft' = Some (m, next)).

Definition struck_kill (ft ft' : option (nat * Fault)) : Prop :=
  ft' = None /\ exists n, ft = Some (n, FaultKill).

Definition fault_ok {A} (r : Outcome A) (ft ft' : option (nat * Fault)) : Prop :=
  match r with
  | Ok _ => still_pending ft ft'
  | Raise e => struck_raise e ft ft'
  | Killed => struck_kill ft ft'
  end.

Abbreviation mkW := Build_World.

Lemma still_pending_trans ft ft1 ft' :
  still_pending ft ft1 -> still_pending ft1 ft' -> still_pending ft ft'.
Proof.
  unfold still_pending.
  destruct ft as [[? ?]|], ft1 as [[? ?]|], ft' as [[? ?]|]; intros; subst; tauto.
Qed.

Lemma fault_ok_trans {A} (r : Outcome A) ft ft1 ft' :
  still_pending ft ft1 -> fault_ok r ft1 ft' -> fault_ok r ft ft'.
Proof.
  destruct r as [a|x|]; cbn.
  - apply still_pending_trans.
  - intros Hp (n & [[-> ->] | (m & next & -> & ->)]);
      destruct ft as [[n0 f]|]; cbn in Hp; try done; subst f; exists n0; eauto.
  - intros Hp (-> & n & ->).
    destruct ft as [[n0 f]|]; cbn in Hp; try done; subst f. split; eauto.
Qed.

Lemma still_pending_refl ft : still_pending ft ft.
Proof. destruct ft as [[? ?]|]; done. Qed.

Lemma still_pending_calm ft : still_pending None ft -> ft = None.
Proof. destruct ft as [[? ?]|]; done. Qed.

Lemma still_pending_some ft ft' : still_pending ft ft' -> ft' <> None -> ft <> None.
Proof. destruct ft as [[? ?]|], ft' as [[? ?]|]; done. Qed.

(** In a world where nothing fails, nothing strikes. *)
Lemma struck_raise_calm e ft' : ~ struck_raise e None ft'.
Proof. intros (n & [[? _] | (m & next & ? & _)]); discriminate. Qed.

Lemma struck_kill_calm ft' : ~ struck_kill None ft'.
Proof. intros (_ & n & ?). discriminate. Qed.

Lemma struck_raise_some e ft ft' : struck_raise e ft ft' -> ft <> None.
Proof. intros H ->. by apply struck_raise_calm in H. Qed.

Lemma struck_kill_some ft ft' : struck_kill ft ft' -> ft <> None.
Proof. intros H ->. by apply struck_kill_calm in H. Qed.

Lemma string_app_assoc (a b c : string) : (a +:+ b) +:+ c = a +:+ (b +:+ c).
Proof. induction a; cbn; congruence. Qed.

Lemma string_app_nil_r (a : string) : a +:+ "" = a.
Proof. induction a; cbn; congruence. Qed.

Lemma prefix_refl s : String.prefix s s = true.
Proof. induction s as [|c s IH]; cbn; auto. destruct (ascii_dec c c); congruence. Qed.

Lemma prefix_nil s : String.prefix "" s = true.
Proof. destruct s; reflexivity. Qed.

Lemma tick_run fs ft ns sin e :
  exists r ft', tick (mkW fs ft ns sin e) = (r, mkW fs ft' ns sin e) /\ fault_ok r ft ft'.
Proof.
  destruct ft as [[[|n] [x| |x m next]]|];
    (eexists _, _; split; [reflexivity|]; cbn;
     unfold struck_raise, struck_kill; eauto 10).
Qed.

Ltac run_tick :=
  match goal with
  | |- context [tick (mkW ?fs ?ft ?ns ?sin ?e)] =>
      let r := fresh "r" in
      let ft' := fresh "ft" in
      let E := fresh "E" in
      let F := fresh "F" in
      destruct (tick_run fs ft ns sin e) as (r & ft' & E & F);
      rewrite E; clear E;
      destruct r as [[]|?|]; cbn [fault_ok] in F;
      cbn [set_files set_tmp_names set_fault files fault tmp_names stdin env]
  end.

(** Writing [data] after [pre]: some prefix of [data] arrives; all of it
    when the write ends normally. *)
Lemma write_bytes_run p data : forall fs ft ns sin e pre,
  fs !! p = Some pre ->
  exists r written ft',
    write_bytes p data (mkW fs ft ns sin e)
      = (r, mkW (<[p := pre +:+ written]> fs) ft' ns sin e)
    /\ fault_ok r ft ft'
    /\ String.prefix written data = true
    /\ (forall u, r = Ok u -> written = data).
Proof.
  induction data as [|c rest IH]; intros fs ft ns sin e pre Hp.
  - exists (Ok tt), ""%string, ft. cbn. rewrite string_app_nil_r, insert_id by done.
    repeat split; auto. apply still_pending_refl.
  - assert (Hstep : forall ft1,
       tick (mkW fs ft ns sin e) = (Ok tt, mkW fs ft1 ns sin e) ->
       still_pending ft ft1 ->
       exists r written ft',
         write_bytes p (String c rest) (mkW fs ft ns sin e)
           = (r, mkW (<[p := pre +:+ written]> fs) ft' ns sin e)
         /\ fault_ok r ft ft'
         /\ String.prefix written (String c rest) = true
         /\ (forall u, r = Ok u -> written = String c rest)).
    { intros ft1 Htick Hpend.
      destruct (IH (<[p := pre +:+ String c ""]> fs) ft1 ns sin e (pre +:+ String c ""))
        as (r & written & ft' & Hrun & Hf & Hpre & Hall); [apply lookup_insert_eq|].
      exists r, (String c written), ft'.
      cbn [write_bytes]. unfold bind at 1. rewrite Htick.
      unfold bind at 1, modify_files at 1, set_files.
      cbn [files fault tmp_names stdin env].
      rewrite Hp. unfold default, from_option, id.
      rewrite Hrun, insert_insert_eq, string_app_assoc. cbn.
      repeat split; auto.
      - eapply fault_ok_trans; eauto.
      - rewrite Hpre. destruct (ascii_dec c c); congruence.
      - intros u Hu. f_equal. eauto. }
    destruct ft as [[[|n] f]|].
    + destruct f as [x| |x m next];
        [exists (Raise x), ""%string, None
        |exists Killed, ""%string, None
        |exists (Raise x), ""%string, (Some (m, next))];
        cbn; rewrite string_app_nil_r, insert_id by done;
        (split; [reflexivity|]); (split; [|split; [reflexivity|discriminate]]);
        unfold struck_raise, struck_kill; eauto 10.
    + apply (Hstep (Some (n, f))); reflexivity.
    + apply (Hstep None); reflexivity.
Qed.

Lemma first_free_fresh fs dir suffix : forall names p rest,
  first_free fs dir suffix names = Some (p, rest) ->
  fs !! p = None /\ parent p = dir /\
  exists n, n ∈ names /\ name p = "tmp" +:+ n +:+ suffix.
Proof.
  induction names as [|n names IH]; intros p rest; cbn; [discriminate|].
  destruct (fs !! _) eqn:E.
  - intros Hf. destruct (IH _ _ Hf) as (? & ? & m & ? & ?).
    repeat split; auto. exists m. split; [right|]; auto.
  - intros [= <- <-]. repeat split; auto. exists n. split; [left|]; auto.
Qed.

Lemma catches_BaseException e : catches [BaseException] e = true.
Proof. destruct e as [[]|]; reflexivity. Qed.

(** The steps inside the [try] of both atomic writers. *)
Lemma body_run tmp path payload fs ft ns sin e :
  fs !! tmp = Some ""%string ->
  exists r fs' ft',
    (write_flush_fsync tmp payload ;; replace tmp path) (mkW fs ft ns sin e)
      = (r, mkW fs' ft' ns sin e)
    /\ fault_ok r ft ft'
    /\ match r with
       | Ok _ => fs' = <[path := payload]> (delete tmp fs)
       | _ => exists partial, fs' = <[tmp := partial]> fs
                              /\ String.prefix partial payload = true
       end.
Proof.
  intros Htmp. unfold write_flush_fsync, replace.
  unfold bind at 1. unfold bind at 1.
  run_tick.
  2,3: eexists _, _, _; split; [reflexivity|]; split; [assumption|];
       exists ""%string; rewrite insert_id by done; split; [done|apply prefix_nil].
  unfold bind at 1.
  destruct (write_bytes_run tmp payload fs ft0 ns sin e ""%string Htmp)
    as (r & written & ft1 & E & F1 & Hpre & Hall).
  rewrite E; clear E. cbn [String.append] in *.
  destruct r as [[]|x|].
  2,3: eexists _, _, _; split; [reflexivity|]; split;
       [eapply fault_ok_trans; eauto | eauto].
  rewrite (Hall tt eq_refl) in *. clear Hall written Hpre.
  unfold bind at 1. run_tick.
  2,3: eexists _, _, _; split; [reflexivity|]; split;
       [eauto using fault_ok_trans, still_pending_trans
       | exists payload; split; [done|apply prefix_refl]].
  run_tick.
  2,3: eexists _, _, _; split; [reflexivity|]; split;
       [eauto 6 using fault_ok_trans, still_pending_trans
       | exists payload; split; [done|apply prefix_refl]].
  unfold bind at 1. run_tick.
  2,3: eexists _, _, _; split; [reflexivity|]; split;
       [eauto 8 using fault_ok_trans, still_pending_trans
       | exists payload; split; [done|apply prefix_refl]].
  unfold bind, get_files, modify_files. cbn [files set_files fault tmp_names stdin env].
  rewrite lookup_insert_eq. cbn [files set_files fault tmp_names stdin env].
  eexists _, _, _; split; [reflexivity|]. split.
  - cbn [fault_ok fault] in *. eauto 10 using still_pending_trans.
  - cbn [files]. by rewrite delete_insert_eq.
Qed.

Definition is_temp_of (path tmp : Path) : Prop :=
  parent tmp = parent path /\ exists n, name tmp = "tmp" +:+ n +:+ ".tmp".

(** The ways a run of the atomic writer can end, with the files and the
    pending failure it leaves: the payload at the target; no free name for
    the temporary file; a failure, after which the temporary file is gone,
    or stays when the removal failed as well; a kill, with or without the
    temporary file. *)
Inductive atomic_result (path : Path) (payload : string)
    (fs : gmap Path string) (ft : option (nat * Fault))
  : Outcome unit -> gmap Path string -> option (nat * Fault) -> Prop :=
| ar_done ft' :
    still_pending ft ft' ->
    atomic_result path payload fs ft (Ok tt) (<[path := payload]> fs) ft'
| ar_no_name ft' :
    still_pending ft ft' ->
    atomic_result path payload fs ft (Raise (Error FileExistsError)) fs ft'
| ar_failed x ft' :
    ft <> None ->
    atomic_result path payload fs ft (Raise x) fs ft'
| ar_failed_left x tmp partial ft' :
    ft <> None ->
    fs !! tmp = None -> is_temp_of path tmp ->
    String.prefix partial payload = true ->
    atomic_result path payload fs ft (Raise x) (<[tmp := partial]> fs) ft'
| ar_killed ft' :
    ft <> None ->
    atomic_result path payload fs ft Killed fs ft'
| ar_killed_left tmp partial ft' :
    ft <> None ->
    fs !! tmp = None -> is_temp_of path tmp ->
    String.prefix partial payload = true ->
    atomic_result path payload fs ft Killed (<[tmp := partial]> fs) ft'.

(** *** Runs that meet their failure at a given step *)

Ltac step_tick :=
  cbn [tick fault]; unfold set_fault, set_files;
  cbn [files fault tmp_names stdin env].

(** How the failure [f] ends the step it strikes, and what it leaves
    pending. *)
Definition outcome_of {A} (f : Fault) : Outcome A :=
  match f with
  | FaultRaise e | FaultRaiseThen e _ _ => Raise e
  | FaultKill => Killed
  end.

Definition after (f : Fault) : option (nat * Fault) :=
  match f with
  | FaultRaiseThen _ m next => Some (m, next)
  | _ => None
  end.

Lemma tick_strikes fs f ns sin e :
  tick (mkW fs (Some (O, f)) ns sin e) = (outcome_of f, mkW fs (after f) ns sin e).
Proof. by destruct f. Qed.

Lemma bind_strikes {A B} (m : M A) (k : A -> M B) w f w' :
  m w = (outcome_of f, w') -> bind m k w = (outcome_of f, w').
Proof. unfold bind. intros ->. by destruct f. Qed.

Lemma substring_0_0 s : substring 0 0 s = EmptyString.
Proof. by destruct s. Qed.

Lemma substring_all s : forall k, (String.length s <= k)%nat -> substring 0 k s = s.
Proof.
  induction s as [|c s IH]; intros [|k] Hk; cbn in *; try done; try lia.
  f_equal. apply IH. lia.
Qed.

Lemma write_bytes_at p data : forall fs n f ns sin e pre,
  fs !! p = Some pre ->
  write_bytes p data (mkW fs (Some (n, f)) ns sin e)
  = if (n <? String.length data)%nat
    then (outcome_of f, mkW (<[p := pre +:+ substring 0 n data]> fs) (after f) ns sin e)
    else (Ok tt, mkW (<[p := pre +:+ data]> fs)
                   (Some ((n - String.length data)%nat, f)) ns sin e).
Proof.
  induction data as [|c rest IH]; intros fs n f ns sin e pre Hp.
  - cbn [write_bytes String.length]. destruct (Nat.ltb_spec n 0); [lia|].
    rewrite Nat.sub_0_r, string_app_nil_r, insert_id by done. reflexivity.
  - cbn [write_bytes String.length]. destruct n as [|n].
    + rewrite (bind_strikes _ _ _ f _ (tick_strikes fs f ns sin e)).
      cbn [Nat.ltb Nat.leb substring]. by rewrite string_app_nil_r, insert_id.
    + unfold bind at 1. step_tick.
      unfold bind at 1, modify_files at 1, set_files.
      cbn [set_fault files fault tmp_names stdin env]. rewrite Hp.
      unfold default, from_option, id.
      rewrite (IH _ n f ns sin e (pre +:+ String c "")) by apply lookup_insert_eq.
      rewrite insert_insert_eq, !string_app_assoc. cbn [String.append substring].
      change (S n <? S (String.length rest))%nat with (n <? String.length rest)%nat.
      rewrite insert_insert_eq. reflexivity.
Qed.

(** The steps inside the [try], with the failure due at their [n]-th step:
    the descriptor is opened at step 0, the bytes are written at the steps
    after it, then come [fsync], the close and the rename. *)
Lemma body_at tmp path payload fs n f ns sin e :
  fs !! tmp = Some ""%string ->
  (write_flush_fsync tmp payload ;; replace tmp path) (mkW fs (Some (n, f)) ns sin e)
  = if (n <=? String.length payload + 3)%nat
    then (outcome_of f,
          mkW (<[tmp := substring 0 (n - 1) payload]> fs) (after f) ns sin e)
    else (Ok tt,
          mkW (<[path := payload]> (delete tmp fs))
            (Some ((n - (String.length payload + 4))%nat, f)) ns sin e).
Proof.
  intros Htmp. unfold write_flush_fsync.
  destruct n as [|n].
  { cbn [Nat.leb Nat.sub]. rewrite substring_0_0, insert_id by done.
    apply bind_strikes, bind_strikes, tick_strikes. }
  unfold bind at 1. unfold bind at 1.
  step_tick.
  unfold bind at 1. rewrite (write_bytes_at tmp payload fs n f ns sin e ""%string Htmp).
  cbn [String.append]. rewrite Nat.sub_succ, Nat.sub_0_r.
  destruct (Nat.ltb_spec n (String.length payload)) as [Hlt|Hge].
  { destruct (Nat.leb_spec (S n) (String.length payload + 3)); [|lia]. by destruct f. }
  rewrite (substring_all payload n Hge).
  destruct (n - String.length payload)%nat as [|[|[|k]]] eqn:Ek.
  - destruct (Nat.leb_spec (S n) (String.length payload + 3)); [|lia].
    unfold bind at 1. rewrite tick_strikes. by destruct f.
  - destruct (Nat.leb_spec (S n) (String.length payload + 3)); [|lia].
    unfold bind at 1. step_tick.
    rewrite tick_strikes. by destruct f.
  - destruct (Nat.leb_spec (S n) (String.length payload + 3)); [|lia].
    unfold bind at 1. step_tick. step_tick.
    unfold replace. rewrite (bind_strikes _ _ _ f _ (tick_strikes _ f ns sin e)).
    reflexivity.
  - destruct (Nat.leb_spec (S n) (String.length payload + 3)); [lia|].
    unfold bind at 1. step_tick. step_tick.
    unfold replace, bind, get_files, modify_files.
    step_tick.
    rewrite lookup_insert_eq. cbn [set_files files fault tmp_names stdin env].
    rewrite delete_insert_eq.
    replace (S n - (String.length payload + 4))%nat with k by lia. reflexivity.
Qed.

(** What an atomic writer for [path] and [payload] does, [first] I/O steps
    into the run [m] (the steps before the temporary file is made) and
    [last] the step of its rename:
    - with a free name [tmp] to draw, a run that meets no failure, or
      meets it after the rename, puts the payload at the target and
      changes nothing else;
    - [tmp] is a new file of the target's directory, and the payload goes
      there first: a kill at a step up to the rename leaves [tmp] with the
      bytes written so far;
    - an exception at such a step is raised again after [tmp] is removed,
      and the files are as before;
    - when the removal fails as well, [tmp] stays with the bytes written
      so far: an [OSError] of the removal is passed over and the first
      exception raised again, any other exception takes its place;
    - a failure before the temporary file is made leaves the files alone,
      and so does [FileExistsError] when no name is free. *)
Definition atomic_writer (m : M unit) (first : nat) (path : Path) (payload : string)
    : Prop :=
  forall fs ns sin e,
    let last := (first + String.length payload + 4)%nat in
    (forall x n, (n <= first)%nat ->
       m (mkW fs (Some (n, FaultRaise x)) ns sin e) = (Raise x, mkW fs None ns sin e))
    /\ (first_free fs (parent path) ".tmp" ns = None ->
        m (mkW fs None ns sin e) = (Raise (Error FileExistsError), mkW fs None [] sin e))
    /\ forall tmp rest,
         first_free fs (parent path) ".tmp" ns = Some (tmp, rest) ->
         parent tmp = parent path /\ fs !! tmp = None
         /\ m (mkW fs None ns sin e) = (Ok tt, mkW (<[path := payload]> fs) None rest sin e)
         /\ (forall n f, (last < n)%nat ->
               m (mkW fs (Some (n, f)) ns sin e)
               = (Ok tt, mkW (<[path := payload]> fs)
                           (Some ((n - last - 1)%nat, f)) rest sin e))
         /\ forall n, (first < n <= last)%nat ->
              let partial := substring 0 (n - first - 2) payload in
              m (mkW fs (Some (n, FaultKill)) ns sin e)
              = (Killed, mkW (<[tmp := partial]> fs) None rest sin e)
              /\ (forall x,
                    m (mkW fs (Some (n, FaultRaise x)) ns sin e)
                    = (Raise x, mkW fs None rest sin e))
              /\ (forall x x2,
                    m (mkW fs (Some (n, FaultRaiseThen x 0 (FaultRaise x2))) ns sin e)
                    = (Raise (if issubclass (class_of x2) OSError then x else x2),
                       mkW (<[tmp := partial]> fs) None rest sin e)).

Lemma atomic_writer_ext m m' first path payload :
  (forall w, m' w = m w) ->
  atomic_writer m first path payload -> atomic_writer m' first path payload.
Proof.
  intros Hext Hm fs ns sin e. cbn zeta.
  destruct (Hm fs ns sin e) as (Hearly & Hnone & Hfree). cbn zeta in Hfree.
  split; [|split].
  - intros x n Hn. rewrite Hext. by apply Hearly.
  - intros Hno. rewrite Hext. by apply Hnone.
  - intros tmp rest Hf. destruct (Hfree tmp rest Hf) as (Hdir & Hnew & Hcalm & Hlate & Hat).
    split; [done|]. split; [done|]. split; [by rewrite Hext|]. split.
    + intros n f Hn. rewrite Hext. by apply Hlate.
    + intros n Hn. destruct (Hat n Hn) as (Hkill & Hraise & Htwice).
      split; [by rewrite Hext|]. split; intros; rewrite Hext; [apply Hraise|apply Htwice].
Qed.

(** One more I/O step in front of an atomic writer. *)
Lemma atomic_writer_after_tick m first path payload :
  atomic_writer m first path payload ->
  atomic_writer (tick ;; m) (S first) path payload.
Proof.
  intros Hm fs ns sin e. cbn zeta.
  destruct (Hm fs ns sin e) as (Hearly & Hnone & Hfree). cbn zeta in Hfree.
  split; [|split].
  - intros x [|n] Hn; [reflexivity|].
    unfold bind. step_tick.
    apply Hearly. lia.
  - intros Hno. unfold bind. cbn [tick fault]. by apply Hnone.
  - intros tmp rest Hf. destruct (Hfree tmp rest Hf) as (Hdir & Hnew & Hcalm & Hlate & Hat).
    split; [done|]. split; [done|]. split; [|split].
    + unfold bind. cbn [tick fault]. exact Hcalm.
    + intros [|n] f Hn; [lia|].
      unfold bind. step_tick.
      rewrite Hlate by lia. repeat (f_equal; try lia).
    + intros [|n] Hn; [lia|].
      destruct (Hat n ltac:(lia)) as (Hkill & Hraise & Htwice).
      replace (S n - S first - 2)%nat with (n - first - 2)%nat by lia.
      unfold bind. step_tick.
      split; [exact Hkill|]. split; [exact Hraise|exact Htwice].
Qed.

Section AtomicWrite.

(** The writers differ in how they spell the removal of the temporary
    file; either way it removes the file unless its own step fails, and
    then passes over an [OSError]. *)
Variable cleanup : Path -> M unit.
Hypothesis cleanup_at : forall tmp fs ft ns sin e c,
  fs !! tmp = Some c ->
  cleanup tmp (mkW fs ft ns sin e)
  = match ft with
    | None => (Ok tt, mkW (delete tmp fs) None ns sin e)
    | Some (S n, f) => (Ok tt, mkW (delete tmp fs) (Some (n, f)) ns sin e)
    | Some (O, f) =>
        match outcome_of f with
        | Raise x =>
            if issubclass (class_of x) OSError then (Ok tt, mkW fs (after f) ns sin e)
            else (Raise x, mkW fs (after f) ns sin e)
        | r => (r, mkW fs (after f) ns sin e)
        end
    end.

Definition atomic_write (path : Path) (payload : string) : M unit :=
  tmp_path <- mkstemp (parent path) ".tmp" ;;
  try_except
    (write_flush_fsync tmp_path payload ;;
     replace tmp_path path)
    [BaseException]
    (fun x => cleanup tmp_path ;; raise x).

Lemma atomic_write_run path payload fs ft ns sin e :
  exists r fs' ft' ns',
    atomic_write path payload (mkW fs ft ns sin e) = (r, mkW fs' ft' ns' sin e)
    /\ atomic_result path payload fs ft r fs' ft'.
Proof.
  unfold atomic_write, mkstemp. unfold bind at 1. unfold bind at 1.
  run_tick.
  2: { eexists _, _, _, _. split; [reflexivity|].
       apply ar_failed. eauto using struck_raise_some. }
  2: { eexists _, _, _, _. split; [reflexivity|].
       apply ar_killed. eauto using struck_kill_some. }
  destruct (first_free fs (parent path) ".tmp" ns) as [[tmp rest]|] eqn:Hfree.
  2: { eexists _, _, _, _. split; [reflexivity|]. cbn. by constructor. }
  apply first_free_fresh in Hfree as (Hnone & Hdir & n & _ & Hname).
  assert (is_temp_of path tmp) as Htemp by (split; eauto).
  unfold try_except, set_tmp_names, set_files.
  cbn [files fault tmp_names stdin env].
  destruct (body_run tmp path payload (<[tmp := ""%string]> fs) ft0 rest sin e)
    as (r & fs' & ft1 & E & F1 & Hfs); [apply lookup_insert_eq|].
  rewrite E; clear E.
  pose proof (fault_ok_trans _ _ _ _ F F1) as F2.
  destruct r as [[]|x|]; cbn [fault_ok] in F2.
  - subst fs'. rewrite delete_insert_id by done.
    eexists _, _, _, _. split; [reflexivity|].
    constructor. eauto using still_pending_trans.
  - destruct Hfs as (partial & -> & Hpre). rewrite catches_BaseException.
    apply struck_raise_some in F2.
    rewrite insert_insert_eq.
    unfold bind. rewrite (cleanup_at tmp _ ft1 rest sin e partial) by apply lookup_insert_eq.
    rewrite delete_insert_id by done.
    destruct ft1 as [[[|k] f]|].
    + destruct f as [x2| |x2 m next]; cbn [outcome_of after].
      * destruct (issubclass (class_of x2) OSError);
          (eexists _, _, _, _; split; [reflexivity|]); by apply ar_failed_left.
      * eexists _, _, _, _. split; [reflexivity|]. by apply ar_killed_left.
      * destruct (issubclass (class_of x2) OSError);
          (eexists _, _, _, _; split; [reflexivity|]); by apply ar_failed_left.
    + eexists _, _, _, _. split; [reflexivity|]. by apply ar_failed.
    + eexists _, _, _, _. split; [reflexivity|]. by apply ar_failed.
  - destruct Hfs as (partial & -> & Hpre).
    apply struck_kill_some in F2.
    rewrite insert_insert_eq.
    eexists _, _, _, _. split; [reflexivity|]. by apply ar_killed_left.
Qed.

Lemma atomic_write_is_atomic_writer path payload :
  atomic_writer (atomic_write path payload) 0 path payload.
Proof.
  intros fs ns sin e. cbn zeta. split; [|split].
  - intros x n Hn. assert (n = 0%nat) as -> by lia. reflexivity.
  - intros Hno. unfold atomic_write, mkstemp, bind, tick. cbn [fault files tmp_names].
    by rewrite Hno.
  - intros tmp rest Hfree.
    pose proof (first_free_fresh _ _ _ _ _ _ Hfree) as (Hnew & Hdir & _).
    split; [done|]. split; [done|].
    assert (forall ft,
               atomic_write path payload (mkW fs ft ns sin e)
               = match tick (mkW fs ft ns sin e) with
                 | (Ok _, w1) =>
                     try_except
                       (write_flush_fsync tmp payload ;; replace tmp path)
                       [BaseException] (fun x => cleanup tmp ;; raise x)
                       (mkW (<[tmp := ""%string]> fs) (fault w1) rest sin e)
                 | (Raise x, w1) => (Raise x, w1)
                 | (Killed, w1) => (Killed, w1)
                 end) as Hrun.
    { intros ft. unfold atomic_write, mkstemp. unfold bind at 1. unfold bind at 1.
      destruct ft as [[[|k] [x| |x m next]]|];
        step_tick; try reflexivity;
        by rewrite Hfree. }
    assert (<[tmp := ""%string]> fs !! tmp = Some ""%string) as Htmp
      by apply lookup_insert_eq.
    split; [|split].
    + rewrite Hrun. cbn [tick fault]. unfold try_except.
      destruct (body_run tmp path payload (<[tmp := ""%string]> fs) None rest sin e Htmp)
        as (r & fs2 & ft2 & E2 & F2 & Hfs2).
      rewrite E2. destruct r as [[]|x|]; cbn in F2.
      * apply still_pending_calm in F2 as ->. subst fs2.
        by rewrite delete_insert_id.
      * by apply struck_raise_calm in F2.
      * by apply struck_kill_calm in F2.
    + intros [|n] f Hn; [lia|]. rewrite Hrun.
      step_tick. unfold try_except.
      rewrite (body_at tmp path payload _ n f rest sin e Htmp).
      destruct (Nat.leb_spec n (String.length payload + 3)); [lia|].
      rewrite delete_insert_id by done. repeat (f_equal; try lia).
    + intros [|n] Hn; [lia|]. cbn zeta.
      replace (S n - 0 - 2)%nat with (n - 1)%nat by lia.
      split; [|split].
      * rewrite Hrun. step_tick.
        unfold try_except. rewrite (body_at tmp path payload _ n _ rest sin e Htmp).
        destruct (Nat.leb_spec n (String.length payload + 3)); [|lia].
        cbn [outcome_of after]. by rewrite insert_insert_eq.
      * intros x. rewrite Hrun. step_tick.
        unfold try_except. rewrite (body_at tmp path payload _ n _ rest sin e Htmp).
        destruct (Nat.leb_spec n (String.length payload + 3)); [|lia].
        cbn [outcome_of after]. rewrite catches_BaseException, insert_insert_eq.
        unfold bind. rewrite (cleanup_at tmp _ None rest sin e _) by apply lookup_insert_eq.
        by rewrite delete_insert_id.
      * intros x x2. rewrite Hrun. step_tick.
        unfold try_except. rewrite (body_at tmp path payload _ n _ rest sin e Htmp).
        destruct (Nat.leb_spec n (String.length payload + 3)); [|lia].
        cbn [outcome_of after]. rewrite catches_BaseException, insert_insert_eq.
        unfold bind.
        rewrite (cleanup_at tmp _ (Some (0%nat, FaultRaise x2)) rest sin e _)
          by apply lookup_insert_eq.
        cbn [outcome_of after].
        by destruct (issubclass (class_of x2) OSError).
Qed.

End AtomicWrite.

Lemma unlink_at missing_ok tmp fs ft ns sin e c :
  fs !! tmp = Some c ->
  unlink missing_ok tmp (mkW fs ft ns sin e)
  = match ft with
    | None => (Ok tt, mkW (delete tmp fs) None ns sin e)
    | Some (S n, f) => (Ok tt, mkW (delete tmp fs) (Some (n, f)) ns sin e)
    | Some (O, f) => (outcome_of f, mkW fs (after f) ns sin e)
    end.
Proof.
  intros Htmp. unfold unlink.
  destruct ft as [[[|n] f]|].
  - apply bind_strikes, tick_strikes.
  - unfold bind, tick, get_files, modify_files. cbn [fault files set_fault]. by rewrite Htmp.
  - unfold bind, tick, get_files, modify_files. cbn [fault files]. by rewrite Htmp.
Qed.

Lemma catches_OSError x : catches [OSError] x = issubclass (class_of x) OSError.
Proof. unfold catches. cbn. apply orb_false_r. Qed.

Lemma suppress_unlink_at tmp fs ft ns sin e c :
  fs !! tmp = Some c ->
  suppress OSError (unlink true tmp) (mkW fs ft ns sin e)
  = match ft with
    | None => (Ok tt, mkW (delete tmp fs) None ns sin e)
    | Some (S n, f) => (Ok tt, mkW (delete tmp fs) (Some (n, f)) ns sin e)
    | Some (O, f) =>
        match outcome_of f with
        | Raise x =>
            if issubclass (class_of x) OSError then (Ok tt, mkW fs (after f) ns sin e)
            else (Raise x, mkW fs (after f) ns sin e)
        | r => (r, mkW fs (after f) ns sin e)
        end
    end.
Proof.
  intros Htmp. unfold suppress, try_except. rewrite (unlink_at _ _ _ _ _ _ _ _ Htmp).
  destruct ft as [[[|n] [x| |x m next]]|]; cbn [outcome_of]; try reflexivity;
    by rewrite catches_OSError.
Qed.

Lemma except_unlink_at tmp fs ft ns sin e c :
  fs !! tmp = Some c ->
  try_except (unlink false tmp) [OSError] (fun _ => ret tt) (mkW fs ft ns sin e)
  = match ft with
    | None => (Ok tt, mkW (delete tmp fs) None ns sin e)
    | Some (S n, f) => (Ok tt, mkW (delete tmp fs) (Some (n, f)) ns sin e)
    | Some (O, f) =>
        match outcome_of f with
        | Raise x =>
            if issubclass (class_of x) OSError then (Ok tt, mkW fs (after f) ns sin e)
            else (Raise x, mkW fs (after f) ns sin e)
        | r => (r, mkW fs (after f) ns sin e)
        end
    end.
Proof.
  intros Htmp. unfold try_except. rewrite (unlink_at _ _ _ _ _ _ _ _ Htmp).
  destruct ft as [[[|n] [x| |x m next]]|]; cbn [outcome_of]; try reflexivity;
    by rewrite catches_OSError.
Qed.

Lemma suppress_unlink_removes tmp fs ns sin e c :
  fs !! tmp = Some c ->
  suppress OSError (unlink true tmp) (mkW fs None ns sin e)
    = (Ok tt, mkW (delete tmp fs) None ns sin e).
Proof. intros Htmp. by rewrite (suppress_unlink_at _ _ _ _ _ _ _ Htmp). Qed.

Lemma except_unlink_removes tmp fs ns sin e c :
  fs !! tmp = Some c ->
  try_except (unlink false tmp) [OSError] (fun _ => ret tt) (mkW fs None ns sin e)
    = (Ok tt, mkW (delete tmp fs) None ns sin e).
Proof. intros Htmp. by rewrite (except_unlink_at _ _ _ _ _ _ _ Htmp). Qed.

(** [try ... finally] with the [succeeded] flag is the [except BaseException]
    form with a re-raise. *)
Lemma try_finally_as_except {A} (body : M A) (cleanup : M unit) w :
  try_finally body (fun succeeded => if succeeded then ret tt else cleanup) w
  = try_except body [BaseException] (fun x => cleanup ;; raise x) w.
Proof.
  unfold try_finally, try_except. destruct (body w) as [[a|x|] w']; try reflexivity.
  by rewrite catches_BaseException.
Qed.

End Runs.

(** * Strings: stripping and splitting *)

Module Strings.
Import Py.

Definition all_chars (P : ascii -> bool) (s : string) : bool :=
  forallb P (list_ascii_of_string s).

Definition comma_free (s : string) : bool :=
  all_chars (fun c => negb (Ascii.eqb c ",")) s.

(** Text of ASCII characters only: there the model's whitespace and letter
    cases are all that Python knows. *)
Definition is_ascii (s : string) : bool :=
  all_chars (fun c => N.ltb (N_of_ascii c) 128) s.

(** Text that, stripped of ASCII whitespace, is empty or begins and ends
    with an ASCII character: there [str.strip()] strips no more than
    [strip] (the whitespace beyond ASCII, U+0085 and U+00A0 among it,
    begins and ends with a byte from 128 on). *)
Definition ascii_ends (s : string) : bool :=
  match list_ascii_of_string (strip s) with
  | [] => true
  | c :: rest => (N.ltb (N_of_ascii c) 128 && N.ltb (N_of_ascii (List.last rest c)) 128)%bool
  end.

Lemma all_chars_lstrip P s : all_chars P s = true -> all_chars P (lstrip s) = true.
Proof.
  unfold all_chars. induction s as [|c s IH]; cbn; [done|].
  intros [Hc Hs]%andb_true_iff. destruct (isspace c); [auto|].
  cbn. by rewrite Hc, Hs.
Qed.

Lemma rstrip_cons c s :
  rstrip (String c s)
  = if (isspace c && bool_decide (rstrip s = EmptyString))%bool then EmptyString
    else String c (rstrip s).
Proof.
  cbn. destruct (rstrip s) eqn:E; cbn.
  - by destruct (isspace c).
  - by rewrite andb_false_r.
Qed.

Lemma all_chars_rstrip P s : all_chars P s = true -> all_chars P (rstrip s) = true.
Proof.
  unfold all_chars. induction s as [|c s IH]; [done|].
  rewrite rstrip_cons. cbn. intros [Hc Hs]%andb_true_iff.
  destruct (isspace c && bool_decide (rstrip s = EmptyString))%bool; [done|].
  cbn. by rewrite Hc, IH.
Qed.

Lemma all_chars_strip P s : all_chars P s = true -> all_chars P (strip s) = true.
Proof. intros Hs. by apply all_chars_rstrip, all_chars_lstrip. Qed.

Lemma lstrip_rstrip s : lstrip (rstrip s) = rstrip (lstrip s).
Proof.
  induction s as [|c s IH]; [done|].
  rewrite rstrip_cons. cbn [lstrip].
  destruct (isspace c) eqn:Hc; cbn [andb].
  - case_bool_decide as Hr.
    + by rewrite <- IH, Hr.
    + cbn [lstrip]. by rewrite Hc.
  - cbn [lstrip]. rewrite Hc, rstrip_cons, Hc. reflexivity.
Qed.

Lemma lstrip_idemp s : lstrip (lstrip s) = lstrip s.
Proof.
  induction s as [|c s IH]; [done|]. cbn.
  destruct (isspace c) eqn:Hc; [done|]. cbn. by rewrite Hc.
Qed.

Lemma rstrip_idemp s : rstrip (rstrip s) = rstrip s.
Proof.
  induction s as [|c s IH]; [done|].
  rewrite rstrip_cons.
  destruct (isspace c) eqn:Hc; cbn [andb].
  - case_bool_decide as Hr; [done|].
    rewrite rstrip_cons, Hc, IH. cbn [andb]. by rewrite bool_decide_eq_false_2.
  - by rewrite rstrip_cons, Hc, IH.
Qed.

Lemma strip_idemp s : strip (strip s) = strip s.
Proof.
  unfold strip. by rewrite lstrip_rstrip, lstrip_idemp, rstrip_idemp.
Qed.

Lemma strip_space s : strip (String " " s) = strip s.
Proof. reflexivity. Qed.

(** Splitting on a character. *)
Lemma string_of_list_app (l1 l2 : list ascii) :
  string_of_list_ascii (l1 ++ l2) = string_of_list_ascii l1 +:+ string_of_list_ascii l2.
Proof. induction l1 as [|c l1 IH]; cbn; [done|]. by rewrite IH. Qed.

Lemma split_on_go_field sep s : forall field,
  split_on_go sep field s
  = (string_of_list_ascii (rev field) +:+ hd EmptyString (split_on_go sep [] s))
      :: tl (split_on_go sep [] s).
Proof.
  induction s as [|c s IH]; intros field; cbn [split_on_go].
  - cbn. by rewrite Runs.string_app_nil_r.
  - destruct (Ascii.eqb c sep); cbn [hd tl rev app string_of_list_ascii].
    + by rewrite Runs.string_app_nil_r.
    + rewrite (IH (c :: field)), (IH [c]). cbn [hd tl rev app string_of_list_ascii].
      rewrite string_of_list_app, Runs.string_app_assoc. reflexivity.
Qed.

Lemma split_on_cons sep c s :
  split_on sep (String c s)
  = if Ascii.eqb c sep then EmptyString :: split_on sep s
    else String c (hd EmptyString (split_on sep s)) :: tl (split_on sep s).
Proof.
  unfold split_on. cbn [split_on_go]. destruct (Ascii.eqb c sep); [done|].
  by rewrite split_on_go_field.
Qed.

Lemma split_on_free sep a rest :
  all_chars (fun c => negb (Ascii.eqb c sep)) a = true ->
  split_on sep a = [a]
  /\ split_on sep (a +:+ String sep rest) = a :: split_on sep rest.
Proof.
  unfold all_chars. induction a as [|c a IH]; cbn [list_ascii_of_string forallb].
  - intros _. split; [done|]. cbn [String.append]. rewrite split_on_cons.
    by rewrite Ascii.eqb_refl.
  - intros [Hc Ha]%andb_true_iff. destruct (IH Ha) as [IH1 IH2].
    apply negb_true_iff in Hc. cbn [String.append].
    rewrite !split_on_cons, Hc, IH1, IH2. done.
Qed.

Lemma split_on_fields_free sep s :
  Forall (fun t => all_chars (fun c => negb (Ascii.eqb c sep)) t = true) (split_on sep s).
Proof.
  induction s as [|c s IH]; [by repeat constructor|].
  rewrite split_on_cons. destruct (Ascii.eqb c sep) eqn:Hc; [by constructor|].
  destruct (split_on sep s) as [|t l]; cbn [hd tl].
  - repeat constructor. unfold all_chars. cbn. by rewrite Hc.
  - apply Forall_cons in IH as [Ht Hl]. constructor; [|done].
    unfold all_chars in *. cbn. by rewrite Hc, Ht.
Qed.

End Strings.

(** * The atomic writer (commit_your_day [_write_atomic_json], pebbles [_save]) *)

Module AtomicWriter.
Import Py Runs.

(** What a run of an atomic writer for [path] and [payload] leaves, by the
    way it ends:
    - normally: the target holds the payload, nothing else changed, and no
      failure struck;
    - by an exception: the files are as before, or differ by one temporary
      file in the target's directory holding a prefix of the payload (the
      removal failed); where no failure was pending the exception is
      [FileExistsError], for want of a free name;
    - killed: the files are as before, or differ by one such temporary
      file. *)
Definition temp_left (path : Path) (payload : string)
    (fs fs' : gmap Path string) : Prop :=
  exists tmp partial,
    fs !! tmp = None /\ is_temp_of path tmp
    /\ String.prefix partial payload = true
    /\ fs' = <[tmp := partial]> fs.

Definition atomic_outcome (path : Path) (payload : string) (w : World)
    (res : Outcome unit * World) : Prop :=
  match res with
  | (Ok _, w') =>
      files w' = <[path := payload]> (files w)
      /\ still_pending (fault w) (fault w')
  | (Raise x, w') =>
      (files w' = files w \/ temp_left path payload (files w) (files w'))
      /\ (fault w = None ->
          x = Error FileExistsError /\ files w' = files w /\ fault w' = None)
  | (Killed, w') =>
      fault w <> None
      /\ (files w' = files w \/ temp_left path payload (files w) (files w'))
  end.

Lemma atomic_result_outcome path payload fs ft ns sin e r fs' ft' ns' :
  atomic_result path payload fs ft r fs' ft' ->
  atomic_outcome path payload (mkW fs ft ns sin e) (r, mkW fs' ft' ns' sin e).
Proof.
  destruct 1; cbn; unfold temp_left; auto.
  - split; [auto|]. intros ->. by apply still_pending_calm in H as ->.
  - split; [auto|]. done.
  - split; [eauto 10|]. done.
  - split; [done|]. eauto 10.
Qed.

Lemma atomic_result_later path payload fs ft ft0 r fs' ft' :
  still_pending ft ft0 ->
  atomic_result path payload fs ft0 r fs' ft' ->
  atomic_result path payload fs ft r fs' ft'.
Proof.
  intros Hp. destruct 1.
  - apply ar_done. eauto using still_pending_trans.
  - apply ar_no_name. eauto using still_pending_trans.
  - apply ar_failed. eauto using still_pending_some.
  - apply ar_failed_left; eauto using still_pending_some.
  - apply ar_killed. eauto using still_pending_some.
  - apply ar_killed_left; eauto using still_pending_some.
Qed.

Lemma bind_ext {A B} (m : M A) (k k' : A -> M B) w :
  (forall a w', k a w' = k' a w') -> bind m k w = bind m k' w.
Proof. intros Hk. unfold bind. destruct (m w) as [[a|x|] w']; auto. Qed.

Section WithLib.
Context `{PyLib}.

Definition json_cleanup (tmp : Path) : M unit := suppress OSError (unlink true tmp).

Lemma write_atomic_json_run path data fs ft ns sin e :
  exists r fs' ft' ns',
    CommitYourDay._write_atomic_json path data (mkW fs ft ns sin e)
      = (r, mkW fs' ft' ns' sin e)
    /\ atomic_result path (json_dumps data) fs ft r fs' ft'.
Proof.
  apply (atomic_write_run json_cleanup).
  intros. by eapply suppress_unlink_at.
Qed.

Lemma write_atomic_json_writer path data :
  atomic_writer (CommitYourDay._write_atomic_json path data) 0 path (json_dumps data).
Proof.
  apply (atomic_write_is_atomic_writer json_cleanup).
  intros. by eapply suppress_unlink_at.
Qed.

Definition pebbles_payload (pebbles : list Pebbles._Pebble) : string :=
  json_dumps (JList (map Pebbles.asdict pebbles)) +:+ String (ascii_of_nat 10) EmptyString.

Definition pebbles_cleanup (tmp : Path) : M unit :=
  try_except (unlink false tmp) [OSError] (fun _ => ret tt).

Lemma pebbles_save_unfold path pebbles w :
  Pebbles._save path pebbles w
  = (mkdir_p (parent path) ;;
     atomic_write pebbles_cleanup path (pebbles_payload pebbles)) w.
Proof.
  unfold Pebbles._save, atomic_write, pebbles_payload.
  apply bind_ext; intros _ w1. apply bind_ext; intros tmp w2.
  apply try_finally_as_except.
Qed.

Lemma pebbles_save_run path pebbles fs ft ns sin e :
  exists r fs' ft' ns',
    Pebbles._save path pebbles (mkW fs ft ns sin e) = (r, mkW fs' ft' ns' sin e)
    /\ atomic_result path (pebbles_payload pebbles) fs ft r fs' ft'.
Proof.
  rewrite pebbles_save_unfold. unfold mkdir_p. unfold bind at 1.
  run_tick.
  2: { eexists _, _, _, _. split; [reflexivity|].
       apply ar_failed. eauto using struck_raise_some. }
  2: { eexists _, _, _, _. split; [reflexivity|].
       apply ar_killed. eauto using struck_kill_some. }
  destruct (atomic_write_run pebbles_cleanup
              (fun tmp fs ft ns sin e c => except_unlink_at tmp fs ft ns sin e c)
              path (pebbles_payload pebbles) fs ft0 ns sin e)
    as (r & fs' & ft' & ns' & E & R).
  rewrite E.
  eexists _, _, _, _. split; [reflexivity|].
  eauto using atomic_result_later.
Qed.

Lemma pebbles_save_writer path pebbles :
  atomic_writer (Pebbles._save path pebbles) 1 path (pebbles_payload pebbles).
Proof.
  apply (atomic_writer_ext
           (tick ;; atomic_write pebbles_cleanup path (pebbles_payload pebbles))).
  - intros w. apply pebbles_save_unfold.
  - apply atomic_writer_after_tick.
    apply (atomic_write_is_atomic_writer pebbles_cleanup).
    intros. by eapply except_unlink_at.
Qed.

End WithLib.
End AtomicWriter.

(** C1 (as the code has it): for every target path and every payload that
    is UTF-8 text, the atomic writers of commit_your_day and pebbles write
    to a new temporary file in the target's directory and put the whole
    payload at the target by the final rename; whatever failures the run
    meets, an existing target holds its old bytes or the whole payload.  A
    failure before the rename completes is raised again and the files are
    as before, the temporary file removed, when the failure is the only
    one; when the removal fails too, the temporary file stays with the
    bytes written so far, as it does after a kill. *)
Theorem atomic_writer_all_or_nothing `{Py.PyLib} (path : Py.Path)
    (data : Py.json) (pebbles : list Pebbles._Pebble) :
  let kept_or_replaced (payload : string) (w : Py.World)
      (res : Py.Outcome unit * Py.World) :=
    forall old, Py.files w !! path = Some old ->
      Py.files res.2 !! path = Some old \/ Py.files res.2 !! path = Some payload in
  Py.utf8_valid (Py.json_dumps data) = true ->
  Py.utf8_valid (AtomicWriter.pebbles_payload pebbles) = true ->
  Runs.atomic_writer (CommitYourDay._write_atomic_json path data) 0 path
    (Py.json_dumps data)
  /\ (forall w,
        AtomicWriter.atomic_outcome path (Py.json_dumps data) w
          (CommitYourDay._write_atomic_json path data w)
        /\ kept_or_replaced (Py.json_dumps data) w
             (CommitYourDay._write_atomic_json path data w))
  /\ Runs.atomic_writer (Pebbles._save path pebbles) 1 path
       (AtomicWriter.pebbles_payload pebbles)
  /\ (forall w,
        AtomicWriter.atomic_outcome path (AtomicWriter.pebbles_payload pebbles) w
          (Pebbles._save path pebbles w)
        /\ kept_or_replaced (AtomicWriter.pebbles_payload pebbles) w
             (Pebbles._save path pebbles w)).
Proof.
  intros kept_or_replaced _ _.
  assert (Hkept : forall payload w res,
             AtomicWriter.atomic_outcome path payload w res ->
             kept_or_replaced payload w res).
  { intros payload w [[[]|x|] w'] Hout old Hold; cbn in *.
    - destruct Hout as [-> _]. right. apply lookup_insert_eq.
    - destruct Hout as [[-> | (tmp & partial & Hnone & _ & _ & ->)] _]; auto.
      left. rewrite lookup_insert_ne; [done|]. intros ->. congruence.
    - destruct Hout as [_ [-> | (tmp & partial & Hnone & _ & _ & ->)]]; auto.
      left. rewrite lookup_insert_ne; [done|]. intros ->. congruence. }
  split; [apply AtomicWriter.write_atomic_json_writer|].
  split.
  { intros [fs ft ns sin e].
    destruct (AtomicWriter.write_atomic_json_run path data fs ft ns sin e)
      as (r & fs' & ft' & ns' & E & R).
    apply (AtomicWriter.atomic_result_outcome _ _ _ _ ns sin e _ _ _ ns') in R.
    rewrite <- E in R. split; [exact R|by apply Hkept]. }
  split; [apply AtomicWriter.pebbles_save_writer|].
  intros [fs ft ns sin e].
  destruct (AtomicWriter.pebbles_save_run path pebbles fs ft ns sin e)
    as (r & fs' & ft' & ns' & E & R).
  apply (AtomicWriter.atomic_result_outcome _ _ _ _ ns sin e _ _ _ ns') in R.
  rewrite <- E in R. split; [exact R|by apply Hkept].
Qed.

(** A note saved over an old one where nothing fails: the target holds the
    new text and no temporary file is left. *)
Lemma atomic_writer_saves_a_note :
  let path := CommitYourDay.STORAGE_FILE in
  let note := Py.JList [Py.JStr "rest well"] in
  let e := {| Py.now_utc := "2024-06-15T12:00:00+00:00";
              Py.today := {| Calendar.year := 2024; Calendar.month := 6;
                             Calendar.day := 15 |};
              Py.uuid4 := "3f2b8c1e-7a4d-4e0b-9c56-1d2e3f4a5b6c" |} in
  @CommitYourDay._write_atomic_json JsonText.text_lib path note
    (Py.Build_World {[ path := "old" ]} None ["k3x9q2ab"] [] e)
  = (Py.Ok tt,
     Py.Build_World {[ path := JsonText.dumps note ]} None [] [] e).
Proof.
  cbn zeta.
  destruct (@atomic_writer_all_or_nothing JsonText.text_lib CommitYourDay.STORAGE_FILE
              (Py.JList [Py.JStr "rest well"]) []) as (Hwriter & _).
  - by vm_compute.
  - by vm_compute.
  - destruct (Hwriter {[ CommitYourDay.STORAGE_FILE := "old"%string ]} ["k3x9q2ab"%string] []
                {| Py.now_utc := "2024-06-15T12:00:00+00:00";
                   Py.today := {| Calendar.year := 2024; Calendar.month := 6;
                                  Calendar.day := 15 |};
                   Py.uuid4 := "3f2b8c1e-7a4d-4e0b-9c56-1d2e3f4a5b6c" |})
      as (_ & _ & Hfree).
    destruct (Hfree {| Py.parent := CommitYourDay.STORAGE_DIR;
                       Py.name := "tmpk3x9q2ab.tmp" |} [] eq_refl)
      as (_ & _ & Hcalm & _).
    rewrite Hcalm. by rewrite insert_singleton_eq.
Defined.

(** C1 fails as stated: when the write to the temporary file fails and
    the removal of that file fails as well, the exception of the write is
    raised again and the target is as it was, but the temporary file is
    not deleted: it stays with the bytes written so far. *)
Lemma temp_file_stays_when_removal_fails :
  let path := CommitYourDay.STORAGE_FILE in
  let tmp := {| Py.parent := CommitYourDay.STORAGE_DIR; Py.name := "tmpk3x9q2ab.tmp" |} in
  let e := {| Py.now_utc := "2024-06-15T12:00:00+00:00";
              Py.today := {| Calendar.year := 2024; Calendar.month := 6;
                             Calendar.day := 15 |};
              Py.uuid4 := "3f2b8c1e-7a4d-4e0b-9c56-1d2e3f4a5b6c" |} in
  let disk_full := Py.FaultRaiseThen (Py.Error Py.OSError) 0 (Py.FaultRaise (Py.Error Py.OSError)) in
  let w := Py.Build_World {[ path := "old" ]} (Some (4%nat, disk_full)) ["k3x9q2ab"] [] e in
  let res := @CommitYourDay._write_atomic_json JsonText.text_lib path
               (Py.JList [Py.JStr "rest well"]) w in
  res.1 = Py.Raise (Py.Error Py.OSError)
  /\ Py.files res.2 !! path = Some "old"
  /\ Py.files res.2 !! tmp = Some ("[" +:+ JsonText.newline)
  /\ (@Pebbles._save JsonText.text_lib path [] w).1 = Py.Raise (Py.Error Py.OSError)
  /\ Py.files (@Pebbles._save JsonText.text_lib path [] w).2 !! tmp = Some "["%string.
Proof. by vm_compute. Qed.

(** * What a computation leaves alone *)

Module Frames.
Import Py Runs.

Section Keeps.

(** A relation between the world before and after, kept by every step. *)
Variable I : World -> World -> Prop.
Hypothesis I_refl : forall w, I w w.
Hypothesis I_trans : forall a b c, I a b -> I b c -> I a c.

Definition keeps {A} (m : M A) : Prop := forall w, I w (m w).2.

Lemma keeps_ret {A} (a : A) : keeps (ret a).
Proof. intros w. apply I_refl. Qed.

Lemma keeps_raise {A} x : keeps (@raise A x).
Proof. intros w. apply I_refl. Qed.

Lemma keeps_bind {A B} (m : M A) (k : A -> M B) :
  keeps m -> (forall a, keeps (k a)) -> keeps (bind m k).
Proof.
  intros Hm Hk w. unfold bind. specialize (Hm w).
  destruct (m w) as [[a|x|] w']; cbn in *; auto.
  eapply I_trans; [exact Hm|]. apply Hk.
Qed.

Lemma keeps_try_except {A} (body : M A) clause handler :
  keeps body -> (forall x, keeps (handler x)) -> keeps (try_except body clause handler).
Proof.
  intros Hb Hh w. unfold try_except. specialize (Hb w).
  destruct (body w) as [[a|x|] w']; cbn in *; auto.
  destruct (catches clause x); auto.
  eapply I_trans; [exact Hb|]. apply Hh.
Qed.

Lemma keeps_for_each {A} (l : list A) (body : A -> M unit) :
  (forall x, keeps (body x)) -> keeps (for_each l body).
Proof.
  intros Hb. induction l as [|x l IH]; cbn.
  - apply keeps_ret.
  - apply keeps_bind; auto.
Qed.

Lemma keeps_get_files : keeps get_files.
Proof. intros w. apply I_refl. Qed.

Lemma keeps_exists q : keeps (exists_ q).
Proof. apply keeps_bind; [apply keeps_get_files|]. intros. apply keeps_ret. Qed.

(** The steps that change the world: a tick, and the file updates the
    relation allows. *)
Variable allowed : (gmap Path string -> gmap Path string) -> Prop.
Hypothesis I_tick : keeps tick.
Hypothesis I_modify : forall f, allowed f -> keeps (modify_files f).

Lemma keeps_write_bytes q data :
  (forall c, allowed (fun fs => <[q := c]> fs)) -> keeps (write_bytes q data).
Proof.
  intros Hq. induction data as [|c rest IH]; cbn [write_bytes].
  - apply keeps_ret.
  - apply keeps_bind; [apply I_tick|]. intros _.
    apply keeps_bind; [|auto].
    intros w. unfold modify_files, set_files. cbn.
    apply (I_modify (fun fs => <[q := default EmptyString (files w !! q) +:+ String c EmptyString]> fs)
             (Hq _) w).
Qed.

Lemma keeps_replace src dst :
  (forall c, allowed (fun fs => <[dst := c]> (delete src fs))) -> keeps (replace src dst).
Proof.
  intros Hok. apply keeps_bind; [apply I_tick|]. intros _.
  apply keeps_bind; [apply keeps_get_files|]. intros fs.
  destruct (fs !! src); [|apply keeps_raise].
  apply I_modify, Hok.
Qed.

Lemma keeps_copy2 src dst :
  (forall c, allowed (fun fs => <[dst := c]> fs)) -> keeps (copy2 src dst).
Proof.
  intros Hok. apply keeps_bind; [apply I_tick|]. intros _.
  apply keeps_bind; [apply keeps_get_files|]. intros fs.
  destruct (fs !! src); [|apply keeps_raise].
  apply keeps_bind.
  { apply keeps_bind; [apply I_tick|]. intros _. apply I_modify, Hok. }
  intros _. apply keeps_bind; [by apply keeps_write_bytes|].
  intros _. apply I_tick.
Qed.

(** Backup rotation keeps whatever allows updates of the backup files. *)
Lemma keeps_rotate path :
  (forall g c, allowed (fun fs => <[CommitYourDay._backup_path path g := c]> fs)) ->
  (forall g g' c, allowed (fun fs => <[CommitYourDay._backup_path path g := c]>
                                      (delete (CommitYourDay._backup_path path g') fs))) ->
  keeps (CommitYourDay._rotate_backups path).
Proof.
  intros Hins Hmove. unfold CommitYourDay._rotate_backups.
  apply keeps_bind.
  - apply keeps_for_each.
    intros gen. apply keeps_bind; [apply keeps_exists|].
    intros [|]; [|apply keeps_ret].
    apply keeps_replace. auto.
  - intros _. apply keeps_bind; [apply keeps_exists|].
    intros [|]; [|apply keeps_ret].
    apply keeps_copy2. auto.
Qed.

End Keeps.

(** The file at [p] is left as it was. *)
Definition untouched (p : Path) (w w' : World) : Prop :=
  files w' !! p = files w !! p.

Lemma untouched_refl p w : untouched p w w.
Proof. done. Qed.

Lemma untouched_trans p a b c : untouched p a b -> untouched p b c -> untouched p a c.
Proof. unfold untouched. congruence. Qed.

Lemma untouched_tick p : keeps (untouched p) tick.
Proof. intros [fs [[[|n] [x| |x m next]]|] ns sin e]; done. Qed.

(** No failure appears where none was pending. *)
Definition stays_calm (w w' : World) : Prop :=
  fault w = None -> fault w' = None.

Lemma stays_calm_trans a b c : stays_calm a b -> stays_calm b c -> stays_calm a c.
Proof. unfold stays_calm. auto. Qed.

Lemma stays_calm_tick : keeps stays_calm tick.
Proof. intros [fs [[[|n] [x| |x m next]]|] ns sin e]; done. Qed.

Lemma string_app_neq (s t : string) : t <> EmptyString -> s +:+ t <> s.
Proof.
  intros Ht Heq. apply Ht.
  induction s as [|c s IH]; cbn in Heq; [done|]. injection Heq. auto.
Qed.

Lemma backup_path_neq path g : CommitYourDay._backup_path path g <> path.
Proof.
  intros Heq. apply (f_equal name) in Heq. cbn in Heq.
  revert Heq. apply string_app_neq. discriminate.
Qed.

Lemma corrupted_path_neq path : CommitYourDay.corrupted_path path <> path.
Proof.
  intros Heq. apply (f_equal name) in Heq. cbn in Heq.
  revert Heq. apply string_app_neq. discriminate.
Qed.

(** Backup rotation never touches the live file, wherever it stops. *)
Lemma rotate_leaves_target path :
  keeps (untouched path) (CommitYourDay._rotate_backups path).
Proof.
  apply (keeps_rotate (untouched path) (untouched_refl path) (untouched_trans path)
           (fun f => forall fs, f fs !! path = fs !! path)).
  - apply untouched_tick.
  - intros f Hf w. apply Hf.
  - intros g c fs. apply lookup_insert_ne, backup_path_neq.
  - intros g g' c fs.
    rewrite lookup_insert_ne, lookup_delete_ne; auto using backup_path_neq.
Qed.

Lemma rotate_stays_calm path : keeps stays_calm (CommitYourDay._rotate_backups path).
Proof.
  apply (keeps_rotate stays_calm (fun w H => H) stays_calm_trans (fun _ => True));
    auto using stays_calm_tick.
  intros f _ w Hw. exact Hw.
Qed.

End Frames.

(** * Which tools save atomically *)

Module Saves.
Import Py Runs Frames AtomicWriter.

Section WithLib.
Context `{PyLib}.

(** The target after a run: as before, or holding all of [payload]. *)
Definition kept_or_replaced (path : Path) (payload : string) (w : World)
    (res : Outcome unit * World) : Prop :=
  files res.2 !! path = files w !! path \/ files res.2 !! path = Some payload.

(** [tempfile] can only collide with a target that has a temporary file's
    name and does not exist. *)
Definition no_temp_clash (path : Path) (w : World) : Prop :=
  is_Some (files w !! path) \/ ~ is_temp_of path path.

Lemma atomic_outcome_kept path payload w res :
  no_temp_clash path w ->
  atomic_outcome path payload w res ->
  kept_or_replaced path payload w res.
Proof.
  intros Hclash.
  assert (forall fs', temp_left path payload (files w) fs' ->
                      fs' !! path = files w !! path) as Hleft.
  { intros fs' (tmp & partial & Hnone & Htmp & _ & ->).
    apply lookup_insert_ne. intros ->.
    destruct Hclash as [[old Hold] | Hno]; [congruence | auto]. }
  destruct res as [[[]|x|] w']; unfold kept_or_replaced; cbn.
  - intros [-> _]. right. apply lookup_insert_eq.
  - intros [[-> | Ht] _]; auto.
  - intros [_ [-> | Ht]]; auto.
Qed.

Lemma save_store_kept path store w :
  no_temp_clash path w ->
  kept_or_replaced path (json_dumps (CommitYourDay.CommitStore_to_dict store)) w
    (CommitYourDay._save_store path store w).
Proof.
  intros Hclash. unfold CommitYourDay._save_store, CommitYourDay._ensure_storage_dir, mkdir_p.
  unfold kept_or_replaced, bind.
  pose proof (untouched_tick path w) as H1.
  destruct (tick w) as [[[]|x|] w1]; cbn in H1 |- *; auto.
  pose proof (rotate_leaves_target path w1) as H2.
  destruct (CommitYourDay._rotate_backups path w1) as [[[]|x|] w2]; cbn in H2 |- *;
    unfold untouched in *; try (left; congruence).
  destruct w2 as [fs2 ft2 ns2 sin2 e2].
  destruct (write_atomic_json_run path (CommitYourDay.CommitStore_to_dict store)
              fs2 ft2 ns2 sin2 e2) as (r & fs' & ft' & ns' & E & R).
  rewrite E.
  apply (atomic_result_outcome _ _ _ _ ns2 sin2 e2 _ _ _ ns') in R.
  apply atomic_outcome_kept in R.
  - unfold kept_or_replaced in R. cbn in *. rewrite <- H1, <- H2. exact R.
  - unfold no_temp_clash in *. cbn in *. rewrite H2, H1. exact Hclash.
Qed.

Lemma pebbles_save_kept path pebbles w :
  no_temp_clash path w ->
  kept_or_replaced path (pebbles_payload pebbles) w (Pebbles._save path pebbles w).
Proof.
  intros Hclash. destruct w as [fs ft ns sin e].
  destruct (pebbles_save_run path pebbles fs ft ns sin e)
    as (r & fs' & ft' & ns' & E & R).
  rewrite E.
  apply (atomic_result_outcome _ _ _ _ ns sin e _ _ _ ns') in R.
  rewrite <- E in *. by apply atomic_outcome_kept.
Qed.

(** A write in place that is killed right after the file was opened leaves
    it empty. *)
Lemma write_text_killed_on_open p data fs ns sin e :
  write_text p data (mkW fs (Some (1%nat, FaultKill)) ns sin e)
  = (Killed, mkW (<[p := EmptyString]> fs) None ns sin e).
Proof. destruct data; reflexivity. Qed.

End WithLib.

(** A host for the examples. *)
Definition host : Env :=
  {| now_utc := "2024-06-15T12:00:00+00:00";
     today := {| Calendar.year := 2024; Calendar.month := 6; Calendar.day := 15 |};
     uuid4 := "3f2b8c1e-7a4d-4e0b-9c56-1d2e3f4a5b6c" |}.

End Saves.

(** C5 (as the code has it): commit_your_day and pebbles save through a
    temporary file and an atomic rename, so wherever a save stops, killed
    included, the target holds its previous bytes or the whole new payload;
    capsule and memory_jar write their file in place, and a save killed
    right after the file was opened leaves it empty. *)
Theorem atomic_saves_only_in_two_tools `{Py.PyLib} (w : Py.World) (path : Py.Path)
    (store : CommitYourDay.CommitStore) (pebbles : list Pebbles._Pebble)
    (capsules : list Py.json) (memories : Py.json) :
  (Saves.no_temp_clash path w ->
   Saves.kept_or_replaced path
     (Py.json_dumps (CommitYourDay.CommitStore_to_dict store)) w
     (CommitYourDay._save_store path store w))
  /\ (Saves.no_temp_clash path w ->
      Saves.kept_or_replaced path (AtomicWriter.pebbles_payload pebbles) w
        (Pebbles._save path pebbles w))
  /\ (let killed := Py.set_fault (Some (1%nat, Py.FaultKill)) w in
      (Capsule.save_data capsules killed).1 = Py.Killed
      /\ Py.files (Capsule.save_data capsules killed).2 !! Capsule.DATA_FILE
         = Some EmptyString
      /\ (MemoryJar.save_jar memories killed).1 = Py.Killed
      /\ Py.files (MemoryJar.save_jar memories killed).2 !! MemoryJar.JAR_FILE
         = Some EmptyString).
Proof.
  split; [apply Saves.save_store_kept|].
  split; [apply Saves.pebbles_save_kept|].
  destruct w as [fs ft ns sin e]. cbn zeta.
  unfold Capsule.save_data, MemoryJar.save_jar, Py.set_fault. cbn [Py.files Py.tmp_names Py.stdin Py.env].
  rewrite !Saves.write_text_killed_on_open. cbn.
  rewrite !lookup_insert_eq. auto.
Qed.

(** C5 fails as stated: a capsule save killed after two bytes leaves the
    data file holding neither its previous content nor the new one. *)
Lemma capsule_save_leaves_partial_file :
  let old := JsonText.dumps (Py.JList [Py.JStr "rest well"]) +:+ JsonText.newline in
  let new := JsonText.dumps (Py.JList [Py.JStr "rest well"; Py.JStr "be gentle"])
             +:+ JsonText.newline in
  let w := Py.Build_World {[ Capsule.DATA_FILE := old ]}
             (Some (3%nat, Py.FaultKill)) [] [] Saves.host in
  let res := Capsule.save_data [Py.JStr "rest well"; Py.JStr "be gentle"] w in
  res.1 = Py.Killed
  /\ Py.files res.2 !! Capsule.DATA_FILE = Some ("[" +:+ JsonText.newline)
  /\ "[" +:+ JsonText.newline <> old
  /\ "[" +:+ JsonText.newline <> new.
Proof. vm_compute. repeat split; discriminate. Qed.

(** * The loader in a world where nothing fails *)

Module Loader.
Import Py Runs Frames AtomicWriter CommitYourDay.

Section WithLib.
Context `{PyLib}.

Lemma write_bytes_calm p data fs ns sin e pre :
  fs !! p = Some pre ->
  write_bytes p data (mkW fs None ns sin e)
  = (Ok tt, mkW (<[p := pre +:+ data]> fs) None ns sin e).
Proof.
  intros Hp.
  destruct (write_bytes_run p data fs None ns sin e pre Hp)
    as (r & written & ft' & E & F & _ & Hall).
  destruct r as [[]|x|]; cbn in F.
  - apply still_pending_calm in F as ->. by rewrite (Hall tt eq_refl) in E.
  - by apply struck_raise_calm in F.
  - by apply struck_kill_calm in F.
Qed.

Lemma copy2_calm src dst fs ns sin e bytes :
  fs !! src = Some bytes ->
  copy2 src dst (mkW fs None ns sin e)
  = (Ok tt, mkW (<[dst := bytes]> fs) None ns sin e).
Proof.
  intros Hsrc. unfold copy2, bind at 1, tick. cbn [fault].
  unfold bind at 1, get_files. cbn [files]. rewrite Hsrc.
  unfold bind at 1, open_truncate, bind at 1, tick, modify_files, set_files.
  cbn [fault files tmp_names stdin env].
  unfold bind at 1. rewrite (write_bytes_calm dst bytes _ ns sin e EmptyString)
    by apply lookup_insert_eq.
  cbn. by rewrite insert_insert_eq.
Qed.

(** The atomic writer where nothing fails: it succeeds as soon as
    [tempfile] has a free name to give. *)
Lemma write_atomic_json_calm path data fs ns sin e :
  _write_atomic_json path data (mkW fs None ns sin e)
  = match first_free fs (parent path) ".tmp" ns with
    | Some (tmp, rest) =>
        (Ok tt, mkW (<[path := json_dumps data]> fs) None rest sin e)
    | None => (Raise (Error FileExistsError), mkW fs None [] sin e)
    end.
Proof.
  unfold _write_atomic_json, mkstemp. unfold bind at 1. unfold bind at 1. unfold tick.
  cbn [fault files tmp_names].
  destruct (first_free fs (parent path) ".tmp" ns) as [[tmp rest]|] eqn:Hfree; [|done].
  apply first_free_fresh in Hfree as (Hnone & _).
  unfold try_except, set_tmp_names, set_files. cbn [files fault tmp_names stdin env].
  destruct (body_run tmp path (json_dumps data) (<[tmp := ""%string]> fs) None rest sin e)
    as (r & fs2 & ft2 & E2 & F2 & Hfs2); [apply lookup_insert_eq|].
  rewrite E2. destruct r as [[]|x|]; cbn in F2.
  - apply still_pending_calm in F2 as ->. subst fs2.
    by rewrite delete_insert_id.
  - by apply struck_raise_calm in F2.
  - by apply struck_kill_calm in F2.
Qed.

(** What the loader finds at a candidate path. *)
Inductive Reading :=
| Missing
| Undecodable
| NotJson (bytes : string)
| WrongRoot
| Broken (x : exn)
| Holds (store : CommitStore).

Definition read_candidate (fs : gmap Path string) (p : Path) : Reading :=
  match fs !! p with
  | None => Missing
  | Some bytes =>
      if utf8_valid bytes then
        match json_loads bytes with
        | None => NotJson bytes
        | Some (JDict data) =>
            match CommitStore_from_dict data with
            | inl x => Broken x
            | inr store => Holds store
            end
        | Some _ => WrongRoot
        end
      else Undecodable
  end.

Definition loader_clause : list exc_class := [JSONDecodeError; OSError; KeyError; TypeError].

(** [from_dict] raises nothing but the errors of [int()] on a float, and
    the loader's [except] clause does not list them. *)
Lemma int_or_default_raises v d x :
  int_or_default v d = inl x -> x = Error ValueError \/ x = Error OverflowError.
Proof.
  destruct v as [| | |[| | |]| | |]; cbn; intros [=]; auto.
Qed.

Lemma LifeCommit_from_dict_raises data x :
  LifeCommit_from_dict data = inl x -> x = Error ValueError \/ x = Error OverflowError.
Proof.
  unfold LifeCommit_from_dict.
  destruct (int_or_default (dict_get data "mood_score" _) _) eqn:E1.
  { intros [= <-]. eauto using int_or_default_raises. }
  destruct (int_or_default (dict_get data "energy_score" _) _) eqn:E2.
  { intros [= <-]. eauto using int_or_default_raises. }
  discriminate.
Qed.

Lemma commits_from_list_raises l x :
  commits_from_list l = inl x -> x = Error ValueError \/ x = Error OverflowError.
Proof.
  induction l as [|v l IH]; cbn; [discriminate|].
  destruct v; auto.
  destruct (LifeCommit_from_dict d) eqn:E1.
  { intros [= <-]. eauto using LifeCommit_from_dict_raises. }
  destruct (commits_from_list l); [|discriminate].
  intros [= <-]. auto.
Qed.

Lemma CommitStore_from_dict_raises data x :
  CommitStore_from_dict data = inl x -> x = Error ValueError \/ x = Error OverflowError.
Proof.
  unfold CommitStore_from_dict.
  destruct (dict_get data "commits" _); try discriminate.
  destruct (commits_from_list l) eqn:E; [|discriminate].
  intros [= <-]. eauto using commits_from_list_raises.
Qed.

Lemma broken_not_caught data x :
  CommitStore_from_dict data = inl x -> catches loader_clause x = false.
Proof. intros Hx. apply CommitStore_from_dict_raises in Hx as [-> | ->]; reflexivity. Qed.

(** One turn of the loader's loop. *)
Lemma try_candidate_calm path candidate fs ns sin e :
  try_candidate path candidate (mkW fs None ns sin e)
  = match read_candidate fs candidate with
    | Missing | WrongRoot => (Ok Continue, mkW fs None ns sin e)
    | Undecodable => (Raise (Error UnicodeDecodeError), mkW fs None ns sin e)
    | Broken x => (Raise x, mkW fs None ns sin e)
    | NotJson bytes =>
        if bool_decide (candidate = path)
        then (Ok Continue, mkW (<[corrupted_path path := bytes]> fs) None ns sin e)
        else (Ok Continue, mkW fs None ns sin e)
    | Holds store =>
        if bool_decide (candidate <> path) then
          match first_free fs (parent path) ".tmp" ns with
          | Some (tmp, rest) =>
              (Ok (Return store),
               mkW (<[path := json_dumps (CommitStore_to_dict store)]> fs) None rest sin e)
          | None => (Ok Continue, mkW fs None [] sin e)
          end
        else (Ok (Return store), mkW fs None ns sin e)
    end.
Proof.
  unfold try_candidate, read_candidate, exists_, get_files.
  unfold bind at 1, bind at 1. cbn [files].
  destruct (fs !! candidate) as [bytes|] eqn:Hc; cbn [ret negb].
  2: { rewrite bool_decide_eq_false_2 by (intros [? ?]; discriminate). reflexivity. }
  rewrite bool_decide_eq_true_2 by eauto. cbn [negb].
  unfold try_except, read_text, bind at 1, bind at 1, tick. cbn [fault].
  unfold bind at 1, get_files. cbn [files]. rewrite Hc.
  destruct (utf8_valid bytes); [|reflexivity].
  cbn [ret]. destruct (json_loads bytes) as [v|].
  2: { cbn [raise catches loader_clause existsb issubclass class_of].
       change (catches [JSONDecodeError; OSError; KeyError; TypeError] (Error JSONDecodeError))
         with true. cbn iota.
       destruct (bool_decide (candidate = path)) eqn:Hp.
       - apply bool_decide_eq_true_1 in Hp as ->.
         unfold bind at 1, suppress, try_except.
         rewrite (copy2_calm _ _ _ _ _ _ bytes Hc). reflexivity.
       - reflexivity. }
  destruct v; try reflexivity.
  unfold lift. destruct (CommitStore_from_dict d) as [x|store] eqn:Hd.
  { unfold bind at 1, raise. cbn iota.
    change (catches [JSONDecodeError; OSError; KeyError; TypeError] x)
      with (catches loader_clause x).
    by rewrite (broken_not_caught _ _ Hd). }
  unfold bind at 1, ret at 1. cbn iota.
  destruct (bool_decide (candidate <> path)) eqn:Hp; [|reflexivity].
  unfold bind at 1. rewrite write_atomic_json_calm.
  destruct (first_free fs (parent path) ".tmp" ns) as [[tmp rest]|]; [reflexivity|].
  cbn iota. change (catches _ (Error FileExistsError)) with true. cbn iota.
  apply bool_decide_eq_true_1 in Hp.
  rewrite bool_decide_eq_false_2 by done. reflexivity.
Qed.

End WithLib.
End Loader.

(** * Round trip, fallback and totality of the loader *)

Module LoaderFacts.
Import Py Runs Frames AtomicWriter CommitYourDay Loader.

Section WithLib.
Context `{PyLib}.

Lemma map_str_JStr (l : list string) : map str (map JStr l) = l.
Proof. induction l as [|s l IH]; cbn; congruence. Qed.

(** [from_dict] undoes [to_dict], record by record and for the store. *)
Lemma LifeCommit_from_to_dict c :
  exists d, LifeCommit_to_dict c = JDict d /\ LifeCommit_from_dict d = inr c.
Proof.
  eexists. split; [reflexivity|].
  unfold LifeCommit_from_dict. cbn. rewrite map_str_JStr. by destruct c.
Qed.

Lemma commits_from_list_to_dict cs :
  commits_from_list (map LifeCommit_to_dict cs) = inr cs.
Proof.
  induction cs as [|c cs IH]; [reflexivity|].
  destruct (LifeCommit_from_to_dict c) as (d & Hd & Hc).
  cbn [map commits_from_list]. rewrite Hd, Hc, IH. reflexivity.
Qed.

Lemma CommitStore_from_to_dict s :
  exists d, CommitStore_to_dict s = JDict d /\ CommitStore_from_dict d = inr s.
Proof.
  eexists. split; [reflexivity|].
  unfold CommitStore_from_dict. cbn [dict_get dict_lookup String.eqb Ascii.eqb Bool.eqb default from_option id].
  cbn. rewrite commits_from_list_to_dict. by destruct s.
Qed.

(** A save that ends normally has put the whole payload at [path], and
    brought no failure where none was pending. *)
Lemma save_store_ok path store w w' :
  _save_store path store w = (Ok tt, w') ->
  files w' !! path = Some (json_dumps (CommitStore_to_dict store))
  /\ stays_calm w w'.
Proof.
  unfold _save_store, _ensure_storage_dir, mkdir_p, bind.
  pose proof (stays_calm_tick w) as C1.
  destruct (tick w) as [[[]|x|] w1]; try discriminate. cbn in C1.
  pose proof (rotate_stays_calm path w1) as C2.
  destruct (_rotate_backups path w1) as [[[]|x|] w2]; try discriminate. cbn in C2.
  destruct w2 as [fs2 ft2 ns2 sin2 e2].
  destruct (write_atomic_json_run path (CommitStore_to_dict store) fs2 ft2 ns2 sin2 e2)
    as (r & fs' & ft' & ns' & E & R).
  rewrite E. intros [= -> <-]. inversion R; subst. split.
  - apply lookup_insert_eq.
  - intros Hw. cbn. specialize (C2 (C1 Hw)). cbn in C2. subst ft2.
    by apply still_pending_calm.
Qed.

Lemma load_store_primary_holds path fs ns sin e store :
  read_candidate fs path = Holds store ->
  _load_store path (mkW fs None ns sin e) = (Ok store, mkW fs None ns sin e).
Proof.
  intros Hread. unfold _load_store. cbn [load_from]. unfold bind.
  rewrite try_candidate_calm, Hread.
  rewrite bool_decide_eq_false_2 by (intros Hne; by apply Hne). reflexivity.
Qed.

(** *** Falling back through the backups *)

Definition skippable (r : Reading) : Prop :=
  match r with
  | Missing | NotJson _ | WrongRoot => True
  | _ => False
  end.

Lemma load_from_skips path pre rest fs ns sin e :
  Forall (fun q => q <> path /\ skippable (read_candidate fs q)) pre ->
  load_from path (pre ++ rest) (mkW fs None ns sin e)
  = load_from path rest (mkW fs None ns sin e).
Proof.
  induction 1 as [|q pre [Hq Hskip] _ IH]; [reflexivity|].
  cbn [app load_from]. unfold bind at 1. rewrite try_candidate_calm.
  destruct (read_candidate fs q); try done.
  rewrite bool_decide_eq_false_2 by done. exact IH.
Qed.

Lemma load_from_first_valid path pre c post fs ns sin e store tmp rest :
  Forall (fun q => q <> path /\ skippable (read_candidate fs q)) pre ->
  c <> path ->
  read_candidate fs c = Holds store ->
  first_free fs (parent path) ".tmp" ns = Some (tmp, rest) ->
  load_from path (pre ++ c :: post) (mkW fs None ns sin e)
  = (Ok store,
     mkW (<[path := json_dumps (CommitStore_to_dict store)]> fs) None rest sin e).
Proof.
  intros Hpre Hc Hread Hfree. rewrite load_from_skips by done.
  cbn [load_from]. unfold bind at 1. rewrite try_candidate_calm, Hread.
  rewrite bool_decide_eq_true_2 by done. by rewrite Hfree.
Qed.

Lemma load_from_none_valid path cands fs ns sin e :
  Forall (fun q => q <> path /\ skippable (read_candidate fs q)) cands ->
  load_from path cands (mkW fs None ns sin e)
  = (Ok {| version := SCHEMA_VERSION; created_at := now_utc e; commits := [] |},
     mkW fs None ns sin e).
Proof.
  intros Hall. rewrite <- (app_nil_r cands). by rewrite load_from_skips.
Qed.

Definition backups (path : Path) : list Path :=
  map (_backup_path path) (seq 1 MAX_BACKUPS).

Lemma backup_neq_corrupted path g : _backup_path path g <> corrupted_path path.
Proof.
  intros Heq. apply (f_equal name) in Heq. cbn in Heq.
  apply String.app_inj in Heq. discriminate.
Qed.

Lemma read_candidate_insert_other fs p q bytes :
  p <> q -> read_candidate (<[q := bytes]> fs) p = read_candidate fs p.
Proof. intros Hne. unfold read_candidate. by rewrite lookup_insert_ne. Qed.

(** The files once the loop has dealt with the primary file: a primary
    that does not parse has been copied to its [.corrupted] side-name. *)
Definition after_primary (fs : gmap Path string) (path : Path) : gmap Path string :=
  match read_candidate fs path with
  | NotJson bytes => <[corrupted_path path := bytes]> fs
  | _ => fs
  end.

Lemma load_store_past_primary path fs ns sin e :
  skippable (read_candidate fs path) ->
  _load_store path (mkW fs None ns sin e)
  = load_from path (backups path) (mkW (after_primary fs path) None ns sin e).
Proof.
  intros Hskip. unfold _load_store, after_primary. cbn [load_from]. unfold bind at 1.
  rewrite try_candidate_calm.
  destruct (read_candidate fs path); try done.
  by rewrite bool_decide_eq_true_2.
Qed.

Lemma backups_readings path fs :
  Forall (fun q => read_candidate (after_primary fs path) q = read_candidate fs q)
    (backups path).
Proof.
  apply Forall_forall. intros q Hq. apply list_elem_of_fmap in Hq as (g & -> & _).
  unfold after_primary. destruct (read_candidate fs path); try reflexivity.
  apply read_candidate_insert_other, backup_neq_corrupted.
Qed.

Lemma backups_neq path : Forall (fun q => q <> path) (backups path).
Proof.
  apply Forall_forall. intros q Hq. apply list_elem_of_fmap in Hq as (g & -> & _).
  apply backup_path_neq.
Qed.

(** The fallback where every file reads cleanly: with the primary missing or
    unparsable, the most recent backup that holds a store is returned and
    the primary is rewritten from it. *)
Lemma load_store_falls_back path fs ns sin e pre c post store tmp rest :
  skippable (read_candidate fs path) ->
  backups path = pre ++ c :: post ->
  Forall (fun q => skippable (read_candidate fs q)) pre ->
  read_candidate fs c = Holds store ->
  first_free (after_primary fs path) (parent path) ".tmp" ns = Some (tmp, rest) ->
  _load_store path (mkW fs None ns sin e)
  = (Ok store,
     mkW (<[path := json_dumps (CommitStore_to_dict store)]> (after_primary fs path))
       None rest sin e).
Proof.
  intros Hprim Hsplit Hpre Hread Hfree.
  rewrite load_store_past_primary by done. rewrite Hsplit.
  pose proof (backups_readings path fs) as Hsame.
  pose proof (backups_neq path) as Hneq.
  rewrite Hsplit in Hsame, Hneq.
  apply Forall_app in Hsame as [Hsame_pre Hsame_c].
  apply Forall_app in Hneq as [Hneq_pre Hneq_c].
  apply Forall_cons in Hsame_c as [Hsame_c _].
  apply Forall_cons in Hneq_c as [Hneq_c _].
  apply (load_from_first_valid path pre c post _ ns sin e store tmp rest); auto.
  - rewrite Forall_forall in *. intros q Hq. split; [auto|].
    rewrite Hsame_pre by done. auto.
  - by rewrite Hsame_c.
Qed.

(** With no candidate holding a store, a fresh empty store is returned and
    an unparsable primary is kept under its [.corrupted] side-name. *)
Lemma load_store_starts_afresh path fs ns sin e :
  skippable (read_candidate fs path) ->
  Forall (fun q => skippable (read_candidate fs q)) (backups path) ->
  _load_store path (mkW fs None ns sin e)
  = (Ok {| version := SCHEMA_VERSION; created_at := now_utc e; commits := [] |},
     mkW (after_primary fs path) None ns sin e).
Proof.
  intros Hprim Hall. rewrite load_store_past_primary by done.
  apply load_from_none_valid.
  pose proof (backups_readings path fs) as Hsame.
  pose proof (backups_neq path) as Hneq.
  rewrite Forall_forall in *. intros q Hq. split; [auto|].
  rewrite Hsame by done. auto.
Qed.

(** *** The loader never fails on clean candidates *)

Definition clean (r : Reading) : Prop :=
  match r with
  | Undecodable | Broken _ => False
  | _ => True
  end.

Lemma load_from_total path cands : forall fs ns sin e,
  Forall (fun q => q <> corrupted_path path /\ clean (read_candidate fs q)) cands ->
  exists store fs' ns',
    load_from path cands (mkW fs None ns sin e) = (Ok store, mkW fs' None ns' sin e).
Proof.
  induction cands as [|q cands IH]; intros fs ns sin e Hall.
  - eexists _, _, _. reflexivity.
  - apply Forall_cons in Hall as [[Hq Hclean] Hall].
    cbn [load_from]. unfold bind at 1. rewrite try_candidate_calm.
    destruct (read_candidate fs q) eqn:Hread; try done.
    + apply IH, Hall.
    + destruct (bool_decide (q = path)); [|apply IH, Hall].
      apply IH. rewrite Forall_forall in *. intros p Hp.
      destruct (Hall p Hp) as [Hne Hc]. split; [done|].
      by rewrite read_candidate_insert_other.
    + apply IH, Hall.
    + destruct (bool_decide (q <> path)).
      * destruct (first_free fs (parent path) ".tmp" ns) as [[tmp rest]|].
        -- eexists _, _, _. reflexivity.
        -- apply IH, Hall.
      * eexists _, _, _. reflexivity.
Qed.

Lemma load_store_total path fs ns sin e :
  Forall (fun q => clean (read_candidate fs q)) (path :: backups path) ->
  exists store fs' ns',
    _load_store path (mkW fs None ns sin e) = (Ok store, mkW fs' None ns' sin e).
Proof.
  intros Hall. apply load_from_total.
  apply Forall_cons in Hall as [Hp Hb]. apply Forall_cons. split.
  - split; [|done]. intros Heq. by apply (corrupted_path_neq path).
  - rewrite Forall_forall in *. intros q Hq. split; [|auto].
    apply list_elem_of_fmap in Hq as (g & -> & _). apply backup_neq_corrupted.
Qed.

End WithLib.
End LoaderFacts.

(** * Examples on JSON text *)

Module Examples.
Import Py CommitYourDay.

Definition morning : LifeCommit :=
  {| commit_id := "3f2b8c1e-7a4d-4e0b-9c56-1d2e3f4a5b6c";
     timestamp := "2024-06-14T07:30:00+00:00";
     commit_date := "2024-06-14";
     commit_type := "fix";
     message := "fixed the squeaky door";
     scope := "home";
     details := "oil, and a little patience";
     tags := ["home"; "repairs"];
     mood_score := 2;
     energy_score := 4 |}.

Definition evening : LifeCommit :=
  {| commit_id := "9d1c2b3a-4f5e-4a6b-8c7d-0e1f2a3b4c5d";
     timestamp := "2024-06-15T21:05:00+00:00";
     commit_date := "2024-06-15";
     commit_type := "docs";
     message := "learned a new chord";
     scope := "life";
     details := "";
     tags := [];
     mood_score := -1;
     energy_score := 1 |}.

Definition journal : CommitStore :=
  {| version := SCHEMA_VERSION;
     created_at := "2024-06-01T09:00:00+00:00";
     commits := [morning; evening] |}.

Definition journal_text : string := JsonText.dumps (CommitStore_to_dict journal).

(** Three bytes that are no UTF-8 text. *)
Definition damaged_bytes : string :=
  String (ascii_of_nat 255) (String "{" (String "}" EmptyString)).

(** A store file whose one commit has the mood score [NaN]. *)
Definition nan_text : string :=
  "{" +:+ JsonText.quote +:+ "commits" +:+ JsonText.quote +:+ ": [{"
  +:+ JsonText.quote +:+ "mood_score" +:+ JsonText.quote +:+ ": NaN}]}".

End Examples.

(** C3: for every store, with its strings well-formed text that the JSON
    library writes and reads back as they are, a save that completes
    followed by a load returns the store itself: the same records in the
    same order, every field unchanged; the load leaves the files alone. *)
Theorem save_then_load_returns_store `{Py.PyLib} (fs : gmap Py.Path string)
    (names : list string) (e : Py.Env) (path : Py.Path)
    (store : CommitYourDay.CommitStore) (w' : Py.World) :
  Py.utf8_valid (Py.json_dumps (CommitYourDay.CommitStore_to_dict store)) = true ->
  Py.json_loads (Py.json_dumps (CommitYourDay.CommitStore_to_dict store))
    = Some (CommitYourDay.CommitStore_to_dict store) ->
  CommitYourDay._save_store path store (Py.calm fs names e) = (Py.Ok tt, w') ->
  CommitYourDay._load_store path w' = (Py.Ok store, w').
Proof.
  intros Hutf Hloads Hsave.
  apply LoaderFacts.save_store_ok in Hsave as [Hfile Hcalm].
  destruct w' as [fs' ft' ns' sin' e']. unfold Frames.stays_calm in Hcalm.
  cbn in Hfile, Hcalm. specialize (Hcalm eq_refl). subst ft'.
  apply LoaderFacts.load_store_primary_holds.
  unfold Loader.read_candidate. rewrite Hfile, Hutf, Hloads.
  destruct (LoaderFacts.CommitStore_from_to_dict store) as (d & -> & ->).
  reflexivity.
Qed.

Lemma save_then_load_journal :
  let w := Py.calm ∅ ["k3x9q2ab"] Saves.host in
  let w' := (CommitYourDay._save_store CommitYourDay.STORAGE_FILE Examples.journal w).2 in
  Py.files w' !! CommitYourDay.STORAGE_FILE = Some Examples.journal_text
  /\ CommitYourDay._load_store CommitYourDay.STORAGE_FILE w' = (Py.Ok Examples.journal, w').
Proof.
  cbn zeta. split; [by vm_compute|].
  apply (save_then_load_returns_store ∅ ["k3x9q2ab"] Saves.host).
  - by vm_compute.
  - by vm_compute.
  - by vm_compute.
Defined.

(** C2, at inputs where the code fails it: a primary file that is no UTF-8
    text, with a good first backup, makes [_load_store] raise
    [UnicodeDecodeError] where the backup was to be returned; so does, with
    [ValueError], a first backup whose mood score is [NaN] in front of a
    good second one. *)
Theorem load_store_raises_on_damaged_candidate :
  let primary := CommitYourDay.STORAGE_FILE in
  let bak1 := CommitYourDay._backup_path primary 1 in
  let bak2 := CommitYourDay._backup_path primary 2 in
  let fs1 : gmap Py.Path string :=
    {[ primary := Examples.damaged_bytes; bak1 := Examples.journal_text ]} in
  let fs2 : gmap Py.Path string :=
    {[ bak1 := Examples.nan_text; bak2 := Examples.journal_text ]} in
  Loader.read_candidate fs1 bak1 = Loader.Holds Examples.journal
  /\ (CommitYourDay._load_store primary (Py.calm fs1 ["k3x9q2ab"] Saves.host)).1
     = Py.Raise (Py.Error Py.UnicodeDecodeError)
  /\ Loader.read_candidate fs2 bak2 = Loader.Holds Examples.journal
  /\ (CommitYourDay._load_store primary (Py.calm fs2 ["k3x9q2ab"] Saves.host)).1
     = Py.Raise (Py.Error Py.ValueError).
Proof. by vm_compute. Qed.

(** * The other loaders *)

Module OtherLoaders.
Import Py Runs.

Section WithLib.
Context `{PyLib}.

Lemma read_text_calm p fs ns sin e :
  read_text p (mkW fs None ns sin e)
  = (match fs !! p with
     | None => Raise (Error FileNotFoundError)
     | Some bytes =>
         if utf8_valid bytes then Ok bytes else Raise (Error UnicodeDecodeError)
     end, mkW fs None ns sin e).
Proof.
  unfold read_text, bind, tick, get_files. cbn [fault files].
  destruct (fs !! p) as [bytes|]; [|reflexivity].
  destruct (utf8_valid bytes); reflexivity.
Qed.

Lemma exists_calm p fs ns sin e :
  exists_ p (mkW fs None ns sin e)
  = (Ok (bool_decide (is_Some (fs !! p))), mkW fs None ns sin e).
Proof. reflexivity. Qed.

(** What [load_data] answers for a data file that is missing or text. *)
Definition capsule_answer (fs : gmap Path string) : list json :=
  match fs !! Capsule.DATA_FILE with
  | None => []
  | Some text =>
      match json_loads text with
      | Some (JList data) => data
      | _ => []
      end
  end.

Lemma capsule_load_calm fs ns sin e :
  (forall bytes, fs !! Capsule.DATA_FILE = Some bytes -> utf8_valid bytes = true) ->
  Capsule.load_data (mkW fs None ns sin e) = (Ok (capsule_answer fs), mkW fs None ns sin e).
Proof.
  intros Htext. unfold Capsule.load_data, capsule_answer.
  unfold bind at 1. rewrite exists_calm.
  destruct (fs !! Capsule.DATA_FILE) as [bytes|] eqn:Hf.
  2: { rewrite bool_decide_eq_false_2 by (intros [? ?]; discriminate). reflexivity. }
  rewrite bool_decide_eq_true_2 by eauto. cbn [negb].
  unfold try_except, bind at 1. rewrite read_text_calm, Hf, (Htext bytes eq_refl).
  destruct (json_loads bytes) as [[]|]; reflexivity.
Qed.

(** What [load_jar] answers: whatever the file parses to. *)
Definition jar_answer (fs : gmap Path string) : json :=
  match fs !! MemoryJar.JAR_FILE with
  | None => JList []
  | Some text => default (JList []) (json_loads text)
  end.

Lemma jar_load_calm fs ns sin e :
  (forall bytes, fs !! MemoryJar.JAR_FILE = Some bytes -> utf8_valid bytes = true) ->
  MemoryJar.load_jar (mkW fs None ns sin e) = (Ok (jar_answer fs), mkW fs None ns sin e).
Proof.
  intros Htext. unfold MemoryJar.load_jar, jar_answer.
  unfold bind at 1. rewrite exists_calm.
  destruct (fs !! MemoryJar.JAR_FILE) as [bytes|] eqn:Hf.
  2: { rewrite bool_decide_eq_false_2 by (intros [? ?]; discriminate). reflexivity. }
  rewrite bool_decide_eq_true_2 by eauto. cbn [negb].
  unfold try_except, bind at 1. rewrite read_text_calm, Hf, (Htext bytes eq_refl).
  destruct (json_loads bytes); reflexivity.
Qed.

(** How [_load] ends: with the pebbles of a list, with none for a missing
    or blank file, and by [SystemExit(1)] for anything else. *)
Definition pebbles_answer (fs : gmap Path string) (path : Path)
    : Outcome (list Pebbles._Pebble) :=
  match fs !! path with
  | None => Ok []
  | Some text =>
      if bool_decide (strip text = EmptyString) then Ok []
      else
        match json_loads (strip text) with
        | Some (JList data) => Ok (omap Pebbles.pebble_of_entry data)
        | _ => Raise (SystemExit 1)
        end
  end.

Lemma pebbles_load_calm path fs ns sin e :
  (forall bytes, fs !! path = Some bytes -> utf8_valid bytes = true) ->
  Pebbles._load path (mkW fs None ns sin e) = (pebbles_answer fs path, mkW fs None ns sin e).
Proof.
  intros Htext. unfold Pebbles._load, pebbles_answer.
  unfold bind at 1. rewrite exists_calm.
  destruct (fs !! path) as [bytes|] eqn:Hf.
  2: { rewrite bool_decide_eq_false_2 by (intros [? ?]; discriminate). reflexivity. }
  rewrite bool_decide_eq_true_2 by eauto. cbn [negb].
  unfold bind at 1, try_except, bind at 1.
  rewrite read_text_calm, Hf, (Htext bytes eq_refl). cbn [ret].
  destruct (bool_decide (strip bytes = EmptyString)); [reflexivity|].
  destruct (json_loads (strip bytes)) as [[]|]; reflexivity.
Qed.

End WithLib.
End OtherLoaders.

(** C6 (as the code has it), for data files that are missing or hold
    UTF-8 text within the limits of the JSON reader: [_load_store] returns
    a store whenever no candidate's scores break [int()] and the store of
    a backup can be written out as UTF-8; [load_data] returns a list, empty
    for a file that is missing, not JSON or not a list; [load_jar] returns
    the empty list for a file that is missing or not JSON and otherwise
    whatever the file parses to; [_load], on a file that stripped begins
    and ends with ASCII characters, returns no pebbles for a missing or
    blank file, the well-formed pebbles of a list, and exits with status 1
    on anything else. *)
Theorem loaders_on_text_files `{Py.PyLib} (fs : gmap Py.Path string)
    (names : list string) (e : Py.Env) (path : Py.Path) :
  (forall p bytes, fs !! p = Some bytes ->
     Py.utf8_valid bytes = true /\ Py.json_within_limits bytes = true) ->
  (forall bytes, fs !! path = Some bytes ->
     Strings.ascii_ends bytes = true /\ Py.json_within_limits (Py.strip bytes) = true) ->
  let w := Py.calm fs names e in
  (Forall (fun q => forall x, Loader.read_candidate fs q <> Loader.Broken x)
     (path :: LoaderFacts.backups path) ->
   Forall (fun q => forall store,
             Loader.read_candidate fs q = Loader.Holds store ->
             Py.utf8_valid (Py.json_dumps (CommitYourDay.CommitStore_to_dict store)) = true)
     (LoaderFacts.backups path) ->
   exists store w', CommitYourDay._load_store path w = (Py.Ok store, w'))
  /\ Capsule.load_data w = (Py.Ok (OtherLoaders.capsule_answer fs), w)
  /\ MemoryJar.load_jar w = (Py.Ok (OtherLoaders.jar_answer fs), w)
  /\ Pebbles._load path w = (OtherLoaders.pebbles_answer fs path, w).
Proof.
  intros Htext _ w. repeat split.
  - intros Hfinite _.
    destruct (LoaderFacts.load_store_total path fs names [] e) as (store & fs' & ns' & E).
    + rewrite Forall_forall in *. intros q Hq. specialize (Hfinite q Hq).
      unfold Loader.read_candidate in *.
      destruct (fs !! q) as [bytes|] eqn:Hf; [|done].
      rewrite (proj1 (Htext q bytes Hf)) in *.
      destruct (Py.json_loads bytes) as [[]|]; try done.
      destruct (CommitYourDay.CommitStore_from_dict d); [|done].
      by destruct (Hfinite e0).
    + eauto.
  - apply OtherLoaders.capsule_load_calm. intros bytes Hb. by apply (Htext _ _ Hb).
  - apply OtherLoaders.jar_load_calm. intros bytes Hb. by apply (Htext _ _ Hb).
  - apply OtherLoaders.pebbles_load_calm. intros bytes Hb. by apply (Htext _ _ Hb).
Qed.

Lemma loaders_on_a_tidy_home :
  let fs : gmap Py.Path string :=
    {[ CommitYourDay._backup_path CommitYourDay.STORAGE_FILE 1 := Examples.journal_text;
       CommitYourDay.STORAGE_FILE := "{";
       Capsule.DATA_FILE := "[]";
       MemoryJar.JAR_FILE := "not json" ]} in
  let w := Py.calm fs ["k3x9q2ab"] Saves.host in
  (exists store w',
      CommitYourDay._load_store CommitYourDay.STORAGE_FILE w = (Py.Ok store, w')
      /\ store = Examples.journal
      /\ Py.files w' !! CommitYourDay.STORAGE_FILE = Some Examples.journal_text)
  /\ Capsule.load_data w = (Py.Ok [], w)
  /\ MemoryJar.load_jar w = (Py.Ok (Py.JList []), w)
  /\ Pebbles._load CommitYourDay.STORAGE_FILE w = (Py.Raise (Py.SystemExit 1), w).
Proof.
  cbn zeta.
  destruct (loaders_on_text_files (H := JsonText.text_lib)
              ({[ CommitYourDay._backup_path CommitYourDay.STORAGE_FILE 1
                    := Examples.journal_text;
                  CommitYourDay.STORAGE_FILE := "{"%string;
                  Capsule.DATA_FILE := "[]"%string;
                  MemoryJar.JAR_FILE := "not json"%string ]} : gmap Py.Path string)
              ["k3x9q2ab"%string] Saves.host CommitYourDay.STORAGE_FILE)
    as (H1 & H2 & H3 & H4).
  - intros p bytes Hp.
    apply lookup_insert_Some in Hp as [[_ <-]|[_ Hp]]; [by vm_compute|].
    apply lookup_insert_Some in Hp as [[_ <-]|[_ Hp]]; [by vm_compute|].
    apply lookup_insert_Some in Hp as [[_ <-]|[_ Hp]]; [by vm_compute|].
    apply lookup_singleton_Some in Hp as [_ <-]. by vm_compute.
  - intros bytes Hp.
    apply lookup_insert_Some in Hp as [[Hne _]|[_ Hp]]; [by vm_compute in Hne|].
    apply lookup_insert_Some in Hp as [[_ <-]|[[] _]]; by vm_compute.
  - split; [|split; [|split]].
    + destruct H1 as (store & w' & E).
      * repeat constructor; by vm_compute.
      * repeat constructor; intros store Hs.
        -- match type of Hs with ?r = _ =>
             assert (r = Loader.Holds Examples.journal) as Hj by (vm_compute; reflexivity)
           end.
           rewrite Hj in Hs. injection Hs as <-. by vm_compute.
        -- vm_compute in Hs. discriminate.
        -- vm_compute in Hs. discriminate.
      * exists store, w'. split; [exact E|].
        match type of E with ?run = _ =>
          assert (run.1 = Py.Ok Examples.journal
                  /\ Py.files run.2 !! CommitYourDay.STORAGE_FILE
                     = Some Examples.journal_text) as Hrun
            by (split; vm_compute; reflexivity)
        end.
        rewrite E in Hrun. cbn [fst snd] in Hrun. destruct Hrun as [[= ->] Hfile].
        by split.
    + rewrite H2. by vm_compute.
    + rewrite H3. by vm_compute.
    + rewrite H4. by vm_compute.
Defined.

(** C6 fails as stated: pebbles exits with status 1 on a data file that is
    not JSON, and memory_jar hands back a number when the file holds one. *)
Lemma pebbles_load_exits_on_corrupt_file :
  let p := {| Py.parent := "~"; Py.name := ".gratitude_pebbles.json" |} in
  (Pebbles._load p (Py.calm {[ p := "{" ]} [] Saves.host)).1 = Py.Raise (Py.SystemExit 1)
  /\ (MemoryJar.load_jar (Py.calm {[ MemoryJar.JAR_FILE := "5" ]} [] Saves.host)).1
     = Py.Ok (Py.JInt 5).
Proof. by vm_compute. Qed.

(** * Pebbles that do not survive a load *)

Module PebbleFacts.
Import Py Pebbles.

Lemma pebble_of_entry_Some entry p :
  pebble_of_entry entry = Some p <->
  exists d, entry = JDict d
            /\ dict_lookup "text" d = Some (JStr (text p))
            /\ dict_lookup "timestamp" d = Some (JStr (timestamp p)).
Proof.
  split.
  - destruct entry as [| | | | | |d]; cbn; try (intros Hx; discriminate Hx).
    destruct (dict_lookup "text" d) as [[]|] eqn:Ht; try (intros Hx; discriminate Hx).
    destruct (dict_lookup "timestamp" d) as [[]|] eqn:Hts; try (intros Hx; discriminate Hx).
    intros [= <-]. eauto.
  - intros (d & -> & Ht & Hts). cbn. rewrite Ht, Hts. by destruct p.
Qed.

Lemma omap_length_le {A B} (f : A -> option B) (l : list A) :
  (length (omap f l) <= length l)%nat.
Proof. induction l as [|x l IH]; cbn; [lia|]. destruct (f x); cbn; lia. Qed.

Lemma omap_length_lt {A B} (f : A -> option B) (l : list A) x :
  x ∈ l -> f x = None -> (length (omap f l) < length l)%nat.
Proof.
  induction 1 as [x l|x y l _ IH]; intros Hx; cbn.
  - rewrite Hx. pose proof (omap_length_le f l). lia.
  - specialize (IH Hx). destruct (f y); cbn; lia.
Qed.

End PebbleFacts.

(** C10: when the data file holds a JSON list, [_load] returns exactly the
    entries that are objects with a string [text] and a string
    [timestamp]; every other entry is dropped without an error, so one
    such entry makes the result strictly shorter than the file's list, and
    a save of the result that completes leaves only the survivors in the
    file. *)
Theorem pebbles_load_drops_malformed_entries `{Py.PyLib} (fs : gmap Py.Path string)
    (names : list string) (e : Py.Env) (path : Py.Path) (bytes : string)
    (data : list Py.json) :
  fs !! path = Some bytes ->
  Py.utf8_valid bytes = true ->
  Py.strip bytes <> EmptyString ->
  Py.json_loads (Py.strip bytes) = Some (Py.JList data) ->
  let loaded := omap Pebbles.pebble_of_entry data in
  Pebbles._load path (Py.calm fs names e) = (Py.Ok loaded, Py.calm fs names e)
  /\ (forall p, p ∈ loaded <->
        exists d, Py.JDict d ∈ data
                  /\ Py.dict_lookup "text" d = Some (Py.JStr (Pebbles.text p))
                  /\ Py.dict_lookup "timestamp" d = Some (Py.JStr (Pebbles.timestamp p)))
  /\ (length loaded <= length data)%nat
  /\ (forall entry, entry ∈ data -> Pebbles.pebble_of_entry entry = None ->
        (length loaded < length data)%nat)
  /\ (forall w', Pebbles._save path loaded (Py.calm fs names e) = (Py.Ok tt, w') ->
        Py.files w' !! path = Some (AtomicWriter.pebbles_payload loaded)).
Proof.
  intros Hfile Htext Hblank Hloads loaded.
  split; [|split; [split|split; [|split]]].
  - unfold Py.calm. rewrite OtherLoaders.pebbles_load_calm.
    + unfold OtherLoaders.pebbles_answer. rewrite Hfile.
      rewrite bool_decide_eq_false_2 by done. by rewrite Hloads.
    + intros b Hb. congruence.
  - intros Hp. apply list_elem_of_omap in Hp as (entry & Hin & Hentry).
    apply PebbleFacts.pebble_of_entry_Some in Hentry as (d & -> & Ht & Hts). eauto.
  - intros (d & Hin & Ht & Hts). apply list_elem_of_omap. exists (Py.JDict d).
    split; [done|]. apply PebbleFacts.pebble_of_entry_Some. eauto.
  - apply PebbleFacts.omap_length_le.
  - intros entry Hin Hnone. by apply (PebbleFacts.omap_length_lt _ _ entry).
  - intros w' Hsave.
    destruct (AtomicWriter.pebbles_save_run path loaded fs None names [] e)
      as (r & fs' & ft' & ns' & E & R).
    unfold Py.calm in Hsave. rewrite E in Hsave. injection Hsave as -> <-.
    inversion R; subst. apply lookup_insert_eq.
Qed.

Lemma pebbles_load_keeps_one_of_four :
  let p := {| Py.parent := "~"; Py.name := ".gratitude_pebbles.json" |} in
  let sun := Py.JDict [("text", Py.JStr "sun on the porch");
                       ("timestamp", Py.JStr "2024-06-15T08:00:00+00:00")] in
  let entries := [sun; Py.JInt 5;
                  Py.JDict [("text", Py.JInt 7); ("timestamp", Py.JStr "2024-06-15")];
                  Py.JDict [("text", Py.JStr "tea")]] in
  let w := Py.calm {[ p := JsonText.dumps (Py.JList entries) ]} ["k3x9q2ab"] Saves.host in
  let kept := [{| Pebbles.text := "sun on the porch";
                  Pebbles.timestamp := "2024-06-15T08:00:00+00:00" |}] in
  Pebbles._load p w = (Py.Ok kept, w)
  /\ Py.files (Pebbles._save p kept w).2 !! p = Some (JsonText.dumps (Py.JList [sun]) +:+ JsonText.newline).
Proof.
  cbn zeta.
  set (p := {| Py.parent := "~"%string; Py.name := ".gratitude_pebbles.json"%string |}).
  set (entries := [Py.JDict [("text"%string, Py.JStr "sun on the porch");
                             ("timestamp"%string, Py.JStr "2024-06-15T08:00:00+00:00")];
                   Py.JInt 5;
                   Py.JDict [("text"%string, Py.JInt 7); ("timestamp"%string, Py.JStr "2024-06-15")];
                   Py.JDict [("text"%string, Py.JStr "tea")]]).
  destruct (pebbles_load_drops_malformed_entries
              ({[ p := JsonText.dumps (Py.JList entries) ]} : gmap Py.Path string)
              ["k3x9q2ab"%string] Saves.host p (JsonText.dumps (Py.JList entries)) entries)
    as (Hload & _ & _ & _ & Hsave).
  - apply lookup_singleton_eq.
  - by vm_compute.
  - by vm_compute.
  - by vm_compute.
  - split.
    + rewrite Hload. by vm_compute.
    + erewrite Hsave; [by vm_compute|]. by vm_compute.
Defined.

(** * Mood and energy scores *)

Module Scores.
Import Py CommitYourDay.

Lemma clamp_range lo hi x : lo <= hi -> lo <= clamp lo hi x <= hi.
Proof. unfold clamp. lia. Qed.

Lemma clamp_above lo hi x : lo <= hi -> hi <= x -> clamp lo hi x = hi.
Proof. unfold clamp. lia. Qed.

Lemma clamp_below lo hi x : lo <= hi -> x <= lo -> clamp lo hi x = lo.
Proof. unfold clamp. lia. Qed.

Lemma clamp_inside lo hi x : lo <= x <= hi -> clamp lo hi x = x.
Proof. unfold clamp. lia. Qed.

Section WithLib.
Context `{PyLib}.

Lemma create_commit_scores message commit_type scope details tags mood energy w :
  exists c, _create_commit message commit_type scope details tags mood energy w = (Ok c, w)
            /\ mood_score c = clamp MOOD_MIN MOOD_MAX mood
            /\ energy_score c = clamp ENERGY_MIN ENERGY_MAX energy.
Proof. eexists. split; [reflexivity|]. split; reflexivity. Qed.

(** The quick commit turns an out-of-range score away before it loads,
    creates or saves anything. *)
Lemma quick_commit_rejects args w :
  let mood := default MOOD_DEFAULT (arg_mood args) in
  let energy := default ENERGY_DEFAULT (arg_energy args) in
  mood < MOOD_MIN \/ MOOD_MAX < mood \/ energy < ENERGY_MIN \/ ENERGY_MAX < energy ->
  _cmd_quick_commit args w = (Raise (SystemExit 1), w).
Proof.
  intros mood energy Hout. unfold _cmd_quick_commit.
  destruct (bool_decide _); [reflexivity|].
  fold mood energy.
  destruct (mood <? MOOD_MIN) eqn:E1; [reflexivity|].
  destruct (MOOD_MAX <? mood) eqn:E2; [reflexivity|].
  destruct (energy <? ENERGY_MIN) eqn:E3; [reflexivity|].
  destruct (ENERGY_MAX <? energy) eqn:E4; [reflexivity|].
  lia.
Qed.

(** The world after one line of standard input is read. *)
Definition after_line (rest : list string) (w : World) : World :=
  {| files := files w; fault := fault w; tmp_names := tmp_names w;
     stdin := rest; env := env w |}.

(** What [_prompt_int] makes of a typed line. *)
Lemma prompt_int_typed default_str dflt lo hi w line rest :
  stdin w = line :: rest ->
  _prompt_int default_str dflt lo hi w
  = (Ok (match int_of_str (if (bool_decide (strip line = EmptyString)
                               && negb (bool_decide (default_str = EmptyString)))%bool
                           then default_str else strip line) with
         | None => dflt
         | Some value => clamp lo hi value
         end), after_line rest w).
Proof.
  intros Hin. unfold _prompt_int, _prompt_input, bind, try_except, input. rewrite Hin. cbn.
  destruct (bool_decide (strip line = EmptyString)
            && negb (bool_decide (default_str = EmptyString))); cbn;
    match goal with |- context [int_of_str ?x] => by destruct (int_of_str x) end.
Qed.

Lemma prompt_int_clamps default_str dflt lo hi w line rest n :
  stdin w = line :: rest -> int_of_str (strip line) = Some n ->
  _prompt_int default_str dflt lo hi w = (Ok (clamp lo hi n), after_line rest w).
Proof.
  intros Hin Hn. rewrite (prompt_int_typed _ _ _ _ _ _ _ Hin).
  rewrite bool_decide_eq_false_2; [cbn; by rewrite Hn|].
  intros E. rewrite E in Hn. discriminate.
Qed.

Lemma prompt_int_default default_str dflt lo hi w line rest :
  stdin w = line :: rest -> int_of_str (strip line) = None ->
  int_of_str default_str = Some dflt -> lo <= dflt <= hi ->
  _prompt_int default_str dflt lo hi w = (Ok dflt, after_line rest w).
Proof.
  intros Hin Hn Hd Hr. rewrite (prompt_int_typed _ _ _ _ _ _ _ Hin).
  destruct (bool_decide (strip line = EmptyString)
            && negb (bool_decide (default_str = EmptyString))).
  - rewrite Hd. do 2 f_equal. unfold clamp. lia.
  - by rewrite Hn.
Qed.

Lemma prompt_int_end default_str dflt lo hi w :
  stdin w = [] -> _prompt_int default_str dflt lo hi w = (Raise (SystemExit 0), w).
Proof.
  intros Hin. unfold _prompt_int, _prompt_input, bind, try_except, input. rewrite Hin.
  cbn. reflexivity.
Qed.

Lemma prompt_int_range default_str dflt lo hi w v w' :
  lo <= dflt <= hi ->
  _prompt_int default_str dflt lo hi w = (Ok v, w') -> lo <= v <= hi.
Proof.
  intros Hd. unfold _prompt_int, bind.
  destruct (_prompt_input default_str w) as [[raw|x|] w1]; try discriminate.
  destruct (int_of_str raw); intros [= <- _]; [apply clamp_range|]; lia.
Qed.

End WithLib.
End Scores.

(** C4 (as the code has it): [_create_commit] stores every integer mood and
    energy clamped into [-2, 2] and [1, 5] (a mood of 99 becomes 2).  The
    interactive prompt clamps what is typed in the same way: a line of
    ASCII characters that, stripped, reads as the integer [n] is answered
    with [n] clamped into the range (a typed 99 with 2 for the mood and 5
    for the energy); a line that reads as no integer, a blank line
    included, with the default, 0 or 3; the end of the input ends the
    command with exit status 0.  The quick commit ([-m]) does not clamp: a
    mood or an energy outside its range ends the command with exit status
    1 and the world as it was. *)
Theorem scores_clamped_or_rejected `{Py.PyLib} (w : Py.World) (message : string)
    (commit_type : option string) (scope details : string) (tags : list string)
    (mood energy : Z) (args : CommitYourDay.Args) :
  let prompt_mood :=
    CommitYourDay._prompt_int "0" CommitYourDay.MOOD_DEFAULT
      CommitYourDay.MOOD_MIN CommitYourDay.MOOD_MAX in
  let prompt_energy :=
    CommitYourDay._prompt_int "3" CommitYourDay.ENERGY_DEFAULT
      CommitYourDay.ENERGY_MIN CommitYourDay.ENERGY_MAX in
  (exists c,
      CommitYourDay._create_commit message commit_type scope details tags mood energy w
        = (Py.Ok c, w)
      /\ CommitYourDay.mood_score c = Py.clamp (-2) 2 mood
      /\ CommitYourDay.energy_score c = Py.clamp 1 5 energy
      /\ -2 <= CommitYourDay.mood_score c <= 2
      /\ 1 <= CommitYourDay.energy_score c <= 5
      /\ (2 <= mood -> CommitYourDay.mood_score c = 2)
      /\ (mood <= -2 -> CommitYourDay.mood_score c = -2)
      /\ (5 <= energy -> CommitYourDay.energy_score c = 5)
      /\ (energy <= 1 -> CommitYourDay.energy_score c = 1))
  /\ (forall line rest n,
        Py.stdin w = line :: rest -> Strings.is_ascii line = true ->
        Py.int_of_str (Py.strip line) = Some n ->
        prompt_mood w = (Py.Ok (Py.clamp (-2) 2 n), Scores.after_line rest w)
        /\ prompt_energy w = (Py.Ok (Py.clamp 1 5 n), Scores.after_line rest w))
  /\ (forall line rest,
        Py.stdin w = line :: rest -> Strings.is_ascii line = true ->
        Py.int_of_str (Py.strip line) = None ->
        prompt_mood w = (Py.Ok 0, Scores.after_line rest w)
        /\ prompt_energy w = (Py.Ok 3, Scores.after_line rest w))
  /\ (forall rest,
        Py.stdin w = "99"%string :: rest ->
        prompt_mood w = (Py.Ok 2, Scores.after_line rest w)
        /\ prompt_energy w = (Py.Ok 5, Scores.after_line rest w))
  /\ (Py.stdin w = [] ->
      prompt_mood w = (Py.Raise (Py.SystemExit 0), w)
      /\ prompt_energy w = (Py.Raise (Py.SystemExit 0), w))
  /\ (let m := default CommitYourDay.MOOD_DEFAULT (CommitYourDay.arg_mood args) in
      let en := default CommitYourDay.ENERGY_DEFAULT (CommitYourDay.arg_energy args) in
      m < -2 \/ 2 < m \/ en < 1 \/ 5 < en ->
      CommitYourDay._cmd_quick_commit args w = (Py.Raise (Py.SystemExit 1), w)).
Proof.
  cbn zeta. split; [|split; [|split; [|split; [|split]]]].
  - destruct (Scores.create_commit_scores message commit_type scope details tags
                mood energy w) as (c & E & Hm & He).
    exists c. split; [exact E|]. rewrite Hm, He.
    unfold CommitYourDay.MOOD_MIN, CommitYourDay.MOOD_MAX,
      CommitYourDay.ENERGY_MIN, CommitYourDay.ENERGY_MAX, Py.clamp.
    repeat split; lia.
  - intros line rest n Hin _ Hn.
    split; by rewrite (Scores.prompt_int_clamps _ _ _ _ _ _ _ _ Hin Hn).
  - intros line rest Hin _ Hn.
    split; by rewrite (Scores.prompt_int_default _ _ _ _ _ _ _ Hin Hn).
  - intros rest Hin.
    split; by rewrite (Scores.prompt_int_clamps _ _ _ _ _ _ _ 99 Hin).
  - intros Hin. split; by apply Scores.prompt_int_end.
  - apply Scores.quick_commit_rejects.
Qed.

(** At the prompts a typed [ -7 ] gives the mood -2, a typed [12] the
    energy 5, and [plenty] the default energy. *)
Lemma scores_typed_at_the_prompts :
  let typed line :=
    {| Py.files := ∅; Py.fault := None; Py.tmp_names := [];
       Py.stdin := [line; "next"]; Py.env := Saves.host |} in
  CommitYourDay._prompt_int "0" 0 (-2) 2 (typed " -7 ")
  = (Py.Ok (-2), Scores.after_line ["next"] (typed " -7 "))
  /\ CommitYourDay._prompt_int "3" 3 1 5 (typed "12")
     = (Py.Ok 5, Scores.after_line ["next"] (typed "12"))
  /\ CommitYourDay._prompt_int "3" 3 1 5 (typed "plenty")
     = (Py.Ok 3, Scores.after_line ["next"] (typed "plenty")).
Proof.
  intros typed.
  pose (args := {| CommitYourDay.arg_message := None; CommitYourDay.arg_commit_type := None;
                   CommitYourDay.arg_scope := None; CommitYourDay.arg_details := None;
                   CommitYourDay.arg_tags := None; CommitYourDay.arg_mood := None;
                   CommitYourDay.arg_energy := None |}).
  pose (facts line := scores_clamped_or_rejected (H := JsonText.text_lib)
                        (typed line) "" None "" "" [] 0 0 args).
  split; [|split].
  - exact (proj1 (proj1 (proj2 (facts " -7 "%string))
                    " -7 "%string ["next"%string] (-7) eq_refl eq_refl eq_refl)).
  - exact (proj2 (proj1 (proj2 (facts "12"%string))
                    "12"%string ["next"%string] 12 eq_refl eq_refl eq_refl)).
  - exact (proj2 (proj1 (proj2 (proj2 (facts "plenty"%string)))
                    "plenty"%string ["next"%string] eq_refl eq_refl eq_refl)).
Defined.

(** C4 fails as stated: [--mood 99] on the quick commit is not stored as 2
    but turned away, with exit status 1 and no file written. *)
Lemma quick_commit_rejects_mood_99 :
  let args := {| CommitYourDay.arg_message := Some "fixed the squeaky door";
                 CommitYourDay.arg_commit_type := None;
                 CommitYourDay.arg_scope := Some "life";
                 CommitYourDay.arg_details := None;
                 CommitYourDay.arg_tags := None;
                 CommitYourDay.arg_mood := Some 99;
                 CommitYourDay.arg_energy := None |} in
  let res := CommitYourDay._cmd_quick_commit args (Py.calm ∅ ["k3x9q2ab"] Saves.host) in
  res.1 = Py.Raise (Py.SystemExit 1) /\ Py.files res.2 = ∅.
Proof. by vm_compute. Qed.

(** * Aggregations on no records *)

Module Floats64.
Import Py CommitYourDay.

(** The number of binary digits. *)
Lemma digits2_size p : digits2_pos p = Pos.size p.
Proof. induction p as [p IH|p IH|]; cbn; congruence. Qed.

Lemma Zdigits2_bound m k : 0 <= k -> 0 <= m < 2 ^ k -> 0 <= Zdigits2 m <= k.
Proof.
  intros Hk [Hm Hlt]. destruct m as [|p|p]; [cbn; lia| |lia].
  cbn [Zdigits2]. rewrite digits2_size. split; [lia|].
  destruct (Z.le_gt_cases (Z.pos (Pos.size p)) k) as [|Hgt]; [done|exfalso].
  pose proof (Pos.size_le p) as Hle.
  assert (2 ^ (k + 1) <= 2 ^ Z.pos (Pos.size p)) as Hpow
    by (apply Z.pow_le_mono_r; lia).
  rewrite Z.pow_add_r in Hpow by lia.
  assert (2 ^ Z.pos (Pos.size p) <= Z.pos p~0) as Hle'.
  { rewrite <- Pos2Z.inj_pow. apply Pos2Z.pos_le_pos. exact Hle. }
  lia.
Qed.

Lemma Zdigits2_pos_bounds p :
  2 ^ (Zdigits2 (Z.pos p) - 1) <= Z.pos p < 2 ^ Zdigits2 (Z.pos p).
Proof.
  cbn [Zdigits2]. rewrite digits2_size.
  pose proof (Pos.size_le p) as Hle. pose proof (Pos.size_gt p) as Hgt.
  assert (2 ^ Z.pos (Pos.size p) <= Z.pos p~0) as Hle'.
  { rewrite <- Pos2Z.inj_pow. apply Pos2Z.pos_le_pos. exact Hle. }
  assert (Z.pos p < 2 ^ Z.pos (Pos.size p)) as Hgt'.
  { rewrite <- Pos2Z.inj_pow. apply Pos2Z.pos_lt_pos. exact Hgt. }
  split; [|done].
  replace (Z.pos (Pos.size p)) with (Z.pos (Pos.size p) - 1 + 1) in Hle' by lia.
  rewrite Z.pow_add_r in Hle' by lia. lia.
Qed.

(** Shifting right. *)
Lemma shr_1_bound mrs k :
  0 <= k -> 0 <= shr_m mrs < 2 ^ k ->
  0 <= shr_m (shr_1 mrs) < 2 ^ Z.max 0 (k - 1).
Proof.
  intros Hk [Hm Hlt]. destruct mrs as [m r s]. cbn [shr_m] in *.
  destruct (Z.eq_dec k 0) as [->|Hne].
  { assert (m = 0) as -> by (cbn in Hlt; lia). cbn. lia. }
  replace (Z.max 0 (k - 1)) with (k - 1) by lia.
  assert (2 ^ k = 2 * 2 ^ (k - 1)) as Hpow.
  { replace k with (k - 1 + 1) at 1 by lia. rewrite Z.pow_add_r by lia. lia. }
  destruct m as [|[p|p|]|p]; cbn [shr_1 shr_m]; try lia.
Qed.

Lemma iter_shr_1_bound p : forall mrs k,
  0 <= k -> 0 <= shr_m mrs < 2 ^ k ->
  0 <= shr_m (SpecFloat.iter_pos shr_1 p mrs) < 2 ^ Z.max 0 (k - Z.pos p).
Proof.
  induction p as [p IH|p IH|]; intros mrs k Hk Hm; cbn [SpecFloat.iter_pos].
  - pose proof (shr_1_bound mrs k Hk Hm) as H1.
    pose proof (IH _ (Z.max 0 (k - 1)) ltac:(lia) H1) as H2.
    pose proof (IH _ (Z.max 0 (Z.max 0 (k - 1) - Z.pos p)) ltac:(lia) H2) as H3.
    replace (Z.max 0 (k - Z.pos p~1))
      with (Z.max 0 (Z.max 0 (Z.max 0 (k - 1) - Z.pos p) - Z.pos p)) by lia.
    exact H3.
  - pose proof (IH _ _ Hk Hm) as H2.
    pose proof (IH _ (Z.max 0 (k - Z.pos p)) ltac:(lia) H2) as H3.
    replace (Z.max 0 (k - Z.pos p~0))
      with (Z.max 0 (Z.max 0 (k - Z.pos p) - Z.pos p)) by lia.
    exact H3.
  - by apply shr_1_bound.
Qed.

Lemma shr_fexp_bound m e l k :
  0 <= k -> 0 <= m < 2 ^ k ->
  let e1 := Z.max e (fexp 53 1024 (Zdigits2 m + e)) in
  (shr_fexp 53 1024 m e l).2 = e1
  /\ 0 <= shr_m (shr_fexp 53 1024 m e l).1 < 2 ^ Z.max 0 (k + e - e1).
Proof.
  intros Hk Hm e1. unfold shr_fexp, shr.
  assert (shr_m (shr_record_of_loc m l) = m) as Hrec by (by destruct l as [|[]]).
  destruct (fexp 53 1024 (Zdigits2 m + e) - e) as [|p|p] eqn:Hn; cbn [fst snd].
  - split; [lia|]. rewrite Hrec. replace (Z.max 0 (k + e - e1)) with k by lia. done.
  - split; [lia|].
    replace (Z.max 0 (k + e - e1)) with (Z.max 0 (k - Z.pos p)) by lia.
    apply iter_shr_1_bound; [done|by rewrite Hrec].
  - split; [lia|]. rewrite Hrec. replace (Z.max 0 (k + e - e1)) with k by lia. done.
Qed.

Lemma round_nearest_even_bound m l : 0 <= m -> m <= round_nearest_even m l <= m + 1.
Proof.
  intros Hm. unfold round_nearest_even.
  destruct l as [|[]]; try lia. destruct (Z.even m); lia.
Qed.

(** A quotient of at most [D] binary digits before the point, [D] up to
    1022, rounds to a float. *)
Lemma binary_round_aux_finite sx q e l D :
  0 <= D <= 1022 -> e <= 0 -> 0 <= q < 2 ^ (D - e) ->
  match binary_round_aux 53 1024 sx q e l with
  | S754_zero _ | S754_finite _ _ _ => True
  | _ => False
  end.
Proof.
  intros HD He Hq. unfold binary_round_aux.
  pose proof (shr_fexp_bound q e l (D - e) ltac:(lia) Hq) as [He1 Hm1]. cbn zeta in *.
  pose proof (Zdigits2_bound q (D - e) ltac:(lia) Hq) as Hdq.
  destruct (shr_fexp 53 1024 q e l) as [mrs1 e1]. cbn [fst snd] in *.
  rewrite <- He1 in Hm1.
  set (m1 := round_nearest_even (shr_m mrs1) (loc_of_shr_record mrs1)).
  pose proof (round_nearest_even_bound (shr_m mrs1) (loc_of_shr_record mrs1) ltac:(lia))
    as Hr. fold m1 in Hr.
  assert (e1 <= Z.max 0 (D - 53)) as He1b.
  { rewrite He1. unfold fexp, emin. lia. }
  assert (0 <= m1 < 2 ^ (Z.max 0 (D - e1) + 1)) as Hm1b.
  { split; [lia|]. rewrite Z.pow_add_r by lia. change (2 ^ 1) with 2.
    replace (Z.max 0 (D - e + e - e1)) with (Z.max 0 (D - e1)) in Hm1 by lia.
    pose proof (Z.pow_pos_nonneg 2 (Z.max 0 (D - e1)) ltac:(lia) ltac:(lia)). lia. }
  pose proof (shr_fexp_bound m1 e1 loc_Exact (Z.max 0 (D - e1) + 1) ltac:(lia) Hm1b)
    as [He2 Hm2].
  cbn zeta in *.
  pose proof (Zdigits2_bound m1 (Z.max 0 (D - e1) + 1) ltac:(lia) Hm1b) as Hdm.
  destruct (shr_fexp 53 1024 m1 e1 loc_Exact) as [mrs2 e2]. cbn [fst snd] in *.
  rewrite <- He2 in Hm2.
  assert (e2 <= 971) as He2b.
  { rewrite He2. unfold fexp, emin. lia. }
  destruct (shr_m mrs2) as [|m|m]; [done| |lia].
  by destruct (Z.leb_spec e2 (1024 - 53)); [|lia].
Qed.

(** The quotient the division core hands to the rounding. *)
Lemma SFdiv_core_bound ma mb :
  let D := Zdigits2 (Z.pos ma) - Zdigits2 (Z.pos mb) + 1 in
  let r := SFdiv_core_binary 53 1024 (Z.pos ma) 0 (Z.pos mb) 0 in
  r.1.2 <= 0 /\ 0 <= r.1.1 < 2 ^ (Z.max 0 D - r.1.2).
Proof.
  cbn zeta. unfold SFdiv_core_binary.
  set (d1 := Zdigits2 (Z.pos ma)). set (d2 := Zdigits2 (Z.pos mb)).
  pose proof (Zdigits2_pos_bounds ma) as Ha. pose proof (Zdigits2_pos_bounds mb) as Hb.
  fold d1 in Ha. fold d2 in Hb.
  assert (1 <= d1) as Hd1 by (unfold d1; cbn; lia).
  assert (1 <= d2) as Hd2 by (unfold d2; cbn; lia).
  rewrite !Z.add_0_r, !Z.sub_0_r, Z.sub_0_l.
  set (e' := Z.min (fexp 53 1024 (d1 - d2)) 0).
  assert (e' <= 0) as He' by lia.
  set (m' := match - e' with
             | 0 => Z.pos ma
             | Z.pos _ => Z.shiftl (Z.pos ma) (- e')
             | Z.neg _ => 0
             end).
  assert (m' = Z.pos ma * 2 ^ (- e')) as Hm'.
  { unfold m'. destruct (- e') as [|p|p] eqn:E; [cbn; lia| |lia].
    rewrite Z.shiftl_mul_pow2 by lia. reflexivity. }
  pose proof (Z.div_eucl_eq m' (Z.pos mb) ltac:(lia)) as Hdiv.
  pose proof (Z.mod_pos_bound m' (Z.pos mb) ltac:(lia)) as Hmod.
  unfold Z.modulo in Hmod.
  destruct (Z.div_eucl m' (Z.pos mb)) as [q r]. cbn [fst snd].
  split; [exact He'|].
  assert (0 <= m') as Hm'pos.
  { rewrite Hm'. pose proof (Z.pow_pos_nonneg 2 (- e') ltac:(lia) ltac:(lia)). lia. }
  assert (0 <= q) as Hq.
  { destruct (Z.le_gt_cases 0 q); [done|]. nia. }
  split; [exact Hq|].
  assert (q * 2 ^ (d2 - 1) < 2 ^ (d1 - e')) as Hlt.
  { apply Z.le_lt_trans with m'; [nia|].
    rewrite Hm'. replace (d1 - e') with (d1 + - e') by lia.
    rewrite Z.pow_add_r by lia.
    pose proof (Z.pow_pos_nonneg 2 (- e') ltac:(lia) ltac:(lia)). nia. }
  destruct (Z.le_gt_cases 0 (d1 - d2 + 1)) as [Hpos|Hneg].
  - replace (Z.max 0 (d1 - d2 + 1) - e') with (d1 - e' - (d2 - 1)) by lia.
    replace (d1 - e') with ((d1 - e' - (d2 - 1)) + (d2 - 1)) in Hlt by lia.
    rewrite Z.pow_add_r in Hlt by lia.
    pose proof (Z.pow_pos_nonneg 2 (d2 - 1) ltac:(lia) ltac:(lia)). nia.
  - replace (Z.max 0 (d1 - d2 + 1) - e') with (- e') by lia.
    assert (2 ^ (d1 - e') <= 2 ^ (d2 - 1) * 2 ^ (- e')) as Hle.
    { rewrite <- Z.pow_add_r by lia. apply Z.pow_le_mono_r; lia. }
    pose proof (Z.pow_pos_nonneg 2 (d2 - 1) ltac:(lia) ltac:(lia)).
    pose proof (Z.pow_pos_nonneg 2 (- e') ltac:(lia) ltac:(lia)). nia.
Qed.

(** [a / b] answers a float when [a] is at most [2^1000] times [b] in
    size; whatever the operands, a nonzero [b] never gives
    [ZeroDivisionError]. *)
Lemma truediv_small a b :
  b <> 0 -> Z.abs a <= Z.abs b * 2 ^ 1000 -> exists q, truediv a b = inr q.
Proof.
  intros Hb Hsmall. unfold truediv. destruct (Z.eqb_spec b 0); [done|].
  destruct a as [|ma|ma]; [destruct b; try done; cbn; eauto| |];
    (destruct b as [|mb|mb]; [done| |]);
    cbn [int_operand SFdiv];
    pose proof (SFdiv_core_bound ma mb) as [He Hq]; cbn zeta in He, Hq;
    pose proof (Zdigits2_pos_bounds ma) as Ha; pose proof (Zdigits2_pos_bounds mb) as Hbb;
    (assert (Zdigits2 (Z.pos ma) - Zdigits2 (Z.pos mb) + 1 <= 1022) as HD;
     [ destruct (Z.le_gt_cases (Zdigits2 (Z.pos ma) - Zdigits2 (Z.pos mb) + 1) 1022)
         as [|Hgt]; [done|exfalso];
       assert (2 ^ (Zdigits2 (Z.pos mb) + 1000) <= 2 ^ (Zdigits2 (Z.pos ma) - 1)) as Hpow
         by (apply Z.pow_le_mono_r; lia);
       rewrite Z.pow_add_r in Hpow by (cbn; lia);
       cbn [Z.abs] in Hsmall;
       pose proof (Z.pow_pos_nonneg 2 1000 ltac:(lia) ltac:(lia)); nia
     | ]);
    destruct (SFdiv_core_binary 53 1024 (Z.pos ma) 0 (Z.pos mb) 0) as [[q e] l];
    cbn [fst snd] in *;
    match goal with
    | |- context [binary_round_aux 53 1024 ?s q e l] =>
        pose proof (binary_round_aux_finite s q e l
                      (Z.max 0 (Zdigits2 (Z.pos ma) - Zdigits2 (Z.pos mb) + 1))
                      ltac:(lia) He Hq) as Hfin;
        destruct (binary_round_aux 53 1024 s q e l); try done; eauto
    end.
Qed.

Lemma truediv_outcome a b :
  b <> 0 ->
  (exists q, truediv a b = inr q) \/ truediv a b = inl (Error OverflowError).
Proof.
  intros Hb. unfold truediv. destruct (Z.eqb_spec b 0); [done|].
  destruct (SFdiv 53 1024 (int_operand a) (int_operand b)); eauto.
Qed.

End Floats64.

Module Aggregates.
Import Py CommitYourDay.

(** Scores whose sums the float division can take: each at most [2^1000]
    in size (the scores the tool creates lie in -2..2 and 1..5). *)
Definition score_bound : Z := 2 ^ 1000.

Definition bounded_scores (commits : list LifeCommit) : Prop :=
  Forall (fun c => Z.abs (mood_score c) <= score_bound
                   /\ Z.abs (energy_score c) <= score_bound) commits.

Lemma sum_of_bound (f : LifeCommit -> Z) (commits : list LifeCommit) :
  Forall (fun c => Z.abs (f c) <= score_bound) commits ->
  Z.abs (sum_of f commits) <= Z.of_nat (length commits) * score_bound.
Proof.
  intros Hall. unfold sum_of.
  assert (forall acc n,
             Z.abs acc <= n * score_bound ->
             Z.abs (foldl (fun acc c => acc + f c) acc commits)
             <= (n + Z.of_nat (length commits)) * score_bound) as Hgen.
  { induction Hall as [|c cs Hc _ IH]; intros acc n Hacc; cbn [foldl length].
    - by rewrite Z.add_0_r.
    - replace (n + Z.of_nat (S (length cs))) with ((n + 1) + Z.of_nat (length cs)) by lia.
      apply IH. lia. }
  apply (Hgen 0 0). unfold score_bound. lia.
Qed.

Lemma Forall_filter_keeps {A} (Q P : A -> Prop) `{forall x, Decision (P x)} (l : list A) :
  Forall Q l -> Forall Q (filter P l).
Proof.
  rewrite !Forall_forall. intros Hall x Hx.
  apply list_elem_of_filter in Hx as [_ Hx]. by apply Hall.
Qed.

Lemma bounded_scores_filter (P : LifeCommit -> Prop) `{forall c, Decision (P c)} commits :
  bounded_scores commits -> bounded_scores (filter P commits).
Proof. unfold bounded_scores. apply Forall_filter_keeps. Qed.

(** The average of bounded scores over a list that is not empty. *)
Lemma average_bounded (f : LifeCommit -> Z) (commits : list LifeCommit) :
  commits <> [] ->
  Forall (fun c => Z.abs (f c) <= score_bound) commits ->
  exists q, truediv (sum_of f commits) (Z.of_nat (length commits)) = inr q.
Proof.
  intros Hne Hall. apply Floats64.truediv_small.
  - destruct commits; [done|cbn; lia].
  - pose proof (sum_of_bound f commits Hall) as Hsum. unfold score_bound in Hsum.
    rewrite (Z.abs_eq (Z.of_nat _)) by lia. exact Hsum.
Qed.

Lemma week_stats_total commits :
  bounded_scores commits -> exists stats, _week_stats commits = inr stats.
Proof.
  intros Hall. destruct commits as [|c cs]; [eexists; reflexivity|].
  unfold _week_stats.
  destruct (average_bounded mood_score (c :: cs)) as [q1 ->]; [done| |].
  { eapply Forall_impl; [exact Hall|]. by intros ? [? _]. }
  destruct (average_bounded energy_score (c :: cs)) as [q2 ->]; [done| |].
  { eapply Forall_impl; [exact Hall|]. by intros ? [_ ?]. }
  eauto.
Qed.

(** Whatever the scores, the averages do not divide by zero: the count
    they divide by is the length of a list that is not empty. *)
Lemma week_stats_outcome commits :
  (exists stats, _week_stats commits = inr stats)
  \/ _week_stats commits = inl (Error OverflowError).
Proof.
  destruct commits as [|c cs]; [left; eexists; reflexivity|].
  unfold _week_stats.
  destruct (Floats64.truediv_outcome (sum_of mood_score (c :: cs))
              (Z.of_nat (length (c :: cs)))) as [[q1 ->]| ->]; [cbn; lia| |by right].
  destruct (Floats64.truediv_outcome (sum_of energy_score (c :: cs))
              (Z.of_nat (length (c :: cs)))) as [[q2 ->]| ->]; [cbn; lia| |by right].
  left. eauto.
Qed.

Lemma tag_mood_loop_total commits top_tags :
  bounded_scores commits ->
  exists results, tag_mood_loop commits top_tags = inr results.
Proof.
  intros Hall.
  induction top_tags as [|tag rest [results IH]]; [eexists; reflexivity|].
  cbn [tag_mood_loop].
  destruct (Z.ltb_spec (Z.of_nat (length (filter (fun c => bool_decide (tag ∈ tags c)) commits)))
              TAG_MOOD_MIN_OCCURRENCES) as [Hlt|Hge]; [eauto|].
  destruct (average_bounded mood_score
              (filter (fun c => bool_decide (tag ∈ tags c)) commits)) as [q ->].
  { intros E. rewrite E in Hge. unfold TAG_MOOD_MIN_OCCURRENCES in Hge. cbn in Hge. lia. }
  { apply Forall_filter_keeps. eapply Forall_impl; [exact Hall|]. by intros ? [? _]. }
  rewrite IH. eauto.
Qed.

Lemma tag_mood_loop_outcome commits top_tags :
  (exists results, tag_mood_loop commits top_tags = inr results)
  \/ tag_mood_loop commits top_tags = inl (Error OverflowError).
Proof.
  induction top_tags as [|tag rest IH]; [left; eexists; reflexivity|].
  cbn [tag_mood_loop].
  destruct (Z.ltb_spec (Z.of_nat (length (filter (fun c => bool_decide (tag ∈ tags c)) commits)))
              TAG_MOOD_MIN_OCCURRENCES) as [Hlt|Hge]; [exact IH|].
  destruct (Floats64.truediv_outcome
              (sum_of mood_score (filter (fun c => bool_decide (tag ∈ tags c)) commits))
              (Z.of_nat (length (filter (fun c => bool_decide (tag ∈ tags c)) commits))))
    as [[q ->]| ->]; [|destruct IH as [[results ->]| ->]; eauto|by right].
  unfold TAG_MOOD_MIN_OCCURRENCES in Hge. lia.
Qed.

End Aggregates.

(** C8: on no records the aggregations answer their neutral values, the
    streak 0, the week's statistics [count 0, mood_avg 0.0, energy_avg 0.0],
    the tag counts an empty counter (and so do the grouping by date, the
    type distribution and the tag and mood correlation).  On any records
    the averages never divide by zero: they come out, or the division
    raises [OverflowError] for a quotient beyond the floats; on scores of
    size up to [2^1000] (the scores the tool stores lie in -2..2 and 1..5)
    they come out. *)
Theorem aggregations_total_on_empty (w : Py.World) (commits : list CommitYourDay.LifeCommit) :
  CommitYourDay._compute_streak [] w = (Py.Ok 0, w)
  /\ CommitYourDay._week_stats []
     = inr {| CommitYourDay.count := 0;
              CommitYourDay.mood_avg := S754_zero false;
              CommitYourDay.energy_avg := S754_zero false |}
  /\ CommitYourDay._compute_tag_counts [] = []
  /\ CommitYourDay._commits_by_date [] = []
  /\ CommitYourDay._compute_type_distribution [] = []
  /\ CommitYourDay._compute_tag_mood_correlation [] = inr []
  /\ ((exists stats, CommitYourDay._week_stats commits = inr stats)
      \/ CommitYourDay._week_stats commits = inl (Py.Error Py.OverflowError))
  /\ ((exists results, CommitYourDay._compute_tag_mood_correlation commits = inr results)
      \/ CommitYourDay._compute_tag_mood_correlation commits
         = inl (Py.Error Py.OverflowError))
  /\ (Aggregates.bounded_scores commits ->
      (exists stats, CommitYourDay._week_stats commits = inr stats)
      /\ (exists results,
            CommitYourDay._compute_tag_mood_correlation commits = inr results)).
Proof.
  repeat split; try reflexivity.
  - apply Aggregates.week_stats_outcome.
  - apply Aggregates.tag_mood_loop_outcome.
  - by apply Aggregates.week_stats_total.
  - by apply Aggregates.tag_mood_loop_total.
Qed.

(** Three commits of moods 2, 1 and 2 and energies 3, 4 and 4: the mood
    average is 5/3 and the energy average 11/3, each rounded once. *)
Lemma aggregations_on_three_commits :
  let scored m e :=
    {| CommitYourDay.commit_id := "a"; CommitYourDay.timestamp := "2024-06-15T10:00:00+00:00";
       CommitYourDay.commit_date := "2024-06-15"; CommitYourDay.commit_type := "feat";
       CommitYourDay.scope := ""; CommitYourDay.message := "m";
       CommitYourDay.details := ""; CommitYourDay.tags := ["home"];
       CommitYourDay.mood_score := m; CommitYourDay.energy_score := e |} in
  CommitYourDay._week_stats [scored 2 3; scored 1 4; scored 2 4]
  = inr {| CommitYourDay.count := 3;
           CommitYourDay.mood_avg := S754_finite false 7505999378950827 (-52);
           CommitYourDay.energy_avg := S754_finite false 8256599316845909 (-51) |}
  /\ exists results,
       CommitYourDay._compute_tag_mood_correlation [scored 2 3; scored 1 4; scored 2 4]
       = inr results.
Proof.
  cbn zeta. split; [by vm_compute|].
  refine (proj2 (proj2 (proj2 (proj2 (proj2 (proj2 (proj2 (proj2 (proj2
            (aggregations_total_on_empty (Py.calm ∅ [] Saves.host) _)))))))) _)).
  repeat constructor; by vm_compute.
Defined.

(** * Weighted choice *)

Module Choice.
Import Py Random.

Section WithGenerator.
Context `{Generator}.

Lemma random_range st : 0 <= (random st).1 < 2 ^ 53.
Proof.
  unfold random. destruct (genrand_uint32 st) as [w1 st1].
  destruct (genrand_uint32 st1) as [w2 st2]. cbn [fst].
  pose proof (Z.mod_pos_bound w1 (2 ^ 32) ltac:(lia)) as H1.
  pose proof (Z.mod_pos_bound w2 (2 ^ 32) ltac:(lia)) as H2.
  assert (0 <= (w1 mod 2 ^ 32) / 32 < 2 ^ 27) as Ha.
  { split; [apply Z.div_pos; lia|]. apply Z.div_lt_upper_bound; lia. }
  assert (0 <= (w2 mod 2 ^ 32) / 64 < 2 ^ 26) as Hb.
  { split; [apply Z.div_pos; lia|]. apply Z.div_lt_upper_bound; lia. }
  lia.
Qed.

End WithGenerator.

(** *** Running totals *)

Lemma accumulate_from_length acc ws : length (accumulate_from acc ws) = length ws.
Proof. revert acc. induction ws as [|w ws IH]; intros acc; cbn; auto. Qed.

(** Each running total is the one before it (the start for the first)
    plus the weight at its place. *)
Lemma accumulate_from_nth ws : forall acc i w,
  ws !! i = Some w ->
  nth i (accumulate_from acc ws) 0
  = match i with
    | O => acc
    | S i' => nth i' (accumulate_from acc ws) 0
    end + w.
Proof.
  induction ws as [|w0 ws IH]; intros acc i w Hw; [done|].
  destruct i as [|i]; cbn in Hw |- *.
  - congruence.
  - rewrite (IH (acc + w0) i w Hw). by destruct i.
Qed.

Lemma accumulate_from_mono ws acc i j :
  Forall (fun w => 0 <= w) ws ->
  (i <= j)%nat -> (j < length ws)%nat ->
  nth i (accumulate_from acc ws) 0 <= nth j (accumulate_from acc ws) 0.
Proof.
  intros Hpos Hij Hj. induction Hij as [|j Hij IH]; [lia|].
  destruct (lookup_lt_is_Some_2 ws (S j) Hj) as [w Hw].
  rewrite (accumulate_from_nth ws acc (S j) w Hw).
  assert (0 <= w) by (rewrite Forall_forall in Hpos; eapply Hpos, list_elem_of_lookup_2, Hw).
  specialize (IH ltac:(lia)). lia.
Qed.

Lemma last_nth (l : list Z) total :
  last l = Some total -> nth (length l - 1) l 0 = total.
Proof.
  induction l as [|x l IH]; [done|].
  destruct l as [|y l]; cbn in *; [congruence|].
  intros Hl. specialize (IH Hl). rewrite Nat.sub_0_r in IH. exact IH.
Qed.

(** *** Bisection *)

Section Bisect.
Variables (a : list Z) (num den : Z).

(** [x < a[i]] for [x = num / den] *)
Definition below (i : nat) : Prop := num < nth i a 0 * den.

Hypothesis below_mono : forall i j, (i <= j)%nat -> (j < length a)%nat -> below i -> below j.

Lemma bisect_loop_spec fuel : forall lo hi,
  (hi - lo < fuel)%nat -> (lo <= hi)%nat -> (hi < length a)%nat ->
  let r := bisect_loop fuel a num den lo hi in
  (lo <= r <= hi)%nat
  /\ (forall i, (lo <= i < r)%nat -> ~ below i)
  /\ ((r < hi)%nat -> below r).
Proof.
  induction fuel as [|fuel IH]; intros lo hi Hfuel Hle Hhi; [lia|].
  cbn [bisect_loop]. destruct (Nat.ltb_spec lo hi) as [Hlt|Hge].
  2: { cbn. repeat split; lia. }
  pose proof (Nat.div_mod (lo + hi) 2 ltac:(lia)) as Hdiv.
  pose proof (Nat.mod_upper_bound (lo + hi) 2 ltac:(lia)) as Hmod.
  set (mid := ((lo + hi) / 2)%nat) in *.
  assert (lo <= mid < hi)%nat as Hmid by lia.
  destruct (Z.ltb_spec num (nth mid a 0 * den)) as [Hbelow|Hnot].
  - destruct (IH lo mid ltac:(lia) ltac:(lia) ltac:(lia)) as (Hr & Hbefore & Hat).
    cbn zeta in *. set (r := bisect_loop fuel a num den lo mid) in *.
    repeat split; try lia; [exact Hbefore|].
    intros _. destruct (decide (r = mid)) as [->|Hne]; [exact Hbelow|].
    apply Hat. lia.
  - destruct (IH (mid + 1)%nat hi ltac:(lia) ltac:(lia) ltac:(lia)) as (Hr & Hbefore & Hat).
    cbn zeta in *. set (r := bisect_loop fuel a num den (mid + 1) hi) in *.
    repeat split; try lia; [|exact Hat].
    intros i Hi Hb. destruct (le_lt_dec i mid) as [Hleft|Hright].
    + apply (below_mono i mid) in Hb; [|lia|lia]. unfold below in Hb. lia.
    + apply (Hbefore i); [lia|exact Hb].
Qed.

End Bisect.

Section WithGenerator.
Context `{Generator}.

(** [choices] with weights that are not negative and a positive total
    answers an element whose own weight is positive. *)
Lemma choices1_positive_weight {A} (population : list A) (weights : list Z) st total :
  length population = length weights ->
  Forall (fun w => 0 <= w) weights ->
  last (accumulate weights) = Some total ->
  0 < total ->
  exists i x w,
    choices1 population weights st = inr (x, (random st).2)
    /\ population !! i = Some x /\ weights !! i = Some w /\ 0 < w.
Proof.
  intros Hlen Hpos Hlast Htotal. unfold choices1.
  assert (length (accumulate weights) = length weights) as Hacc
    by apply accumulate_from_length.
  rewrite Hacc, <- Hlen, Nat.eqb_refl. cbn [negb]. rewrite Hlast.
  destruct (Z.leb_spec total 0) as [?|_]; [lia|].
  pose proof (random_range st) as Hk.
  destruct (random st) as [k st']. cbn [fst snd] in *.
  assert (0 < length weights)%nat as Hn.
  { destruct weights; [discriminate|cbn; lia]. }
  pose proof (last_nth _ _ Hlast) as Hend. rewrite Hacc in Hend.
  set (a := accumulate weights) in *.
  assert (Hmono : forall i j, (i <= j)%nat -> (j < length a)%nat ->
                          below a (k * total) (2 ^ 53) i -> below a (k * total) (2 ^ 53) j).
  { intros i j Hij Hj. unfold below.
    pose proof (accumulate_from_mono weights 0 i j Hpos Hij ltac:(lia)) as Hle.
    fold (accumulate weights) in Hle. fold a in Hle. nia. }
  destruct (bisect_loop_spec a (k * total) (2 ^ 53) Hmono
              (S (length population - 1)) 0 (length population - 1)
              ltac:(lia) ltac:(lia) ltac:(lia)) as (Hr & Hbefore & Hat).
  cbn zeta in *. fold (bisect a (k * total) (2 ^ 53) 0 (length population - 1)) in *.
  set (r := bisect a (k * total) (2 ^ 53) 0 (length population - 1)) in *.
  assert (below a (k * total) (2 ^ 53) r) as Hbelow.
  { destruct (decide (r = length population - 1)%nat) as [Heq|Hne]; [|apply Hat; lia].
    unfold below. rewrite Heq, Hlen, Hend. nia. }
  destruct (lookup_lt_is_Some_2 population r ltac:(lia)) as [x Hx].
  destruct (lookup_lt_is_Some_2 weights r ltac:(lia)) as [w Hw].
  exists r, x, w. rewrite Hx. repeat split; auto.
  pose proof (accumulate_from_nth weights 0 r w Hw) as Hstep.
  fold (accumulate weights) in Hstep. fold a in Hstep.
  unfold below in Hbelow. destruct r as [|r'].
  - nia.
  - assert (~ below a (k * total) (2 ^ 53) r') as Hprev by (apply Hbefore; lia).
    unfold below in Hprev. nia.
Qed.

(** The generator after [i] calls of [random()]. *)
Definition state_after (i : nat) (st : rng_state) : rng_state :=
  Nat.iter i (fun st => (random st).2) st.

Lemma state_after_next i st : state_after i (random st).2 = state_after (S i) st.
Proof. unfold state_after. by rewrite Nat.iter_succ_r. Qed.

(** The pet's action is one listed for the mood, with a positive weight,
    and costs one call of [random()]. *)
Lemma choose_action_listed mood st :
  exists a w,
    Buddy.choose_action mood st = inr (a, (random st).2)
    /\ (a, w) ∈ Buddy._MOOD_WEIGHTS mood /\ 0 < w.
Proof.
  unfold Buddy.choose_action.
  assert (exists total,
             last (accumulate (map snd (Buddy._MOOD_WEIGHTS mood))) = Some total
             /\ 0 < total) as (total & Hlast & Htotal).
  { destruct mood; [exists 11|exists 9|exists 9]; (split; [reflexivity|lia]). }
  destruct (choices1_positive_weight
              (map fst (Buddy._MOOD_WEIGHTS mood)) (map snd (Buddy._MOOD_WEIGHTS mood))
              st total) as (i & a & w & E & Ha & Hw & Hpos); auto.
  - by rewrite !length_map.
  - destruct mood; cbn; repeat (apply Forall_cons; split; [lia|]); apply Forall_nil_2.
  - exists a, w. split; [exact E|]. split; [|exact Hpos].
    rewrite list_lookup_fmap in Ha. rewrite list_lookup_fmap in Hw.
    destruct (Buddy._MOOD_WEIGHTS mood !! i) as [[a' w']|] eqn:Hi; [|discriminate].
    cbn in Ha, Hw. injection Ha as <-. injection Hw as <-.
    eapply list_elem_of_lookup_2, Hi.
Qed.

(** A run of [n] choices: the [i]-th is the choice made in the state the
    generator has after [i] calls of [random()]. *)
Lemma choose_actions_stream mood n : forall st,
  exists actions,
    Buddy.choose_actions n mood st = inr actions
    /\ length actions = n
    /\ forall i a, actions !! i = Some a ->
         exists w, (a, w) ∈ Buddy._MOOD_WEIGHTS mood /\ 0 < w
                   /\ Buddy.choose_action mood (state_after i st)
                      = inr (a, state_after (S i) st).
Proof.
  induction n as [|n IH]; intros st; cbn [Buddy.choose_actions].
  - exists []. by repeat split.
  - destruct (choose_action_listed mood st) as (a & w & E & Hin & Hw). rewrite E.
    destruct (IH (random st).2) as (rest & -> & Hlen & Hnth).
    exists (a :: rest). split; [reflexivity|]. split; [cbn; by rewrite Hlen|].
    intros [|i] b Hb; cbn in Hb.
    + injection Hb as <-. exists w. by repeat split.
    + destruct (Hnth i b Hb) as (wb & Hinb & Hwb & Eb).
      exists wb. rewrite <- (state_after_next (S i) st), <- (state_after_next i st).
      by repeat split.
Qed.

End WithGenerator.
End Choice.

(** * pocket_poet.py: the lines of a poem *)

Module PoetFacts.
Import Py Random PocketPoet.

(** [fills template line]: the line is the template with every
    placeholder [{key}] replaced by a word of the bank of [key], and every
    other character kept. *)
Inductive fills : string -> string -> Prop :=
  | fills_end : fills EmptyString EmptyString
  | fills_char c template line :
      c <> "{"%char -> c <> "}"%char ->
      fills template line -> fills (String c template) (String c line)
  | fills_key key bank word template line :
      bank_of _BANK_MAP key = Some bank -> word ∈ bank ->
      fills template line ->
      fills ("{" +:+ key +:+ "}" +:+ template) (word +:+ line).

(** The templates the engine fills without a failure: braces only around
    the names of banks that are not empty. *)
Fixpoint well_formed (token : option (list ascii)) (s : string) : bool :=
  match s with
  | EmptyString => match token with None => true | Some _ => false end
  | String c rest =>
      match token with
      | None =>
          if Ascii.eqb c "{" then well_formed (Some []) rest
          else if Ascii.eqb c "}" then false
          else well_formed None rest
      | Some cs =>
          if Ascii.eqb c "}" then
            match cs, bank_of _BANK_MAP (string_of_list_ascii (rev cs)) with
            | _ :: _, Some (_ :: _) => well_formed None rest
            | _, _ => false
            end
          else if is_word_char c then well_formed (Some (c :: cs)) rest
          else false
      end
  end.

Lemma templates_well_formed : forallb (well_formed None) _LINE_TEMPLATES = true.
Proof. by vm_compute. Qed.

Lemma templates_distinct : NoDup _LINE_TEMPLATES.
Proof. apply (bool_decide_unpack _). by vm_compute. Qed.

Section WithGenerator.
Context `{Generator}.

(** A generator whose [_randbelow(n)] answers below [n]. *)
Hypothesis randbelow_below :
  forall st n, (0 < n)%nat -> ((randbelow st n).1 < n)%nat.

Lemma choice_elem {A} (seq : list A) st :
  seq <> [] ->
  exists x, choice seq st = inr (x, (randbelow st (length seq)).2) /\ x ∈ seq.
Proof.
  intros Hne. unfold choice. destruct seq as [|a seq]; [done|].
  pose proof (randbelow_below st (length (a :: seq))) as Hj.
  destruct (randbelow st (length (a :: seq))) as [j st']. cbn [fst snd] in *.
  destruct (lookup_lt_is_Some_2 (a :: seq) j) as [x Hx]; [apply Hj; cbn; lia|].
  rewrite Hx. exists x. split; [reflexivity|]. by eapply list_elem_of_lookup_2.
Qed.

Definition literal (token : option (list ascii)) : string :=
  match token with
  | Some cs => String "{" (string_of_list_ascii (rev cs))
  | None => EmptyString
  end.

Lemma substitute_fills s : forall token st,
  well_formed token s = true ->
  exists line st', substitute token s st = inr (line, st') /\ fills (literal token +:+ s) line.
Proof.
  induction s as [|c rest IH]; intros token st Hwf.
  - destruct token; [discriminate|]. exists EmptyString, st. split; [reflexivity|].
    constructor.
  - destruct token as [cs|].
    + cbn [well_formed] in Hwf. destruct (Ascii.eqb_spec c "}") as [->|Hclose].
      * destruct cs as [|c0 cs]; [discriminate|].
        destruct (bank_of _BANK_MAP (string_of_list_ascii (rev (c0 :: cs))))
          as [[|word0 bank]|] eqn:Hbank; try discriminate.
        destruct (choice_elem (word0 :: bank) st) as (word & Hpick & Hword); [done|].
        destruct (IH None (randbelow st (length (word0 :: bank))).2 Hwf)
          as (line & st' & Hrest & Hfills).
        exists (word +:+ line), st'. split.
        { cbn [substitute]. cbn [Ascii.eqb Bool.eqb]. rewrite Hbank.
          unfold _pick. rewrite Hpick, Hrest. reflexivity. }
        apply (fills_key (string_of_list_ascii (rev (c0 :: cs))) (word0 :: bank) word
                 rest line Hbank Hword Hfills).
      * destruct (is_word_char c) eqn:Hword; [|discriminate].
        destruct (IH (Some (c :: cs)) st Hwf) as (line & st' & Hrest & Hfills).
        exists line, st'. split.
        { destruct cs as [|c0 cs]; cbn [substitute].
          - by rewrite Hword.
          - destruct (Ascii.eqb_spec c "}"); [done|]. by rewrite Hword. }
        revert Hfills. unfold literal. cbn [rev].
        rewrite Strings.string_of_list_app. cbn [string_of_list_ascii].
        assert (forall a b, String "{" a +:+ b = String "{" (a +:+ b)) as E by done.
        rewrite !E. clear E.
        assert (forall a b x, (a +:+ String x EmptyString) +:+ b = a +:+ String x b) as E.
        { intros a b x. induction a as [|y a IHa]; cbn; [done|]. by rewrite IHa. }
        by rewrite E.
    + cbn [well_formed] in Hwf. destruct (Ascii.eqb_spec c "{") as [->|Hopen].
      * destruct (IH (Some []) st Hwf) as (line & st' & Hrest & Hfills).
        exists line, st'. split; [|exact Hfills].
        cbn [substitute]. cbn [Ascii.eqb Bool.eqb]. by rewrite Hrest.
      * destruct (Ascii.eqb_spec c "}") as [->|Hclose]; [discriminate|].
        destruct (IH None st Hwf) as (line & st' & Hrest & Hfills).
        exists (String c line), st'. split.
        { cbn [substitute]. destruct (Ascii.eqb_spec c "{"); [done|]. by rewrite Hrest. }
        by apply fills_char.
Qed.

Lemma render_lines_fill templates : forall st,
  forallb (well_formed None) templates = true ->
  exists poem st', render_lines templates st = inr (poem, st') /\ Forall2 fills templates poem.
Proof.
  induction templates as [|t templates IH]; intros st Hwf.
  - exists [], st. split; [reflexivity|constructor].
  - cbn in Hwf. apply andb_true_iff in Hwf as [Ht Hwf].
    destruct (substitute_fills t None st Ht) as (line & st1 & Hline & Hfills).
    destruct (IH st1 Hwf) as (poem & st2 & Hpoem & Hall).
    exists (line :: poem), st2. split; [|by constructor].
    cbn [render_lines]. unfold _render_line. by rewrite Hline, Hpoem.
Qed.

(** The pool selection draws [k] of the first [n] elements, each at most
    as often as it is there. *)
Lemma sample_loop_draws {A} k : forall (pool : list A) n st,
  (k <= n)%nat -> (n <= length pool)%nat ->
  exists xs st', sample_loop pool n k st = inr (xs, st')
                 /\ length xs = k /\ xs ⊆+ take n pool.
Proof.
  induction k as [|k IH]; intros pool n st Hk Hn.
  - exists [], st. split; [reflexivity|]. split; [reflexivity|]. apply submseteq_nil_l.
  - cbn [sample_loop]. pose proof (randbelow_below st n) as Hj.
    destruct (randbelow st n) as [j st1]. cbn [fst] in Hj. specialize (Hj ltac:(lia)).
    destruct (lookup_lt_is_Some_2 pool j) as [x Hx]; [lia|].
    destruct (lookup_lt_is_Some_2 pool (n - 1)) as [moved Hmoved]; [lia|].
    rewrite Hx, Hmoved.
    destruct (IH (<[j := moved]> pool) (n - 1)%nat st1) as (xs & st2 & Hrun & Hlen & Hsub).
    { lia. } { rewrite length_insert. lia. }
    rewrite Hrun. exists (x :: xs), st2. split; [reflexivity|].
    split; [cbn; by rewrite Hlen|].
    assert (x :: take (n - 1) (<[j := moved]> pool) ≡ₚ take n pool) as <-;
      [|by apply submseteq_skip].
    assert (take n pool = take (n - 1) pool ++ [moved]) as ->.
    { replace n with (S (n - 1)) at 1 by lia. by apply take_S_r. }
    destruct (decide (j = (n - 1)%nat)) as [->|Hne].
    + rewrite take_insert_ge by lia. rewrite Hx in Hmoved. injection Hmoved as ->.
      apply Permutation_cons_append.
    + rewrite take_insert_lt by lia.
      assert (take (n - 1) pool !! j = Some x) as Hq
        by (rewrite lookup_take_lt by lia; exact Hx).
      rewrite insert_take_drop by (rewrite length_take; lia).
      pose proof (take_drop_middle (take (n - 1) pool) j x Hq) as Hmid.
      set (q1 := take j (take (n - 1) pool)) in *.
      set (q2 := drop (S j) (take (n - 1) pool)) in *.
      rewrite <- Hmid. rewrite (Permutation_app_comm (q1 ++ x :: q2) [moved]). cbn [app].
      rewrite <- !Permutation_middle. apply perm_swap.
Qed.

Lemma sample_draws {A} (population : list A) k st :
  (k <= length population)%nat ->
  exists xs st', sample population k st = inr (xs, st')
                 /\ length xs = k /\ xs ⊆+ population.
Proof.
  intros Hk. unfold sample. destruct (Nat.ltb_spec (length population) k); [lia|].
  destruct (sample_loop_draws k population (length population) st) as (xs & st' & E & Hl & Hs);
    [lia..|].
  exists xs, st'. split; [exact E|]. split; [exact Hl|]. by rewrite firstn_all in Hs.
Qed.

End WithGenerator.
End PoetFacts.

(** A small generator to run the examples with (a linear congruential
    one; Python's is the Mersenne Twister). *)
Module Lcg.
Import Random.

Definition step (x : Z) : Z := (1664525 * x + 1013904223) mod 2 ^ 32.

#[global] Instance generator : Generator :=
  {| rng_state := Z;
     seed_state := fun s => s mod 2 ^ 32;
     genrand_uint32 := fun x => (step x, step x);
     randbelow := fun x n => (Z.to_nat (step x mod Z.of_nat n), step x) |}.

End Lcg.



(** * The calendar: ordinals, ISO text and their orders *)

Module CalendarFacts.
Import Calendar.

Definition leap_day (y : Z) : Z := if is_leap y then 1 else 0.

Lemma days_before_year_succ y :
  days_before_year (y + 1) = days_before_year y + 365 + leap_day y.
Proof.
  unfold days_before_year, leap_day, is_leap.
  replace (y + 1 - 1) with y by lia.
  destruct (Z.eqb_spec (y mod 4) 0), (Z.eqb_spec (y mod 100) 0),
    (Z.eqb_spec (y mod 400) 0); cbn; Z.div_mod_to_equations; lia.
Qed.

Lemma days_before_year_mono y y' :
  y < y' -> days_before_year y + 365 + leap_day y <= days_before_year y'.
Proof.
  intros Hlt. replace y' with (y + 1 + Z.of_nat (Z.to_nat (y' - y - 1))) by lia.
  induction (Z.to_nat (y' - y - 1)) as [|n IH].
  - rewrite Z.add_0_r, days_before_year_succ. lia.
  - replace (y + 1 + Z.of_nat (S n)) with (y + 1 + Z.of_nat n + 1) by lia.
    rewrite days_before_year_succ. unfold leap_day at 2.
    destruct (is_leap (y + 1 + Z.of_nat n)); lia.
Qed.

Lemma month_cases m :
  1 <= m <= 12 ->
  m = 1 \/ m = 2 \/ m = 3 \/ m = 4 \/ m = 5 \/ m = 6 \/ m = 7 \/ m = 8 \/ m = 9
  \/ m = 10 \/ m = 11 \/ m = 12.
Proof. lia. Qed.

Ltac each_month m H :=
  destruct (month_cases m H) as
    [->|[->|[->|[->|[->|[->|[->|[->|[->|[->|[->| ->]]]]]]]]]]].

Lemma valid_date_bounds d :
  valid_date d = true ->
  1 <= year d <= 9999 /\ 1 <= month d <= 12
  /\ 1 <= day d <= days_in_month (year d) (month d).
Proof. unfold valid_date. rewrite !andb_true_iff, !Z.leb_le. lia. Qed.

Lemma valid_date_intro d :
  1 <= year d <= 9999 -> 1 <= month d <= 12 ->
  1 <= day d <= days_in_month (year d) (month d) -> valid_date d = true.
Proof. unfold valid_date. rewrite !andb_true_iff, !Z.leb_le. lia. Qed.

(** A month ends where the next begins; the year has 365 or 366 days. *)
Lemma days_before_month_succ y m :
  1 <= m <= 11 ->
  days_before_month y (m + 1) = days_before_month y m + days_in_month y m.
Proof.
  intros Hm. assert (1 <= m <= 12) as Hm' by lia.
  each_month m Hm'; try lia;
    unfold days_before_month, days_in_month; cbn; destruct (is_leap y); reflexivity.
Qed.

Lemma days_before_month_last y :
  days_before_month y 12 + days_in_month y 12 = 365 + leap_day y.
Proof. unfold days_before_month, days_in_month, leap_day. cbn. destruct (is_leap y); lia. Qed.

Lemma days_in_month_pos y m : 28 <= days_in_month y m <= 31.
Proof.
  unfold days_in_month.
  destruct m as [|[a|a|]|]; try lia;
    repeat (match goal with
            | |- context [match ?p with xI _ => _ | xO _ => _ | xH => _ end] => destruct p
            | |- context [if ?b then _ else _] => destruct b
            end; try lia).
Qed.

Lemma days_before_month_mono y m m' :
  1 <= m -> m < m' -> m' <= 12 ->
  days_before_month y m + days_in_month y m <= days_before_month y m'.
Proof.
  intros H1 Hlt H12. replace m' with (m + 1 + Z.of_nat (Z.to_nat (m' - m - 1))) in * by lia.
  induction (Z.to_nat (m' - m - 1)) as [|n IH].
  - rewrite Z.add_0_r, days_before_month_succ; lia.
  - replace (m + 1 + Z.of_nat (S n)) with (m + 1 + Z.of_nat n + 1) in * by lia.
    rewrite days_before_month_succ by lia.
    pose proof (days_in_month_pos y (m + 1 + Z.of_nat n)). lia.
Qed.

Lemma days_before_month_range y m :
  1 <= m <= 12 -> 0 <= days_before_month y m
                  /\ days_before_month y m + days_in_month y m <= 365 + leap_day y.
Proof.
  intros Hm. split.
  - each_month m Hm; unfold days_before_month; cbn; destruct (is_leap y); lia.
  - destruct (decide (m = 12)) as [->|Hne]; [rewrite days_before_month_last; lia|].
    pose proof (days_before_month_mono y m 12). pose proof (days_before_month_last y).
    pose proof (days_in_month_pos y 12). lia.
Qed.

(** Dates in their order: by year, then month, then day. *)
Definition date_cmp (a b : date) : comparison :=
  match year a ?= year b with
  | Eq => match month a ?= month b with
          | Eq => day a ?= day b
          | c => c
          end
  | c => c
  end.

Lemma toordinal_lt a b :
  valid_date a = true -> valid_date b = true ->
  date_cmp a b = Lt -> toordinal a < toordinal b.
Proof.
  intros Ha Hb. apply valid_date_bounds in Ha, Hb. unfold date_cmp, toordinal.
  destruct a as [y m d], b as [y' m' d']; cbn in *.
  destruct (Z.compare_spec y y') as [->|Hy|Hy]; try discriminate.
  - destruct (Z.compare_spec m m') as [->|Hm|Hm]; try discriminate.
    + rewrite Z.compare_lt_iff. lia.
    + intros _. pose proof (days_before_month_mono y' m m'). lia.
  - intros _. pose proof (days_before_year_mono y y' Hy).
    pose proof (days_before_month_range y m). pose proof (days_before_month_range y' m'). lia.
Qed.

Lemma date_cmp_eq a b : date_cmp a b = Eq -> a = b.
Proof.
  unfold date_cmp. destruct a as [y m d], b as [y' m' d']; cbn.
  destruct (Z.compare_spec y y') as [->|?|?]; try discriminate.
  destruct (Z.compare_spec m m') as [->|?|?]; try discriminate.
  rewrite Z.compare_eq_iff. by intros ->.
Qed.

Lemma date_cmp_antisym a b : date_cmp b a = CompOpp (date_cmp a b).
Proof.
  unfold date_cmp. rewrite (Z.compare_antisym (year a)), (Z.compare_antisym (month a)),
    (Z.compare_antisym (day a)).
  destruct (year a ?= year b), (month a ?= month b), (day a ?= day b); reflexivity.
Qed.

Lemma toordinal_cmp a b :
  valid_date a = true -> valid_date b = true ->
  (toordinal a ?= toordinal b) = date_cmp a b.
Proof.
  intros Ha Hb. destruct (date_cmp a b) eqn:E.
  - apply date_cmp_eq in E as ->. apply Z.compare_refl.
  - apply Z.compare_lt_iff. by apply toordinal_lt.
  - apply Z.compare_gt_iff. apply toordinal_lt; [done..|].
    rewrite date_cmp_antisym, E. reflexivity.
Qed.

Lemma toordinal_inj a b :
  valid_date a = true -> valid_date b = true -> toordinal a = toordinal b -> a = b.
Proof.
  intros Ha Hb E. apply date_cmp_eq. rewrite <- toordinal_cmp by done.
  by apply Z.compare_eq_iff.
Qed.

End CalendarFacts.

(** * ISO text of dates *)

Module IsoText.
Import Calendar CalendarFacts.

Lemma N_of_digit n : 0 <= n <= 9 -> N_of_ascii (digit n) = Z.to_N (48 + n).
Proof. intros Hn. unfold digit. apply N_ascii_embedding. lia. Qed.

Lemma digit_val_digit n : 0 <= n <= 9 -> digit_val (digit n) = Some n.
Proof.
  intros Hn. unfold digit_val. rewrite N_of_digit by done.
  rewrite Z2N.id by lia.
  destruct (Z.leb_spec 48 (48 + n)), (Z.leb_spec (48 + n) 57); try lia.
  cbn. f_equal. lia.
Qed.

Lemma compare_digit m n :
  0 <= m <= 9 -> 0 <= n <= 9 -> Ascii.compare (digit m) (digit n) = (m ?= n).
Proof.
  intros Hm Hn. unfold Ascii.compare. rewrite !N_of_digit by done.
  rewrite Z2N.inj_compare by lia. apply Z.add_compare_mono_l.
Qed.

Lemma pad2_app n s :
  pad2 n +:+ s = String (digit (n / 10)) (String (digit (n mod 10)) s).
Proof. reflexivity. Qed.

(** Two digits in front decide the order of two texts. *)
Lemma compare_pad2 a b s t :
  0 <= a < 100 -> 0 <= b < 100 ->
  String.compare (pad2 a +:+ s) (pad2 b +:+ t)
  = match a ?= b with Eq => String.compare s t | c => c end.
Proof.
  intros Ha Hb. rewrite !pad2_app. cbn [String.compare].
  rewrite !compare_digit by (Z.div_mod_to_equations; lia).
  destruct (Z.compare_spec (a / 10) (b / 10)) as [Hq|Hq|Hq].
  - destruct (Z.compare_spec (a mod 10) (b mod 10)) as [Hr|Hr|Hr].
    + replace b with a by (Z.div_mod_to_equations; lia). by rewrite Z.compare_refl.
    + replace (a ?= b) with Lt; [done|].
      symmetry. apply Z.compare_lt_iff. Z.div_mod_to_equations; lia.
    + replace (a ?= b) with Gt; [done|].
      symmetry. apply Z.compare_gt_iff. Z.div_mod_to_equations; lia.
  - replace (a ?= b) with Lt; [done|].
    symmetry. apply Z.compare_lt_iff. Z.div_mod_to_equations; lia.
  - replace (a ?= b) with Gt; [done|].
    symmetry. apply Z.compare_gt_iff. Z.div_mod_to_equations; lia.
Qed.

Lemma compare_dash s t :
  String.compare ("-" +:+ s) ("-" +:+ t) = String.compare s t.
Proof. reflexivity. Qed.

(** ISO texts are ordered as their dates are. *)
Lemma compare_isoformat a b :
  valid_date a = true -> valid_date b = true ->
  String.compare (isoformat a) (isoformat b) = date_cmp a b.
Proof.
  intros Ha Hb. apply valid_date_bounds in Ha, Hb.
  pose proof (days_in_month_pos (year a) (month a)).
  pose proof (days_in_month_pos (year b) (month b)).
  unfold isoformat, date_cmp.
  rewrite <- (Runs.string_app_nil_r (pad2 (day a))), <- (Runs.string_app_nil_r (pad2 (day b))).
  rewrite compare_pad2 by (Z.div_mod_to_equations; lia).
  rewrite compare_pad2 by (Z.div_mod_to_equations; lia).
  rewrite compare_dash, compare_pad2 by lia.
  rewrite compare_dash, compare_pad2 by lia.
  cbn [String.compare].
  destruct (Z.compare_spec (year a / 100) (year b / 100)) as [Hq|Hq|Hq].
  - destruct (Z.compare_spec (year a mod 100) (year b mod 100)) as [Hr|Hr|Hr].
    + replace (year b) with (year a) by (Z.div_mod_to_equations; lia).
      rewrite Z.compare_refl.
      destruct (month a ?= month b); [|done..]. by destruct (day a ?= day b).
    + replace (year a ?= year b) with Lt; [done|].
      symmetry. apply Z.compare_lt_iff. Z.div_mod_to_equations; lia.
    + replace (year a ?= year b) with Gt; [done|].
      symmetry. apply Z.compare_gt_iff. Z.div_mod_to_equations; lia.
  - replace (year a ?= year b) with Lt; [done|].
    symmetry. apply Z.compare_lt_iff. Z.div_mod_to_equations; lia.
  - replace (year a ?= year b) with Gt; [done|].
    symmetry. apply Z.compare_gt_iff. Z.div_mod_to_equations; lia.
Qed.

Lemma leb_isoformat a b :
  valid_date a = true -> valid_date b = true ->
  String.leb (isoformat a) (isoformat b) = (toordinal a <=? toordinal b).
Proof.
  intros Ha Hb. unfold String.leb. rewrite compare_isoformat by done.
  rewrite <- toordinal_cmp by done. unfold Z.leb.
  by destruct (toordinal a ?= toordinal b).
Qed.

Lemma isoformat_inj a b :
  valid_date a = true -> valid_date b = true -> isoformat a = isoformat b -> a = b.
Proof.
  intros Ha Hb E. apply date_cmp_eq. rewrite <- compare_isoformat by done.
  rewrite <- E, compare_isoformat by done.
  unfold date_cmp. by rewrite !Z.compare_refl.
Qed.

Lemma eqb_isoformat a b :
  valid_date a = true -> valid_date b = true ->
  String.eqb (isoformat a) (isoformat b) = (toordinal a =? toordinal b).
Proof.
  intros Ha Hb. destruct (Z.eqb_spec (toordinal a) (toordinal b)) as [E|E].
  - apply toordinal_inj in E as ->; [|done..]. apply String.eqb_refl.
  - apply String.eqb_neq. intros E'. apply isoformat_inj in E' as ->; done.
Qed.

(** What [strptime] reads back from a date's ISO text. *)
Lemma parse_Y_pad y rest :
  0 <= y <= 9999 ->
  parse_Y (pad2 (y / 100) +:+ pad2 (y mod 100) +:+ rest) = Some (y, rest).
Proof.
  intros Hy. rewrite !pad2_app. unfold parse_Y.
  rewrite !digit_val_digit by (Z.div_mod_to_equations; lia).
  do 2 f_equal. Z.div_mod_to_equations; lia.
Qed.

Lemma parse_m_pad m rest :
  1 <= m <= 12 -> parse_m (pad2 m +:+ "-" +:+ rest) = Some (m, "-" +:+ rest).
Proof. intros Hm. each_month m Hm; reflexivity. Qed.

Lemma parse_d_pad d : 1 <= d <= 31 -> parse_d (pad2 d) = Some (d, EmptyString).
Proof.
  intros Hd.
  assert (exists n, d = Z.of_nat n /\ (n < 32)%nat) as (n & -> & Hn)
    by (exists (Z.to_nat d); lia).
  do 32 (destruct n as [|n]; [first [lia | reflexivity]|]). lia.
Qed.

Lemma strptime_isoformat d : valid_date d = true -> strptime (isoformat d) = Some d.
Proof.
  intros Hd. pose proof (valid_date_bounds d Hd) as (Hy & Hm & Hday).
  pose proof (days_in_month_pos (year d) (month d)).
  unfold strptime, isoformat. rewrite parse_Y_pad by lia.
  change (expect_dash ("-" +:+ ?s)) with (Some s). cbv beta iota.
  rewrite parse_m_pad by done.
  change (expect_dash ("-" +:+ ?s)) with (Some s). cbv beta iota.
  rewrite parse_d_pad by lia.
  destruct d as [y m dd]; cbn in *. by rewrite Hd.
Qed.

(** The day before. *)
Lemma day_before_spec d :
  valid_date d = true ->
  match day_before d with
  | Some y => valid_date y = true /\ toordinal y = toordinal d - 1
  | None => d = {| year := 1; month := 1; day := 1 |}
  end.
Proof.
  intros Hd. pose proof (valid_date_bounds d Hd) as (Hy & Hm & Hday).
  destruct d as [y m dd]; cbn in *. unfold day_before; cbn.
  destruct (Z.ltb_spec 1 dd).
  - split; [apply valid_date_intro; cbn; lia|]. unfold toordinal; cbn. lia.
  - destruct (Z.ltb_spec 1 m).
    + pose proof (days_in_month_pos y (m - 1)).
      pose proof (days_before_month_succ y (m - 1)) as Hs.
      replace (m - 1 + 1) with m in Hs by lia.
      split; [apply valid_date_intro; cbn; lia|]. unfold toordinal; cbn. lia.
    + destruct (Z.ltb_spec 1 y).
      * split; [apply valid_date_intro; cbn; lia|]. unfold toordinal; cbn.
        pose proof (days_before_year_succ (y - 1)) as Hs.
        replace (y - 1 + 1) with y in Hs by lia.
        pose proof (days_before_month_last (y - 1)) as Hl.
        unfold days_in_month in Hl. cbn in Hl.
        replace m with 1 by lia. replace dd with 1 by lia.
        change (days_before_month y 1) with 0. lia.
      * f_equal; lia.
Qed.

End IsoText.

(** * The streak *)

Module Streak.
Import Py Calendar CalendarFacts IsoText CommitYourDay.

#[local] Arguments isoformat : simpl never.
#[local] Arguments toordinal : simpl never.

(** The dates of the records, as day numbers. *)
Definition dates_of (commits : list LifeCommit) : list date :=
  omap (fun c => strptime (commit_date c)) commits.

Definition days_of (commits : list LifeCommit) : list Z :=
  map toordinal (dates_of commits).

(** A record whose date is the ISO text of a calendar date, as [_today]
    writes it. *)
Definition well_dated (c : LifeCommit) : bool :=
  match strptime (commit_date c) with
  | Some d => String.eqb (isoformat d) (commit_date c)
  | None => false
  end.

(** The streak in the words of the description: the length of the
    consecutive-day run of distinct record dates ending at [last], that is,
    how many of the days [last], [last - 1], ... are record dates before
    the first that is none. *)
Fixpoint run_ending (fuel : nat) (days : list Z) (last : Z) : Z :=
  match fuel with
  | O => 0
  | S fuel' =>
      if bool_decide (last ∈ days) then 1 + run_ending fuel' days (last - 1) else 0
  end.

(** The run ending at today, or else at yesterday; 0 without either. *)
Definition streak_spec (today : Z) (days : list Z) : Z :=
  if bool_decide (today ∈ days) then run_ending (length days) days today
  else run_ending (length days) days (today - 1).

(** [sorted(..., reverse=True)] seen on the dates themselves. *)
Fixpoint insert_day (x : date) (l : list date) : list date :=
  match l with
  | [] => [x]
  | y :: rest =>
      if toordinal y <=? toordinal x then x :: l else y :: insert_day x rest
  end.

Definition sort_days (l : list date) : list date := foldr insert_day [] l.

Fixpoint descending (l : list Z) : Prop :=
  match l with
  | [] => True
  | x :: rest => Forall (fun y => y < x) rest /\ descending rest
  end.

Definition valid (d : date) : Prop := valid_date d = true.

Lemma strptime_valid s d : strptime s = Some d -> valid d.
Proof.
  unfold strptime, valid. intros E.
  repeat match type of E with
         | match ?x with _ => _ end = _ => destruct x eqn:?; try discriminate
         | (if ?b then _ else _) = _ => destruct b eqn:?; try discriminate
         | (let (_, _) := ?x in _) = _ => destruct x eqn:?
         end.
  by injection E as <-.
Qed.

Lemma well_dated_spec c :
  well_dated c = true ->
  exists d, strptime (commit_date c) = Some d /\ valid d /\ commit_date c = isoformat d.
Proof.
  unfold well_dated. destruct (strptime (commit_date c)) as [d|] eqn:E; [|discriminate].
  intros Hc%String.eqb_eq. exists d. eauto using strptime_valid.
Qed.

Lemma dates_of_well_dated commits :
  forallb well_dated commits = true ->
  map commit_date commits = map isoformat (dates_of commits)
  /\ Forall valid (dates_of commits)
  /\ length (dates_of commits) = length commits.
Proof.
  induction commits as [|c commits IH]; [by repeat split; constructor|].
  cbn. intros [Hc Hall]%andb_true_iff.
  destruct (IH Hall) as (Hm & Hv & Hl).
  destruct (well_dated_spec c Hc) as (d & E & Hd & Hiso).
  unfold dates_of in *. cbn. rewrite E. cbn.
  repeat split; [by rewrite Hm, Hiso | by constructor | by rewrite Hl].
Qed.

(** Sorting the texts is sorting the dates. *)
Lemma insert_day_elem x y l : y ∈ insert_day x l <-> y = x \/ y ∈ l.
Proof.
  induction l as [|z l IH]; cbn.
  - rewrite list_elem_of_singleton, elem_of_nil. tauto.
  - destruct (toordinal z <=? toordinal x).
    + by rewrite elem_of_cons.
    + rewrite !elem_of_cons, IH. tauto.
Qed.

Lemma sort_days_elem y l : y ∈ sort_days l <-> y ∈ l.
Proof.
  induction l as [|x l IH]; cbn; [done|].
  by rewrite insert_day_elem, elem_of_cons, IH.
Qed.

Lemma insert_day_length x l : length (insert_day x l) = S (length l).
Proof.
  induction l as [|z l IH]; cbn; [done|].
  destruct (toordinal z <=? toordinal x); cbn; by rewrite ?IH.
Qed.

Lemma sort_days_length l : length (sort_days l) = length l.
Proof.
  induction l as [|x l IH]; cbn; [done|]. rewrite insert_day_length. f_equal. exact IH.
Qed.

Lemma sort_days_valid l : Forall valid l -> Forall valid (sort_days l).
Proof.
  rewrite !Forall_forall. intros Hl y Hy. by apply Hl, (proj1 (sort_days_elem y l)).
Qed.

Lemma insert_desc_isoformat x l :
  valid x -> Forall valid l ->
  insert_desc (isoformat x) (map isoformat l) = map isoformat (insert_day x l).
Proof.
  intros Hx. induction 1 as [|y l Hy Hl IH]; cbn [map insert_desc insert_day]; [done|].
  rewrite leb_isoformat by done.
  destruct (toordinal y <=? toordinal x); cbn [map]; [done|]. by rewrite IH.
Qed.

Lemma sorted_desc_isoformat l :
  Forall valid l -> sorted_desc (map isoformat l) = map isoformat (sort_days l).
Proof.
  induction 1 as [|x l Hx Hl IH]; cbn; [done|].
  unfold sorted_desc in IH. rewrite IH.
  by apply insert_desc_isoformat, sort_days_valid.
Qed.

Lemma elem_isoformat x l :
  valid x -> Forall valid l -> isoformat x ∈ map isoformat l <-> x ∈ l.
Proof.
  intros Hx Hl. split.
  - intros (y & E & Hy)%list_elem_of_fmap.
    rewrite Forall_forall in Hl.
    assert (x = y) as -> by (apply isoformat_inj; [done|by apply Hl|done]). done.
  - intros Hin. apply list_elem_of_fmap. eauto.
Qed.

Lemma remove_dups_isoformat l :
  Forall valid l -> remove_dups (map isoformat l) = map isoformat (remove_dups l).
Proof.
  induction 1 as [|x l Hx Hl IH]; cbn [map remove_dups]; [done|].
  pose proof (elem_isoformat x l Hx Hl) as Hiff.
  destruct (decide_rel elem_of (isoformat x) (map isoformat l)) as [Hin|Hin],
    (decide_rel elem_of x l) as [Hin'|Hin']; cbn [map]; rewrite ?IH;
    first [reflexivity | tauto].
Qed.

Lemma remove_dups_valid l : Forall valid l -> Forall valid (remove_dups l).
Proof.
  rewrite !Forall_forall. intros Hl y Hy. by apply Hl, (proj1 (elem_of_remove_dups l y)).
Qed.

Lemma remove_dups_shorter {A} `{EqDecision A} (l : list A) :
  (length (remove_dups l) <= length l)%nat.
Proof.
  induction l as [|x l IH]; cbn; [done|].
  destruct (decide_rel elem_of x l); cbn; lia.
Qed.

(** The sorted days fall strictly. *)
Lemma insert_day_descending x l :
  descending (map toordinal l) -> toordinal x ∉ map toordinal l ->
  descending (map toordinal (insert_day x l)).
Proof.
  induction l as [|y l IH]; cbn; [by intros; split; [constructor|]|].
  intros [Hall Hdesc] Hnot. rewrite not_elem_of_cons in Hnot. destruct Hnot as [Hne Hnot].
  destruct (Z.leb_spec (toordinal y) (toordinal x)) as [Hle|Hlt]; cbn.
  - split; [|done]. constructor; [lia|].
    eapply Forall_impl; [exact Hall|]. cbn. lia.
  - split; [|by apply IH].
    rewrite Forall_forall. intros o (z & -> & Hz)%list_elem_of_fmap.
    apply insert_day_elem in Hz as [->|Hz]; [lia|].
    rewrite Forall_forall in Hall. apply Hall, list_elem_of_fmap. eauto.
Qed.

Lemma sort_days_descending l :
  Forall valid l -> NoDup l -> descending (map toordinal (sort_days l)).
Proof.
  intros Hv Hnd. induction Hnd as [|x l Hx Hnd IH]; cbn; [done|].
  apply Forall_cons in Hv as [Hvx Hvl].
  apply insert_day_descending; [by apply IH|].
  intros (y & E & Hy)%list_elem_of_fmap.
  apply (proj1 (sort_days_elem y l)) in Hy.
  rewrite Forall_forall in Hvl.
  assert (x = y) as -> by (apply toordinal_inj; [done|by apply Hvl|done]). done.
Qed.

(** What the sorted, distinct dates are to the dates they come from. *)
Lemma sorted_dates ds f rest :
  Forall valid ds -> sort_days (remove_dups ds) = f :: rest ->
  valid f /\ Forall valid rest
  /\ descending (map toordinal (f :: rest))
  /\ (forall x, x ∈ map toordinal ds <-> x ∈ map toordinal (f :: rest))
  /\ (length rest < length ds)%nat.
Proof.
  intros Hv Es.
  pose proof (sort_days_valid _ (remove_dups_valid _ Hv)) as Hvs.
  pose proof (sort_days_descending _ (remove_dups_valid _ Hv) (NoDup_remove_dups ds)) as Hd.
  pose proof (sort_days_length (remove_dups ds)) as Hlen.
  pose proof (remove_dups_shorter ds) as Hshort.
  rewrite Es in Hvs, Hd, Hlen. apply Forall_cons in Hvs as [Hf Hrest].
  split; [done|]. split; [done|]. split; [done|]. split; [|cbn in Hlen; lia].
  intros x. split; intros (d & -> & Hin)%list_elem_of_fmap; apply list_elem_of_fmap;
    exists d; (split; [done|]).
  - rewrite <- Es. by apply sort_days_elem, elem_of_remove_dups.
  - rewrite <- Es in Hin. by apply (proj1 (elem_of_remove_dups ds d)), (proj1 (sort_days_elem d _)).
Qed.

Lemma descending_head x rest o :
  descending (x :: rest) -> o ∈ x :: rest -> o <= x.
Proof.
  intros [Hall _] [->|Hin]%elem_of_cons; [lia|].
  rewrite Forall_forall in Hall. specialize (Hall o Hin). lia.
Qed.

(** The loop counts the run below the date it starts from. *)
Lemma streak_loop_run rest : forall p s fuel days,
  valid p -> Forall valid rest ->
  descending (map toordinal (p :: rest)) ->
  (length rest <= fuel)%nat ->
  (forall x, x < toordinal p -> x ∈ days <-> x ∈ map toordinal rest) ->
  streak_loop (isoformat p) (map isoformat rest) s
  = s + run_ending fuel days (toordinal p - 1).
Proof.
  induction rest as [|c rest IH]; intros p s fuel days Hp Hrest Hdesc Hfuel Hdays.
  - cbn [map streak_loop]. destruct fuel as [|fuel]; cbn [run_ending]; [lia|].
    case_bool_decide as Hin; [|lia].
    apply Hdays in Hin; [|lia]. by apply elem_of_nil in Hin.
  - apply Forall_cons in Hrest as [Hc Hrest].
    cbn [map streak_loop]. rewrite !strptime_isoformat by done. unfold days_between.
    destruct fuel as [|fuel]; [cbn in Hfuel; lia|].
    cbn [map descending] in Hdesc. destruct Hdesc as (Hbelow & Hbelow' & Hdesc).
    apply Forall_cons in Hbelow as [Hcp Hbelow].
    cbn [run_ending].
    destruct (Z.eqb_spec (toordinal p - toordinal c) 1) as [Hone|Hmore].
    + rewrite (IH c (s + 1) fuel days); [|done|done|by split|cbn in Hfuel; lia|].
      * rewrite bool_decide_eq_true_2.
        -- replace (toordinal p - 1) with (toordinal c) by lia. lia.
        -- apply Hdays; [lia|]. replace (toordinal p - 1) with (toordinal c) by lia.
           apply elem_of_cons. by left.
      * intros x Hx. rewrite Hdays by lia. cbn [map]. rewrite elem_of_cons.
        split; [intros [->|?]; [lia|done] | by right].
    + rewrite bool_decide_eq_false_2; [lia|].
      intros Hin. apply Hdays in Hin; [|lia].
      cbn [map] in Hin. apply elem_of_cons in Hin as [Heq|Hin]; [lia|].
      rewrite Forall_forall in Hbelow'. specialize (Hbelow' _ Hin). lia.
Qed.

Lemma toordinal_min : toordinal {| year := 1; month := 1; day := 1 |} = 1.
Proof. reflexivity. Qed.

Lemma dates_of_nonempty c commits :
  forallb well_dated (c :: commits) = true -> exists d ds, dates_of (c :: commits) = d :: ds.
Proof.
  cbn. intros [Hc _]%andb_true_iff.
  destruct (well_dated_spec c Hc) as (d & E & _). unfold dates_of. cbn. rewrite E. cbn. eauto.
Qed.

Lemma sort_days_nonempty d ds : sort_days (remove_dups (d :: ds)) <> [].
Proof.
  intros E. assert (d ∈ sort_days (remove_dups (d :: ds))) as Hin.
  { apply sort_days_elem, elem_of_remove_dups, elem_of_cons. by left. }
  rewrite E in Hin. by apply elem_of_nil in Hin.
Qed.

(** [_compute_streak] on dated records: the run that ends at the most
    recent date, when that is today or yesterday. *)
Lemma compute_streak_run commits w :
  valid (today (env w)) -> 1 < toordinal (today (env w)) ->
  forallb well_dated commits = true ->
  _compute_streak commits w
  = (Ok match sort_days (remove_dups (dates_of commits)) with
        | [] => 0
        | f :: _ =>
            if (toordinal f =? toordinal (today (env w)))
               || (toordinal f =? toordinal (today (env w)) - 1)
            then run_ending (length (days_of commits)) (days_of commits) (toordinal f)
            else 0
        end, w).
Proof.
  intros Htoday Hmin Hwell. destruct commits as [|c commits]; [reflexivity|].
  destruct (dates_of_well_dated _ Hwell) as (Hmap & Hv & Hlen).
  destruct (dates_of_nonempty _ _ Hwell) as (d0 & ds0 & Hds).
  unfold _compute_streak. rewrite Hmap, remove_dups_isoformat, sorted_desc_isoformat
    by auto using remove_dups_valid.
  pose proof (day_before_spec _ Htoday) as Hy.
  unfold _today, date_today, bind, ret. cbn [fst snd].
  destruct (day_before (today (env w))) as [y|]; [destruct Hy as [Hvy Hty]|];
    [|rewrite Hy, toordinal_min in Hmin; lia].
  destruct (sort_days (remove_dups (dates_of (c :: commits)))) as [|f rest] eqn:Es.
  { rewrite Hds in Es. by apply sort_days_nonempty in Es. }
  destruct (sorted_dates _ _ _ Hv Es) as (Hf & Hrest & Hdesc & Helem & Hshort).
  cbn [map]. rewrite !eqb_isoformat by done. rewrite Hty.
  destruct ((toordinal f =? toordinal (today (env w)))
            || (toordinal f =? toordinal (today (env w)) - 1)); cbn [negb]; [|reflexivity].
  do 2 f_equal.
  assert (length (days_of (c :: commits)) = S (length (days_of (c :: commits)) - 1)) as Hfuel.
  { unfold days_of. rewrite length_map. lia. }
  rewrite (streak_loop_run rest f 1 (length (days_of (c :: commits)) - 1)
             (days_of (c :: commits))); try done.
  - rewrite Hfuel at 2. cbn [run_ending]. rewrite bool_decide_eq_true_2; [done|].
    apply Helem, elem_of_cons. by left.
  - unfold days_of. rewrite length_map. lia.
  - intros x Hx. unfold days_of. rewrite Helem. cbn [map]. rewrite elem_of_cons.
    split; [intros [->|?]; [lia|done] | by right].
Qed.

Lemma run_ending_absent fuel days last : last ∉ days -> run_ending fuel days last = 0.
Proof. intros Hn. destruct fuel; cbn; [done|]. by rewrite bool_decide_eq_false_2. Qed.

Lemma two_members (l : list Z) x y : x ∈ l -> y ∈ l -> x <> y -> (2 <= length l)%nat.
Proof.
  destruct l as [|a [|b l]]; cbn; [by intros ?%elem_of_nil| |lia].
  intros ->%list_elem_of_singleton ->%list_elem_of_singleton. done.
Qed.

End Streak.

(** Records for the streak examples: only the date matters. *)
Module StreakExamples.
Import Py CommitYourDay.

Definition dated (day : string) : LifeCommit :=
  {| commit_id := "0c1d2e3f-0000-4000-8000-000000000000";
     timestamp := day +:+ "T08:00:00+00:00";
     commit_date := day;
     commit_type := "chore";
     message := "watered the plants";
     scope := "life";
     details := "";
     tags := [];
     mood_score := 0;
     energy_score := 3 |}.

(** A Saturday: 2024-06-15. *)
Definition saturday : World :=
  {| files := ∅; fault := None; tmp_names := []; stdin := [];
     env := Saves.host |}.

End StreakExamples.

(** C7, amended: for records whose dates are ISO texts of calendar dates,
    none later than today, [_compute_streak] returns the length of the
    consecutive-day run of distinct record dates ending at today, or else
    at yesterday; it returns 0 for the empty list and when the most recent
    date is older than yesterday; and for records dated today, yesterday
    and three days ago it returns 2. *)
Theorem compute_streak_is_run_to_today_or_yesterday
    (commits : list CommitYourDay.LifeCommit) (w : Py.World) :
  Calendar.valid_date (Py.today (Py.env w)) = true ->
  1 < Calendar.toordinal (Py.today (Py.env w)) ->
  forallb Streak.well_dated commits = true ->
  Forall (fun x => x <= Calendar.toordinal (Py.today (Py.env w))) (Streak.days_of commits) ->
  CommitYourDay._compute_streak commits w
  = (Py.Ok (Streak.streak_spec (Calendar.toordinal (Py.today (Py.env w)))
              (Streak.days_of commits)), w)
  /\ CommitYourDay._compute_streak [] w = (Py.Ok 0, w)
  /\ (Forall (fun x => x < Calendar.toordinal (Py.today (Py.env w)) - 1)
        (Streak.days_of commits) ->
      CommitYourDay._compute_streak commits w = (Py.Ok 0, w))
  /\ ((forall x, x ∈ Streak.days_of commits <->
                 x = Calendar.toordinal (Py.today (Py.env w))
                 \/ x = Calendar.toordinal (Py.today (Py.env w)) - 1
                 \/ x = Calendar.toordinal (Py.today (Py.env w)) - 3) ->
      CommitYourDay._compute_streak commits w = (Py.Ok 2, w)).
Proof.
  intros Htoday Hmin Hwell Hpast.
  set (T := Calendar.toordinal (Py.today (Py.env w))) in *.
  assert (CommitYourDay._compute_streak commits w
          = (Py.Ok (Streak.streak_spec T (Streak.days_of commits)), w)) as Hrun.
  { rewrite Streak.compute_streak_run by done. fold T. do 2 f_equal.
    destruct commits as [|c commits]; [reflexivity|].
    destruct (Streak.dates_of_well_dated _ Hwell) as (_ & Hv & _).
    destruct (Streak.dates_of_nonempty _ _ Hwell) as (d0 & ds0 & Hds).
    destruct (Streak.sort_days (remove_dups (Streak.dates_of (c :: commits))))
      as [|f rest] eqn:Es.
    { rewrite Hds in Es. by apply Streak.sort_days_nonempty in Es. }
    destruct (Streak.sorted_dates _ _ _ Hv Es) as (_ & _ & Hdesc & Helem & _).
    assert (forall x, x ∈ Streak.days_of (c :: commits) -> x <= Calendar.toordinal f) as Hmax.
    { intros x Hx. eapply Streak.descending_head; [exact Hdesc|]. by apply Helem. }
    assert (Calendar.toordinal f ∈ Streak.days_of (c :: commits)) as Hf.
    { apply Helem, elem_of_cons. by left. }
    assert (Calendar.toordinal f <= T) as HfT.
    { rewrite Forall_forall in Hpast. by apply Hpast. }
    unfold Streak.streak_spec.
    destruct (Z.eqb_spec (Calendar.toordinal f) T) as [E|E]; cbn [orb].
    - rewrite E in *. by rewrite bool_decide_eq_true_2.
    - rewrite bool_decide_eq_false_2 by (intros Hin%Hmax; lia).
      destruct (Z.eqb_spec (Calendar.toordinal f) (T - 1)) as [E'|E']; [by rewrite E'|].
      symmetry. apply Streak.run_ending_absent. intros Hin%Hmax. lia. }
  split; [exact Hrun|]. split; [reflexivity|]. split.
  - intros Hold. rewrite Hrun. do 2 f_equal. rewrite Forall_forall in Hold.
    unfold Streak.streak_spec.
    rewrite bool_decide_eq_false_2 by (intros Hin%Hold; lia).
    apply Streak.run_ending_absent. intros Hin%Hold. lia.
  - intros Hthree. rewrite Hrun. do 2 f_equal. unfold Streak.streak_spec.
    assert (T ∈ Streak.days_of commits) as H0 by (apply Hthree; lia).
    assert (T - 1 ∈ Streak.days_of commits) as H1 by (apply Hthree; lia).
    assert (T - 2 ∉ Streak.days_of commits) as H2 by (rewrite Hthree; lia).
    pose proof (Streak.two_members _ _ _ H0 H1 ltac:(lia)) as Hlen.
    rewrite bool_decide_eq_true_2 by done.
    destruct (length (Streak.days_of commits)) as [|[|fuel]]; [lia..|].
    cbn [Streak.run_ending]. rewrite !bool_decide_eq_true_2 by done.
    replace (T - 1 - 1) with (T - 2) by lia.
    rewrite Streak.run_ending_absent by done. lia.
Qed.

(** On Saturday 2024-06-15, records of Saturday, Friday and Wednesday make
    a streak of 2. *)
Lemma streak_of_saturday_friday_wednesday :
  CommitYourDay._compute_streak
    [StreakExamples.dated "2024-06-12"; StreakExamples.dated "2024-06-15";
     StreakExamples.dated "2024-06-14"] StreakExamples.saturday
  = (Py.Ok 2, StreakExamples.saturday).
Proof.
  refine (proj2 (proj2 (proj2 (compute_streak_is_run_to_today_or_yesterday
    [StreakExamples.dated "2024-06-12"; StreakExamples.dated "2024-06-15";
     StreakExamples.dated "2024-06-14"] StreakExamples.saturday _ _ _ _))) _).
  - reflexivity.
  - vm_compute. reflexivity.
  - vm_compute. reflexivity.
  - repeat constructor; vm_compute; discriminate.
  - intros x. vm_compute Streak.days_of. vm_compute Calendar.toordinal.
    rewrite !elem_of_cons, elem_of_nil. lia.
Defined.

(** A record dated after today hides the run that ends today: with records
    of Monday 2024-06-17 and of Saturday, on Saturday, the run of record
    dates ending today has length 1 and [_compute_streak] returns 0; so it
    does beside a record whose date is no date. *)
Lemma streak_is_0_beside_a_later_date :
  CommitYourDay._compute_streak
    [StreakExamples.dated "2024-06-17"; StreakExamples.dated "2024-06-15"]
    StreakExamples.saturday
  = (Py.Ok 0, StreakExamples.saturday)
  /\ Streak.streak_spec (Calendar.toordinal (Py.today (Py.env StreakExamples.saturday)))
       (Streak.days_of [StreakExamples.dated "2024-06-17"; StreakExamples.dated "2024-06-15"])
     = 1
  /\ CommitYourDay._compute_streak
       [StreakExamples.dated "someday"; StreakExamples.dated "2024-06-15"]
       StreakExamples.saturday
     = (Py.Ok 0, StreakExamples.saturday)
  /\ Streak.streak_spec (Calendar.toordinal (Py.today (Py.env StreakExamples.saturday)))
       (Streak.days_of [StreakExamples.dated "someday"; StreakExamples.dated "2024-06-15"])
     = 1.
Proof. by vm_compute. Qed.

(** * More of commit_your_day: the type of a commit *)

Module CommitTypes.
Import Py CommitYourDay.

Definition VALID_COMMIT_TYPES : list string :=
  [ "feat"; "fix"; "refactor"; "chore"; "docs"; "style"; "test" ].

Lemma keyword_type_elem table word t :
  keyword_type table word = Some t -> (word, t) ∈ table.
Proof.
  induction table as [|[k v] table IH]; cbn; [discriminate|].
  destruct (String.eqb_spec word k) as [->|Hne].
  - intros [= ->]. apply elem_of_cons. by left.
  - intros Hrest. apply elem_of_cons. right. by apply IH.
Qed.

Lemma keyword_types_valid k t : (k, t) ∈ TYPE_KEYWORDS -> t ∈ VALID_COMMIT_TYPES.
Proof.
  assert (Forall (fun kv => kv.2 ∈ VALID_COMMIT_TYPES) TYPE_KEYWORDS) as Hall.
  { apply (bool_decide_unpack _). by vm_compute. }
  rewrite Forall_forall in Hall. intros Hin. apply (Hall _ Hin).
Qed.

Lemma first_keyword_cases words :
  first_keyword words = "feat"
  \/ exists word t, word ∈ words
       /\ keyword_type TYPE_KEYWORDS (strip_chars ".,!?;:" word) = Some t
       /\ first_keyword words = t.
Proof.
  induction words as [|word words IH]; cbn [first_keyword]; [by left|].
  destruct (keyword_type TYPE_KEYWORDS (strip_chars ".,!?;:" word)) as [t|] eqn:E.
  - right. exists word, t. split; [apply elem_of_cons; by left|by split].
  - destruct IH as [IH|(w & t & Hin & Hk & Ht)]; [by left|].
    right. exists w, t. split; [apply elem_of_cons; by right|by split].
Qed.

End CommitTypes.

(** X1: the type [_detect_commit_type] infers is always one of the valid
    commit types, whatever the message; for a message of ASCII characters
    with no keyword among its words it is [feat]; and a commit created
    without a type gets such a type. *)
Theorem detected_type_is_valid `{Py.PyLib} (message : string) (scope details : string)
    (tags : list string) (mood energy : Z) (w : Py.World) :
  CommitYourDay._detect_commit_type message ∈ CommitTypes.VALID_COMMIT_TYPES
  /\ (Strings.is_ascii message = true ->
      Forall (fun word =>
                CommitYourDay.keyword_type CommitYourDay.TYPE_KEYWORDS
                  (Py.strip_chars ".,!?;:" word) = None)
        (Py.split (Py.lower message)) ->
      CommitYourDay._detect_commit_type message = "feat")
  /\ exists c,
       CommitYourDay._create_commit message None scope details tags mood energy w
       = (Py.Ok c, w)
       /\ CommitYourDay.commit_type c ∈ CommitTypes.VALID_COMMIT_TYPES.
Proof.
  assert (CommitYourDay._detect_commit_type message ∈ CommitTypes.VALID_COMMIT_TYPES) as Hv.
  { unfold CommitYourDay._detect_commit_type.
    destruct (CommitTypes.first_keyword_cases (Py.split (Py.lower message)))
      as [->|(word & t & _ & Hk & ->)].
    - apply elem_of_cons. by left.
    - eapply CommitTypes.keyword_types_valid, CommitTypes.keyword_type_elem, Hk. }
  split; [exact Hv|]. split.
  - unfold CommitYourDay._detect_commit_type. intros _ Hnone.
    destruct (CommitTypes.first_keyword_cases (Py.split (Py.lower message)))
      as [E|(word & t & Hin & Hk & _)]; [exact E|].
    rewrite Forall_forall in Hnone. rewrite (Hnone _ Hin) in Hk. discriminate.
  - eexists. split; [reflexivity|]. exact Hv.
Qed.

(** [tidied the shelf.] names no keyword and is a [feat]; [Fixed the
    gate!] is a [fix]. *)
Lemma detected_type_of_two_messages :
  CommitYourDay._detect_commit_type "tidied the shelf." = "feat"
  /\ CommitYourDay._detect_commit_type "Fixed the gate!" = "fix".
Proof.
  split; [|by vm_compute].
  apply (proj1 (proj2 (detected_type_is_valid (H := JsonText.text_lib)
                         "tidied the shelf." "" "" [] 0 3 (Py.calm ∅ [] Saves.host)))).
  - by vm_compute.
  - repeat constructor.
Defined.

(** X2: the tags read from a comma-separated text are never empty, carry no
    whitespace at either end and no comma; and a list of such tags, of
    ASCII text, joined by commas, or by a comma and a space as the log
    prints them, is read back as the list itself. *)
Theorem parse_tags_clean_and_round_trip :
  let clean (t : string) :=
    t <> EmptyString /\ Py.strip t = t /\ Strings.comma_free t = true in
  (forall raw t, t ∈ CommitYourDay.parse_tags raw -> clean t)
  /\ (forall tags, Forall (fun t => clean t /\ Strings.is_ascii t = true) tags ->
        CommitYourDay.parse_tags (String.concat "," tags) = tags
        /\ CommitYourDay.parse_tags (String.concat ", " tags) = tags).
Proof.
  cbn zeta. split.
  - intros raw t. unfold CommitYourDay.parse_tags.
    rewrite list_elem_of_filter, list_elem_of_fmap.
    intros [Hne (f & -> & Hf)]. apply Is_true_true, negb_true_iff, bool_decide_eq_false in Hne.
    split; [done|]. split; [apply Strings.strip_idemp|].
    apply Strings.all_chars_strip.
    pose proof (Strings.split_on_fields_free "," raw) as Hall.
    rewrite Forall_forall in Hall. by apply Hall.
  - intros tags Hclean. unfold CommitYourDay.parse_tags.
    induction Hclean as [|t tags [(Hne & Hstrip & Hfree) _] Hrest [IH1 IH2]]; [done|].
    destruct tags as [|t' tags].
    + cbn [String.concat].
      destruct (Strings.split_on_free "," t EmptyString Hfree) as [-> _].
      cbn. rewrite Hstrip. by rewrite bool_decide_eq_false_2.
    + change (String.concat "," (t :: t' :: tags))
        with (t +:+ String "," (String.concat "," (t' :: tags))).
      change (String.concat ", " (t :: t' :: tags))
        with (t +:+ String "," (String " " (String.concat ", " (t' :: tags)))).
      destruct (Strings.split_on_free "," t (String.concat "," (t' :: tags)) Hfree)
        as [_ ->].
      destruct (Strings.split_on_free "," t
                  (String " " (String.concat ", " (t' :: tags))) Hfree) as [_ ->].
      cbn [map filter]. rewrite Hstrip.
      rewrite !filter_cons, bool_decide_eq_false_2 by done. cbn [negb].
      split; [f_equal; exact IH1|].
      assert (map Py.strip (Py.split_on "," (String " " (String.concat ", " (t' :: tags))))
              = map Py.strip (Py.split_on "," (String.concat ", " (t' :: tags)))) as ->.
      { rewrite Strings.split_on_cons. cbn [Ascii.eqb Bool.eqb].
        pose proof (Strings.split_on_go_field "," (String.concat ", " (t' :: tags)) [])
          as Hshape.
        fold (Py.split_on "," (String.concat ", " (t' :: tags))) in Hshape.
        cbn [rev string_of_list_ascii String.append] in Hshape.
        rewrite Hshape at 3. cbn [map]. by rewrite Strings.strip_space. }
      f_equal. exact IH2.
Qed.

(** * Grouping and counting *)

Module Tallies.
Import Py CommitYourDay.

(** [d.get(k)] on a dict kept as a list of items. *)
Fixpoint item {V} (k : string) (d : list (string * V)) : option V :=
  match d with
  | [] => None
  | (k', v) :: rest => if String.eqb k k' then Some v else item k rest
  end.

Lemma item_elem {V} k v (d : list (string * V)) :
  NoDup (map fst d) -> (k, v) ∈ d <-> item k d = Some v.
Proof.
  induction d as [|[k' v'] d IH]; cbn;
    [intros _; split; [by intros ?%elem_of_nil | discriminate]|].
  rewrite NoDup_cons, elem_of_cons. intros [Hk' Hnd].
  destruct (String.eqb_spec k k') as [->|Hne].
  - split.
    + intros [[= <-]|Hin]; [done|]. destruct Hk'. apply list_elem_of_fmap. by exists (k', v).
    + intros [= ->]. by left.
  - rewrite <- (IH Hnd). split; [intros [[= ? ?]|?]; done | by right].
Qed.

(** Grouping by date. *)
Lemma group_add_keys c g :
  map fst (group_add c g)
  = if bool_decide (commit_date c ∈ map fst g) then map fst g
    else map fst g ++ [commit_date c].
Proof.
  induction g as [|[k cs] g IH]; cbn.
  - by rewrite bool_decide_eq_false_2 by apply not_elem_of_nil.
  - destruct (String.eqb_spec (commit_date c) k) as [->|Hne]; cbn.
    + by rewrite bool_decide_eq_true_2 by (apply elem_of_cons; by left).
    + rewrite IH. case_bool_decide as Hin.
      * by rewrite bool_decide_eq_true_2 by (apply elem_of_cons; by right).
      * by rewrite bool_decide_eq_false_2 by (rewrite not_elem_of_cons; done).
Qed.

Lemma group_add_item c g k :
  item k (group_add c g)
  = if String.eqb k (commit_date c) then Some (default [] (item k g) ++ [c])
    else item k g.
Proof.
  induction g as [|[k' cs] g IH]; cbn.
  - by destruct (String.eqb_spec k (commit_date c)).
  - destruct (String.eqb_spec (commit_date c) k') as [<-|Hne]; cbn.
    + by destruct (String.eqb_spec k (commit_date c)).
    + destruct (String.eqb_spec k k') as [->|Hne']; [|exact IH].
      destruct (String.eqb_spec k' (commit_date c)); [congruence|done].
Qed.

Definition dated (k : string) (commits : list LifeCommit) : list LifeCommit :=
  filter (fun c => commit_date c = k) commits.

Definition grouped (g : list (string * list LifeCommit)) (seen : list LifeCommit) : Prop :=
  NoDup (map fst g)
  /\ forall k, item k g = match dated k seen with [] => None | cs => Some cs end.

Lemma grouped_step g seen c : grouped g seen -> grouped (group_add c g) (seen ++ [c]).
Proof.
  intros [Hnd Hitem]. split.
  - rewrite group_add_keys. case_bool_decide as Hin; [done|].
    apply NoDup_app. split; [done|]. split; [|apply NoDup_singleton].
    intros x Hx ->%list_elem_of_singleton. done.
  - intros k. rewrite group_add_item, Hitem. unfold dated. rewrite filter_app.
    destruct (String.eqb_spec k (commit_date c)) as [->|Hne].
    + rewrite (filter_cons_True _ c []) by done. rewrite filter_nil.
      destruct (filter _ seen); cbn; [done|]. done.
    + rewrite (filter_cons_False _ c []) by congruence. rewrite filter_nil, app_nil_r. done.
Qed.

Lemma grouped_foldl commits : forall g seen,
  grouped g seen -> grouped (foldl (fun g c => group_add c g) g commits) (seen ++ commits).
Proof.
  induction commits as [|c commits IH]; intros g seen Hg; cbn.
  - by rewrite app_nil_r.
  - replace (seen ++ c :: commits) with ((seen ++ [c]) ++ commits)
      by (by rewrite <- app_assoc).
    by apply IH, grouped_step.
Qed.

Lemma commits_by_date_grouped commits : grouped (_commits_by_date commits) commits.
Proof.
  apply (grouped_foldl commits [] []). split; [constructor|done].
Qed.

(** Counting. *)
Definition occurrences (k : string) (xs : list string) : Z :=
  Z.of_nat (length (filter (fun x => x = k) xs)).

Lemma counter_add_keys k c :
  map fst (counter_add k c)
  = if bool_decide (k ∈ map fst c) then map fst c else map fst c ++ [k].
Proof.
  induction c as [|[k' n] c IH]; cbn.
  - by rewrite bool_decide_eq_false_2 by apply not_elem_of_nil.
  - destruct (String.eqb_spec k k') as [->|Hne]; cbn.
    + by rewrite bool_decide_eq_true_2 by (apply elem_of_cons; by left).
    + rewrite IH. case_bool_decide as Hin.
      * by rewrite bool_decide_eq_true_2 by (apply elem_of_cons; by right).
      * by rewrite bool_decide_eq_false_2 by (rewrite not_elem_of_cons; done).
Qed.

Lemma counter_add_item k c k0 :
  item k0 (counter_add k c)
  = if String.eqb k0 k then Some (default 0 (item k0 c) + 1) else item k0 c.
Proof.
  induction c as [|[k' n] c IH]; cbn.
  - by destruct (String.eqb_spec k0 k).
  - destruct (String.eqb_spec k k') as [<-|Hne]; cbn.
    + by destruct (String.eqb_spec k0 k).
    + destruct (String.eqb_spec k0 k') as [->|Hne']; [|exact IH].
      destruct (String.eqb_spec k' k); [congruence|done].
Qed.

Definition total (c : list (string * Z)) : Z := foldr (fun e acc => e.2 + acc) 0 c.

Lemma counter_add_total k c : total (counter_add k c) = total c + 1.
Proof.
  unfold total. induction c as [|[k' n] c IH]; cbn [counter_add foldr]; [done|].
  destruct (String.eqb k k'); cbn [foldr snd]; lia.
Qed.

Definition counted (c : list (string * Z)) (seen : list string) : Prop :=
  NoDup (map fst c)
  /\ (forall k, item k c
                = if bool_decide (k ∈ seen) then Some (occurrences k seen) else None)
  /\ total c = Z.of_nat (length seen).

Lemma occurrences_pos k xs : k ∈ xs -> 0 < occurrences k xs.
Proof.
  unfold occurrences. intros Hin.
  assert (k ∈ filter (fun x => x = k) xs) as Hf by (by apply list_elem_of_filter).
  destruct (filter _ xs); [by apply elem_of_nil in Hf|cbn; lia].
Qed.

Lemma occurrences_absent k xs : k ∉ xs -> occurrences k xs = 0.
Proof.
  unfold occurrences. intros Hn.
  destruct (filter (fun x => x = k) xs) as [|y l] eqn:E; [done|].
  assert (y ∈ filter (fun x => x = k) xs) as Hy by (rewrite E; apply elem_of_cons; by left).
  apply list_elem_of_filter in Hy as [-> Hy]. done.
Qed.

Lemma counted_step c seen k : counted c seen -> counted (counter_add k c) (seen ++ [k]).
Proof.
  intros (Hnd & Hitem & Htotal). split; [|split].
  - rewrite counter_add_keys. case_bool_decide as Hin; [done|].
    apply NoDup_app. split; [done|]. split; [|apply NoDup_singleton].
    intros x Hx ->%list_elem_of_singleton. done.
  - intros k0. rewrite counter_add_item, Hitem.
    unfold occurrences. rewrite filter_app, length_app.
    destruct (String.eqb_spec k0 k) as [->|Hne].
    + rewrite (bool_decide_eq_true_2 (k ∈ seen ++ [k]))
        by (apply elem_of_app; right; by apply list_elem_of_singleton).
      rewrite (filter_cons_True _ k []) by done. rewrite filter_nil. cbn [length].
      case_bool_decide as Hin; cbn; f_equal; [lia|].
      apply occurrences_absent in Hin. unfold occurrences in Hin. lia.
    + rewrite (filter_cons_False _ k []) by congruence. rewrite filter_nil. cbn [length].
      rewrite Nat.add_0_r.
      destruct (decide (k0 ∈ seen)) as [Hin|Hin].
      * rewrite (bool_decide_eq_true_2 (k0 ∈ seen)) by done.
        by rewrite (bool_decide_eq_true_2 (k0 ∈ seen ++ [k])) by (apply elem_of_app; by left).
      * rewrite (bool_decide_eq_false_2 (k0 ∈ seen)) by done.
        rewrite (bool_decide_eq_false_2 (k0 ∈ seen ++ [k])); [done|].
        rewrite elem_of_app, list_elem_of_singleton. tauto.
  - rewrite counter_add_total, Htotal, length_app. cbn. lia.
Qed.

Lemma counted_foldl xs : forall c seen,
  counted c seen -> counted (foldl (fun c k => counter_add k c) c xs) (seen ++ xs).
Proof.
  induction xs as [|x xs IH]; intros c seen Hc; cbn.
  - by rewrite app_nil_r.
  - replace (seen ++ x :: xs) with ((seen ++ [x]) ++ xs) by (by rewrite <- app_assoc).
    by apply IH, counted_step.
Qed.

Lemma Counter_counted xs : counted (Counter xs) xs.
Proof.
  apply (counted_foldl xs [] []). split; [constructor|]. split; [|done].
  intros k. by rewrite bool_decide_eq_false_2 by apply not_elem_of_nil.
Qed.

(** [most_common]: the same items, the larger counts first. *)
Fixpoint falling (l : list (string * Z)) : Prop :=
  match l with
  | [] => True
  | e :: rest => Forall (fun e' => e'.2 <= e.2) rest /\ falling rest
  end.

Lemma insert_by_count_perm e l : insert_by_count e l ≡ₚ e :: l.
Proof.
  induction l as [|e' l IH]; cbn; [done|].
  destruct (e'.2 <? e.2); [done|]. rewrite IH. apply Permutation_swap.
Qed.

Lemma insert_by_count_falling e l : falling l -> falling (insert_by_count e l).
Proof.
  induction l as [|e' l IH]; cbn; [by intros; split; [constructor|]|].
  intros [Hall Hl]. destruct (Z.ltb_spec e'.2 e.2) as [Hlt|Hge]; cbn.
  - split; [|done]. constructor; [lia|].
    eapply Forall_impl; [exact Hall|]. cbn. lia.
  - split; [|by apply IH].
    rewrite insert_by_count_perm. by constructor.
Qed.

Lemma most_common_spec c : most_common c ≡ₚ c /\ falling (most_common c).
Proof.
  unfold most_common. rewrite <- (app_nil_l c) at 2.
  assert (falling []) as Hf by done. revert Hf. generalize (@nil (string * Z)).
  induction c as [|e c IH]; intros acc Hacc; cbn.
  - by rewrite app_nil_r.
  - destruct (IH (insert_by_count e acc) (insert_by_count_falling e acc Hacc)) as [Hp Hfall].
    split; [|done]. rewrite Hp, insert_by_count_perm. cbn. apply Permutation_middle.
Qed.

Lemma total_perm c c' : c ≡ₚ c' -> total c = total c'.
Proof. unfold total. induction 1; cbn [foldr]; lia. Qed.

End Tallies.

(** X3: [_commits_by_date] has one key for each date that occurs, and under
    a date exactly the commits of that date, in the order they come in the
    list. *)
Theorem commits_by_date_groups (commits : list CommitYourDay.LifeCommit) :
  NoDup (map fst (CommitYourDay._commits_by_date commits))
  /\ (forall k, k ∈ map fst (CommitYourDay._commits_by_date commits)
                <-> k ∈ map CommitYourDay.commit_date commits)
  /\ (forall k cs, (k, cs) ∈ CommitYourDay._commits_by_date commits
                   <-> cs <> [] /\ cs = filter (fun c => CommitYourDay.commit_date c = k) commits).
Proof.
  destruct (Tallies.commits_by_date_grouped commits) as [Hnd Hitem].
  assert (forall k cs, (k, cs) ∈ CommitYourDay._commits_by_date commits
                       <-> cs <> [] /\ cs = filter (fun c => CommitYourDay.commit_date c = k) commits)
    as Hgroups.
  { intros k cs. rewrite (Tallies.item_elem k cs _ Hnd), Hitem. unfold Tallies.dated.
    destruct (filter _ commits) as [|c l]; split.
    - discriminate.
    - intros [? ->]. done.
    - intros [= <-]. done.
    - intros [_ ->]. done. }
  split; [exact Hnd|]. split; [|exact Hgroups].
  intros k. split.
  - intros ([k' cs] & -> & Hin)%list_elem_of_fmap. apply Hgroups in Hin as [Hne ->].
    destruct (filter _ commits) as [|c l] eqn:E; [done|].
    assert (c ∈ filter (fun c => CommitYourDay.commit_date c = k') commits) as Hc
      by (rewrite E; apply elem_of_cons; by left).
    apply list_elem_of_filter in Hc as [<- Hc]. apply list_elem_of_fmap. eauto.
  - intros (c & -> & Hc)%list_elem_of_fmap.
    apply list_elem_of_fmap.
    exists (CommitYourDay.commit_date c,
             filter (fun c' => CommitYourDay.commit_date c' = CommitYourDay.commit_date c) commits).
    split; [done|]. apply Hgroups. split; [|done].
    intros E. assert (c ∈ filter (fun c' => CommitYourDay.commit_date c' = CommitYourDay.commit_date c) commits)
      as Hin by (by apply list_elem_of_filter).
    rewrite E in Hin. by apply elem_of_nil in Hin.
Qed.

(** X4: the tag counter holds each tag once, with the number of times it
    occurs over all commits; the type distribution lists each commit type
    once with its number of commits, the larger counts first, and its
    counts add up to the number of commits. *)
Theorem tag_counts_and_type_distribution (commits : list CommitYourDay.LifeCommit) :
  let all_tags := concat (map CommitYourDay.tags commits) in
  let types := map CommitYourDay.commit_type commits in
  NoDup (map fst (CommitYourDay._compute_tag_counts commits))
  /\ (forall tag n, (tag, n) ∈ CommitYourDay._compute_tag_counts commits
                    <-> tag ∈ all_tags /\ n = Tallies.occurrences tag all_tags)
  /\ NoDup (map fst (CommitYourDay._compute_type_distribution commits))
  /\ (forall t n, (t, n) ∈ CommitYourDay._compute_type_distribution commits
                  <-> t ∈ types /\ n = Tallies.occurrences t types)
  /\ Tallies.falling (CommitYourDay._compute_type_distribution commits)
  /\ Tallies.total (CommitYourDay._compute_type_distribution commits)
     = Z.of_nat (length commits).
Proof.
  cbn zeta.
  assert (forall xs k n, (k, n) ∈ CommitYourDay.Counter xs
                         <-> k ∈ xs /\ n = Tallies.occurrences k xs) as Hcount.
  { intros xs k n. destruct (Tallies.Counter_counted xs) as (Hnd & Hitem & _).
    rewrite (Tallies.item_elem k n _ Hnd), Hitem.
    case_bool_decide as Hin; split.
    - intros [= <-]. done.
    - intros [_ ->]. done.
    - discriminate.
    - intros [? _]. done. }
  destruct (Tallies.Counter_counted (concat (map CommitYourDay.tags commits)))
    as (Hnd1 & _ & _).
  destruct (Tallies.Counter_counted (map CommitYourDay.commit_type commits))
    as (Hnd2 & _ & Htotal).
  destruct (Tallies.most_common_spec
              (CommitYourDay.Counter (map CommitYourDay.commit_type commits)))
    as [Hperm Hfall].
  unfold CommitYourDay._compute_tag_counts, CommitYourDay._compute_type_distribution.
  split; [exact Hnd1|]. split; [apply Hcount|].
  split; [by rewrite Hperm|].
  split; [intros t n; rewrite Hperm; apply Hcount|].
  split; [exact Hfall|].
  rewrite (Tallies.total_perm _ _ Hperm), Htotal. by rewrite length_map.
Qed.

Module Correlation.
Import Py CommitYourDay.

Definition bearing (tag : string) (commits : list LifeCommit) : list LifeCommit :=
  filter (fun c => bool_decide (tag ∈ tags c)) commits.

Lemma tag_mood_loop_spec commits top_tags results :
  tag_mood_loop commits top_tags = inr results ->
  map (fun r => r.1.1) results `sublist_of` top_tags
  /\ Forall (fun r =>
               r.2 = Z.of_nat (length (bearing r.1.1 commits))
               /\ TAG_MOOD_MIN_OCCURRENCES <= r.2
               /\ truediv (sum_of mood_score (bearing r.1.1 commits)) r.2 = inr r.1.2)
       results.
Proof.
  revert results. induction top_tags as [|tag rest IH]; intros results; cbn [tag_mood_loop].
  - intros [= <-]. by split.
  - fold (bearing tag commits).
    destruct (Z.ltb_spec (Z.of_nat (length (bearing tag commits))) TAG_MOOD_MIN_OCCURRENCES)
      as [Hfew|Hmany].
    + intros E. destruct (IH results E) as [Hsub Hall]. split; [by apply sublist_cons|done].
    + destruct (truediv (sum_of mood_score (bearing tag commits))
                  (Z.of_nat (length (bearing tag commits)))) as [x|q] eqn:Hq; [done|].
      destruct (tag_mood_loop commits rest) as [x|others]; [done|].
      intros [= <-]. destruct (IH others eq_refl) as [Hsub Hall]. cbn [map fst snd].
      split; [by apply sublist_skip|]. constructor; [|done]. cbn. done.
Qed.

End Correlation.

(** X5: the tag and mood correlation of commits whose scores are of
    size up to [2^1000] comes out; of any commits it comes out or the
    average raises [OverflowError].  What comes out has at most five rows,
    no tag twice, each tag one that occurs in the commits; a row's count is
    the number of commits that carry the tag, at least 2, and its average
    is the sum of their moods divided by that count. *)
Theorem tag_mood_correlation_rows (commits : list CommitYourDay.LifeCommit) :
  (Aggregates.bounded_scores commits ->
   exists results, CommitYourDay._compute_tag_mood_correlation commits = inr results)
  /\ ((exists results, CommitYourDay._compute_tag_mood_correlation commits = inr results)
      \/ CommitYourDay._compute_tag_mood_correlation commits
         = inl (Py.Error Py.OverflowError))
  /\ forall results,
       CommitYourDay._compute_tag_mood_correlation commits = inr results ->
       (length results <= 5)%nat
       /\ NoDup (map (fun r => r.1.1) results)
       /\ Forall (fun r =>
                    r.1.1 ∈ concat (map CommitYourDay.tags commits)
                    /\ r.2 = Z.of_nat (length (Correlation.bearing r.1.1 commits))
                    /\ 2 <= r.2
                    /\ CommitYourDay.truediv
                         (CommitYourDay.sum_of CommitYourDay.mood_score
                            (Correlation.bearing r.1.1 commits)) r.2 = inr r.1.2)
            results.
Proof.
  unfold CommitYourDay._compute_tag_mood_correlation.
  set (top := map fst (take CommitYourDay.TOP_THEMES_COUNT
                         (CommitYourDay.most_common
                            (CommitYourDay._compute_tag_counts commits)))).
  split; [by apply Aggregates.tag_mood_loop_total|].
  split; [apply Aggregates.tag_mood_loop_outcome|].
  intros results E.
  destruct (Correlation.tag_mood_loop_spec commits top results E) as [Hsub Hall].
  destruct (Tallies.most_common_spec (CommitYourDay._compute_tag_counts commits))
    as [Hperm _].
  destruct (Tallies.Counter_counted (concat (map CommitYourDay.tags commits)))
    as (Hnd & Hitem & _).
  fold (CommitYourDay._compute_tag_counts commits) in Hnd, Hitem.
  assert (NoDup top) as Hnd_top.
  { unfold top. eapply sublist_NoDup; [|apply (fmap_sublist fst), sublist_take].
    change (NoDup (fst <$> CommitYourDay.most_common (CommitYourDay._compute_tag_counts commits))).
    by rewrite Hperm. }
  assert (forall t, t ∈ top -> t ∈ concat (map CommitYourDay.tags commits)) as Htop.
  { intros t Ht. unfold top in Ht. apply list_elem_of_fmap in Ht as ([t' n] & -> & Hin).
    apply elem_of_take in Hin as (i & Hin & _).
    apply list_elem_of_lookup_2 in Hin. rewrite Hperm in Hin.
    apply (Tallies.item_elem _ _ _ Hnd) in Hin. rewrite Hitem in Hin.
    cbn. by case_bool_decide. }
  split; [|split].
  - apply sublist_length in Hsub. rewrite length_map in Hsub.
    etrans; [exact Hsub|]. unfold top. rewrite length_map, length_take.
    unfold CommitYourDay.TOP_THEMES_COUNT. lia.
  - eapply sublist_NoDup; [exact Hnd_top|exact Hsub].
  - rewrite Forall_forall in Hall. apply Forall_forall. intros r Hr.
    destruct (Hall r Hr) as (Hn & Hmin & Havg).
    split; [|done]. apply Htop. eapply elem_of_sublist; [|exact Hsub].
    apply list_elem_of_fmap. by exists r.
Qed.

(** Two commits tagged home with moods 2 and 1, one tagged work: the one
    row is home's, of average 3/2 over its 2 commits. *)
Lemma tag_mood_correlation_of_three :
  let tagged t m :=
    {| CommitYourDay.commit_id := "a";
       CommitYourDay.timestamp := "2024-06-15T10:00:00+00:00";
       CommitYourDay.commit_date := "2024-06-15"; CommitYourDay.commit_type := "feat";
       CommitYourDay.message := "m"; CommitYourDay.scope := "";
       CommitYourDay.details := ""; CommitYourDay.tags := [t];
       CommitYourDay.mood_score := m; CommitYourDay.energy_score := 3 |} in
  CommitYourDay._compute_tag_mood_correlation
    [tagged "home" 2; tagged "work" 0; tagged "home" 1]
  = inr [("home", S754_finite false 6755399441055744 (-52), 2)]
  /\ exists results,
       CommitYourDay._compute_tag_mood_correlation
         [tagged "home" 2; tagged "work" 0; tagged "home" 1] = inr results.
Proof.
  cbn zeta. split; [by vm_compute|].
  apply (proj1 (tag_mood_correlation_rows _)).
  repeat constructor; by vm_compute.
Defined.

(** * Rotation of the backups and what a save leaves behind *)

Module Rotation.
Import Py Runs CommitYourDay.

Lemma append_inj_r (s a b : string) : s +:+ a = s +:+ b -> a = b.
Proof. induction s as [|c s IH]; cbn; [done|]. intros [= E]. auto. Qed.

Lemma backup_path_inj path g g' : _backup_path path g = _backup_path path g' -> g = g'.
Proof.
  unfold _backup_path. intros [= E].
  apply append_inj_r in E. apply (append_inj_r BACKUP_SUFFIX) in E.
  by apply (inj pretty) in E.
Qed.

(** The files after a rotation that nothing interrupts. *)
Definition shift (src dst : Path) (fs : gmap Path string) : gmap Path string :=
  match fs !! src with
  | Some c => <[dst := c]> (delete src fs)
  | None => fs
  end.

Definition rotate_files (path : Path) (fs : gmap Path string) : gmap Path string :=
  let fs := shift (_backup_path path 2) (_backup_path path 3) fs in
  let fs := shift (_backup_path path 1) (_backup_path path 2) fs in
  match fs !! path with
  | Some c => <[_backup_path path 1 := c]> fs
  | None => fs
  end.

Lemma move_calm src dst fs ns sin e :
  (present <- exists_ src ;; if present then move src dst else ret tt)
    (mkW fs None ns sin e)
  = (Ok tt, mkW (shift src dst fs) None ns sin e).
Proof.
  unfold bind at 1. rewrite OtherLoaders.exists_calm. unfold shift.
  destruct (fs !! src) as [c|] eqn:Hsrc.
  - rewrite bool_decide_eq_true_2 by eauto.
    unfold move, replace, bind, tick, get_files, modify_files, set_files.
    cbn [fault files tmp_names stdin env]. by rewrite Hsrc.
  - rewrite bool_decide_eq_false_2 by (intros [? ?]; discriminate). reflexivity.
Qed.

Lemma rotate_calm path fs ns sin e :
  _rotate_backups path (mkW fs None ns sin e)
  = (Ok tt, mkW (rotate_files path fs) None ns sin e).
Proof.
  unfold _rotate_backups, MAX_BACKUPS. cbn [Nat.sub seq rev app for_each].
  unfold bind at 1. unfold bind at 1. rewrite move_calm.
  unfold bind at 1. rewrite move_calm.
  unfold ret at 1. unfold bind at 1. rewrite OtherLoaders.exists_calm.
  unfold rotate_files.
  set (fs2 := shift (_backup_path path 1) (_backup_path path 2)
                (shift (_backup_path path 2) (_backup_path path 3) fs)).
  change (_backup_path path (2 + 1)) with (_backup_path path 3).
  change (_backup_path path (1 + 1)) with (_backup_path path 2).
  fold fs2.
  destruct (fs2 !! path) as [c|] eqn:Hp.
  - rewrite bool_decide_eq_true_2 by eauto.
    by rewrite (Loader.copy2_calm _ _ _ _ _ _ c Hp).
  - rewrite bool_decide_eq_false_2 by (intros [? ?]; discriminate). reflexivity.
Qed.

Lemma shift_lookup src dst fs p :
  src <> dst ->
  shift src dst fs !! p
  = if bool_decide (p = dst) then (if fs !! src is Some c then Some c else fs !! dst)
    else if bool_decide (p = src) then None
    else fs !! p.
Proof.
  intros Hne. unfold shift. destruct (fs !! src) as [c|] eqn:Hsrc.
  - case_bool_decide as Hd; [subst; apply lookup_insert_eq|].
    rewrite lookup_insert_ne by done.
    case_bool_decide as Hs; [subst; apply lookup_delete_eq|].
    by rewrite lookup_delete_ne.
  - case_bool_decide as Hd; [by subst|].
    case_bool_decide as Hs; [by subst|done].
Qed.

(** Each generation takes the place of the next; the primary stays. *)
Lemma rotate_files_lookup path fs :
  rotate_files path fs !! path = fs !! path
  /\ rotate_files path fs !! _backup_path path 1 = fs !! path
  /\ rotate_files path fs !! _backup_path path 2 = fs !! _backup_path path 1
  /\ rotate_files path fs !! _backup_path path 3
     = (if fs !! _backup_path path 2 is Some c then Some c else fs !! _backup_path path 3)
  /\ (forall p, p <> _backup_path path 1 -> p <> _backup_path path 2 ->
                p <> _backup_path path 3 -> rotate_files path fs !! p = fs !! p).
Proof.
  assert (forall g g', g <> g' -> _backup_path path g <> _backup_path path g') as Hbb.
  { intros g g' Hg E. by apply backup_path_inj in E. }
  pose proof (Frames.backup_path_neq path) as Hbp.
  assert (forall p,
             shift (_backup_path path 1) (_backup_path path 2)
               (shift (_backup_path path 2) (_backup_path path 3) fs) !! p
             = if bool_decide (p = _backup_path path 1) then None
               else if bool_decide (p = _backup_path path 2) then fs !! _backup_path path 1
               else if bool_decide (p = _backup_path path 3)
                    then (if fs !! _backup_path path 2 is Some c then Some c
                          else fs !! _backup_path path 3)
               else fs !! p) as Hshift.
  { intros p. rewrite !shift_lookup by (apply Hbb; lia).
    rewrite (bool_decide_eq_false_2 (_backup_path path 1 = _backup_path path 3))
      by (apply Hbb; lia).
    rewrite (bool_decide_eq_false_2 (_backup_path path 1 = _backup_path path 2))
      by (apply Hbb; lia).
    rewrite (bool_decide_eq_true_2 (_backup_path path 2 = _backup_path path 2)) by done.
    rewrite (bool_decide_eq_false_2 (_backup_path path 2 = _backup_path path 3))
      by (apply Hbb; lia).
    repeat case_bool_decide; subst; try done;
      try (exfalso; eapply Hbb; [|eassumption]; lia).
    by destruct (fs !! _backup_path path 1). }
  assert (forall p, rotate_files path fs !! p
                    = if bool_decide (p = _backup_path path 1) then fs !! path
                      else if bool_decide (p = _backup_path path 2)
                           then fs !! _backup_path path 1
                      else if bool_decide (p = _backup_path path 3)
                           then (if fs !! _backup_path path 2 is Some c then Some c
                                 else fs !! _backup_path path 3)
                      else fs !! p) as Hall.
  { intros p. unfold rotate_files.
    pose proof (Hshift path) as Hpath.
    rewrite !bool_decide_eq_false_2 in Hpath by (intros E; by apply (Hbp _ (eq_sym E))).
    rewrite Hpath. destruct (fs !! path) as [c|] eqn:Hc.
    - case_bool_decide as H1; [subst; apply lookup_insert_eq|].
      rewrite lookup_insert_ne by done. rewrite Hshift.
      by rewrite (bool_decide_eq_false_2 (p = _backup_path path 1)).
    - rewrite Hshift. by case_bool_decide. }
  split; [|split; [|split; [|split]]].
  - rewrite Hall. by rewrite !bool_decide_eq_false_2
      by (intros E; by apply (Hbp _ (eq_sym E))).
  - rewrite Hall. by rewrite bool_decide_eq_true_2.
  - rewrite Hall. rewrite bool_decide_eq_false_2 by (apply Hbb; lia).
    by rewrite bool_decide_eq_true_2.
  - rewrite Hall. rewrite !bool_decide_eq_false_2 by (apply Hbb; lia).
    by rewrite bool_decide_eq_true_2.
  - intros p H1 H2 H3. rewrite Hall. by rewrite !bool_decide_eq_false_2.
Qed.

Section WithLib.
Context `{PyLib}.

(** A save that nothing interrupts. *)
Lemma save_store_calm path store fs ns sin e :
  _save_store path store (mkW fs None ns sin e)
  = match first_free (rotate_files path fs) (parent path) ".tmp" ns with
    | Some (tmp, rest) =>
        (Ok tt, mkW (<[path := json_dumps (CommitStore_to_dict store)]>
                       (rotate_files path fs)) None rest sin e)
    | None => (Raise (Error FileExistsError), mkW (rotate_files path fs) None [] sin e)
    end.
Proof.
  unfold _save_store, _ensure_storage_dir, mkdir_p.
  unfold bind at 1. unfold tick at 1. cbn [fault].
  unfold bind at 1. rewrite rotate_calm.
  apply Loader.write_atomic_json_calm.
Qed.

End WithLib.
End Rotation.

(** X6: a rotation that nothing interrupts leaves the primary file as it
    is and hands every generation on: the first backup holds the primary's
    bytes, the second what the first held, the third what the second held
    (or keeps its own when there was no second); no other file changes. *)
Theorem rotate_backups_shifts_generations (path : Py.Path) (fs : gmap Py.Path string)
    (names : list string) (e : Py.Env) :
  exists fs',
    CommitYourDay._rotate_backups path (Py.calm fs names e) = (Py.Ok tt, Py.calm fs' names e)
    /\ fs' !! path = fs !! path
    /\ fs' !! CommitYourDay._backup_path path 1 = fs !! path
    /\ fs' !! CommitYourDay._backup_path path 2 = fs !! CommitYourDay._backup_path path 1
    /\ fs' !! CommitYourDay._backup_path path 3
       = (if fs !! CommitYourDay._backup_path path 2 is Some c then Some c
          else fs !! CommitYourDay._backup_path path 3)
    /\ (forall p, p <> CommitYourDay._backup_path path 1 ->
                  p <> CommitYourDay._backup_path path 2 ->
                  p <> CommitYourDay._backup_path path 3 -> fs' !! p = fs !! p).
Proof.
  exists (Rotation.rotate_files path fs). split.
  - apply Rotation.rotate_calm.
  - apply Rotation.rotate_files_lookup.
Qed.

(** X7: two saves and then a damaged primary: when the primary file is
    replaced by text that is no JSON, the load returns the store of the
    save before the last (the first backup), writes it back as the primary
    and keeps the damaged text under the [.corrupted] name; the store of
    the last save is not recovered. *)
Theorem load_after_damage_returns_previous_save `{Py.PyLib} (path : Py.Path)
    (fs : gmap Py.Path string) (names : list string) (e : Py.Env)
    (first last : CommitYourDay.CommitStore) (garbage : string) (w1 w2 : Py.World)
    (tmp : Py.Path) (rest : list string) :
  Py.utf8_valid (Py.json_dumps (CommitYourDay.CommitStore_to_dict first)) = true ->
  Py.json_loads (Py.json_dumps (CommitYourDay.CommitStore_to_dict first))
    = Some (CommitYourDay.CommitStore_to_dict first) ->
  CommitYourDay._save_store path first (Py.calm fs names e) = (Py.Ok tt, w1) ->
  CommitYourDay._save_store path last w1 = (Py.Ok tt, w2) ->
  Py.utf8_valid garbage = true ->
  Py.json_loads garbage = None ->
  Py.first_free
    (<[CommitYourDay.corrupted_path path := garbage]> (<[path := garbage]> (Py.files w2)))
    (Py.parent path) ".tmp" (Py.tmp_names w2) = Some (tmp, rest) ->
  exists w4,
    CommitYourDay._load_store path (Py.set_files (fun fs => <[path := garbage]> fs) w2)
    = (Py.Ok first, w4)
    /\ Py.files w4 !! path = Some (Py.json_dumps (CommitYourDay.CommitStore_to_dict first))
    /\ Py.files w4 !! CommitYourDay.corrupted_path path = Some garbage
    /\ Py.files w4 !! CommitYourDay._backup_path path 1
       = Some (Py.json_dumps (CommitYourDay.CommitStore_to_dict first)).
Proof.
  intros Hutf Hloads Hsave1 Hsave2 Hgutf Hgloads Hfree.
  unfold Py.calm in Hsave1. rewrite Rotation.save_store_calm in Hsave1.
  destruct (Py.first_free (Rotation.rotate_files path fs) (Py.parent path) ".tmp" names)
    as [[tmp1 rest1]|]; [|discriminate].
  injection Hsave1 as <-.
  rewrite Rotation.save_store_calm in Hsave2.
  destruct (Py.first_free _ (Py.parent path) ".tmp" rest1) as [[tmp2 rest2]|];
    [|discriminate].
  injection Hsave2 as <-.
  unfold Py.set_files in *. cbn [Py.files Py.fault Py.tmp_names Py.stdin Py.env] in *.
  set (fs1 := <[path := Py.json_dumps (CommitYourDay.CommitStore_to_dict first)]>
                (Rotation.rotate_files path fs)) in *.
  set (fs2 := <[path := Py.json_dumps (CommitYourDay.CommitStore_to_dict last)]>
                (Rotation.rotate_files path fs1)) in *.
  set (fs3 := <[path := garbage]> fs2) in *.
  pose proof (Frames.backup_path_neq path 1) as Hb1.
  assert (fs3 !! CommitYourDay._backup_path path 1
          = Some (Py.json_dumps (CommitYourDay.CommitStore_to_dict first))) as Hbak.
  { unfold fs3, fs2. rewrite !lookup_insert_ne by done.
    destruct (Rotation.rotate_files_lookup path fs1) as (_ & -> & _).
    unfold fs1. apply lookup_insert_eq. }
  assert (Loader.read_candidate fs3 path = Loader.NotJson garbage) as Hprim.
  { unfold Loader.read_candidate, fs3. by rewrite lookup_insert_eq, Hgutf, Hgloads. }
  assert (Loader.read_candidate fs3 (CommitYourDay._backup_path path 1)
          = Loader.Holds first) as Hfirst.
  { unfold Loader.read_candidate. rewrite Hbak, Hutf, Hloads.
    destruct (LoaderFacts.CommitStore_from_to_dict first) as (d & -> & ->). reflexivity. }
  eexists. split.
  - apply (LoaderFacts.load_store_falls_back path fs3 rest2 [] e []
             (CommitYourDay._backup_path path 1)
             [CommitYourDay._backup_path path 2; CommitYourDay._backup_path path 3]
             first tmp rest).
    + by rewrite Hprim.
    + reflexivity.
    + constructor.
    + exact Hfirst.
    + unfold LoaderFacts.after_primary. by rewrite Hprim.
  - cbn [Py.files]. unfold LoaderFacts.after_primary. rewrite Hprim.
    split; [apply lookup_insert_eq|].
    pose proof (Frames.corrupted_path_neq path) as Hc.
    pose proof (LoaderFacts.backup_neq_corrupted path 1) as Hbc.
    split.
    + rewrite lookup_insert_ne by done. apply lookup_insert_eq.
    + rewrite !lookup_insert_ne by done. exact Hbak.
Qed.

Lemma load_after_damage_on_the_journal :
  let path := CommitYourDay.STORAGE_FILE in
  let later := {| CommitYourDay.version := CommitYourDay.SCHEMA_VERSION;
                  CommitYourDay.created_at := "2024-06-01T09:00:00+00:00";
                  CommitYourDay.commits := [Examples.evening] |} in
  let w0 := Py.calm ∅ ["a1"; "b2"; "c3"] Saves.host in
  let w1 := (CommitYourDay._save_store path Examples.journal w0).2 in
  let w2 := (CommitYourDay._save_store path later w1).2 in
  (CommitYourDay._load_store path (Py.set_files (fun fs => <[path := "{oops"]> fs) w2)).1
  = Py.Ok Examples.journal.
Proof.
  cbn zeta.
  set (later := {| CommitYourDay.version := CommitYourDay.SCHEMA_VERSION;
                   CommitYourDay.created_at := "2024-06-01T09:00:00+00:00"%string;
                   CommitYourDay.commits := [Examples.evening] |}).
  set (w0 := Py.calm ∅ ["a1"; "b2"; "c3"]%string Saves.host).
  destruct (load_after_damage_returns_previous_save CommitYourDay.STORAGE_FILE
              ∅ ["a1"; "b2"; "c3"]%string Saves.host Examples.journal later "{oops"%string
              (CommitYourDay._save_store CommitYourDay.STORAGE_FILE Examples.journal w0).2
              (CommitYourDay._save_store CommitYourDay.STORAGE_FILE later
                 (CommitYourDay._save_store CommitYourDay.STORAGE_FILE Examples.journal w0).2).2
              {| Py.parent := "~/.commit_your_day"; Py.name := "tmpc3.tmp" |} [])
    as (w4 & E & _).
  - by vm_compute.
  - by vm_compute.
  - by vm_compute.
  - by vm_compute.
  - by vm_compute.
  - by vm_compute.
  - by vm_compute.
  - by rewrite E.
Defined.

(** * What a load leaves alone *)

Module LoadFrame.
Import Py Runs Frames CommitYourDay.

Fixpoint last_char (s : string) : option ascii :=
  match s with
  | EmptyString => None
  | String c rest => match last_char rest with None => Some c | found => found end
  end.

Lemma last_char_app a b : b <> EmptyString -> last_char (a +:+ b) = last_char b.
Proof.
  intros Hb. induction a as [|c a IH]; cbn; [done|]. rewrite IH.
  destruct b as [|c' b]; [done|]. cbn. by destruct (last_char b).
Qed.

Lemma backup_not_temp path b :
  b ∈ LoaderFacts.backups path -> ~ is_temp_of path b.
Proof.
  unfold LoaderFacts.backups, MAX_BACKUPS. cbn [seq map].
  intros Hb [_ [n Hn]]. apply (f_equal last_char) in Hn.
  rewrite (last_char_app "tmp" (n +:+ ".tmp")) in Hn by (destruct n; discriminate).
  rewrite (last_char_app n ".tmp") in Hn by discriminate.
  rewrite !elem_of_cons, elem_of_nil in Hb.
  destruct Hb as [E|[E|[E|[]]]]; rewrite E in Hn; cbn [_backup_path name] in Hn;
    rewrite last_char_app in Hn by discriminate; discriminate.
Qed.

Section Frame.
Context `{PyLib}.
Variable path : Path.
Variable p : Path.
Hypothesis not_primary : p <> path.
Hypothesis not_corrupted : p <> corrupted_path path.
Hypothesis not_temp : ~ is_temp_of path p.

Definition spares (f : gmap Path string -> gmap Path string) : Prop :=
  forall fs, f fs !! p = fs !! p.

Lemma spares_modify f : spares f -> keeps (untouched p) (modify_files f).
Proof. intros Hf w. apply Hf. Qed.

Lemma u_ret {A} (a : A) : keeps (untouched p) (ret a).
Proof. apply keeps_ret, untouched_refl. Qed.

Lemma u_raise {A} x : keeps (untouched p) (@raise A x).
Proof. apply keeps_raise, untouched_refl. Qed.

Lemma u_bind {A B} (m : M A) (k : A -> M B) :
  keeps (untouched p) m -> (forall a, keeps (untouched p) (k a)) ->
  keeps (untouched p) (bind m k).
Proof. intros Hm Hk. apply keeps_bind; eauto using untouched_refl, untouched_trans. Qed.

Lemma u_try {A} (body : M A) clause handler :
  keeps (untouched p) body -> (forall x, keeps (untouched p) (handler x)) ->
  keeps (untouched p) (try_except body clause handler).
Proof.
  intros Hb Hh. apply keeps_try_except; eauto using untouched_refl, untouched_trans.
Qed.

Lemma read_text_untouched q : keeps (untouched p) (read_text q).
Proof.
  apply u_bind; [apply untouched_tick|]. intros _.
  apply u_bind; [apply keeps_get_files, untouched_refl|].
  intros fs. destruct (fs !! q) as [bytes|]; [destruct (utf8_valid bytes)|];
    first [apply u_ret | apply u_raise].
Qed.

Lemma write_atomic_json_untouched data : keeps (untouched p) (_write_atomic_json path data).
Proof.
  intros [fs ft ns sin e].
  destruct (AtomicWriter.write_atomic_json_run path data fs ft ns sin e)
    as (r & fs' & ft' & ns' & -> & R).
  unfold untouched. cbn [snd files].
  inversion R; subst; try done.
  - by apply lookup_insert_ne.
  - apply lookup_insert_ne. intros ->. done.
  - apply lookup_insert_ne. intros ->. done.
Qed.

Lemma try_candidate_untouched candidate : keeps (untouched p) (try_candidate path candidate).
Proof.
  unfold try_candidate.
  apply u_bind; [apply keeps_exists; eauto using untouched_refl, untouched_trans|].
  intros present. destruct (negb present); [apply u_ret|].
  apply u_try.
  - apply u_bind; [apply read_text_untouched|].
    intros raw. destruct (json_loads raw) as [v|]; [|apply u_raise].
    destruct v; try apply u_ret.
    apply u_bind.
    { unfold lift. destruct (CommitStore_from_dict d); [apply u_raise | apply u_ret]. }
    intros store. apply u_bind.
    + destruct (bool_decide (candidate <> path));
        [apply write_atomic_json_untouched | apply u_ret].
    + intros _. apply u_ret.
  - intros x. apply u_bind.
    + destruct (bool_decide (candidate = path)); [|apply u_ret].
      unfold suppress. apply u_try.
      * apply (keeps_copy2 (untouched p) (untouched_refl p) (untouched_trans p) spares);
          auto using untouched_tick, spares_modify.
        intros c fs. by apply lookup_insert_ne.
      * intros _. apply u_ret.
    + intros _. apply u_ret.
Qed.

Lemma load_from_untouched candidates : keeps (untouched p) (load_from path candidates).
Proof.
  induction candidates as [|c candidates IH]; cbn [load_from].
  - unfold _new_store. apply u_bind.
    + intros w. apply untouched_refl.
    + intros now. apply u_ret.
  - apply u_bind; [apply try_candidate_untouched|].
    intros [|store]; [exact IH | apply u_ret].
Qed.

End Frame.
End LoadFrame.

(** X8: wherever a load ends, failures and a kill included, it has changed
    no file but the primary, its [.corrupted] copy and temporary files of
    the atomic writer; the three backup generations are left byte for byte
    as they were. *)
Theorem load_store_spares_the_backups `{Py.PyLib} (path : Py.Path) (w : Py.World) :
  (forall p, p <> path -> p <> CommitYourDay.corrupted_path path ->
             ~ Runs.is_temp_of path p ->
             Py.files (CommitYourDay._load_store path w).2 !! p = Py.files w !! p)
  /\ Forall (fun b => Py.files (CommitYourDay._load_store path w).2 !! b = Py.files w !! b)
       (LoaderFacts.backups path).
Proof.
  assert (forall p, p <> path -> p <> CommitYourDay.corrupted_path path ->
                    ~ Runs.is_temp_of path p ->
                    Py.files (CommitYourDay._load_store path w).2 !! p = Py.files w !! p)
    as Hframe.
  { intros p H1 H2 H3. by apply (LoadFrame.load_from_untouched path p H1 H2 H3). }
  split; [exact Hframe|].
  apply Forall_forall. intros b Hb. apply Hframe.
  - pose proof (LoaderFacts.backups_neq path) as Hneq.
    rewrite Forall_forall in Hneq. by apply Hneq.
  - apply list_elem_of_fmap in Hb as (g & -> & _). apply LoaderFacts.backup_neq_corrupted.
  - by apply LoadFrame.backup_not_temp.
Qed.

(** * pebbles.py: the commands that change the jar *)

Module PebblesCommands.
Import Py Pebbles.

(** [datetime.now(timezone.utc).isoformat(timespec="seconds")]: the
    clock's reading without its fraction of a second. *)
Definition now_utc_isoformat_seconds : M string :=
  fun w => (Ok (String.substring 0 19 (now_utc (env w)) +:+ "+00:00"), w).

Section WithLib.
Context `{PyLib}.

(** Creates a pebble timestamped to the current UTC moment. *)
Definition _new_pebble (text : string) : M _Pebble :=
  now <- now_utc_isoformat_seconds ;;
  ret {| Pebbles.text := text; timestamp := now |}.

(** Adds a new pebble to the jar; the result is the exit status (what the
    command prints is left out). *)
Definition _cmd_add (path : Path) (text : option string) : M Z :=
  read <- match text with
          | Some t => ret (Some t)
          | None =>
              try_except (line <- input ;; ret (Some (strip line)))
                [EOFError; KeyboardInterrupt] (fun _ => ret None)
          end ;;
  match read with
  | None => ret 1
  | Some text =>
      if bool_decide (text = EmptyString) then ret 1
      else
        pebbles <- _load path ;;
        pebble <- _new_pebble text ;;
        _save path (pebbles ++ [pebble]) ;;
        ret 0
  end.

(** Removes all pebbles after user confirmation. *)
Definition _cmd_clear (path : Path) : M Z :=
  pebbles <- _load path ;;
  match pebbles with
  | [] => ret 0
  | _ =>
      read <- try_except (line <- input ;; ret (Some (lower (strip line))))
                [EOFError; KeyboardInterrupt] (fun _ => ret None) ;;
      match read with
      | None => ret 1
      | Some answer =>
          if negb (bool_decide (answer = "y") || bool_decide (answer = "yes"))
          then ret 0
          else _save path [] ;; ret 0
      end
  end.

End WithLib.
End PebblesCommands.

Module PebblesFacts.
Import Py Runs Pebbles PebblesCommands.

Section WithLib.
Context `{PyLib}.

Lemma pebble_of_asdict p : pebble_of_entry (asdict p) = Some p.
Proof. by destruct p. Qed.

Lemma omap_asdict pebbles : omap pebble_of_entry (map asdict pebbles) = pebbles.
Proof.
  induction pebbles as [|p pebbles IH]; [done|].
  destruct p as [t ts]. cbn. f_equal. exact IH.
Qed.

(** A save that nothing interrupts. *)
Lemma pebbles_save_calm path pebbles fs ns sin e :
  _save path pebbles (mkW fs None ns sin e)
  = match first_free fs (parent path) ".tmp" ns with
    | Some (tmp, rest) =>
        (Ok tt, mkW (<[path := AtomicWriter.pebbles_payload pebbles]> fs) None rest sin e)
    | None => (Raise (Error FileExistsError), mkW fs None [] sin e)
    end.
Proof.
  rewrite AtomicWriter.pebbles_save_unfold.
  unfold mkdir_p. unfold bind at 1. unfold tick at 1. cbn [fault].
  unfold atomic_write, mkstemp. unfold bind at 1. unfold bind at 1. unfold tick.
  cbn [fault files tmp_names].
  destruct (first_free fs (parent path) ".tmp" ns) as [[tmp rest]|] eqn:Hfree; [|done].
  apply first_free_fresh in Hfree as (Hnone & _).
  unfold try_except, set_tmp_names, set_files. cbn [files fault tmp_names stdin env].
  destruct (body_run tmp path (AtomicWriter.pebbles_payload pebbles)
              (<[tmp := ""%string]> fs) None rest sin e)
    as (r & fs2 & ft2 & E2 & F2 & Hfs2); [apply lookup_insert_eq|].
  rewrite E2. destruct r as [[]|x|]; cbn in F2.
  - apply still_pending_calm in F2 as ->. subst fs2.
    by rewrite delete_insert_id.
  - by apply struck_raise_calm in F2.
  - by apply struck_kill_calm in F2.
Qed.

Lemma new_pebble_run text w :
  _new_pebble text w
  = (Ok {| Pebbles.text := text;
           timestamp := String.substring 0 19 (now_utc (env w)) +:+ "+00:00" |}, w).
Proof. reflexivity. Qed.

End WithLib.
End PebblesFacts.

(** X9: pebbles written by a save that completes are the pebbles the next
    load returns, in their order, when the JSON library reads its own text
    back (the payload is UTF-8 text around which only whitespace is
    stripped); the load leaves the files alone. *)
Theorem pebbles_save_then_load `{Py.PyLib} (fs : gmap Py.Path string)
    (names : list string) (e : Py.Env) (path : Py.Path)
    (pebbles : list Pebbles._Pebble) (w' : Py.World) :
  Py.utf8_valid (AtomicWriter.pebbles_payload pebbles) = true ->
  Py.strip (AtomicWriter.pebbles_payload pebbles) <> EmptyString ->
  Py.json_loads (Py.strip (AtomicWriter.pebbles_payload pebbles))
    = Some (Py.JList (map Pebbles.asdict pebbles)) ->
  Pebbles._save path pebbles (Py.calm fs names e) = (Py.Ok tt, w') ->
  Pebbles._load path w' = (Py.Ok pebbles, w').
Proof.
  intros Hutf Hblank Hloads Hsave. unfold Py.calm in Hsave.
  rewrite PebblesFacts.pebbles_save_calm in Hsave.
  destruct (Py.first_free fs (Py.parent path) ".tmp" names) as [[tmp rest]|];
    [|discriminate].
  injection Hsave as <-.
  rewrite OtherLoaders.pebbles_load_calm.
  - unfold OtherLoaders.pebbles_answer. rewrite lookup_insert_eq.
    rewrite bool_decide_eq_false_2 by done.
    by rewrite Hloads, PebblesFacts.omap_asdict.
  - intros bytes. rewrite lookup_insert_eq. by intros [= <-].
Qed.

Lemma pebbles_save_then_load_two :
  let p := {| Py.parent := "~"; Py.name := ".gratitude_pebbles.json" |} in
  let pebbles := [ {| Pebbles.text := "sun on the porch";
                      Pebbles.timestamp := "2024-06-15T08:00:00+00:00" |};
                   {| Pebbles.text := "a call from an old friend";
                      Pebbles.timestamp := "2024-06-15T19:30:00+00:00" |} ] in
  let w' := (Pebbles._save p pebbles (Py.calm ∅ ["k3x9q2ab"] Saves.host)).2 in
  Pebbles._load p w' = (Py.Ok pebbles, w').
Proof.
  cbn zeta.
  apply (pebbles_save_then_load ∅ ["k3x9q2ab"%string] Saves.host).
  - by vm_compute.
  - by vm_compute.
  - by vm_compute.
  - by vm_compute.
Defined.

(** X10: [pebbles add].  Without a word (an empty argument, an empty or
    blank line, or the end of input at the prompt) it ends with status 1
    and writes nothing.  Where nothing fails and the data file is missing
    or UTF-8 text that, stripped, begins and ends with ASCII characters and
    stays within the limits of the JSON reader: on a file that is not a
    JSON list it exits with status 1 and leaves the file as it is;
    otherwise, the new list being text that can be written as UTF-8, the
    well-formed pebbles of the file are written back in their order with
    the new pebble after them, and the status is 0. *)
Theorem pebbles_add_appends_or_refuses `{Py.PyLib} (path : Py.Path)
    (fs : gmap Py.Path string) (names sin : list string) (e : Py.Env) (t : string) :
  let w := Py.Build_World fs None names sin e in
  let new := {| Pebbles.text := t;
                Pebbles.timestamp := String.substring 0 19 (Py.now_utc e) +:+ "+00:00" |} in
  PebblesCommands._cmd_add path (Some EmptyString) w = (Py.Ok 1, w)
  /\ (sin = [] -> PebblesCommands._cmd_add path None w = (Py.Ok 1, w))
  /\ (forall line rest, sin = line :: rest -> Py.strip line = EmptyString ->
        PebblesCommands._cmd_add path None w
        = (Py.Ok 1, Py.Build_World fs None names rest e))
  /\ (t <> EmptyString ->
      (forall bytes, fs !! path = Some bytes ->
         Py.utf8_valid bytes = true /\ Strings.ascii_ends bytes = true
         /\ Py.json_within_limits (Py.strip bytes) = true) ->
      (OtherLoaders.pebbles_answer fs path = Py.Raise (Py.SystemExit 1) ->
       PebblesCommands._cmd_add path (Some t) w = (Py.Raise (Py.SystemExit 1), w))
      /\ (forall old tmp rest,
            OtherLoaders.pebbles_answer fs path = Py.Ok old ->
            Py.utf8_valid (AtomicWriter.pebbles_payload (old ++ [new])) = true ->
            Py.first_free fs (Py.parent path) ".tmp" names = Some (tmp, rest) ->
            PebblesCommands._cmd_add path (Some t) w
            = (Py.Ok 0,
               Py.Build_World (<[path := AtomicWriter.pebbles_payload (old ++ [new])]> fs)
                 None rest sin e))).
Proof.
  cbn zeta. split; [reflexivity|]. split; [by intros ->|]. split.
  - intros line rest -> Hblank. unfold PebblesCommands._cmd_add.
    unfold Py.bind at 1, Py.try_except, Py.bind at 1, Py.input. cbn [Py.stdin Py.ret].
    rewrite Hblank. reflexivity.
  - intros Ht Htext.
    assert (PebblesCommands._cmd_add path (Some t) (Py.Build_World fs None names sin e)
            = match OtherLoaders.pebbles_answer fs path with
              | Py.Ok old =>
                  match Py.first_free fs (Py.parent path) ".tmp" names with
                  | Some (tmp, rest) =>
                      (Py.Ok 0,
                       Py.Build_World
                         (<[path := AtomicWriter.pebbles_payload
                                      (old ++ [{| Pebbles.text := t;
                                                  Pebbles.timestamp :=
                                                    String.substring 0 19 (Py.now_utc e)
                                                    +:+ "+00:00" |}])]> fs)
                         None rest sin e)
                  | None => (Py.Raise (Py.Error Py.FileExistsError),
                             Py.Build_World fs None [] sin e)
                  end
              | Py.Raise x => (Py.Raise x, Py.Build_World fs None names sin e)
              | Py.Killed => (Py.Killed, Py.Build_World fs None names sin e)
              end) as Hrun.
    { unfold PebblesCommands._cmd_add.
      unfold Py.bind at 1, Py.ret at 1. rewrite bool_decide_eq_false_2 by done.
      unfold Py.bind at 1.
      rewrite (OtherLoaders.pebbles_load_calm path fs names sin e
                 (fun bytes Hb => proj1 (Htext bytes Hb))).
      destruct (OtherLoaders.pebbles_answer fs path) as [old|x|]; [|done..].
      unfold Py.bind at 1. rewrite PebblesFacts.new_pebble_run.
      unfold Py.bind at 1. rewrite PebblesFacts.pebbles_save_calm.
      by destruct (Py.first_free fs (Py.parent path) ".tmp" names) as [[tmp rest]|]. }
    rewrite Hrun. split.
    + by intros ->.
    + intros old tmp rest -> _ ->. reflexivity.
Qed.

(** A second pebble joins the one in the jar. *)
Lemma pebbles_add_to_a_jar_of_one :
  let p := {| Py.parent := "~"; Py.name := ".gratitude_pebbles.json" |} in
  let first := {| Pebbles.text := "sun on the porch";
                  Pebbles.timestamp := "2024-06-15T08:00:00+00:00" |} in
  let second := {| Pebbles.text := "rain on the roof";
                   Pebbles.timestamp := "2024-06-15T12:00:00+00:00" |} in
  let jar (pebbles : list Pebbles._Pebble) : gmap Py.Path string :=
    {[ p := AtomicWriter.pebbles_payload (H := JsonText.text_lib) pebbles ]} in
  PebblesCommands._cmd_add (H := JsonText.text_lib) p (Some "rain on the roof")
    (Py.Build_World (jar [first]) None ["k3x9q2ab"] [] Saves.host)
  = (Py.Ok 0, Py.Build_World (<[p := AtomicWriter.pebbles_payload (H := JsonText.text_lib)
                                        [first; second]]> (jar [first]))
                None [] [] Saves.host).
Proof.
  intros p first second jar.
  refine (proj2 (proj2 (proj2 (proj2
            (pebbles_add_appends_or_refuses (H := JsonText.text_lib) p (jar [first])
               ["k3x9q2ab"%string] [] Saves.host "rain on the roof"))) _ _)
            [first] {| Py.parent := "~"; Py.name := "tmpk3x9q2ab.tmp" |} [] _ _ _).
  - discriminate.
  - intros bytes Hb. apply lookup_singleton_Some in Hb as [_ <-]. by vm_compute.
  - by vm_compute.
  - by vm_compute.
  - by vm_compute.
Defined.

(** X11: [pebbles clear].  An empty jar is left alone and nothing is asked.
    Otherwise one line is read: at the end of input the status is 1; an
    answer that is [y] or [yes] once stripped and lowered empties the jar
    (the file holds the empty list); any other answer of ASCII text keeps
    every file as it is. *)
Theorem pebbles_clear_asks_first `{Py.PyLib} (path : Py.Path)
    (fs : gmap Py.Path string) (names sin : list string) (e : Py.Env) :
  let w := Py.Build_World fs None names sin e in
  (forall bytes, fs !! path = Some bytes -> Py.utf8_valid bytes = true) ->
  (OtherLoaders.pebbles_answer fs path = Py.Ok [] ->
   PebblesCommands._cmd_clear path w = (Py.Ok 0, w))
  /\ (forall p ps, OtherLoaders.pebbles_answer fs path = Py.Ok (p :: ps) ->
        (sin = [] -> PebblesCommands._cmd_clear path w = (Py.Ok 1, w))
        /\ (forall line rest tmp names',
              sin = line :: rest ->
              Py.lower (Py.strip line) = "y" \/ Py.lower (Py.strip line) = "yes" ->
              Py.first_free fs (Py.parent path) ".tmp" names = Some (tmp, names') ->
              PebblesCommands._cmd_clear path w
              = (Py.Ok 0,
                 Py.Build_World (<[path := AtomicWriter.pebbles_payload []]> fs)
                   None names' rest e))
        /\ (forall line rest,
              sin = line :: rest ->
              Strings.is_ascii line = true ->
              Py.lower (Py.strip line) <> "y" -> Py.lower (Py.strip line) <> "yes" ->
              PebblesCommands._cmd_clear path w
              = (Py.Ok 0, Py.Build_World fs None names rest e))).
Proof.
  cbn zeta. intros Htext.
  assert (PebblesCommands._cmd_clear path (Py.Build_World fs None names sin e)
          = match OtherLoaders.pebbles_answer fs path with
            | Py.Ok [] => (Py.Ok 0, Py.Build_World fs None names sin e)
            | Py.Ok (_ :: _) =>
                match sin with
                | [] => (Py.Ok 1, Py.Build_World fs None names sin e)
                | line :: rest =>
                    if negb (bool_decide (Py.lower (Py.strip line) = "y")
                             || bool_decide (Py.lower (Py.strip line) = "yes"))
                    then (Py.Ok 0, Py.Build_World fs None names rest e)
                    else
                      match Py.first_free fs (Py.parent path) ".tmp" names with
                      | Some (tmp, names') =>
                          (Py.Ok 0,
                           Py.Build_World (<[path := AtomicWriter.pebbles_payload []]> fs)
                             None names' rest e)
                      | None => (Py.Raise (Py.Error Py.FileExistsError),
                                 Py.Build_World fs None [] rest e)
                      end
                end
            | Py.Raise x => (Py.Raise x, Py.Build_World fs None names sin e)
            | Py.Killed => (Py.Killed, Py.Build_World fs None names sin e)
            end) as Hrun.
  { unfold PebblesCommands._cmd_clear.
    unfold Py.bind at 1. rewrite (OtherLoaders.pebbles_load_calm path fs names sin e Htext).
    destruct (OtherLoaders.pebbles_answer fs path) as [[|p ps]|x|]; [done| |done..].
    destruct sin as [|line rest]; [reflexivity|].
    unfold Py.bind at 1, Py.try_except, Py.bind at 1, Py.input.
    cbn [Py.stdin Py.ret Py.files Py.fault Py.tmp_names Py.env].
    destruct (negb (bool_decide (Py.lower (Py.strip line) = "y")
                    || bool_decide (Py.lower (Py.strip line) = "yes"))); [reflexivity|].
    unfold Py.bind at 1. rewrite PebblesFacts.pebbles_save_calm.
    by destruct (Py.first_free fs (Py.parent path) ".tmp" names) as [[tmp names']|]. }
  rewrite Hrun. split; [by intros ->|].
  intros p ps ->. split; [by intros ->|]. split.
  - intros line rest tmp names' -> Hyes ->.
    assert ((bool_decide (Py.lower (Py.strip line) = "y")
             || bool_decide (Py.lower (Py.strip line) = "yes")) = true) as ->.
    { destruct Hyes as [-> | ->]; reflexivity. }
    reflexivity.
  - intros line rest -> _ Hy Hyes.
    by rewrite !bool_decide_eq_false_2 by done.
Qed.

Lemma pebbles_clear_on_one_pebble :
  let p := {| Py.parent := "~"; Py.name := ".gratitude_pebbles.json" |} in
  let sun := {| Pebbles.text := "sun on the porch";
                Pebbles.timestamp := "2024-06-15T08:00:00+00:00" |} in
  let fs : gmap Py.Path string := {[ p := AtomicWriter.pebbles_payload [sun] ]} in
  PebblesCommands._cmd_clear p (Py.Build_World fs None ["k3x9q2ab"] [" Yes "] Saves.host)
  = (Py.Ok 0,
     Py.Build_World (<[p := AtomicWriter.pebbles_payload []]> fs) None [] [] Saves.host)
  /\ PebblesCommands._cmd_clear p (Py.Build_World fs None ["k3x9q2ab"] ["maybe"] Saves.host)
     = (Py.Ok 0, Py.Build_World fs None ["k3x9q2ab"] [] Saves.host).
Proof.
  cbn zeta.
  set (p := {| Py.parent := "~"%string; Py.name := ".gratitude_pebbles.json"%string |}).
  set (sun := {| Pebbles.text := "sun on the porch"%string;
                 Pebbles.timestamp := "2024-06-15T08:00:00+00:00"%string |}).
  set (fs := ({[ p := AtomicWriter.pebbles_payload [sun] ]} : gmap Py.Path string)).
  assert (forall bytes, fs !! p = Some bytes -> Py.utf8_valid bytes = true) as Htext.
  { intros bytes Hb. apply lookup_singleton_Some in Hb as [_ <-]. by vm_compute. }
  assert (OtherLoaders.pebbles_answer fs p = Py.Ok [sun]) as Hans by (by vm_compute).
  split.
  - destruct (pebbles_clear_asks_first p fs ["k3x9q2ab"%string] [" Yes "%string]
                Saves.host Htext) as [_ Hfull].
    destruct (Hfull sun [] Hans) as (_ & Hyes & _).
    apply (Hyes " Yes "%string [] {| Py.parent := "~"; Py.name := "tmpk3x9q2ab.tmp" |} []);
      [reflexivity | right; by vm_compute | by vm_compute].
  - destruct (pebbles_clear_asks_first p fs ["k3x9q2ab"%string] ["maybe"%string]
                Saves.host Htext) as [_ Hfull].
    destruct (Hfull sun [] Hans) as (_ & _ & Hno).
    apply (Hno "maybe"%string []); [reflexivity | by vm_compute | by vm_compute | by vm_compute].
Defined.

(** * capsule.py and memory_jar.py: adding a note *)

Module CapsuleCommands.
Import Py Capsule.

Section WithLib.
Context `{PyLib}.

(** The entry [add_message] appends. *)
Definition new_entry (text now : string) : json :=
  JDict [("message", JStr text); ("created_at", JStr now); ("tags", JList [])].

(** Bury a new message in the capsule for your future self (what it prints
    is left out). *)
Definition add_message (text : string) : M unit :=
  capsules <- load_data ;;
  now <- now_utc_isoformat ;;
  save_data (capsules ++ [new_entry text now]).

End WithLib.
End CapsuleCommands.

Module MemoryJarCommands.
Import Py MemoryJar.

Section WithLib.
Context `{PyLib}.

(** The note [add_memory] appends; [now] is what [datetime.now().isoformat()]
    reads from the local clock. *)
Definition new_memory (text today now : string) : json :=
  JDict [("text", JStr text); ("date", JStr today); ("timestamp", JStr now)].

(** Drop a note into the jar (what it prints is left out).  [.append] is a
    method of lists only. *)
Definition add_memory (now : string) (text : string) : M unit :=
  memories <- load_jar ;;
  today <- date_today ;;
  let memory := new_memory text (Calendar.isoformat today) now in
  match memories with
  | JList l => save_jar (JList (l ++ [memory]))
  | _ => raise (Error AttributeError)
  end.

End WithLib.
End MemoryJarCommands.

Module NoteFacts.
Import Py Runs.

Lemma write_text_calm p data fs ns sin e :
  write_text p data (mkW fs None ns sin e) = (Ok tt, mkW (<[p := data]> fs) None ns sin e).
Proof.
  unfold write_text, open_truncate. unfold bind at 1. unfold bind at 1.
  unfold tick at 1, modify_files, set_files. cbn [fault files tmp_names stdin env].
  unfold bind at 1.
  rewrite (Loader.write_bytes_calm p data _ ns sin e EmptyString) by apply lookup_insert_eq.
  cbn. by rewrite insert_insert_eq.
Qed.

End NoteFacts.

(** X12: [capsule add], where nothing fails, the data file is missing or
    UTF-8 text within the limits of the JSON reader, and the list to be
    written is text that can be written as UTF-8: when the file holds a
    JSON list, its entries are written back as they are, in their order,
    with the new message after them; when the file is missing, is not JSON
    or is not a list, the file is written anew with the new message alone,
    and what it held is gone. *)
Theorem capsule_add_appends_or_starts_over `{Py.PyLib} (fs : gmap Py.Path string)
    (names sin : list string) (e : Py.Env) (text : string) :
  let w := Py.Build_World fs None names sin e in
  let entry := CapsuleCommands.new_entry text (Py.now_utc e) in
  let payload (entries : list Py.json) :=
    Py.json_dumps (Py.JList entries) +:+ String (ascii_of_nat 10) "" in
  let written (entries : list Py.json) :=
    (Py.Ok tt,
     Py.Build_World (<[Capsule.DATA_FILE := payload entries]> fs) None names sin e) in
  (forall bytes, fs !! Capsule.DATA_FILE = Some bytes ->
     Py.utf8_valid bytes = true /\ Py.json_within_limits bytes = true) ->
  (forall bytes data,
      fs !! Capsule.DATA_FILE = Some bytes -> Py.json_loads bytes = Some (Py.JList data) ->
      Py.utf8_valid (payload (data ++ [entry])) = true ->
      CapsuleCommands.add_message text w = written (data ++ [entry]))
  /\ (fs !! Capsule.DATA_FILE = None ->
      Py.utf8_valid (payload [entry]) = true ->
      CapsuleCommands.add_message text w = written [entry])
  /\ (forall bytes,
        fs !! Capsule.DATA_FILE = Some bytes ->
        (forall data, Py.json_loads bytes <> Some (Py.JList data)) ->
        Py.utf8_valid (payload [entry]) = true ->
        CapsuleCommands.add_message text w = written [entry]).
Proof.
  cbn zeta. intros Htext.
  assert (CapsuleCommands.add_message text (Py.Build_World fs None names sin e)
          = (Py.Ok tt,
             Py.Build_World
               (<[Capsule.DATA_FILE :=
                    Py.json_dumps (Py.JList (OtherLoaders.capsule_answer fs
                                               ++ [CapsuleCommands.new_entry text (Py.now_utc e)]))
                    +:+ String (ascii_of_nat 10) ""]> fs)
               None names sin e)) as Hrun.
  { unfold CapsuleCommands.add_message. unfold Py.bind at 1.
    rewrite (OtherLoaders.capsule_load_calm fs names sin e
               (fun bytes Hb => proj1 (Htext bytes Hb))).
    unfold Py.bind at 1, Py.now_utc_isoformat. cbn [Py.env].
    unfold Capsule.save_data. apply NoteFacts.write_text_calm. }
  rewrite Hrun. unfold OtherLoaders.capsule_answer.
  split; [|split].
  - intros bytes data -> -> _. reflexivity.
  - intros -> _. reflexivity.
  - intros bytes -> Hnot _. destruct (Py.json_loads bytes) as [[]|]; try reflexivity.
    by destruct (Hnot l).
Qed.

Lemma capsule_add_over_a_broken_file :
  let w := Py.Build_World {[ Capsule.DATA_FILE := "[{oops" ]} None [] [] Saves.host in
  Py.files (CapsuleCommands.add_message "be gentle" w).2 !! Capsule.DATA_FILE
  = Some (JsonText.dumps
            (Py.JList [CapsuleCommands.new_entry "be gentle" "2024-06-15T12:00:00+00:00"])
          +:+ JsonText.newline).
Proof.
  cbn zeta.
  destruct (capsule_add_appends_or_starts_over
              ({[ Capsule.DATA_FILE := "[{oops"%string ]} : gmap Py.Path string)
              [] [] Saves.host "be gentle") as (_ & _ & Hover).
  - intros bytes Hb. apply lookup_singleton_Some in Hb as [_ <-]. by vm_compute.
  - rewrite (Hover "[{oops"%string).
    + cbn [snd Py.files]. by rewrite lookup_insert_eq.
    + apply lookup_singleton_eq.
    + intros data. by vm_compute.
    + by vm_compute.
Defined.

(** X13: [memory_jar add], where nothing fails and the jar file is missing
    or UTF-8 text within the limits of the JSON reader: when the file holds
    a JSON list the note is appended to its entries, and when the file is
    missing or is not JSON the jar is written anew with the note alone
    (the list written being text that can be written as UTF-8); and when
    the file holds any other JSON value (an object, a number, a string) the
    command stops with [AttributeError] and the file is left as it is. *)
Theorem memory_jar_add_needs_a_list `{Py.PyLib} (fs : gmap Py.Path string)
    (names sin : list string) (e : Py.Env) (now text : string) :
  let w := Py.Build_World fs None names sin e in
  let note := MemoryJarCommands.new_memory text (Calendar.isoformat (Py.today e)) now in
  let written (entries : list Py.json) :=
    (Py.Ok tt,
     Py.Build_World (<[MemoryJar.JAR_FILE := Py.json_dumps (Py.JList entries)]> fs)
       None names sin e) in
  (forall bytes, fs !! MemoryJar.JAR_FILE = Some bytes ->
     Py.utf8_valid bytes = true /\ Py.json_within_limits bytes = true) ->
  (forall bytes data,
      fs !! MemoryJar.JAR_FILE = Some bytes -> Py.json_loads bytes = Some (Py.JList data) ->
      Py.utf8_valid (Py.json_dumps (Py.JList (data ++ [note]))) = true ->
      MemoryJarCommands.add_memory now text w = written (data ++ [note]))
  /\ (fs !! MemoryJar.JAR_FILE = None ->
      Py.utf8_valid (Py.json_dumps (Py.JList [note])) = true ->
      MemoryJarCommands.add_memory now text w = written [note])
  /\ (forall bytes,
        fs !! MemoryJar.JAR_FILE = Some bytes -> Py.json_loads bytes = None ->
        Py.utf8_valid (Py.json_dumps (Py.JList [note])) = true ->
        MemoryJarCommands.add_memory now text w = written [note])
  /\ (forall bytes v,
        fs !! MemoryJar.JAR_FILE = Some bytes -> Py.json_loads bytes = Some v ->
        (forall data, v <> Py.JList data) ->
        MemoryJarCommands.add_memory now text w = (Py.Raise (Py.Error Py.AttributeError), w)).
Proof.
  cbn zeta. intros Htext.
  assert (MemoryJarCommands.add_memory now text (Py.Build_World fs None names sin e)
          = match OtherLoaders.jar_answer fs with
            | Py.JList l =>
                (Py.Ok tt,
                 Py.Build_World
                   (<[MemoryJar.JAR_FILE :=
                        Py.json_dumps
                          (Py.JList (l ++ [MemoryJarCommands.new_memory text
                                             (Calendar.isoformat (Py.today e)) now]))]> fs)
                   None names sin e)
            | _ => (Py.Raise (Py.Error Py.AttributeError), Py.Build_World fs None names sin e)
            end) as Hrun.
  { unfold MemoryJarCommands.add_memory. unfold Py.bind at 1.
    rewrite (OtherLoaders.jar_load_calm fs names sin e
               (fun bytes Hb => proj1 (Htext bytes Hb))).
    unfold Py.bind at 1, Py.date_today. cbn [Py.env].
    destruct (OtherLoaders.jar_answer fs); try reflexivity.
    unfold MemoryJar.save_jar. apply NoteFacts.write_text_calm. }
  rewrite Hrun. unfold OtherLoaders.jar_answer.
  split; [|split; [|split]].
  - intros bytes data -> -> _. reflexivity.
  - intros -> _. reflexivity.
  - intros bytes -> -> _. reflexivity.
  - intros bytes v -> -> Hnot. destruct v; try reflexivity. by destruct (Hnot l).
Qed.

Lemma memory_jar_add_to_an_object :
  let w := Py.Build_World {[ MemoryJar.JAR_FILE := "{}" ]} None [] [] Saves.host in
  MemoryJarCommands.add_memory "2024-06-15T14:00:00" "tea at four" w
  = (Py.Raise (Py.Error Py.AttributeError), w).
Proof.
  cbn zeta.
  destruct (memory_jar_add_needs_a_list
              ({[ MemoryJar.JAR_FILE := "{}"%string ]} : gmap Py.Path string)
              [] [] Saves.host "2024-06-15T14:00:00" "tea at four") as (_ & _ & _ & Hobj).
  - intros bytes Hb. apply lookup_singleton_Some in Hb as [_ <-]. by vm_compute.
  - apply (Hobj "{}"%string (Py.JDict [])).
    + apply lookup_singleton_eq.
    + by vm_compute.
    + discriminate.
Defined.

(** * commit_your_day: the commands that write *)

Module Interactive.
Import Py CommitYourDay.

Section WithLib.
Context `{PyLib}.

(** The interactive commit (what it prints is left out). *)
Definition _cmd_interactive : M unit :=
  raw_message <- _prompt_input "" ;;
  if bool_decide (raw_message = EmptyString) then ret tt
  else
    let detected_type := _detect_commit_type raw_message in
    accept <- _prompt_input "Y" ;;
    if bool_decide (lower accept = "n") then ret tt
    else
      edited <- (if bool_decide (lower accept = "edit") then
                   raw_message <- _prompt_input "" ;;
                   if bool_decide (raw_message = EmptyString) then ret None
                   else ret (Some (raw_message, _detect_commit_type raw_message))
                 else ret (Some (raw_message, detected_type))) ;;
      match edited with
      | None => ret tt
      | Some (raw_message, detected_type) =>
          tags_raw <- _prompt_input "" ;;
          let tags :=
            if (negb (bool_decide (tags_raw = EmptyString))
                && negb (bool_decide (lower tags_raw = "skip")))%bool
            then parse_tags tags_raw else [] in
          energy <- _prompt_int "3" ENERGY_DEFAULT ENERGY_MIN ENERGY_MAX ;;
          mood <- _prompt_int "0" MOOD_DEFAULT MOOD_MIN MOOD_MAX ;;
          commit <- _create_commit raw_message (Some detected_type) "life" "" tags
                      mood energy ;;
          store <- _load_store STORAGE_FILE ;;
          let store := {| version := version store; created_at := created_at store;
                          commits := commits store ++ [commit] |} in
          _save_store STORAGE_FILE store ;;
          streak <- _compute_streak (commits store) ;;
          ret tt
      end.

End WithLib.
End Interactive.

Module CommitFacts.
Import Py Runs CommitYourDay.

Lemma insert_desc_nonempty x l : insert_desc x l <> [].
Proof. destruct l as [|y l]; cbn; [done|]. by destruct (String.leb y x). Qed.

Lemma sorted_desc_nonempty l : l <> [] -> sorted_desc l <> [].
Proof. destruct l as [|x l]; [done|]. intros _. cbn. apply insert_desc_nonempty. Qed.

Lemma remove_dups_nonempty (l : list string) : l <> [] -> remove_dups l <> [].
Proof.
  intros Hl E. destruct l as [|x l]; [done|].
  assert (x ∈ remove_dups (x :: l)) as Hx by (apply elem_of_remove_dups, elem_of_cons; by left).
  rewrite E in Hx. by apply elem_of_nil in Hx.
Qed.

(** The streak comes out on every day but the first of the calendar. *)
Lemma compute_streak_total commits w :
  Calendar.day_before (today (env w)) <> None ->
  exists streak, _compute_streak commits w = (Ok streak, w).
Proof.
  intros Hday. destruct commits as [|c commits]; [by eexists|].
  unfold _compute_streak, _today, date_today, bind, ret. cbn [fst snd].
  destruct (Calendar.day_before (today (env w))) as [y|]; [|done].
  destruct (sorted_desc (remove_dups (map commit_date (c :: commits)))) as [|f rest] eqn:E.
  { exfalso. revert E. apply sorted_desc_nonempty, remove_dups_nonempty. discriminate. }
  destruct (negb _); by eexists.
Qed.

End CommitFacts.

(** X14: a quick commit with a message and tags of ASCII characters and
    scores in range, where nothing fails, the primary file holds a store
    and stays within the limits of the JSON reader, and the new store is
    text that can be written as UTF-8: the store is saved with the new
    commit after the ones it had, and the first backup takes the bytes the
    primary held.  The new commit carries the stripped message, the type
    given or else detected from the message, the scope and details given
    (or [life] and none), the tags of [--tags], the scores as they are,
    today's date, the identifier drawn and the time of the clock. *)
Theorem quick_commit_appends `{Py.PyLib} (args : CommitYourDay.Args)
    (fs : gmap Py.Path string) (names sin : list string) (e : Py.Env)
    (store : CommitYourDay.CommitStore) (message : string) (tmp : Py.Path)
    (rest : list string) :
  let mood := default CommitYourDay.MOOD_DEFAULT (CommitYourDay.arg_mood args) in
  let energy := default CommitYourDay.ENERGY_DEFAULT (CommitYourDay.arg_energy args) in
  let c :=
    {| CommitYourDay.commit_id := Py.uuid4 e;
       CommitYourDay.timestamp := Py.now_utc e;
       CommitYourDay.commit_date := Calendar.isoformat (Py.today e);
       CommitYourDay.commit_type :=
         match CommitYourDay.arg_commit_type args with
         | Some t =>
             if bool_decide (t = EmptyString)
             then CommitYourDay._detect_commit_type (Py.strip message) else t
         | None => CommitYourDay._detect_commit_type (Py.strip message)
         end;
       CommitYourDay.message := Py.strip message;
       CommitYourDay.scope := CommitYourDay.or_default (CommitYourDay.arg_scope args) "life";
       CommitYourDay.details := CommitYourDay.or_default (CommitYourDay.arg_details args) "";
       CommitYourDay.tags :=
         match CommitYourDay.arg_tags args with
         | Some tags_raw => CommitYourDay.parse_tags tags_raw
         | None => []
         end;
       CommitYourDay.mood_score := mood;
       CommitYourDay.energy_score := energy |} in
  let saved :=
    {| CommitYourDay.version := CommitYourDay.version store;
       CommitYourDay.created_at := CommitYourDay.created_at store;
       CommitYourDay.commits := CommitYourDay.commits store ++ [c] |} in
  CommitYourDay.arg_message args = Some message ->
  Py.strip message <> EmptyString ->
  Strings.is_ascii message = true ->
  (forall tags_raw, CommitYourDay.arg_tags args = Some tags_raw ->
                    Strings.is_ascii tags_raw = true) ->
  -2 <= mood <= 2 ->
  1 <= energy <= 5 ->
  Loader.read_candidate fs CommitYourDay.STORAGE_FILE = Loader.Holds store ->
  (forall bytes, fs !! CommitYourDay.STORAGE_FILE = Some bytes ->
                 Py.json_within_limits bytes = true) ->
  Py.utf8_valid (Py.json_dumps (CommitYourDay.CommitStore_to_dict saved)) = true ->
  Calendar.day_before (Py.today e) <> None ->
  Py.first_free (Rotation.rotate_files CommitYourDay.STORAGE_FILE fs)
    (Py.parent CommitYourDay.STORAGE_FILE) ".tmp" names = Some (tmp, rest) ->
  exists fs',
    CommitYourDay._cmd_quick_commit args (Py.Build_World fs None names sin e)
    = (Py.Ok tt, Py.Build_World fs' None rest sin e)
    /\ fs' !! CommitYourDay.STORAGE_FILE
       = Some (Py.json_dumps (CommitYourDay.CommitStore_to_dict saved))
    /\ fs' !! CommitYourDay._backup_path CommitYourDay.STORAGE_FILE 1
       = fs !! CommitYourDay.STORAGE_FILE.
Proof.
  intros mood energy c saved Hmsg Hblank _ _ Hmood Henergy Hholds _ _ Hday Hfree.
  assert (message <> EmptyString) as Hne by (intros ->; by apply Hblank).
  set (fs' := <[CommitYourDay.STORAGE_FILE :=
                  Py.json_dumps (CommitYourDay.CommitStore_to_dict saved)]>
                (Rotation.rotate_files CommitYourDay.STORAGE_FILE fs)).
  assert (CommitYourDay._create_commit (Py.strip message) (CommitYourDay.arg_commit_type args)
            (CommitYourDay.or_default (CommitYourDay.arg_scope args) "life")
            (CommitYourDay.or_default (CommitYourDay.arg_details args) "")
            match CommitYourDay.arg_tags args with
            | Some tags_raw =>
                if bool_decide (tags_raw = EmptyString) then []
                else CommitYourDay.parse_tags tags_raw
            | None => []
            end mood energy (Py.Build_World fs None names sin e)
          = (Py.Ok c, Py.Build_World fs None names sin e)) as Hc.
  { destruct (Scores.create_commit_scores (Py.strip message)
                (CommitYourDay.arg_commit_type args)
                (CommitYourDay.or_default (CommitYourDay.arg_scope args) "life")
                (CommitYourDay.or_default (CommitYourDay.arg_details args) "")
                match CommitYourDay.arg_tags args with
                | Some tags_raw =>
                    if bool_decide (tags_raw = EmptyString) then []
                    else CommitYourDay.parse_tags tags_raw
                | None => []
                end mood energy (Py.Build_World fs None names sin e))
      as (c' & Hc & Hcm & Hce).
    rewrite Hc. do 2 f_equal. injection Hc as <-. unfold c. cbn in Hcm, Hce |- *.
    f_equal.
    - destruct (CommitYourDay.arg_tags args) as [tags_raw|]; [|done].
      case_bool_decide as Hraw; [by subst|done].
    - unfold CommitYourDay.MOOD_MIN, CommitYourDay.MOOD_MAX, Py.clamp. lia.
    - unfold CommitYourDay.ENERGY_MIN, CommitYourDay.ENERGY_MAX, Py.clamp. lia. }
  assert (CommitYourDay._cmd_quick_commit args (Py.Build_World fs None names sin e)
          = (Py.Ok tt, Py.Build_World fs' None rest sin e)) as Hrun.
  { assert (CommitYourDay.or_default (Some message) "" = message) as Hor.
    { unfold CommitYourDay.or_default. by rewrite bool_decide_eq_false_2. }
    unfold CommitYourDay._cmd_quick_commit. rewrite Hmsg, !Hor.
    rewrite (bool_decide_eq_false_2 _ Hblank).
    fold mood energy.
    unfold CommitYourDay.MOOD_MIN, CommitYourDay.MOOD_MAX, CommitYourDay.ENERGY_MIN,
      CommitYourDay.ENERGY_MAX.
    destruct (Z.ltb_spec mood (-2)); [lia|]. destruct (Z.ltb_spec 2 mood); [lia|].
    destruct (Z.ltb_spec energy 1); [lia|]. destruct (Z.ltb_spec 5 energy); [lia|].
    cbn [orb].
    unfold Py.bind at 1. rewrite Hc.
    unfold Py.bind at 1. rewrite (LoaderFacts.load_store_primary_holds _ _ _ _ _ _ Hholds).
    unfold Py.bind at 1. fold saved. rewrite Rotation.save_store_calm, Hfree. fold fs'.
    destruct (CommitFacts.compute_streak_total (CommitYourDay.commits saved)
                (Py.Build_World fs' None rest sin e)) as [streak Hstreak]; [exact Hday|].
    unfold Py.bind at 1. rewrite Hstreak. reflexivity. }
  exists fs'. split; [exact Hrun|].
  split; [apply lookup_insert_eq|].
  unfold fs'. rewrite lookup_insert_ne by (apply not_eq_sym, Frames.backup_path_neq).
  by destruct (Rotation.rotate_files_lookup CommitYourDay.STORAGE_FILE fs) as (_ & -> & _).
Qed.

Lemma quick_commit_on_the_journal :
  let args := {| CommitYourDay.arg_message := Some "  built a bird feeder ";
                 CommitYourDay.arg_commit_type := None;
                 CommitYourDay.arg_scope := None;
                 CommitYourDay.arg_details := None;
                 CommitYourDay.arg_tags := Some "garden, birds,";
                 CommitYourDay.arg_mood := Some 2;
                 CommitYourDay.arg_energy := None |} in
  let fs : gmap Py.Path string := {[ CommitYourDay.STORAGE_FILE := Examples.journal_text ]} in
  let c := {| CommitYourDay.commit_id := "3f2b8c1e-7a4d-4e0b-9c56-1d2e3f4a5b6c";
              CommitYourDay.timestamp := "2024-06-15T12:00:00+00:00";
              CommitYourDay.commit_date := "2024-06-15";
              CommitYourDay.commit_type := "feat";
              CommitYourDay.message := "built a bird feeder";
              CommitYourDay.scope := "life";
              CommitYourDay.details := "";
              CommitYourDay.tags := ["garden"; "birds"];
              CommitYourDay.mood_score := 2;
              CommitYourDay.energy_score := 3 |} in
  exists fs',
    CommitYourDay._cmd_quick_commit args (Py.Build_World fs None ["k3x9q2ab"] [] Saves.host)
    = (Py.Ok tt, Py.Build_World fs' None [] [] Saves.host)
    /\ fs' !! CommitYourDay._backup_path CommitYourDay.STORAGE_FILE 1
       = Some Examples.journal_text
    /\ fs' !! CommitYourDay.STORAGE_FILE
       = Some (JsonText.dumps
                 (CommitYourDay.CommitStore_to_dict
                    {| CommitYourDay.version := CommitYourDay.version Examples.journal;
                       CommitYourDay.created_at := CommitYourDay.created_at Examples.journal;
                       CommitYourDay.commits :=
                         CommitYourDay.commits Examples.journal ++ [c] |})).
Proof.
  cbn zeta.
  set (args := {| CommitYourDay.arg_message := Some "  built a bird feeder "%string;
                  CommitYourDay.arg_commit_type := None;
                  CommitYourDay.arg_scope := None;
                  CommitYourDay.arg_details := None;
                  CommitYourDay.arg_tags := Some "garden, birds,"%string;
                  CommitYourDay.arg_mood := Some 2;
                  CommitYourDay.arg_energy := None |}).
  set (fs := ({[ CommitYourDay.STORAGE_FILE := Examples.journal_text ]} : gmap Py.Path string)).
  destruct (quick_commit_appends (H := JsonText.text_lib) args fs ["k3x9q2ab"%string] []
              Saves.host Examples.journal "  built a bird feeder "
              {| Py.parent := "~/.commit_your_day"; Py.name := "tmpk3x9q2ab.tmp" |} [])
    as (fs' & E & Hfile & Hbak).
  - reflexivity.
  - by vm_compute.
  - by vm_compute.
  - intros tags_raw [= <-]. by vm_compute.
  - by vm_compute.
  - by vm_compute.
  - by vm_compute.
  - intros bytes Hb. apply lookup_singleton_Some in Hb as [_ <-]. by vm_compute.
  - by vm_compute.
  - by vm_compute.
  - by vm_compute.
  - exists fs'. split; [exact E|]. split; [rewrite Hbak; apply lookup_singleton_eq|].
    rewrite Hfile. f_equal.
Defined.

Module InteractiveFacts.
Import Py Runs CommitYourDay Interactive.

Section WithLib.
Context `{PyLib}.

(** What a prompt answers for a line of input. *)
Definition answer (dflt line : string) : string :=
  if (bool_decide (strip line = EmptyString) && negb (bool_decide (dflt = EmptyString)))%bool
  then dflt else strip line.

Lemma prompt_input_run dflt fs ft ns sin e :
  _prompt_input dflt (mkW fs ft ns sin e)
  = match sin with
    | [] => (Raise (SystemExit 0), mkW fs ft ns [] e)
    | line :: rest => (Ok (answer dflt line), mkW fs ft ns rest e)
    end.
Proof.
  unfold _prompt_input, bind, try_except, input, answer. cbn [stdin].
  destruct sin as [|line rest]; [reflexivity|]. cbn.
  by destruct (bool_decide (strip line = EmptyString) && negb (bool_decide (dflt = EmptyString))).
Qed.

Definition int_answer (default_str : string) (dflt lo hi : Z) (line : string) : Z :=
  match int_of_str (answer default_str line) with
  | None => dflt
  | Some value => clamp lo hi value
  end.

Lemma prompt_int_run default_str dflt lo hi fs ft ns sin e :
  _prompt_int default_str dflt lo hi (mkW fs ft ns sin e)
  = match sin with
    | [] => (Raise (SystemExit 0), mkW fs ft ns [] e)
    | line :: rest => (Ok (int_answer default_str dflt lo hi line), mkW fs ft ns rest e)
    end.
Proof.
  unfold _prompt_int, int_answer. unfold bind at 1. rewrite prompt_input_run.
  destruct sin as [|line rest]; [reflexivity|].
  by destruct (int_of_str (answer default_str line)).
Qed.

Lemma answer_n line : lower (answer "Y" line) = "n" <-> lower (strip line) = "n".
Proof.
  unfold answer. case_bool_decide as Hb; cbn [andb negb bool_decide]; [|done].
  rewrite bool_decide_eq_false_2 by discriminate. cbn. rewrite Hb. done.
Qed.

(** With fewer than five lines to read, the interactive commit ends before
    it loads or saves. *)
Lemma interactive_short fs ft ns sin e :
  (length sin < 5)%nat ->
  exists r sin',
    _cmd_interactive (mkW fs ft ns sin e) = (r, mkW fs ft ns sin' e)
    /\ (r = Ok tt \/ r = Raise (SystemExit 0)).
Proof.
  intros Hlen. unfold _cmd_interactive.
  unfold bind at 1. rewrite prompt_input_run.
  destruct sin as [|l1 sin]; [eauto|].
  case_bool_decide; [eauto|].
  unfold bind at 1. rewrite prompt_input_run.
  destruct sin as [|l2 sin]; [eauto|].
  case_bool_decide; [eauto|].
  unfold bind at 1.
  case_bool_decide.
  - unfold bind at 1. rewrite prompt_input_run.
    destruct sin as [|l3 sin]; [eauto|].
    case_bool_decide; [eauto|]. cbn [ret].
    unfold bind at 1. rewrite prompt_input_run.
    destruct sin as [|l4 sin]; [eauto|].
    unfold bind at 1. rewrite prompt_int_run.
    destruct sin as [|l5 sin]; [eauto|].
    cbn in Hlen. lia.
  - cbn [ret]. unfold bind at 1. rewrite prompt_input_run.
    destruct sin as [|l3 sin]; [eauto|].
    unfold bind at 1. rewrite prompt_int_run.
    destruct sin as [|l4 sin]; [eauto|].
    unfold bind at 1. rewrite prompt_int_run.
    destruct sin as [|l5 sin]; [eauto|].
    cbn in Hlen. lia.
Qed.

Lemma interactive_blank fs ft ns line rest e :
  strip line = EmptyString ->
  _cmd_interactive (mkW fs ft ns (line :: rest) e) = (Ok tt, mkW fs ft ns rest e).
Proof.
  intros Hblank. unfold _cmd_interactive.
  unfold bind at 1. rewrite prompt_input_run.
  unfold answer. rewrite Hblank. reflexivity.
Qed.

Lemma interactive_declined fs ft ns l1 l2 rest e :
  strip l1 <> EmptyString -> lower (strip l2) = "n" ->
  _cmd_interactive (mkW fs ft ns (l1 :: l2 :: rest) e) = (Ok tt, mkW fs ft ns rest e).
Proof.
  intros Hmsg Hn. unfold _cmd_interactive.
  unfold bind at 1. rewrite prompt_input_run.
  assert (answer "" l1 = strip l1) as -> by (unfold answer; by rewrite andb_false_r).
  rewrite bool_decide_eq_false_2 by done.
  unfold bind at 1. rewrite prompt_input_run.
  by rewrite bool_decide_eq_true_2 by (by apply answer_n).
Qed.

End WithLib.
End InteractiveFacts.

(** X15: the interactive commit writes nothing unless its questions are
    answered.  In every world, whatever failure is pending: with fewer than
    five lines of input it ends normally or with exit status 0 (the end of
    input at a prompt) and leaves every file as it is; so it does, ending
    normally, after an empty message, and after the answer [n] to
    [Accept?]. *)
Theorem interactive_needs_its_answers `{Py.PyLib} (w : Py.World) :
  ((length (Py.stdin w) < 5)%nat ->
   Py.files (Interactive._cmd_interactive w).2 = Py.files w
   /\ ((Interactive._cmd_interactive w).1 = Py.Ok tt
       \/ (Interactive._cmd_interactive w).1 = Py.Raise (Py.SystemExit 0)))
  /\ (forall line rest,
        Py.stdin w = line :: rest -> Py.strip line = EmptyString ->
        Py.files (Interactive._cmd_interactive w).2 = Py.files w
        /\ (Interactive._cmd_interactive w).1 = Py.Ok tt)
  /\ (forall message line rest,
        Py.stdin w = message :: line :: rest -> Py.lower (Py.strip line) = "n" ->
        Py.files (Interactive._cmd_interactive w).2 = Py.files w
        /\ (Interactive._cmd_interactive w).1 = Py.Ok tt).
Proof.
  destruct w as [fs ft ns sin e]. cbn [Py.stdin Py.files]. split; [|split].
  - intros Hlen.
    destruct (InteractiveFacts.interactive_short fs ft ns sin e Hlen) as (r & sin' & -> & Hr).
    by split.
  - intros line rest -> Hblank. by rewrite InteractiveFacts.interactive_blank.
  - intros message line rest -> Hn.
    destruct (decide (Py.strip message = EmptyString)) as [Hblank|Hmsg].
    + by rewrite InteractiveFacts.interactive_blank.
    + by rewrite InteractiveFacts.interactive_declined.
Qed.

(** * Weeks and relative times *)

Module Weeks.
Import Py Calendar CommitYourDay.

Definition WEEK_DAYS : nat := 7.

(** [d.weekday()]: Monday is 0. *)
Definition weekday (d : date) : Z := (toordinal d + 6) mod 7.

(** [d - timedelta(days=n)]; [None] is its [OverflowError]. *)
Fixpoint minus_days (n : nat) (d : date) : option date :=
  match n with
  | O => Some d
  | S n' =>
      match day_before d with
      | Some y => minus_days n' y
      | None => None
      end
  end.

Definition sub_days (d : date) (n : nat) : M date :=
  match minus_days n d with
  | Some y => ret y
  | None => raise (Error OverflowError)
  end.

(** Compare this week vs last week on commits, mood, and energy. *)
Definition _compute_weekly_trend (commits : list LifeCommit) : M (_WeekStats * _WeekStats) :=
  today <- date_today ;;
  this_monday <- sub_days today (Z.to_nat (weekday today)) ;;
  last_monday <- sub_days this_monday WEEK_DAYS ;;
  let this_week_iso := isoformat this_monday in
  let last_week_iso := isoformat last_monday in
  let today_iso := isoformat today in
  let this_week :=
    filter (fun c => (String.leb this_week_iso (commit_date c)
                      && String.leb (commit_date c) today_iso)%bool) commits in
  let last_week :=
    filter (fun c => (String.leb last_week_iso (commit_date c)
                      && String.ltb (commit_date c) this_week_iso)%bool) commits in
  this <- lift (_week_stats this_week) ;;
  last <- lift (_week_stats last_week) ;;
  ret (this, last).

(** Compute human-readable relative time from a date string; [today_utc]
    is the date of [datetime.now(tz=timezone.utc)], so that the whole days
    between that moment and the midnight the commit date begins with are
    the days between the two dates. *)
Definition plural (n : Z) : string := if n =? 1 then "" else "s".

Definition _relative_time (today_utc : date) (date_str : string) : string :=
  match strptime date_str with
  | None => date_str
  | Some commit_dt =>
      let days := days_between today_utc commit_dt in
      if days <=? 0 then "today"
      else if days =? 1 then "yesterday"
      else if days <? Z.of_nat WEEK_DAYS then pretty days +:+ " days ago"
      else
        let weeks := days / Z.of_nat WEEK_DAYS in
        if days <? 30 then pretty weeks +:+ " week" +:+ plural weeks +:+ " ago"
        else
          let months := days / 30 in
          if days <? 365 then pretty months +:+ " month" +:+ plural months +:+ " ago"
          else
            let years := days / 365 in
            pretty years +:+ " year" +:+ plural years +:+ " ago"
  end.

End Weeks.

Module WeekFacts.
Import Py Calendar CalendarFacts IsoText CommitYourDay Weeks.

Lemma minus_days_spec n : forall d,
  valid_date d = true ->
  match minus_days n d with
  | Some y => valid_date y = true /\ toordinal y = toordinal d - Z.of_nat n
  | None => toordinal d <= Z.of_nat n
  end.
Proof.
  induction n as [|n IH]; intros d Hd; cbn [minus_days].
  - split; [done|lia].
  - pose proof (day_before_spec d Hd) as Hb.
    destruct (day_before d) as [y|].
    + destruct Hb as [Hy Hord]. specialize (IH y Hy).
      destruct (minus_days n y) as [z|]; [|lia].
      destruct IH as [Hz Hzo]. split; [done|lia].
    + rewrite Hb. change (toordinal {| year := 1; month := 1; day := 1 |}) with 1. lia.
Qed.

Lemma ltb_isoformat a b :
  valid_date a = true -> valid_date b = true ->
  String.ltb (isoformat a) (isoformat b) = (toordinal a <? toordinal b).
Proof.
  intros Ha Hb. unfold String.ltb. rewrite compare_isoformat by done.
  rewrite <- toordinal_cmp by done. unfold Z.ltb.
  by destruct (toordinal a ?= toordinal b).
Qed.

Lemma week_stats_count commits :
  Aggregates.bounded_scores commits ->
  exists stats, _week_stats commits = inr stats /\ count stats = Z.of_nat (length commits).
Proof.
  intros Hall. destruct (Aggregates.week_stats_total commits Hall) as [stats E].
  exists stats. split; [exact E|].
  unfold _week_stats in E. destruct commits as [|c commits]; [by injection E as <-|].
  destruct (truediv _ _); [discriminate|]. destruct (truediv _ _); [discriminate|].
  by injection E as <-.
Qed.

(** Filtering dated commits by their text is filtering their day numbers. *)
Lemma filter_days (test : string -> bool) (range : Z -> bool) commits :
  forallb Streak.well_dated commits = true ->
  (forall d, valid_date d = true -> test (isoformat d) = range (toordinal d)) ->
  length (filter (fun c => test (commit_date c)) commits)
  = length (filter (fun x => range x) (Streak.days_of commits)).
Proof.
  intros Hwell Htest. induction commits as [|c commits IH]; [done|].
  cbn in Hwell. apply andb_true_iff in Hwell as [Hc Hwell].
  destruct (Streak.well_dated_spec c Hc) as (d & E & Hd & Hiso).
  unfold Streak.days_of, Streak.dates_of in *. cbn [omap list_omap]. rewrite E.
  cbn [map]. specialize (IH Hwell).
  assert (test (commit_date c) = range (toordinal d)) as Hsame
    by (rewrite Hiso; by apply Htest).
  destruct (range (toordinal d)) eqn:Hr.
  - rewrite (filter_cons_True (fun c => test (commit_date c)))
      by (cbv beta; rewrite Hsame; exact I).
    rewrite (filter_cons_True (fun x => range x)) by (cbv beta; rewrite Hr; exact I).
    cbn [length]. by rewrite IH.
  - rewrite (filter_cons_False (fun c => test (commit_date c)))
      by (cbv beta; rewrite Hsame; exact id).
    rewrite (filter_cons_False (fun x => range x)) by (cbv beta; rewrite Hr; exact id).
    exact IH.
Qed.

End WeekFacts.

(** X16: the weekly trend, on commits dated by ISO texts with scores of
    size up to [2^1000], on a day from the third week of the calendar on:
    this week's count is the number of
    commits dated from this week's Monday to today, last week's count the
    number dated in the seven days before that Monday; the Monday is the
    last Monday not after today. *)
Theorem weekly_trend_counts (commits : list CommitYourDay.LifeCommit) (w : Py.World) :
  let T := Calendar.toordinal (Py.today (Py.env w)) in
  let M := T - Weeks.weekday (Py.today (Py.env w)) in
  Calendar.valid_date (Py.today (Py.env w)) = true ->
  14 <= T ->
  forallb Streak.well_dated commits = true ->
  Aggregates.bounded_scores commits ->
  exists this last,
    Weeks._compute_weekly_trend commits w = (Py.Ok (this, last), w)
    /\ (M + 6) mod 7 = 0 /\ T - 6 <= M <= T
    /\ CommitYourDay.count this
       = Z.of_nat (length (filter (fun x => (M <=? x) && (x <=? T)) (Streak.days_of commits)))
    /\ CommitYourDay.count last
       = Z.of_nat (length (filter (fun x => (M - 7 <=? x) && (x <? M))
                             (Streak.days_of commits))).
Proof.
  intros T M Htoday Hlate Hwell Hbound.
  assert (0 <= Weeks.weekday (Py.today (Py.env w)) < 7) as Hday.
  { unfold Weeks.weekday. apply Z.mod_pos_bound. lia. }
  pose proof (WeekFacts.minus_days_spec
                (Z.to_nat (Weeks.weekday (Py.today (Py.env w)))) _ Htoday) as Hthis.
  destruct (Weeks.minus_days _ (Py.today (Py.env w))) as [this_monday|] eqn:Ethis;
    [|fold T in Hthis; lia].
  destruct Hthis as [Hvalid_this Hord_this]. fold T in Hord_this.
  rewrite Z2Nat.id in Hord_this by lia. fold M in Hord_this.
  pose proof (WeekFacts.minus_days_spec Weeks.WEEK_DAYS _ Hvalid_this) as Hlast.
  destruct (Weeks.minus_days Weeks.WEEK_DAYS this_monday) as [last_monday|] eqn:Elast;
    [|unfold Weeks.WEEK_DAYS in Hlast; lia].
  destruct Hlast as [Hvalid_last Hord_last]. unfold Weeks.WEEK_DAYS in Hord_last.
  set (this_week := filter (fun c =>
         (String.leb (Calendar.isoformat this_monday) (CommitYourDay.commit_date c)
          && String.leb (CommitYourDay.commit_date c)
               (Calendar.isoformat (Py.today (Py.env w))))%bool) commits).
  set (last_week := filter (fun c =>
         (String.leb (Calendar.isoformat last_monday) (CommitYourDay.commit_date c)
          && String.ltb (CommitYourDay.commit_date c)
               (Calendar.isoformat this_monday))%bool) commits).
  destruct (WeekFacts.week_stats_count this_week) as (this & Ethis_stats & Hthis_count);
    [by apply Aggregates.bounded_scores_filter|].
  destruct (WeekFacts.week_stats_count last_week) as (last & Elast_stats & Hlast_count);
    [by apply Aggregates.bounded_scores_filter|].
  exists this, last. split.
  - unfold Weeks._compute_weekly_trend, Py.date_today. unfold Py.bind at 1.
    unfold Weeks.sub_days at 1. rewrite Ethis. unfold Py.bind at 1, Py.ret at 1.
    unfold Weeks.sub_days at 1. rewrite Elast. unfold Py.bind at 1, Py.ret at 1.
    cbv zeta. fold this_week last_week. unfold Py.bind, Py.lift, Py.ret.
    rewrite Ethis_stats, Elast_stats. reflexivity.
  - split; [unfold M, Weeks.weekday; fold T; Z.div_mod_to_equations; lia|].
    split; [lia|]. split.
    + rewrite Hthis_count. f_equal. unfold this_week.
      apply (WeekFacts.filter_days
               (fun s => (String.leb (Calendar.isoformat this_monday) s
                          && String.leb s (Calendar.isoformat (Py.today (Py.env w))))%bool)
               (fun x => (M <=? x) && (x <=? T))); [exact Hwell|].
      intros d Hd. rewrite !IsoText.leb_isoformat by done.
      fold T. by rewrite Hord_this.
    + rewrite Hlast_count. f_equal. unfold last_week.
      apply (WeekFacts.filter_days
               (fun s => (String.leb (Calendar.isoformat last_monday) s
                          && String.ltb s (Calendar.isoformat this_monday))%bool)
               (fun x => (M - 7 <=? x) && (x <? M))); [exact Hwell|].
      intros d Hd.
      rewrite IsoText.leb_isoformat, WeekFacts.ltb_isoformat by done.
      rewrite Hord_last, Hord_this. reflexivity.
Qed.

Lemma weekly_trend_on_saturday :
  exists this last,
    Weeks._compute_weekly_trend
      [StreakExamples.dated "2024-06-03"; StreakExamples.dated "2024-06-09";
       StreakExamples.dated "2024-06-10"; StreakExamples.dated "2024-06-15";
       StreakExamples.dated "2024-06-16"] StreakExamples.saturday
    = (Py.Ok (this, last), StreakExamples.saturday)
    /\ CommitYourDay.count this = 2 /\ CommitYourDay.count last = 2.
Proof.
  destruct (weekly_trend_counts
              [StreakExamples.dated "2024-06-03"; StreakExamples.dated "2024-06-09";
               StreakExamples.dated "2024-06-10"; StreakExamples.dated "2024-06-15";
               StreakExamples.dated "2024-06-16"] StreakExamples.saturday)
    as (this & last & E & _ & _ & Hthis & Hlast).
  - reflexivity.
  - by vm_compute.
  - by vm_compute.
  - repeat constructor; by vm_compute.
  - exists this, last. split; [exact E|]. split.
    + rewrite Hthis. by vm_compute.
    + rewrite Hlast. by vm_compute.
Defined.

(** X17: the relative time of a commit date.  An ASCII text that is no
    date comes back as it is; a date of today or later reads [today], the
    day before [yesterday]; from two days on the answer counts whole days
    for 2 to 6 days, weeks of 7 days for 7 to 29 days, months of 30 days
    for 30 to 364 days and years of 365 days from 365 days on; the count is
    never 0, and the unit takes its [s] exactly when the count is not 1. *)
Theorem relative_time_counts_whole_units (today_utc commit : Calendar.date) :
  let days := Calendar.toordinal today_utc - Calendar.toordinal commit in
  Calendar.valid_date commit = true ->
  (days <= 0 -> Weeks._relative_time today_utc (Calendar.isoformat commit) = "today")
  /\ (days = 1 -> Weeks._relative_time today_utc (Calendar.isoformat commit) = "yesterday")
  /\ (2 <= days ->
      let unit : string * Z :=
        if days <? 7 then ("day"%string, 1)
        else if days <? 30 then ("week"%string, 7)
        else if days <? 365 then ("month"%string, 30)
        else ("year"%string, 365) in
      let n := days / unit.2 in
      1 <= n /\ n * unit.2 <= days < (n + 1) * unit.2
      /\ Weeks._relative_time today_utc (Calendar.isoformat commit)
         = pretty n +:+ " " +:+ unit.1 +:+ (if n =? 1 then "" else "s") +:+ " ago")
  /\ (forall s, Strings.is_ascii s = true -> Calendar.strptime s = None ->
      Weeks._relative_time today_utc s = s).
Proof.
  intros days Hvalid. unfold Weeks._relative_time.
  rewrite (IsoText.strptime_isoformat _ Hvalid). unfold Calendar.days_between. fold days.
  unfold Weeks.WEEK_DAYS, Weeks.plural.
  split; [|split; [|split]].
  - intros Hd. by destruct (Z.leb_spec days 0); [|lia].
  - intros ->. reflexivity.
  - intros Hd. destruct (Z.leb_spec days 0); [lia|]. destruct (Z.eqb_spec days 1); [lia|].
    change (Z.of_nat 7) with 7.
    destruct (Z.ltb_spec days 7).
    { cbn [fst snd]. rewrite Z.div_1_r. split; [lia|]. split; [lia|].
      destruct (Z.eqb_spec days 1); [lia|]. reflexivity. }
    destruct (Z.ltb_spec days 30).
    { cbn [fst snd]. split; [Z.div_mod_to_equations; lia|].
      split; [Z.div_mod_to_equations; lia|]. reflexivity. }
    destruct (Z.ltb_spec days 365).
    { cbn [fst snd]. split; [Z.div_mod_to_equations; lia|].
      split; [Z.div_mod_to_equations; lia|]. reflexivity. }
    cbn [fst snd]. split; [Z.div_mod_to_equations; lia|].
    split; [Z.div_mod_to_equations; lia|]. reflexivity.
  - intros s _ ->. reflexivity.
Qed.

Lemma relative_time_two_weeks :
  Weeks._relative_time {| Calendar.year := 2024; Calendar.month := 6; Calendar.day := 15 |}
    "2024-06-01" = "2 weeks ago".
Proof.
  destruct (relative_time_counts_whole_units
              {| Calendar.year := 2024; Calendar.month := 6; Calendar.day := 15 |}
              {| Calendar.year := 2024; Calendar.month := 6; Calendar.day := 1 |})
    as (_ & _ & Hmany & _); [reflexivity|].
  destruct Hmany as (_ & _ & E); [by vm_compute|].
  exact E.
Defined.

(** * The weekly summary *)

Module Summary.
Import Py Calendar CommitYourDay.

Section WithLib.
Context `{PyLib}.

(** [_cmd_summary(period)]; the result is the list handed to
    [_display_summary] ([None]: nothing is displayed). *)
Definition _cmd_summary (period : string) : M (option (list LifeCommit)) :=
  store <- _load_store STORAGE_FILE ;;
  if String.eqb period "week" then
    today <- date_today ;;
    cutoff_date <- Weeks.sub_days today Weeks.WEEK_DAYS ;;
    let cutoff := isoformat cutoff_date in
    let filtered := filter (fun c => String.leb cutoff (commit_date c)) (commits store) in
    ret (Some filtered)
  else ret None.

End WithLib.
End Summary.

Module SummaryFacts.
Import Py Calendar CalendarFacts IsoText CommitYourDay.

(** Filtering dated commits by their text keeps the days in the range. *)
Lemma days_of_filter (test : string -> bool) (range : Z -> bool) commits :
  forallb Streak.well_dated commits = true ->
  (forall d, valid_date d = true -> test (isoformat d) = range (toordinal d)) ->
  Streak.days_of (filter (fun c => test (commit_date c)) commits)
  = filter (fun x => range x) (Streak.days_of commits).
Proof.
  intros Hwell Htest. induction commits as [|c commits IH]; [done|].
  cbn in Hwell. apply andb_true_iff in Hwell as [Hc Hwell].
  destruct (Streak.well_dated_spec c Hc) as (d & E & Hd & Hiso).
  specialize (IH Hwell).
  assert (Streak.days_of (c :: commits) = toordinal d :: Streak.days_of commits) as ->.
  { unfold Streak.days_of, Streak.dates_of. cbn [omap list_omap]. by rewrite E. }
  assert (test (commit_date c) = range (toordinal d)) as Hsame
    by (rewrite Hiso; by apply Htest).
  destruct (range (toordinal d)) eqn:Hr.
  - rewrite (filter_cons_True (fun c => test (commit_date c)))
      by (cbv beta; rewrite Hsame; exact I).
    rewrite (filter_cons_True (fun x => range x)) by (cbv beta; rewrite Hr; exact I).
    assert (Streak.days_of (c :: filter (fun c => test (commit_date c)) commits)
            = toordinal d :: Streak.days_of (filter (fun c => test (commit_date c)) commits))
      as ->.
    { unfold Streak.days_of, Streak.dates_of. cbn [omap list_omap]. by rewrite E. }
    by rewrite IH.
  - rewrite (filter_cons_False (fun c => test (commit_date c)))
      by (cbv beta; rewrite Hsame; exact id).
    rewrite (filter_cons_False (fun x => range x)) by (cbv beta; rewrite Hr; exact id).
    exact IH.
Qed.

End SummaryFacts.

(** X18: the weekly summary, where nothing fails and the primary file holds
    a store of commits dated by ISO texts: the commits summarised are, in
    their order, those dated seven days before today or later: the eight
    days up to today, and any later date. *)
Theorem weekly_summary_window `{Py.PyLib} (fs : gmap Py.Path string)
    (names sin : list string) (e : Py.Env) (store : CommitYourDay.CommitStore) :
  let T := Calendar.toordinal (Py.today e) in
  Loader.read_candidate fs CommitYourDay.STORAGE_FILE = Loader.Holds store ->
  Calendar.valid_date (Py.today e) = true ->
  8 <= T ->
  forallb Streak.well_dated (CommitYourDay.commits store) = true ->
  exists shown,
    Summary._cmd_summary "week" (Py.Build_World fs None names sin e)
    = (Py.Ok (Some shown), Py.Build_World fs None names sin e)
    /\ shown `sublist_of` CommitYourDay.commits store
    /\ Streak.days_of shown
       = filter (fun x => T - 7 <=? x) (Streak.days_of (CommitYourDay.commits store)).
Proof.
  intros T Hholds Htoday Hlate Hwell.
  pose proof (WeekFacts.minus_days_spec Weeks.WEEK_DAYS _ Htoday) as Hcut.
  destruct (Weeks.minus_days Weeks.WEEK_DAYS (Py.today e)) as [cutoff_date|] eqn:Ecut;
    [|unfold Weeks.WEEK_DAYS in Hcut; fold T in Hcut; lia].
  destruct Hcut as [Hvalid Hord]. unfold Weeks.WEEK_DAYS in Hord. fold T in Hord.
  exists (filter (fun c => String.leb (Calendar.isoformat cutoff_date)
                             (CommitYourDay.commit_date c))
            (CommitYourDay.commits store)).
  split; [|split].
  - unfold Summary._cmd_summary. unfold Py.bind at 1.
    rewrite (LoaderFacts.load_store_primary_holds _ _ _ _ _ _ Hholds).
    cbn [String.eqb Ascii.eqb Bool.eqb]. unfold Py.date_today. unfold Py.bind at 1.
    cbn [Py.env]. unfold Weeks.sub_days. rewrite Ecut. reflexivity.
  - apply sublist_filter.
  - apply (SummaryFacts.days_of_filter
             (fun s => String.leb (Calendar.isoformat cutoff_date) s)
             (fun x => T - 7 <=? x)); [exact Hwell|].
    intros d Hd. rewrite IsoText.leb_isoformat by done. by rewrite Hord.
Qed.

Lemma weekly_summary_of_nine_days :
  let store :=
    {| CommitYourDay.version := CommitYourDay.SCHEMA_VERSION;
       CommitYourDay.created_at := "2024-06-01T09:00:00+00:00";
       CommitYourDay.commits :=
         [StreakExamples.dated "2024-06-07"; StreakExamples.dated "2024-06-08";
          StreakExamples.dated "2024-06-15"] |} in
  let fs : gmap Py.Path string :=
    {[ CommitYourDay.STORAGE_FILE
       := JsonText.dumps (CommitYourDay.CommitStore_to_dict store) ]} in
  exists shown,
    @Summary._cmd_summary JsonText.text_lib "week" (Py.Build_World fs None [] [] Saves.host)
    = (Py.Ok (Some shown), Py.Build_World fs None [] [] Saves.host)
    /\ Streak.days_of shown
       = Streak.days_of [StreakExamples.dated "2024-06-08"; StreakExamples.dated "2024-06-15"].
Proof.
  cbn zeta.
  set (store := {| CommitYourDay.version := CommitYourDay.SCHEMA_VERSION;
                   CommitYourDay.created_at := "2024-06-01T09:00:00+00:00"%string;
                   CommitYourDay.commits :=
                     [StreakExamples.dated "2024-06-07"; StreakExamples.dated "2024-06-08";
                      StreakExamples.dated "2024-06-15"] |}).
  set (fs := ({[ CommitYourDay.STORAGE_FILE
                 := JsonText.dumps (CommitYourDay.CommitStore_to_dict store) ]}
              : gmap Py.Path string)).
  destruct (@weekly_summary_window JsonText.text_lib fs [] [] Saves.host store)
    as (shown & E & _ & Hdays).
  - by vm_compute.
  - reflexivity.
  - by vm_compute.
  - by vm_compute.
  - exists shown. split; [exact E|]. rewrite Hdays. by vm_compute.
Defined.

(** * capsule.py: relative times *)

Module CapsuleTimes.

(** Turn an ISO timestamp into a warm, human-readable relative string;
    [seconds] is the whole number of seconds from the stamp to now, as the
    source computes it before its first test. *)
Definition _relative_time (seconds : Z) : string :=
  if seconds <? 60 then "just now"
  else
    let minutes := seconds / 60 in
    if minutes <? 60 then
      let unit := if minutes =? 1 then "minute" else "minutes" in
      pretty minutes +:+ " " +:+ unit +:+ " ago"
    else
      let hours := minutes / 60 in
      if hours <? 24 then
        let unit := if hours =? 1 then "hour" else "hours" in
        pretty hours +:+ " " +:+ unit +:+ " ago"
      else
        let days := hours / 24 in
        if days <? 30 then
          let unit := if days =? 1 then "day" else "days" in
          pretty days +:+ " " +:+ unit +:+ " ago"
        else
          let months := days / 30 in
          if months <? 12 then
            let unit := if months =? 1 then "month" else "months" in
            pretty months +:+ " " +:+ unit +:+ " ago"
          else
            let years := days / 365 in
            let unit := if years =? 1 then "year" else "years" in
            pretty years +:+ " " +:+ unit +:+ " ago".

End CapsuleTimes.

(** X19: the capsule's relative time.  Under a minute it reads [just now];
    from a minute on it counts whole minutes, hours, days, months of 30
    days or years of 365 days, with the unit in the plural unless the
    count is 1.  The count is 0 exactly from 360 days to the end of the
    364th: there it reads [0 years ago]. *)
Theorem capsule_relative_time_units (seconds : Z) :
  (seconds < 60 -> CapsuleTimes._relative_time seconds = "just now")
  /\ (60 <= seconds ->
      exists n unit len,
        (unit, len) ∈ [("minute", 60); ("hour", 3600); ("day", 86400);
                       ("month", 30 * 86400); ("year", 365 * 86400)]
        /\ n * len <= seconds < (n + 1) * len
        /\ CapsuleTimes._relative_time seconds
           = pretty n +:+ " " +:+ unit +:+ (if n =? 1 then "" else "s") +:+ " ago"
        /\ (n = 0 <-> 360 * 86400 <= seconds < 365 * 86400)).
Proof.
  unfold CapsuleTimes._relative_time. split.
  - intros Hs. by destruct (Z.ltb_spec seconds 60); [|lia].
  - intros Hs. destruct (Z.ltb_spec seconds 60); [lia|]. cbv zeta.
    destruct (Z.ltb_spec (seconds / 60) 60).
    { exists (seconds / 60), "minute"%string, 60. split; [set_solver|].
      split; [Z.div_mod_to_equations; lia|].
      split; [by destruct (seconds / 60 =? 1)|]. Z.div_mod_to_equations; lia. }
    destruct (Z.ltb_spec (seconds / 60 / 60) 24).
    { exists (seconds / 60 / 60), "hour"%string, 3600. split; [set_solver|].
      split; [Z.div_mod_to_equations; lia|].
      split; [by destruct (seconds / 60 / 60 =? 1)|]. Z.div_mod_to_equations; lia. }
    destruct (Z.ltb_spec (seconds / 60 / 60 / 24) 30).
    { exists (seconds / 60 / 60 / 24), "day"%string, 86400. split; [set_solver|].
      split; [Z.div_mod_to_equations; lia|].
      split; [by destruct (seconds / 60 / 60 / 24 =? 1)|]. Z.div_mod_to_equations; lia. }
    destruct (Z.ltb_spec (seconds / 60 / 60 / 24 / 30) 12).
    { exists (seconds / 60 / 60 / 24 / 30), "month"%string, (30 * 86400).
      split; [set_solver|].
      split; [Z.div_mod_to_equations; lia|].
      split; [by destruct (seconds / 60 / 60 / 24 / 30 =? 1)|].
      Z.div_mod_to_equations; lia. }
    exists (seconds / 60 / 60 / 24 / 365), "year"%string, (365 * 86400).
    split; [set_solver|].
    split; [Z.div_mod_to_equations; lia|].
    split; [by destruct (seconds / 60 / 60 / 24 / 365 =? 1)|].
    Z.div_mod_to_equations; lia.
Qed.

(** A note buried 361 days ago was left [0 years ago]. *)
Example a_note_of_361_days : CapsuleTimes._relative_time (361 * 86400) = "0 years ago".
Proof. by vm_compute. Qed.

(** X20: a poem of pocket_poet, with a generator whose [_randbelow(n)]
    answers below [n]: for 5 or 6 lines the poem has that many lines, each
    the filling of a template of its own (no template is used twice) with a
    word of the right bank in the place of every placeholder, and nothing
    fails; for any other count the parser exits with status 2. *)
Theorem poem_fills_distinct_templates `{Random.Generator} (seed : option Z) (lines : Z)
    (entropy : Random.rng_state) :
  (forall st n, (0 < n)%nat -> ((Random.randbelow st n).1 < n)%nat) ->
  if (5 <=? lines) && (lines <=? 6) then
    exists templates poem,
      PocketPoet.main seed lines entropy = inr poem
      /\ length poem = Z.to_nat lines
      /\ NoDup templates
      /\ templates ⊆ PocketPoet._LINE_TEMPLATES
      /\ Forall2 PoetFacts.fills templates poem
  else PocketPoet.main seed lines entropy = inl (Py.SystemExit 2).
Proof.
  intros Hbelow. unfold PocketPoet.main, PocketPoet._MIN_LINES, PocketPoet._MAX_LINES.
  destruct (Z.leb_spec 5 lines), (Z.leb_spec lines 6), (Z.ltb_spec lines 5),
    (Z.ltb_spec 6 lines); try lia; cbn [andb orb]; try reflexivity.
  unfold PocketPoet._generate_poem.
  destruct (PoetFacts.sample_draws Hbelow PocketPoet._LINE_TEMPLATES (Z.to_nat lines)
              (Random.Random seed entropy))
    as (templates & st1 & Hsample & Hlen & Hsub).
  { change (length PocketPoet._LINE_TEMPLATES) with 20%nat. lia. }
  assert (templates ⊆ PocketPoet._LINE_TEMPLATES) as Hin.
  { intros t Ht. by eapply elem_of_submseteq. }
  destruct (PoetFacts.render_lines_fill Hbelow templates st1) as (poem & st2 & Hpoem & Hall).
  { apply forallb_forall. intros t Ht%list_elem_of_In%Hin%list_elem_of_In.
    revert t Ht. apply forallb_forall, PoetFacts.templates_well_formed. }
  exists templates, poem. rewrite Hsample, Hpoem.
  split; [reflexivity|]. split; [by rewrite <- (Forall2_length _ _ _ Hall)|].
  split; [|by split].
  destruct (submseteq_Permutation _ _ Hsub) as [others Hothers].
  pose proof PoetFacts.templates_distinct as Hdistinct. rewrite Hothers in Hdistinct.
  by apply NoDup_app in Hdistinct as [? _].
Qed.

Lemma a_poem_of_five_lines :
  exists templates poem,
    @PocketPoet.main Lcg.generator (Some 42) 5 0 = inr poem
    /\ length poem = 5%nat
    /\ NoDup templates
    /\ templates ⊆ PocketPoet._LINE_TEMPLATES
    /\ Forall2 PoetFacts.fills templates poem.
Proof.
  apply (@poem_fills_distinct_templates Lcg.generator (Some 42) 5 0).
  intros st n Hn. cbn.
  pose proof (Z.mod_pos_bound (Lcg.step st) (Z.of_nat n)). lia.
Defined.

(** * The activity heatmap *)

Module Heatmap.
Import Py Calendar CalendarFacts CommitYourDay.

Definition HEATMAP_WEEKS : nat := 15.

(** [d + timedelta(days=1)]: the day after, [None] (an [OverflowError])
    after [date.max]. *)
Definition day_after (d : date) : option date :=
  if day d <? days_in_month (year d) (month d) then
    Some {| year := year d; month := month d; day := day d + 1 |}
  else if month d <? 12 then Some {| year := year d; month := month d + 1; day := 1 |}
  else if year d <? 9999 then Some {| year := year d + 1; month := 1; day := 1 |}
  else None.

(** [d + timedelta(days=n)] *)
Fixpoint plus_days (n : nat) (d : date) : option date :=
  match n with
  | O => Some d
  | S n' =>
      match day_after d with
      | Some y => plus_days n' y
      | None => None
      end
  end.

(** [a > b] on dates *)
Definition date_gt (a b : date) : bool :=
  match date_cmp a b with Gt => true | _ => false end.

(** [calendar.month_abbr[m]], in the C locale *)
Definition month_abbr (m : Z) : string :=
  match m with
  | 1 => "Jan" | 2 => "Feb" | 3 => "Mar" | 4 => "Apr" | 5 => "May" | 6 => "Jun"
  | 7 => "Jul" | 8 => "Aug" | 9 => "Sep" | 10 => "Oct" | 11 => "Nov" | 12 => "Dec"
  | _ => ""
  end.

(** [grid[r][k] = v] *)
Definition set_cell (grid : list (list Z)) (r k : nat) (v : Z) : exn + list (list Z) :=
  match grid !! r with
  | None => inl (Error IndexError)
  | Some row =>
      if (k <? length row)%nat then inr (<[r := <[k := v]> row]> grid)
      else inl (Error IndexError)
  end.

(** [month_labels[k] = v] *)
Definition set_label (month_labels : list string) (k : nat) (v : string)
    : exn + list string :=
  if (k <? length month_labels)%nat then inr (<[k := v]> month_labels)
  else inl (Error IndexError).

(** [grid[r][k]] *)
Definition cell (grid : list (list Z)) (r k : nat) : option Z :=
  match grid !! r with
  | Some row => row !! k
  | None => None
  end.

(** A [for] loop over indices, its variables in [s]. *)
Fixpoint for_range {S} (body : nat -> S -> exn + S) (indices : list nat) (s : S)
    : exn + S :=
  match indices with
  | [] => inr s
  | i :: rest =>
      match body i s with
      | inl e => inl e
      | inr s' => for_range body rest s'
      end
  end.

(** The body of the loop over [day_offset]. *)
Definition fill_cell (today week_monday : date) (week_idx : nat)
    (date_counts : list (string * Z)) (day_offset : nat) (grid : list (list Z))
    : exn + list (list Z) :=
  match plus_days day_offset week_monday with
  | None => inl (Error OverflowError)
  | Some cell_date =>
      if date_gt cell_date today then set_cell grid day_offset week_idx (-1)
      else
        set_cell grid day_offset week_idx
          (default 0 (Tallies.item (isoformat cell_date) date_counts))
  end.

(** The body of the loop over [week_idx]; the loop's variables are the
    grid, the labels and [prev_month]. *)
Definition fill_week (today start_monday : date) (date_counts : list (string * Z))
    (week_idx : nat) (s : list (list Z) * list string * Z)
    : exn + (list (list Z) * list string * Z) :=
  let '(grid, month_labels, prev_month) := s in
  match plus_days (7 * week_idx) start_monday with
  | None => inl (Error OverflowError)
  | Some week_monday =>
      match
        (if month week_monday =? prev_month then inr (month_labels, prev_month)
         else
           match set_label month_labels week_idx (month_abbr (month week_monday)) with
           | inl e => inl e
           | inr labels' => inr (labels', month week_monday)
           end)
      with
      | inl e => inl e
      | inr (month_labels', prev_month') =>
          match for_range (fill_cell today week_monday week_idx date_counts)
                  (seq 0 Weeks.WEEK_DAYS) grid with
          | inl e => inl e
          | inr grid' => inr (grid', month_labels', prev_month')
          end
      end
  end.

(** Build a 7-row x HEATMAP_WEEKS-column grid of daily commit counts.
    Returns (grid, month_labels, start_date). *)
Definition _build_heatmap_grid (commits : list LifeCommit)
    : M (list (list Z) * list string * date) :=
  today <- date_today ;;
  current_monday <- Weeks.sub_days today (Z.to_nat (Weeks.weekday today)) ;;
  start_monday <- Weeks.sub_days current_monday (7 * (HEATMAP_WEEKS - 1)) ;;
  let date_counts :=
    map (fun kv => (kv.1, Z.of_nat (length kv.2))) (_commits_by_date commits) in
  let grid := replicate Weeks.WEEK_DAYS (replicate HEATMAP_WEEKS 0) in
  let month_labels := replicate HEATMAP_WEEKS EmptyString in
  r <- lift (for_range (fill_week today start_monday date_counts) (seq 0 HEATMAP_WEEKS)
               (grid, month_labels, -1)) ;;
  ret (r.1.1, r.1.2, start_monday).

End Heatmap.

Module HeatmapFacts.
Import Py Calendar CalendarFacts IsoText CommitYourDay Heatmap.

#[local] Arguments isoformat : simpl never.
#[local] Arguments toordinal : simpl never.

Definition date_max : date := {| year := 9999; month := 12; day := 31 |}.

Lemma day_after_spec d :
  valid_date d = true ->
  match day_after d with
  | Some y => valid_date y = true /\ toordinal y = toordinal d + 1
  | None => d = date_max
  end.
Proof.
  intros Hd. pose proof (valid_date_bounds d Hd) as (Hy & Hm & Hday).
  destruct d as [y m dd]; cbn in *. unfold day_after; cbn.
  destruct (Z.ltb_spec dd (days_in_month y m)).
  - split; [apply valid_date_intro; cbn; lia|]. unfold toordinal; cbn. lia.
  - destruct (Z.ltb_spec m 12).
    + pose proof (days_in_month_pos y (m + 1)).
      pose proof (days_before_month_succ y m ltac:(lia)) as Hs.
      split; [apply valid_date_intro; cbn; lia|]. unfold toordinal; cbn. lia.
    + assert (m = 12) as -> by lia.
      pose proof (days_before_month_last y) as Hl.
      pose proof (days_before_year_succ y) as Hs.
      assert (days_in_month y 12 = 31) as E by reflexivity. rewrite E in *.
      destruct (Z.ltb_spec y 9999).
      * split; [apply valid_date_intro; cbn; lia|]. unfold toordinal; cbn.
        change (days_before_month (y + 1) 1) with 0. lia.
      * unfold date_max. f_equal; lia.
Qed.

Lemma plus_days_spec n : forall d,
  valid_date d = true ->
  match plus_days n d with
  | Some y => valid_date y = true /\ toordinal y = toordinal d + Z.of_nat n
  | None => toordinal date_max < toordinal d + Z.of_nat n
  end.
Proof.
  induction n as [|n IH]; intros d Hd; cbn [plus_days].
  - split; [done|lia].
  - pose proof (day_after_spec d Hd) as Ha.
    destruct (day_after d) as [y|].
    + destruct Ha as [Hy Hord]. specialize (IH y Hy).
      destruct (plus_days n y) as [z|]; [|lia].
      destruct IH as [Hz Hzo]. split; [done|lia].
    + rewrite Ha. lia.
Qed.

Lemma date_gt_spec a b :
  valid_date a = true -> valid_date b = true ->
  date_gt a b = (toordinal b <? toordinal a).
Proof.
  intros Ha Hb. unfold date_gt. rewrite <- (toordinal_cmp a b) by done.
  destruct (Z.compare_spec (toordinal a) (toordinal b)), (Z.ltb_spec (toordinal b) (toordinal a));
    first [reflexivity | lia].
Qed.

(** The counts by date. *)
Lemma date_counts_get key commits :
  default 0 (Tallies.item key
               (map (fun kv => (kv.1, Z.of_nat (length kv.2))) (_commits_by_date commits)))
  = Z.of_nat (length (filter (fun c => commit_date c = key) commits)).
Proof.
  destruct (Tallies.commits_by_date_grouped commits) as [_ Hitem]. specialize (Hitem key).
  unfold Tallies.dated in Hitem.
  assert (forall g : list (string * list LifeCommit),
             Tallies.item key (map (fun kv => (kv.1, Z.of_nat (length kv.2))) g)
             = (fun cs => Z.of_nat (length cs)) <$> Tallies.item key g) as ->.
  { induction g as [|[k v] g IH]; [done|]. cbn. by destruct (String.eqb key k). }
  rewrite Hitem. by destruct (filter _ commits).
Qed.

(** The shape of the grid. *)
Definition shaped (grid : list (list Z)) : Prop :=
  length grid = 7%nat /\ Forall (fun row => length row = 15%nat) grid.

Lemma set_cell_spec grid r k v :
  shaped grid -> (r < 7)%nat -> (k < 15)%nat ->
  exists grid',
    set_cell grid r k v = inr grid' /\ shaped grid'
    /\ forall r' k', cell grid' r' k'
                     = if decide (r' = r /\ k' = k) then Some v else cell grid r' k'.
Proof.
  intros [Hrows Hcols] Hr Hk.
  destruct (lookup_lt_is_Some_2 grid r) as [row Hrow]; [lia|].
  pose proof (Forall_lookup_1 _ _ _ _ Hcols Hrow) as Hlen. cbn in Hlen.
  exists (<[r := <[k := v]> row]> grid). split; [|split].
  - unfold set_cell. rewrite Hrow, Hlen. by destruct (Nat.ltb_spec k 15); [|lia].
  - split; [by rewrite length_insert|].
    apply Forall_insert; [done|]. by rewrite length_insert.
  - intros r' k'. unfold cell. destruct (decide (r' = r)) as [->|Hne].
    + rewrite list_lookup_insert_eq by lia. rewrite Hrow.
      destruct (decide (k' = k)) as [->|Hnk].
      * rewrite list_lookup_insert_eq by lia. by rewrite decide_True.
      * rewrite list_lookup_insert_ne by done. by rewrite decide_False by tauto.
    + rewrite list_lookup_insert_ne by done. by rewrite decide_False by tauto.
Qed.

Section Week.
Variables (today week_monday : date) (k : nat) (date_counts : list (string * Z)).
Variable value : nat -> Z.
Hypothesis Hk : (k < 15)%nat.
Hypothesis Hvalue : forall r, (r < 7)%nat ->
  exists cell_date,
    plus_days r week_monday = Some cell_date
    /\ value r = if date_gt cell_date today then -1
                 else default 0 (Tallies.item (isoformat cell_date) date_counts).

Lemma fill_cells n : forall a grid,
  (a + n <= 7)%nat -> shaped grid ->
  exists grid',
    for_range (fill_cell today week_monday k date_counts) (seq a n) grid = inr grid'
    /\ shaped grid'
    /\ forall r' k', cell grid' r' k'
                     = if decide (k' = k /\ (a <= r' < a + n)%nat) then Some (value r')
                       else cell grid r' k'.
Proof.
  induction n as [|n IH]; intros a grid Ha Hshape.
  - exists grid. split; [reflexivity|]. split; [done|].
    intros r' k'. by rewrite decide_False by lia.
  - destruct (Hvalue a) as (cell_date & Hdate & Hval); [lia|].
    destruct (set_cell_spec grid a k (value a) Hshape) as (grid1 & Hset & Hshape1 & Hcell1);
      [lia|done|].
    destruct (IH (S a) grid1) as (grid' & Hrun & Hshape' & Hcell'); [lia|done|].
    exists grid'. split; [|split; [done|]].
    + cbn [seq for_range]. unfold fill_cell at 1. rewrite Hdate.
      assert ((if date_gt cell_date today then set_cell grid a k (-1)
               else set_cell grid a k
                      (default 0 (Tallies.item (isoformat cell_date) date_counts)))
              = set_cell grid a k (value a)) as ->
        by (rewrite Hval; by destruct (date_gt cell_date today)).
      by rewrite Hset.
    + intros r' k'. rewrite Hcell', Hcell1.
      destruct (decide (k' = k)) as [->|Hne].
      * destruct (decide (r' = a)) as [->|Hra].
        -- rewrite decide_False by lia. rewrite decide_True by done.
           by rewrite decide_True by lia.
        -- destruct (decide (S a <= r' < S a + n)%nat).
           ++ rewrite decide_True by lia. by rewrite decide_True by lia.
           ++ rewrite decide_False by lia. rewrite decide_False by tauto.
              by rewrite decide_False by lia.
      * rewrite decide_False by tauto. rewrite decide_False by tauto.
        by rewrite decide_False by tauto.
Qed.

End Week.

Section Weeks.
Variables (today start_monday : date) (date_counts : list (string * Z)).
Variable monday : nat -> date.
Variable value : nat -> nat -> Z.
Hypothesis Hmonday : forall k, (k < 15)%nat -> plus_days (7 * k) start_monday = Some (monday k).
Hypothesis Hvalue : forall k r, (k < 15)%nat -> (r < 7)%nat ->
  exists cell_date,
    plus_days r (monday k) = Some cell_date
    /\ value k r = if date_gt cell_date today then -1
                   else default 0 (Tallies.item (isoformat cell_date) date_counts).

(** [prev_month] when week [k] begins. *)
Definition prev_month_at (k : nat) : Z :=
  match k with
  | O => -1
  | S k' => month (monday k')
  end.

Definition label_at (k : nat) : string :=
  if month (monday k) =? prev_month_at k then EmptyString
  else month_abbr (month (monday k)).

Lemma fill_weeks n : forall a grid month_labels,
  (a + n <= 15)%nat -> shaped grid -> length month_labels = 15%nat ->
  (forall k', (a <= k')%nat -> month_labels !! k' = Some EmptyString \/ (15 <= k')%nat) ->
  exists grid' labels',
    for_range (fill_week today start_monday date_counts) (seq a n)
      (grid, month_labels, prev_month_at a)
    = inr (grid', labels', prev_month_at (a + n))
    /\ shaped grid' /\ length labels' = 15%nat
    /\ (forall r' k', cell grid' r' k'
                      = if decide ((a <= k' < a + n)%nat /\ (r' < 7)%nat)
                        then Some (value k' r') else cell grid r' k')
    /\ (forall k', labels' !! k'
                   = if decide (a <= k' < a + n)%nat then Some (label_at k')
                     else month_labels !! k').
Proof.
  induction n as [|n IH]; intros a grid month_labels Ha Hshape Hlen Hblank.
  - exists grid, month_labels. rewrite Nat.add_0_r. split; [reflexivity|].
    split; [done|]. split; [done|]. split.
    + intros r' k'. by rewrite decide_False by lia.
    + intros k'. by rewrite decide_False by lia.
  - destruct (fill_cells today (monday a) a date_counts (value a) ltac:(lia)
                (fun r Hr => Hvalue a r ltac:(lia) Hr) 7 0%nat grid)
      as (grid1 & Hdays & Hshape1 & Hcell1); [lia|done|].
    set (labels1 := if month (monday a) =? prev_month_at a then month_labels
                    else <[a := month_abbr (month (monday a))]> month_labels).
    assert (length labels1 = 15%nat) as Hlen1.
    { unfold labels1. destruct (_ =? _); [done|]. by rewrite length_insert. }
    destruct (IH (S a) grid1 labels1) as (grid' & labels' & Hrun & Hshape' & Hlen' & Hcell' & Hlab');
      [lia|done|done| |].
    { intros k' Hk'. destruct (Hblank k') as [Hb|]; [lia| |by right]. left.
      unfold labels1. destruct (_ =? _); [done|].
      by rewrite list_lookup_insert_ne by lia. }
    exists grid', labels'. split; [|split; [done|split; [done|split]]].
    + cbn [seq for_range]. unfold fill_week at 1. rewrite (Hmonday a) by lia.
      unfold set_label. rewrite Hlen. destruct (Nat.ltb_spec a 15); [|lia].
      change Weeks.WEEK_DAYS with 7%nat. 
      replace (a + S n)%nat with (S a + n)%nat by lia.
      destruct (Z.eqb_spec (month (monday a)) (prev_month_at a)) as [Heq|Hne].
      * rewrite Hdays. rewrite <- Hrun. unfold labels1.
        destruct (Z.eqb_spec (month (monday a)) (prev_month_at a)); [|done].
        cbn [prev_month_at]. by rewrite Heq.
      * rewrite Hdays. rewrite <- Hrun. unfold labels1.
        by destruct (Z.eqb_spec (month (monday a)) (prev_month_at a)).
    + intros r' k'. rewrite Hcell', Hcell1.
      destruct (decide (k' = a)) as [->|Hne].
      * rewrite decide_False by lia.
        destruct (decide (r' < 7)%nat).
        -- rewrite decide_True by lia. by rewrite decide_True by lia.
        -- rewrite decide_False by lia. rewrite decide_False by lia.
           done.
      * destruct (decide ((S a <= k' < S a + n)%nat /\ (r' < 7)%nat)).
        -- by rewrite decide_True by lia.
        -- rewrite decide_False by lia. by rewrite decide_False by lia.
    + intros k'. rewrite Hlab'.
      destruct (decide (k' = a)) as [->|Hne].
      * rewrite decide_False by lia. rewrite decide_True by lia.
        unfold labels1, label_at. destruct (_ =? _).
        -- destruct (Hblank a) as [Hb|]; [lia|done|lia].
        -- by rewrite list_lookup_insert_eq by lia.
      * destruct (decide (S a <= k' < S a + n)%nat).
        -- by rewrite decide_True by lia.
        -- rewrite decide_False by lia. unfold labels1. destruct (_ =? _); [done|].
           by rewrite list_lookup_insert_ne by done.
Qed.

End Weeks.

End HeatmapFacts.

(** X21: the heatmap grid, on a day from the sixteenth week of the
    calendar on and a week before its end at the latest.  The grid has 7
    rows of 15 cells and there are 15 labels; column [k] is the week of the
    Monday [7 * (14 - k)] days before this week's Monday, and the Monday
    returned is that of column 0.  The cell of row [r] and column [k]
    stands for the day [r] days after that Monday: it holds -1 when the
    day is after today, and otherwise the number of commits whose date is
    the ISO text of the day.  A column is labelled with the month of its
    Monday when it is the first column or the month differs from that of
    the Monday before, and with the empty text otherwise. *)
Theorem heatmap_grid_counts_days (commits : list CommitYourDay.LifeCommit) (w : Py.World) :
  let T := Calendar.toordinal (Py.today (Py.env w)) in
  let M := T - Weeks.weekday (Py.today (Py.env w)) in
  Calendar.valid_date (Py.today (Py.env w)) = true ->
  105 <= T ->
  T + 6 <= 3652059 ->
  exists grid month_labels mondays start,
    Heatmap._build_heatmap_grid commits w = (Py.Ok (grid, month_labels, start), w)
    /\ length grid = 7%nat
    /\ Forall (fun row => length row = 15%nat) grid
    /\ length month_labels = 15%nat
    /\ length mondays = 15%nat
    /\ mondays !! 0%nat = Some start
    /\ (forall k d, mondays !! k = Some d ->
          Calendar.valid_date d = true
          /\ Calendar.toordinal d = M - 98 + 7 * Z.of_nat k)
    /\ (forall r k, (r < 7)%nat -> (k < 15)%nat ->
          exists d,
            Calendar.valid_date d = true
            /\ Calendar.toordinal d = M - 98 + 7 * Z.of_nat k + Z.of_nat r
            /\ Heatmap.cell grid r k
               = Some (if T <? Calendar.toordinal d then -1
                       else Z.of_nat
                              (length (filter (fun c => CommitYourDay.commit_date c
                                                        = Calendar.isoformat d) commits))))
    /\ (forall k d, mondays !! k = Some d ->
          month_labels !! k
          = Some match k with
                 | O => Heatmap.month_abbr (Calendar.month d)
                 | S k' =>
                     match mondays !! k' with
                     | Some before =>
                         if Calendar.month d =? Calendar.month before then EmptyString
                         else Heatmap.month_abbr (Calendar.month d)
                     | None => EmptyString
                     end
                 end).
Proof.
  intros T M Htoday Hlate Hearly.
  assert (Calendar.toordinal HeatmapFacts.date_max = 3652059) as Hmax by reflexivity.
  assert (0 <= Weeks.weekday (Py.today (Py.env w)) < 7) as Hday.
  { unfold Weeks.weekday. apply Z.mod_pos_bound. lia. }
  assert (T - 6 <= M <= T) as HM by (unfold M; lia).
  pose proof (WeekFacts.minus_days_spec
                (Z.to_nat (Weeks.weekday (Py.today (Py.env w)))) _ Htoday) as Hthis.
  destruct (Weeks.minus_days _ (Py.today (Py.env w))) as [current_monday|] eqn:Ecurrent;
    [|fold T in Hthis; lia].
  destruct Hthis as [Hvalid_current Hord_current]. fold T in Hord_current.
  rewrite Z2Nat.id in Hord_current by lia. fold M in Hord_current. clearbody M.
  pose proof (WeekFacts.minus_days_spec (7 * (Heatmap.HEATMAP_WEEKS - 1)) _ Hvalid_current)
    as Hstart.
  change (7 * (Heatmap.HEATMAP_WEEKS - 1))%nat with 98%nat in *.
  destruct (Weeks.minus_days 98 current_monday) as [start|] eqn:Estart; [|lia].
  destruct Hstart as [Hvalid_start Hord_start]. rewrite Hord_current in Hord_start.
  set (monday := fun k : nat => default start (Heatmap.plus_days (7 * k) start)).
  assert (forall k, (k < 15)%nat ->
             Heatmap.plus_days (7 * k) start = Some (monday k)
             /\ Calendar.valid_date (monday k) = true
             /\ Calendar.toordinal (monday k) = M - 98 + 7 * Z.of_nat k) as Hmonday.
  { intros k Hk. unfold monday.
    pose proof (HeatmapFacts.plus_days_spec (7 * k) start Hvalid_start) as Hp.
    destruct (Heatmap.plus_days (7 * k) start) as [d|]; [|lia].
    destruct Hp as [Hd Hord]. change (default start (Some d)) with d.
    split; [done|]. split; [done|]. lia. }
  set (date_counts :=
         map (fun kv : string * list CommitYourDay.LifeCommit =>
                (kv.1, Z.of_nat (length kv.2)))
           (CommitYourDay._commits_by_date commits)).
  set (value := fun k r : nat =>
         match Heatmap.plus_days r (monday k) with
         | Some cell_date =>
             if Heatmap.date_gt cell_date (Py.today (Py.env w)) then -1
             else default 0 (Tallies.item (Calendar.isoformat cell_date) date_counts)
         | None => 0
         end).
  assert (forall k r, (k < 15)%nat -> (r < 7)%nat ->
             exists d,
               Heatmap.plus_days r (monday k) = Some d
               /\ Calendar.valid_date d = true
               /\ Calendar.toordinal d = M - 98 + 7 * Z.of_nat k + Z.of_nat r) as Hcell_date.
  { intros k r Hk Hr. destruct (Hmonday k Hk) as (_ & Hd & Hord).
    pose proof (HeatmapFacts.plus_days_spec r (monday k) Hd) as Hp.
    destruct (Heatmap.plus_days r (monday k)) as [d|]; [|lia].
    destruct Hp as [Hvalid Hordd]. exists d. split; [done|]. split; [done|]. lia. }
  destruct (HeatmapFacts.fill_weeks (Py.today (Py.env w)) start date_counts monday value
              (fun k Hk => proj1 (Hmonday k Hk))) with
    (n := 15%nat) (a := 0%nat)
    (grid := replicate 7 (replicate 15 0))
    (month_labels := replicate 15 EmptyString)
    as (grid & labels & Hrun & [Hrows Hcols] & Hlen & Hcells & Hlabels).
  { intros k r Hk Hr. destruct (Hcell_date k r Hk Hr) as (d & Hd & _).
    exists d. split; [done|]. unfold value. by rewrite Hd. }
  { lia. }
  { split; [apply length_replicate|]. apply Forall_replicate, length_replicate. }
  { apply length_replicate. }
  { intros k' _. destruct (decide (k' < 15)%nat); [left|right; lia].
    by apply lookup_replicate_2. }
  exists grid, labels, (map monday (seq 0 15)), start.
  assert (forall k d, map monday (seq 0 15) !! k = Some d -> (k < 15)%nat /\ d = monday k)
    as Hmondays.
  { intros k d Hk. rewrite list_lookup_fmap in Hk.
    destruct (seq 0 15 !! k) as [i|] eqn:Hi; [|discriminate].
    apply lookup_seq in Hi as [-> ?]. by injection Hk as <-. }
  split; [|split; [done|split; [done|split; [done|split; [reflexivity|split; [|split; [|split]]]]]]].
  - unfold Heatmap._build_heatmap_grid, Py.date_today. unfold Py.bind at 1.
    unfold Weeks.sub_days at 1. rewrite Ecurrent. unfold Py.bind at 1, Py.ret at 1.
    change (7 * (Heatmap.HEATMAP_WEEKS - 1))%nat with 98%nat.
    unfold Weeks.sub_days at 1. rewrite Estart. unfold Py.bind at 1, Py.ret at 1.
    cbv zeta. fold date_counts.
    change Weeks.WEEK_DAYS with 7%nat. change Heatmap.HEATMAP_WEEKS with 15%nat.
    change (-1) with (HeatmapFacts.prev_month_at monday 0).
    unfold Py.bind, Py.lift. rewrite Hrun. reflexivity.
  - cbn. unfold monday. reflexivity.
  - intros k d Hk. apply Hmondays in Hk as [Hk ->].
    by destruct (Hmonday k Hk) as (_ & ? & ?).
  - intros r k Hr Hk. destruct (Hcell_date k r Hk Hr) as (d & Hd & Hvalid & Hord).
    exists d. split; [done|]. split; [done|].
    rewrite Hcells. rewrite decide_True by lia. f_equal.
    unfold value. rewrite Hd. rewrite HeatmapFacts.date_gt_spec by done. fold T.
    destruct (T <? Calendar.toordinal d); [done|].
    apply HeatmapFacts.date_counts_get.
  - intros k d Hk. apply Hmondays in Hk as [Hk ->].
    rewrite Hlabels. rewrite decide_True by lia. f_equal.
    unfold HeatmapFacts.label_at. destruct k as [|k'].
    + cbn [HeatmapFacts.prev_month_at].
      destruct (Hmonday 0%nat Hk) as (_ & Hd & _).
      pose proof (CalendarFacts.valid_date_bounds _ Hd) as (_ & Hm & _).
      by destruct (Z.eqb_spec (Calendar.month (monday 0%nat)) (-1)); [lia|].
    + cbn [HeatmapFacts.prev_month_at].
      rewrite list_lookup_fmap. rewrite lookup_seq_lt by lia. reflexivity.
Qed.

Lemma heatmap_on_saturday :
  exists grid month_labels start,
    Heatmap._build_heatmap_grid
      [StreakExamples.dated "2024-06-10"; StreakExamples.dated "2024-06-15";
       StreakExamples.dated "2024-06-15"; StreakExamples.dated "2024-03-04"]
      StreakExamples.saturday
    = (Py.Ok (grid, month_labels, start), StreakExamples.saturday)
    /\ start = {| Calendar.year := 2024; Calendar.month := 3; Calendar.day := 4 |}
    /\ Heatmap.cell grid 0 0 = Some 1
    /\ Heatmap.cell grid 0 14 = Some 1
    /\ Heatmap.cell grid 5 14 = Some 2
    /\ Heatmap.cell grid 6 14 = Some (-1)
    /\ month_labels
       = ["Mar"; ""; ""; ""; "Apr"; ""; ""; ""; ""; "May"; ""; ""; ""; "Jun"; ""].
Proof.
  destruct (heatmap_grid_counts_days
              [StreakExamples.dated "2024-06-10"; StreakExamples.dated "2024-06-15";
               StreakExamples.dated "2024-06-15"; StreakExamples.dated "2024-03-04"]
              StreakExamples.saturday)
    as (grid & month_labels & mondays & start & E & _).
  - reflexivity.
  - by vm_compute.
  - by vm_compute.
  - exists grid, month_labels, start. split; [exact E|].
    vm_compute in E. injection E as <- <- <-. by vm_compute.
Defined.
